(* ===== verification/_CoqProject ===== *)
-Q . S2P
Prelude.v
Types.v
Wire.v
Compression.v
Crc.v
Envelope.v
Frame.v
FrameStream.v
Query.v
Events.v
Requests.v
ErrorMsg.v
Results.v
Responses.v
EnvelopeParser.v
Transport.v
Writer.v
Reader.v
Connection.v
Retry.v
Token.v
Topology.v
Manager.v
LoadBalancing.v
Scalars.v
Floats.v
RustTypes.v
CassandraTypes.v
Statements.v
Session.v
Keys.v
Speculation.v
Dispatch.v
Startup.v
Pool.v
SystemTables.v
Control.v
Connectors.v
SessionBuilder.v
Derive.v
