(* ===== verification/Prelude.v ===== *)
(** * cdrs-tokio: a verification library

    cdrs-tokio is an asynchronous Cassandra driver in three crates:
    [cassandra-protocol], the native protocol (versions 3 to 5) as pure
    serializers and parsers; [cdrs-tokio], which runs that protocol over
    sockets: it multiplexes requests on a connection, reads and dispatches
    responses, chooses nodes and retries; and [cdrs-tokio-helpers-derive],
    macros that generate conversions for structs.  This library models the
    protocol crate's wire format in full, with the conversions of column
    values, the macros with the code they generate, and of the driver the
    transport, the connections and their pools, the control connection, the
    cluster metadata, load balancing, what a session sends and how it is
    built; it proves that what one end writes the other end reads, for every
    cut of the byte stream, and that every request goes where it should and
    gets the answer meant for it.

    ** How the program fits together, and where it is modelled

    Paths are relative to [cassandra-protocol/src] (P), [cdrs-tokio/src] (T)
    and [cdrs-tokio-helpers-derive/src] (D).

    - [Prelude] (this file): bytes, big- and little-endian integers at their
      width, UTF-8, list and option lemmas, the hint databases [cdrs_wf] and
      [cdrs_len] and the tactics [case_goal], [case_in] and [zsolve].
    - [Types]: [outcome] (a Rust result: [Ok], [Err] or a panic) with the [?]
      operator as [let?]; enums and structs shared by all layers
      (P/frame.rs, P/consistency.rs, P/error.rs, P/frame/message_error.rs).
    - [Wire] (P/types.rs, P/frame/traits.rs): cursors, integers, strings,
      [CBytes], addresses.  A parser of type [R A] consumes a prefix of the
      unread bytes; the class [RoundTrip] is the contract between a parser and
      the serializer of the same type, and every body below has an instance.
      Module [CursorImpl] has the cursor as the source has it, a buffer with a
      position; [cursor_refinement] relates the two.
    - [Compression] (P/compression.rs), [Crc] (P/crc.rs).
    - [Envelope] (P/frame.rs): header, flags, [from_buffer],
      [check_envelope_size], [encode_with].
    - [Frame] (P/frame/frame_encoder.rs and the frame parsers of
      P/frame/frame_decoder.rs): the class [FrameEncoder] is the trait, with
      three instances; [EncoderLaws] is what a v5 codec promises.
    - [FrameStream] (P/frame/frame_decoder.rs, T/frame_encoding.rs): the
      buffering decoders; their specification is the relation [parses] and the
      function [handle_frames] on the frames of the whole input.
    - [Query] (P/consistency.rs, P/types/value.rs, P/query), [Events]
      (P/frame/events.rs, P/frame/message_event.rs), [Requests]
      (P/frame/message_*.rs and P/query/batch_query_builder.rs), [ErrorMsg]
      (P/frame/message_error.rs), [Results] (P/frame/message_result.rs),
      [Responses] (P/frame/message_response.rs, P/types/rows.rs): the bodies
      of all messages, with builders and row lookups.
    - [EnvelopeParser] (T/envelope_parser.rs): the second envelope parser,
      over an asynchronous stream.
    - [Transport] (T/transport.rs, [ResponseHandlerMap]): stream ids and
      handlers; [step] and [run] are the interleavings of the writer and the
      reader, which share the map under its lock.
    - [Writer] (T/transport.rs, [start_writing]) and [Reader]
      (T/transport.rs, [start_reading_*], [start_processing];
      T/cluster/keyspace_holder.rs): the two tasks of a connection.  The
      writer is proved against the classes [WriterEncoder] (discharged by the
      instances of [Frame]) and [ReliableWrite].  [Connection] (the same
      file, [AsyncTransport]): requesters, writer and reader together, as a
      step function over their interleavings, which refines [Transport].
    - [Retry] (T/retry, T/cluster/send_envelope.rs,
      T/speculative_execution.rs): retry sessions, the loop over a query plan,
      reconnection schedules.
    - [Token] (P/token.rs), [Topology] (T/cluster/topology, T/cluster/token_map.rs,
      T/cluster/metadata_builder.rs): nodes, whose state is a cell shared by
      all metadata that mention them ([Heap]), the token ring, the metadata
      and the ways it is rebuilt; [Manager]
      (T/cluster/cluster_metadata_manager.rs): the handlers of server events;
      [SystemTables] (the same file): the queries of the system tables and the
      reading of their rows, which give [Manager] its answers.
    - [LoadBalancing] (T/load_balancing): the class [LoadBalancingStrategy] is
      the trait; [ServingStrategy] is what a strategy promises the session.
    - [Scalars] (P/types/data_serialization_types.rs, decimal.rs,
      duration.rs): the decoders of column values; [Floats]
      (P/types/decimal.rs): floats into decimals, in IEEE 754 arithmetic;
      [RustTypes] (P/macros.rs,
      P/types): the conversions of columns into Rust types, a rule of a macro
      being a definition that takes the conversion of the item type, with the
      class [Converts] as the contract between a conversion and an encoding;
      [CassandraTypes] (P/types/cassandra_type.rs): the conversion of any
      column into one enum.
    - [Statements] (T/statement, parts of T/cluster/session.rs,
      P/query/prepared_query.rs): parameters, routing keys; [Session]
      (T/cluster/session.rs, T/cluster/pager.rs): what each operation of a
      session and of a pager sends; [Keys] (P/query/prepared_query.rs,
      P/types/tuple.rs): the equality, order and hash of prepared statements
      and tuples, with the class [TotalOrder]; [Speculation] ([Session::send_envelope]):
      one request with its speculative executions, as a step function; the
      sections [Speculation] and [Routing] join it to [LoadBalancing], and
      [Dispatch] (T/cluster/send_envelope.rs) runs it together with the
      connections of its nodes ([Connection]).
    - [Startup] (T/cluster/connection_manager.rs, P/authenticators.rs): the
      conversation that makes a connection ready; [Pool]
      (T/cluster/connection_pool.rs): a node's connections, and the monitor
      and reconnection tasks as a step function over their interleavings;
      [Control] (T/cluster/control_connection.rs): the task that keeps the
      metadata current and forwards events, as a step function over what it
      waits for; [Connectors] (T/cluster/tcp_connection_manager.rs,
      rustls_connection_manager.rs, T/transport.rs): the sockets [Startup]
      speaks on.
    - [SessionBuilder] (T/cluster/session.rs, T/cluster/config_*.rs,
      T/cluster/node_address.rs): configurations, their builders, and a build
      as what its caller sees after a run of [Control].
    - [Derive] (D/*.rs, P/types/from_cdrs.rs): a macro is a function from the
      fields of a struct to generated code, and the generated code is run with
      the conversions of [RustTypes].

    Modules named [...Samples] hold concrete inputs on which the theorems'
    hypotheses hold, evaluated by the kernel.

    ** What the theorems show

    - End to end: [requests_get_their_answers] (to the server and back),
      [v5_requests_delivered], [legacy_requests_delivered] (from the
      writer's channel to the decoder of the other side),
      [responses_delivered] (from the bytes to the handlers),
      [handshake_completes].
    - Round trips: of envelopes, frames, all request and response bodies, at
      the level of the wire, with and without compression; partial input asks
      for more ([envelope_prefix_waits]); two parsers of the same format agree
      ([stream_parser_agrees], [check_envelope_size_agrees]); chunking does
      not matter ([legacy_chunking_invariance], [v5_stream_round_trip]).
    - Corruption: [crc24_detects_burst], [frame_header_corruption_detected].
    - Concurrency: [requests_answered], [connection_refines_multiplexer] (of
      a whole connection), [handlers_answered_once], [response_reaches_requester],
      [reader_refines_connection], [stream_ids_cycle]; failures reach every
      waiting request ([failure_answers_everyone],
      [frame_write_failure_reported]).
    - A request and the connections it is written to: [request_over_connections].
    - Retries and executions: [default_retries_bounded],
      [exponential_delays_bounded], [executions_share_plan],
      [writes_reach_usable_nodes].
    - Cluster: [reported_node_read], [refresh_reads_cluster],
      [replication_read], [metadata_stays_consistent], [refresh_tracks_reports],
      [token_is_murmur3], [token_ring_walk]; plans: [network_plan_order],
      [replicas_rack_aware], [strategies_serve], [round_robin_fair].
    - Values: [converted_value_typed] and [value_round_trip] for columns of
      any type, [vec_round_trip], [hash_map_round_trip],
      [primitive_date_time_round_trip], [by_name_is_by_index],
      [udt_missing_fields_null]; keys of maps: [prepared_query_keys],
      [tuple_keys]; floats: [decimal_from_float_terminates],
      [decimal_from_float_least], [float_integers_exact]; [malformed_values_panic] and [null_items] say
      when reading panics; structs with derived traits: [derived_round_trip],
      [mirror_binds_columns].
    - Sessions: [build_outcome], [session_built], [rustls_builds_alike],
      [statement_builder_agrees], [routing_key_is_partition_key],
      [reprepared_at_most_once], [pages_in_order], [query_values_collects].
    - Connections: [startup_conversation], [startup_ends],
      [password_token_unambiguous], [opened_as_configured],
      [connection_round_robin], [one_reconnection], [reconnection_restores].
    - The control connection: [subscribed_after_refresh],
      [control_reconnects], [events_forwarded].
    - Where the code does something its authors cannot have meant, the
      behaviour is proved as it is: [large_envelope_dropped],
      [stream_id_reuse_drops], [short_result_panics],
      [now_in_seconds_lost_before_v5], [exhausted_plan_loses_errors],
      [joined_node_never_used], [refresh_forgets_unchanged_node],
      [lost_token_stays], [local_only_plan_repeats],
      [unreachable_nodes_panic], [explicit_routing_key_ignored],
      [vector_never_converts], [chrono_loses_early_timestamps],
      [sets_arrive_as_lists], [pool_creation] (its last case),
      [lost_reconnection], [stale_error_drops_connection],
      [panic_looks_healthy], [mirror_keeps_raw_prefix], [optional_time_is_a_struct],
      [float_decimal_changes_sign], [float_decimal_vanishes],
      [tiny_floats_vanish], [executed_statement_changes_key],
      [pager_drops_parameters], [rows_flags_from_bytes].

    ** Conventions

    A machine integer is a [Z] with its wrap-around written out; [usize] has
    64 bits and arithmetic is that of a release build.  Slice accesses out of
    range, failed assertions and [unwrap] on an error are [Panic];
    [debug_assert] is not compiled in and running out of memory is not
    modelled.  Error texts are kept as their format strings.  Bit flags are
    bits of a [Z].  A [HashMap] is a [gmap] together with [HashIter], any
    order its iteration may take.  Third-party crates are classes with the
    laws the driver relies on and executable instances: [Lz4Lib] (lz4_flex),
    [SnapLib] (snap), [Crc32Lib] (crc32fast), [UuidLib] (uuid), [Shuffle]
    (rand), [BigIntLib] (num-bigint), [VarIntLib] (integer-encoding),
    [ChronoLib], [TimeLib], [JsonLib] (serde_json), [FloatEqLib] (float_eq); [UnstableSort] is any sort of the standard
    library that need not be stable, [FailedRead] the position of a cursor
    after a failed read.  Floats are their bit patterns, and
    [spec_float] of the Standard Library where [Floats] computes with them.  A socket is
    the bytes it delivers, or the interface [AsyncWrite]; a channel is the
    sequence of batches it yields; a oneshot handler is a number with a
    recorded fate.

    Recursion that is not structural takes a bound.  [extract_loop],
    [consume_data] and [consume_buffered] start with one more than the bytes
    available and every round consumes at least one; [ColTypeOption_fuel] is one
    more than the number of unread bytes, and [col_type_parser_unfolds] shows that the
    result satisfies the source's recursive equation;
    [next_stream_id_fuel] is 2^15 + 1, the longest run of negative ids;
    [place_envelope] goes round at most twice, since the frame is empty after
    the first; the conversion of a column descends at most the depth of its
    type ([convert_unfold]); the search for a connection goes once round the
    pool; [write_pieces] takes at least one byte per round; the handshake
    loop is bounded by the length of the stream; [try_node] with the default
    policy needs 3 rounds per node; the authentication loop needs one more
    round than the server has challenges ([startup_ends]); reading a derived
    struct needs one more than the nesting of structs in the value, and
    [as_rust] starts with the depth of the type; a float is converted within 65
    turns ([LOOP_FUEL]).  In each case a
    lemma or theorem shows that the bound is never what ends the computation.

    Tasks that share state ([Transport], [Connection], [Speculation],
    [Dispatch], [Pool], [Control]) are step
    functions: an event is what one task does between two points where others
    can act, results from outside come with the events, and a run is any
    sequence of events.

    ** What is not modelled

    What a socket, a TLS session or a proxy does with what is asked of it;
    task spawning and timers (only their order); the boxing of policies into
    trait objects; the parsing of Rust by the
    compiler and what it refuses to compile; mocks and tests. *)

From stdpp Require Export base gmap list strings.
From Stdlib Require Export ZArith Lia.
From Stdlib Require Strings.Byte.

#[export] Set Default Proof Using "Type".

(** ** Bytes *)

Abbreviation byte := Byte.byte.
Abbreviation bytes := (list Byte.byte).

#[export] Instance byte_eq_dec : EqDecision byte := Byte.byte_eq_dec.

Lemma byte_of_to_N (b : byte) : Byte.of_N (Byte.to_N b) = Some b.
Proof. apply Byte.of_to_N. Qed.

#[export] Instance byte_countable : Countable byte :=
  inj_countable Byte.to_N Byte.of_N byte_of_to_N.

Declare Scope cdrs_scope.
Delimit Scope cdrs_scope with cdrs.

Local Open Scope Z_scope.

(** The unsigned value of a byte, and [z as u8]. *)
Definition b2z (b : byte) : Z := Z.of_N (Byte.to_N b).
Definition u8 (z : Z) : byte :=
  match Byte.of_N (Z.to_N (z mod 256)) with Some b => b | None => Byte.x00 end.

Lemma b2z_range b : 0 <= b2z b < 256.
Proof. unfold b2z. pose proof (Byte.to_N_bounded b). lia. Qed.

Lemma u8_b2z b : u8 (b2z b) = b.
Proof.
  unfold u8. rewrite Z.mod_small by apply b2z_range.
  unfold b2z. by rewrite N2Z.id, byte_of_to_N.
Qed.

Lemma b2z_u8 z : b2z (u8 z) = z mod 256.
Proof.
  unfold u8. pose proof (Z.mod_pos_bound z 256 ltac:(lia)) as Hz.
  destruct (Byte.of_N (Z.to_N (z mod 256))) as [b|] eqn:E.
  - apply Byte.to_of_N in E. unfold b2z. rewrite E. lia.
  - apply Byte.of_N_None_iff in E. lia.
Qed.

Lemma b2z_inj a b : b2z a = b2z b -> a = b.
Proof. intros H. by rewrite <- (u8_b2z a), H, u8_b2z. Qed.

Lemma u8_mod z : u8 (z mod 256) = u8 z.
Proof. apply b2z_inj. rewrite !b2z_u8. apply Z.mod_mod. lia. Qed.

(** A literal of the source, as its UTF-8 bytes. *)
Definition lit (s : string) : bytes := String.list_byte_of_string s.

(** ** Fixed-width integers

    A [w]-bit machine integer is a [Z]; [wrap w] is the unsigned reading
    of its low [w] bits and [swrap w] the two's-complement one.  They are
    the [as] casts of the source. *)
Definition wrap (w z : Z) : Z := z mod 2 ^ w.
Definition swrap (w z : Z) : Z := (z + 2 ^ (w - 1)) mod 2 ^ w - 2 ^ (w - 1).

Definition in_u (w z : Z) : Prop := 0 <= z < 2 ^ w.
Definition in_i (w z : Z) : Prop := - 2 ^ (w - 1) <= z < 2 ^ (w - 1).

#[export] Instance in_u_dec w z : Decision (in_u w z).
Proof. unfold in_u. apply _. Defined.
#[export] Instance in_i_dec w z : Decision (in_i w z).
Proof. unfold in_i. apply _. Defined.

Lemma pow2_pos w : 0 <= w -> 0 < 2 ^ w.
Proof. intros. by apply Z.pow_pos_nonneg. Qed.

Lemma pow2_half w : 0 < w -> 2 ^ w = 2 * 2 ^ (w - 1).
Proof. intros. rewrite <- Z.pow_succ_r by lia. f_equal. lia. Qed.

Lemma wrap_range w z : 0 <= w -> in_u w (wrap w z).
Proof. intros. apply Z.mod_pos_bound, pow2_pos; lia. Qed.

Lemma wrap_small w z : in_u w z -> wrap w z = z.
Proof. intros. by apply Z.mod_small. Qed.

Lemma swrap_range w z : 0 < w -> in_i w (swrap w z).
Proof.
  intros Hw. unfold swrap, in_i. pose proof (pow2_half w Hw).
  pose proof (Z.mod_pos_bound (z + 2 ^ (w - 1)) (2 ^ w) (pow2_pos w ltac:(lia))). lia.
Qed.

Lemma swrap_small w z : 0 < w -> in_i w z -> swrap w z = z.
Proof.
  unfold in_i, swrap. intros Hw Hz. pose proof (pow2_half w Hw).
  rewrite Z.mod_small; lia.
Qed.

Lemma swrap_wrap w z : 0 < w -> swrap w (wrap w z) = swrap w z.
Proof.
  intros Hw. unfold swrap, wrap. f_equal.
  rewrite Zplus_mod_idemp_l. done.
Qed.

(** [swrap] of a value that fits unsigned but not signed is negative. *)
Lemma swrap_high w z :
  0 < w -> 2 ^ (w - 1) <= z < 2 ^ w -> swrap w z = z - 2 ^ w.
Proof.
  intros Hw Hz. unfold swrap. pose proof (pow2_half w Hw).
  replace (z + 2 ^ (w - 1)) with (z - 2 ^ (w - 1) + 1 * 2 ^ w) by lia.
  rewrite Z.mod_add by lia. rewrite Z.mod_small; lia.
Qed.

(** ** Bits *)

Lemma in_u_testbit w z : 0 <= w -> in_u w z <-> 0 <= z /\ forall i, w <= i -> Z.testbit z i = false.
Proof.
  intros Hw. split.
  - intros [H0 H]. split; [done|]. intros i Hi.
    destruct (Z.eq_dec z 0) as [->|Hz]; [apply Z.bits_0|].
    apply Z.bits_above_log2; [done|]. apply Z.lt_le_trans with w; [|done].
    apply Z.log2_lt_pow2; lia.
  - intros [H0 H]. split; [done|].
    destruct (Z.eq_dec z 0) as [->|Hz]; [by apply pow2_pos|].
    apply Z.log2_lt_pow2; [lia|]. apply Z.nle_gt. intros Hl.
    specialize (H _ Hl). by rewrite Z.bit_log2 in H by lia.
Qed.

Lemma land_pow2 z i : 0 <= i -> (Z.land z (2 ^ i) =? 0) = negb (Z.testbit z i).
Proof.
  intros Hi. destruct (Z.testbit z i) eqn:E; simpl.
  - apply Z.eqb_neq. intros H. apply (f_equal (fun x => Z.testbit x i)) in H.
    rewrite Z.land_spec, E, Z.pow2_bits_true, Z.bits_0 in H by done. done.
  - apply Z.eqb_eq. apply Z.bits_inj'. intros n Hn.
    rewrite Z.land_spec, Z.bits_0, Z.pow2_bits_eqb by done.
    destruct (Z.eqb_spec i n) as [->|]; [by rewrite E|apply andb_false_r].
Qed.

(** Fields packed above and below bit [k] do not interact. *)
Lemma land_disjoint k hi lo : 0 <= k -> 0 <= lo < 2 ^ k -> Z.land (hi * 2 ^ k) lo = 0.
Proof.
  intros Hk Hlo. apply Z.bits_inj'. intros n Hn.
  rewrite Z.land_spec, Z.bits_0, <- Z.shiftl_mul_pow2 by done.
  destruct (Z.lt_ge_cases n k) as [H|H]; [by rewrite Z.shiftl_spec_low|].
  apply in_u_testbit in Hlo as [_ Hlo]; [|done]. rewrite Hlo by done. apply andb_false_r.
Qed.

Lemma lxor_disjoint k hi lo : 0 <= k -> 0 <= lo < 2 ^ k -> Z.lxor (hi * 2 ^ k) lo = hi * 2 ^ k + lo.
Proof. intros. symmetry. by apply Z.add_nocarry_lxor, land_disjoint. Qed.

Lemma lor_disjoint k hi lo : 0 <= k -> 0 <= lo < 2 ^ k -> Z.lor lo (Z.shiftl hi k) = lo + hi * 2 ^ k.
Proof.
  intros. rewrite Z.shiftl_mul_pow2, Z.lor_comm, <- Z.lxor_lor by (try apply land_disjoint; done).
  rewrite lxor_disjoint by done. lia.
Qed.

(** Masking a bit field of a value and of its two's-complement reading. *)
Lemma land_mask z k : 0 <= k -> Z.land z (2 ^ k - 1) = z mod 2 ^ k.
Proof. intros. rewrite <- Z.land_ones, Z.ones_equiv by done. done. Qed.

Lemma swrap_bits w a k z : 0 < w -> 0 <= a -> 0 <= k -> a + k <= w ->
  (swrap w z / 2 ^ a) mod 2 ^ k = (z / 2 ^ a) mod 2 ^ k.
Proof.
  intros Hw Ha Hk Hak. unfold swrap.
  assert (exists m, (z + 2 ^ (w - 1)) mod 2 ^ w - 2 ^ (w - 1) = z + (m * 2 ^ (w - a - k) * 2 ^ k) * 2 ^ a)
    as [m ->].
  { exists (- ((z + 2 ^ (w - 1)) / 2 ^ w)). rewrite Z.mod_eq by (pose proof (pow2_pos w ltac:(lia)); lia).
    rewrite <- !Z.mul_assoc, <- !Z.pow_add_r by lia.
    replace (w - a - k + (k + a)) with w by lia. lia. }
  rewrite Z.div_add by (pose proof (pow2_pos a ltac:(lia)); lia).
  apply Z.mod_add. pose proof (pow2_pos k ltac:(lia)). lia.
Qed.

Lemma testbit_div z k : 0 <= k -> Z.testbit z k = Z.odd (z / 2 ^ k).
Proof. intros. by rewrite Z.testbit_odd, Z.shiftr_div_pow2. Qed.

(** ** Little- and big-endian byte strings *)

(** [le_bytes n z]: the low [n] bytes of [z], least significant first
    ([to_le_bytes]); [le_uint] reads them back unsigned. *)
Fixpoint le_bytes (n : nat) (z : Z) : bytes :=
  match n with
  | O => []
  | S n' => u8 z :: le_bytes n' (z / 256)
  end.

Fixpoint le_uint (bs : bytes) : Z :=
  match bs with
  | [] => 0
  | b :: bs' => b2z b + 256 * le_uint bs'
  end.

Definition be_bytes (n : nat) (z : Z) : bytes := rev (le_bytes n z).
Definition be_uint (bs : bytes) : Z := le_uint (rev bs).
#[global] Arguments be_bytes : simpl never.
#[global] Arguments be_uint : simpl never.

Lemma length_le_bytes n z : length (le_bytes n z) = n.
Proof. revert z. induction n; simpl; auto. Qed.

Lemma length_be_bytes n z : length (be_bytes n z) = n.
Proof. unfold be_bytes. by rewrite length_rev, length_le_bytes. Qed.

Lemma le_uint_range bs : 0 <= le_uint bs < 2 ^ (8 * Z.of_nat (length bs)).
Proof.
  induction bs as [|b bs IH]; [simpl; lia|].
  cbn [le_uint length]. pose proof (b2z_range b).
  replace (8 * Z.of_nat (S (length bs))) with (8 + 8 * Z.of_nat (length bs)) by lia.
  rewrite Z.pow_add_r by lia. change (2 ^ 8) with 256. lia.
Qed.

Lemma be_uint_range bs : 0 <= be_uint bs < 2 ^ (8 * Z.of_nat (length bs)).
Proof. unfold be_uint. rewrite <- length_rev. apply le_uint_range. Qed.

Lemma le_uint_le_bytes n z : le_uint (le_bytes n z) = z mod 2 ^ (8 * Z.of_nat n).
Proof.
  revert z. induction n as [|n IH]; intros z; [simpl; by rewrite Z.mod_1_r|].
  cbn [le_bytes le_uint]. rewrite IH, b2z_u8.
  replace (8 * Z.of_nat (S n)) with (8 + 8 * Z.of_nat n) by lia.
  rewrite Z.pow_add_r by lia. change (2 ^ 8) with 256.
  rewrite Z.rem_mul_r; [done|lia|]. apply pow2_pos. lia.
Qed.

Lemma be_uint_be_bytes n z : be_uint (be_bytes n z) = z mod 2 ^ (8 * Z.of_nat n).
Proof. unfold be_uint, be_bytes. by rewrite rev_involutive, le_uint_le_bytes. Qed.

Lemma le_bytes_le_uint bs : le_bytes (length bs) (le_uint bs) = bs.
Proof.
  induction bs as [|b bs IH]; [done|]. cbn [length le_uint le_bytes].
  pose proof (b2z_range b). f_equal.
  - rewrite <- u8_mod. replace (b2z b + 256 * le_uint bs) with (b2z b + le_uint bs * 256) by lia.
    rewrite Z.mod_add by lia. rewrite Z.mod_small by lia. apply u8_b2z.
  - replace (b2z b + 256 * le_uint bs) with (b2z b + le_uint bs * 256) by lia.
    rewrite Z.div_add by lia. rewrite Z.div_small by lia. done.
Qed.

Lemma be_bytes_be_uint bs : be_bytes (length bs) (be_uint bs) = bs.
Proof.
  unfold be_bytes, be_uint. rewrite <- length_rev, le_bytes_le_uint.
  apply rev_involutive.
Qed.

Lemma le_bytes_mod n z : le_bytes n (z mod 2 ^ (8 * Z.of_nat n)) = le_bytes n z.
Proof.
  rewrite <- le_uint_le_bytes.
  rewrite <- (length_le_bytes n z) at 1. apply le_bytes_le_uint.
Qed.

Lemma be_bytes_mod n z : be_bytes n (z mod 2 ^ (8 * Z.of_nat n)) = be_bytes n z.
Proof. unfold be_bytes. by rewrite le_bytes_mod. Qed.

(** Reading back a signed big-endian integer. *)
Lemma sint_be_bytes n w z :
  w = 8 * Z.of_nat n -> 0 < w -> in_i w z -> swrap w (be_uint (be_bytes n z)) = z.
Proof.
  intros -> Hw Hz. rewrite be_uint_be_bytes.
  change (z mod _) with (wrap (8 * Z.of_nat n) z).
  rewrite swrap_wrap by done. by apply swrap_small.
Qed.

Lemma uint_be_bytes n w z :
  w = 8 * Z.of_nat n -> in_u w z -> be_uint (be_bytes n z) = z.
Proof. intros -> Hz. rewrite be_uint_be_bytes. by apply Z.mod_small. Qed.

Lemma uint_le_bytes n w z :
  w = 8 * Z.of_nat n -> in_u w z -> le_uint (le_bytes n z) = z.
Proof. intros -> Hz. rewrite le_uint_le_bytes. by apply Z.mod_small. Qed.

Lemma le_uint_app a b :
  le_uint (a ++ b) = le_uint a + 2 ^ (8 * Z.of_nat (length a)) * le_uint b.
Proof.
  induction a as [|x a IH]; [simpl; lia|].
  cbn [app le_uint length]. rewrite IH.
  replace (8 * Z.of_nat (S (length a))) with (8 + 8 * Z.of_nat (length a)) by lia.
  rewrite Z.pow_add_r by lia. change (2 ^ 8) with 256. lia.
Qed.

(** ** Lists *)

Lemma take_app_exact {A} n (a b : list A) : length a = n -> take n (a ++ b) = a.
Proof. intros <-. apply take_app_length. Qed.

Lemma drop_app_exact {A} n (a b : list A) : length a = n -> drop n (a ++ b) = b.
Proof. intros <-. apply drop_app_length. Qed.

(** The loop [for _ in 0..n]: a negative bound runs zero times. *)
Definition times (n : Z) : nat := Z.to_nat n.

(** Length as a [Z], the [usize] of [len()]. *)
Definition zlen {A} (l : list A) : Z := Z.of_nat (length l).

Lemma zlen_nonneg {A} (l : list A) : 0 <= zlen l.
Proof. unfold zlen. lia. Qed.

Lemma zlen_app {A} (a b : list A) : zlen (a ++ b) = zlen a + zlen b.
Proof. unfold zlen. rewrite length_app. lia. Qed.

Lemma zlen_nil {A} : zlen (@nil A) = 0.
Proof. done. Qed.

Lemma zlen_cons {A} (x : A) l : zlen (x :: l) = 1 + zlen l.
Proof. unfold zlen. simpl length. lia. Qed.

Lemma zlen_be_bytes n z : zlen (be_bytes n z) = Z.of_nat n.
Proof. unfold zlen. by rewrite length_be_bytes. Qed.

Lemma zlen_take {A} n (l : list A) : 0 <= n <= zlen l -> zlen (take (Z.to_nat n) l) = n.
Proof. unfold zlen. rewrite length_take. lia. Qed.

Lemma zlen_pos {A} (l : list A) : l <> [] -> 0 < zlen l.
Proof. destruct l; [done|]. rewrite zlen_cons. pose proof (zlen_nonneg l). lia. Qed.

Lemma times_zlen {A} (l : list A) : times (zlen l) = length l.
Proof. unfold times, zlen. lia. Qed.

(** [cdrs_wf] closes well-formedness side conditions, [cdrs_len] rewrites
    the length of a serialized value. *)
Create HintDb cdrs_wf.
Create Rewrite HintDb cdrs_len.
#[export] Hint Rewrite @zlen_app @zlen_nil @zlen_cons zlen_be_bytes : cdrs_len.
#[export] Hint Rewrite length_be_bytes length_le_bytes @length_app : cdrs_len.

(** Destruct the scrutinee of a [match] or [if] in the goal or a hypothesis. *)
Ltac case_goal :=
  match goal with
  | |- context [match ?x with _ => _ end] => destruct x eqn:?
  end.
Ltac case_in H :=
  match type of H with
  | context [match ?x with _ => _ end] => destruct x eqn:?
  end.

(** Close goals about list lengths and integer ranges. *)
Ltac zsolve :=
  unfold in_u, in_i, zlen in *; simpl length in *;
  rewrite ?length_app, ?length_be_bytes, ?length_le_bytes in *;
  simpl Z.pow in *; simpl Z.sub in *; lia.
