(* ===== verification/Types.v ===== *)
(** * Data shared by every layer of the protocol

    The enums and structs the rest of the library is written with: protocol
    [Version]s and [Opcode]s ([frame.rs]), [Consistency] levels
    ([consistency.rs]), Cassandra [bytes] and network addresses ([types.rs],
    [std::net]), the body of a server error ([frame/message_error.rs]) and the
    driver's own [Error] ([error.rs]), which embeds it.  [outcome] is the
    result of a Rust call: a value, an [Err], or a panic. *)

From S2P Require Import Prelude.
Local Open Scope Z_scope.

(** ** Results *)

Inductive outcome (E A : Type) : Type :=
| Ok (a : A)
| Err (e : E)
| Panic.
Arguments Ok {E A} _.
Arguments Err {E A} _.
Arguments Panic {E A}.

(** The [?] operator and [and_then]. *)
Definition obind {E A B} (m : outcome E A) (f : A -> outcome E B) : outcome E B :=
  match m with Ok a => f a | Err e => Err e | Panic => Panic end.
Definition omap {E A B} (f : A -> B) (m : outcome E A) : outcome E B :=
  match m with Ok a => Ok (f a) | Err e => Err e | Panic => Panic end.
Definition map_err {E F A} (f : E -> F) (m : outcome E A) : outcome F A :=
  match m with Ok a => Ok a | Err e => Err (f e) | Panic => Panic end.

Notation "'let?' x := m 'in' k" := (obind m (fun x => k))
  (at level 10, x binder, m at level 200, k at level 200) : cdrs_scope.

#[export] Instance outcome_eq_dec {E A} `{EqDecision E, EqDecision A} : EqDecision (outcome E A).
Proof. solve_decision. Defined.

(** ** Protocol constants: [frame.rs] *)

Inductive Version : Type := V3 | V4 | V5.
#[export] Instance Version_eq_dec : EqDecision Version.
Proof. solve_decision. Defined.

(** The derived [Ord]: declaration order. *)
Definition Version_rank (v : Version) : Z := match v with V3 => 0 | V4 => 1 | V5 => 2 end.
(** [version >= Version::V5] *)
Definition ge_v5 (v : Version) : bool := Version_rank V5 <=? Version_rank v.

Inductive Direction : Type := Request | Response.
#[export] Instance Direction_eq_dec : EqDecision Direction.
Proof. solve_decision. Defined.

Inductive Opcode : Type :=
| OpError | OpStartup | OpReady | OpAuthenticate | OpOptions | OpSupported
| OpQuery | OpResult | OpPrepare | OpExecute | OpRegister | OpEvent | OpBatch
| OpAuthChallenge | OpAuthResponse | OpAuthSuccess.
#[export] Instance Opcode_eq_dec : EqDecision Opcode.
Proof. solve_decision. Defined.

(** ** Consistency levels: [consistency.rs] *)

Inductive Consistency : Type :=
| Any | One | Two | Three | Quorum | All | LocalQuorum | EachQuorum
| Serial | LocalSerial | LocalOne.
#[export] Instance Consistency_eq_dec : EqDecision Consistency.
Proof. solve_decision. Defined.

(** ** Cassandra byte strings: [types.rs] *)

Record CBytes : Type := mkCBytes { CBytes_bytes : option bytes }.
Record CBytesShort : Type := mkCBytesShort { CBytesShort_bytes : option bytes }.
#[export] Instance CBytes_eq_dec : EqDecision CBytes.
Proof. solve_decision. Defined.
#[export] Instance CBytesShort_eq_dec : EqDecision CBytesShort.
Proof. solve_decision. Defined.

(** ** Network addresses: [std::net] *)

(** The octets of an address; [wf_ip] is the array length of the Rust type. *)
Inductive IpAddr : Type :=
| IpV4 (octets : bytes)
| IpV6 (octets : bytes).
#[export] Instance IpAddr_eq_dec : EqDecision IpAddr.
Proof. solve_decision. Defined.
#[export] Instance IpAddr_countable : Countable IpAddr.
Proof.
  refine (inj_countable'
    (fun i => match i with IpV4 o => inl o | IpV6 o => inr o end)
    (fun s : bytes + bytes => match s with inl o => IpV4 o | inr o => IpV6 o end) _).
  by intros [].
Defined.

Record SocketAddr : Type := mkSocketAddr { sa_ip : IpAddr; sa_port : Z }.
#[export] Instance SocketAddr_eq_dec : EqDecision SocketAddr.
Proof. solve_decision. Defined.
#[export] Instance SocketAddr_countable : Countable SocketAddr.
Proof.
  refine (inj_countable' (fun a => (sa_ip a, sa_port a))
            (fun p : IpAddr * Z => mkSocketAddr p.1 p.2) _).
  by intros [].
Defined.

Definition wf_ip (i : IpAddr) : Prop :=
  match i with IpV4 o => length o = 4%nat | IpV6 o => length o = 16%nat end.
Definition wf_socket_addr (a : SocketAddr) : Prop := wf_ip (sa_ip a) /\ in_u 16 (sa_port a).

(** ** Uuids: the [uuid] crate *)

(** [Uuid::from_slice] accepts exactly the sixteen-byte slices and
    [Uuid::into_bytes] gives them back. *)
Class UuidLib : Type := {
  Uuid : Type;
  Uuid_eq_dec :: EqDecision Uuid;
  Uuid_from_slice : bytes -> option Uuid;
  Uuid_into_bytes : Uuid -> bytes;
  Uuid_len : forall u, length (Uuid_into_bytes u) = 16%nat;
  Uuid_round_trip : forall u, Uuid_from_slice (Uuid_into_bytes u) = Some u;
  Uuid_from_slice_into : forall b u, Uuid_from_slice b = Some u -> Uuid_into_bytes u = b;
  Uuid_from_slice_ok : forall b, length b = 16%nat -> exists u, Uuid_from_slice b = Some u }.

(** Sixteen bytes, one such type. *)
Program Definition uuid_bytes : UuidLib := {|
  Uuid := dsig (fun b : bytes => length b = 16%nat);
  Uuid_from_slice b :=
    match decide (length b = 16%nat) with left H => Some (dexist b H) | right _ => None end;
  Uuid_into_bytes u := proj1_sig u |}.
Next Obligation. intros u. exact (proj2_dsig u). Qed.
Next Obligation.
  intros u. simpl. destruct (decide _) as [H|H]; [|exfalso; apply H; exact (proj2_dsig u)].
  f_equal. by apply dsig_eq.
Qed.
Next Obligation. intros b u. simpl. destruct (decide _); intros H; by inversion H. Qed.
Next Obligation. intros b H. simpl. destruct (decide _); [eauto|done]. Qed.

(** ** Server errors: [frame/message_error.rs] *)

Inductive FailureInfo : Type :=
| NumFailures (count : Z)
| ReasonMap (m : gmap SocketAddr Z).

Inductive WriteType : Type :=
| WtSimple | WtBatch | WtUnloggedBatch | WtCounter | WtBatchLog | WtCas | WtView | WtCdc
| WtUnknown (s : bytes).

Record UnavailableError : Type := mkUnavailable {
  ue_cl : Consistency; ue_required : Z; ue_alive : Z }.

Record WriteTimeoutError : Type := mkWriteTimeout {
  wte_cl : Consistency; wte_received : Z; wte_block_for : Z;
  wte_write_type : WriteType; wte_contentions : option Z }.

Record ReadTimeoutError : Type := mkReadTimeout {
  rte_cl : Consistency; rte_received : Z; rte_block_for : Z; rte_data_present : byte }.

Record ReadFailureError : Type := mkReadFailure {
  rfe_cl : Consistency; rfe_received : Z; rfe_block_for : Z;
  rfe_failure_info : FailureInfo; rfe_data_present : byte }.

Record FunctionFailureError : Type := mkFunctionFailure {
  ffe_keyspace : bytes; ffe_function : bytes; ffe_arg_types : list bytes }.

Record WriteFailureError : Type := mkWriteFailure {
  wfe_cl : Consistency; wfe_received : Z; wfe_block_for : Z;
  wfe_failure_info : FailureInfo; wfe_write_type : WriteType }.

Record AlreadyExistsError : Type := mkAlreadyExists { aee_ks : bytes; aee_table : bytes }.
Record UnpreparedError : Type := mkUnprepared { upe_id : CBytesShort }.

Inductive ErrorType : Type :=
| EtServer | EtProtocol | EtAuthentication
| EtUnavailable (e : UnavailableError)
| EtOverloaded | EtIsBootstrapping | EtTruncate
| EtWriteTimeout (e : WriteTimeoutError)
| EtReadTimeout (e : ReadTimeoutError)
| EtReadFailure (e : ReadFailureError)
| EtFunctionFailure (e : FunctionFailureError)
| EtWriteFailure (e : WriteFailureError)
| EtSyntax | EtUnauthorized | EtInvalid | EtConfig
| EtAlreadyExists (e : AlreadyExistsError)
| EtUnprepared (e : UnpreparedError).

Record ErrorBody : Type := mkErrorBody { eb_message : bytes; eb_ty : ErrorType }.

#[export] Instance FailureInfo_eq_dec : EqDecision FailureInfo.
Proof. solve_decision. Defined.
#[export] Instance WriteType_eq_dec : EqDecision WriteType.
Proof. solve_decision. Defined.
#[export] Instance UnavailableError_eq_dec : EqDecision UnavailableError.
Proof. solve_decision. Defined.
#[export] Instance WriteTimeoutError_eq_dec : EqDecision WriteTimeoutError.
Proof. solve_decision. Defined.
#[export] Instance ReadTimeoutError_eq_dec : EqDecision ReadTimeoutError.
Proof. solve_decision. Defined.
#[export] Instance ReadFailureError_eq_dec : EqDecision ReadFailureError.
Proof. solve_decision. Defined.
#[export] Instance FunctionFailureError_eq_dec : EqDecision FunctionFailureError.
Proof. solve_decision. Defined.
#[export] Instance WriteFailureError_eq_dec : EqDecision WriteFailureError.
Proof. solve_decision. Defined.
#[export] Instance AlreadyExistsError_eq_dec : EqDecision AlreadyExistsError.
Proof. solve_decision. Defined.
#[export] Instance UnpreparedError_eq_dec : EqDecision UnpreparedError.
Proof. solve_decision. Defined.
#[export] Instance ErrorType_eq_dec : EqDecision ErrorType.
Proof. solve_decision. Defined.
#[export] Instance ErrorBody_eq_dec : EqDecision ErrorBody.
Proof. solve_decision. Defined.

(** ** Driver errors: [error.rs], [compression.rs]

    Message texts are kept as the format string of the source (the
    interpolated arguments are dropped); an [io::Error] is its kind. *)

Inductive io_kind : Type := UnexpectedEof | OtherKind | InvalidData | BrokenPipe | NotFound.
#[export] Instance io_kind_eq_dec : EqDecision io_kind.
Proof. solve_decision. Defined.

Inductive CompressionError : Type := SnappyError | Lz4Error (k : io_kind).
#[export] Instance CompressionError_eq_dec : EqDecision CompressionError.
Proof. solve_decision. Defined.

Inductive Error : Type :=
| EIo (k : io_kind)
| EUuidParse
| EGeneral (msg : string)
| EFromUtf8
| EUtf8
| ECompression (e : CompressionError)
| EServer (body : ErrorBody) (addr : SocketAddr)
| ETimeout (msg : string)
| EUnknownConsistency (v : Z)
| EUnknownServerEvent (s : bytes)
| EUnexpectedTopologyChangeType (s : bytes)
| EUnexpectedStatusChangeType (s : bytes)
| EUnexpectedSchemaChangeType (s : bytes)
| EUnexpectedSchemaChangeTarget (s : bytes)
| EUnexpectedErrorCode (c : Z)
| EUnexpectedWriteType (s : bytes)
| ENonRequestOpcode (o : Opcode)
| ENonResponseOpcode (o : Opcode)
| EUnexpectedResultKind (k : Z)
| EUnexpectedColumnType (t : Z)
| EInvalidReplicationFormat (keyspace : bytes)
| EUnexpectedAuthResponse (o : Opcode)
| EUnexpectedStartupResponse (o : Opcode)
| EInvalidProtocol (addr : SocketAddr).
#[export] Instance Error_eq_dec : EqDecision Error.
Proof. solve_decision. Defined.

Abbreviation Result := (outcome Error).
