(* ===== verification/Wire.v ===== *)
(** * Reading and writing protocol primitives

    [types.rs] and [frame/traits.rs]: the cursor a message is parsed with,
    the integers, strings and byte strings every message is made of, and
    their serialization.  A parser is a value of [R A]: it consumes a prefix
    of the unread bytes.  The class [RoundTrip] is the contract between a
    parser and the serializer of the same type; the messages of the later
    files are parsed and proved against it. *)

From S2P Require Import Prelude Types.
Local Open Scope Z_scope.
Local Open Scope cdrs_scope.

(** ** Parsers *)

(** [fn from_cursor(cursor: &mut Cursor<&[u8]>) -> Result<A>]: the argument
    is what is left to read, the value is returned with what is left after. *)
Definition R (A : Type) : Type := bytes -> outcome Error (A * bytes).

Definition rret {A} (a : A) : R A := fun i => Ok (a, i).
Definition rbind {A B} (m : R A) (f : A -> R B) : R B :=
  fun i => match m i with Ok (a, i') => f a i' | Err e => Err e | Panic => Panic end.
Definition rmap {A B} (f : A -> B) (m : R A) : R B := rbind m (fun a => rret (f a)).
Definition rerr {A} (e : Error) : R A := fun _ => Err e.
Definition rlift {A} (o : Result A) : R A :=
  fun i => match o with Ok a => Ok (a, i) | Err e => Err e | Panic => Panic end.

Notation "'let*' x := m 'in' k" := (rbind m (fun x => k))
  (at level 10, x binder, m at level 200, k at level 200) : cdrs_scope.

(** [if flag { Some(parse?) } else { None }] *)
Definition ropt {A} (b : bool) (m : R A) : R (option A) :=
  if b then rmap Some m else rret None.

(** [for _ in 0..n { push(parse?) }] *)
Fixpoint read_n {A} (n : nat) (r : R A) : R (list A) :=
  match n with
  | O => rret []
  | S n' => let* x := r in let* xs := read_n n' r in rret (x :: xs)
  end.

(** ** The round-trip contract *)

(** [dec] reads back what [enc] wrote, whatever follows it. *)
Class RoundTrip {A} (dec : R A) (enc : A -> bytes) (wf : A -> Prop) : Prop :=
  round_trip : forall a rest, wf a -> dec (enc a ++ rest) = Ok (a, rest).

Lemma rbind_ok {A B} (m : R A) (f : A -> R B) i a i' :
  m i = Ok (a, i') -> rbind m f i = f a i'.
Proof. unfold rbind. by intros ->. Qed.

Lemma rbind_assoc {A B C} (m : R A) (f : A -> R B) (g : B -> R C) i :
  rbind (rbind m f) g i = rbind m (fun a => rbind (f a) g) i.
Proof. unfold rbind. by destruct (m i) as [[]| |]. Qed.

Lemma rbind_ret {A B} (a : A) (f : A -> R B) i : rbind (rret a) f i = f a i.
Proof. done. Qed.

Lemma rmap_ok {A B} (f : A -> B) m i a i' : m i = Ok (a, i') -> rmap f m i = Ok (f a, i').
Proof. unfold rmap, rbind. by intros ->. Qed.

Lemma ropt_none {A} (m : R A) i : ropt false m i = Ok (None, i).
Proof. done. Qed.

#[export] Instance read_n_round_trip {A} (dec : R A) enc wf n `{!RoundTrip dec enc wf} :
  RoundTrip (read_n n dec) (fun l => concat (map enc l)) (fun l => length l = n /\ Forall wf l).
Proof.
  intros l rest [Hn Hl]. revert n Hn rest.
  induction Hl as [|x l Hx Hl IH]; intros n Hn rest; simpl in Hn; subst n; [done|].
  cbn [read_n map concat]. rewrite <- app_assoc.
  rewrite (rbind_ok _ _ _ _ _ (round_trip x _ Hx)).
  by rewrite (rbind_ok _ _ _ _ _ (IH _ eq_refl rest)).
Qed.

(** ** Allocation *)

(** [z as usize]; the model is of a 64-bit target. *)
Definition as_usize (z : Z) : Z := wrap 64 z.

(** [Vec::with_capacity], [HashMap::with_capacity]: a request of more than
    [isize::MAX] bytes panics ("capacity overflow").  The capacities of the
    source are casts of [i16] or [i32] values, so they are below [2^31] or
    at least [2^64 - 2^31] and the element size does not matter. *)
Definition with_capacity (n : Z) : R unit :=
  fun i => if n <? 2 ^ 63 then Ok (tt, i) else Panic.

Lemma with_capacity_ok n i : in_i 32 n -> 0 <= n -> with_capacity (as_usize n) i = Ok (tt, i).
Proof.
  intros H H0. unfold with_capacity, as_usize. rewrite wrap_small by zsolve.
  by rewrite (proj2 (Z.ltb_lt n (2 ^ 63))) by zsolve.
Qed.

Lemma with_capacity_neg n i : in_i 32 n -> n < 0 -> with_capacity (as_usize n) i = Panic.
Proof.
  intros H H0. unfold with_capacity, as_usize, wrap.
  replace n with ((n + 2 ^ 64) + (-1) * 2 ^ 64) by lia.
  rewrite Z.mod_add, Z.mod_small by zsolve.
  by rewrite (proj2 (Z.ltb_ge _ _)) by zsolve.
Qed.

(** ** The cursor *)

(** [Read::read_exact] into a buffer of [n] bytes. *)
Definition read_exact (n : nat) : R bytes :=
  fun i => if (n <=? length i)%nat then Ok (take n i, drop n i) else Err (EIo UnexpectedEof).

(** [cursor_next_value]: an owned copy of the next [len] bytes. *)
Definition cursor_next_value (len : Z) : R bytes := read_exact (Z.to_nat len).

(** [cursor_next_value_ref]: a borrow of the next [len] bytes.  Slicing
    [&buf[start..start + len]] panics when the range leaves the buffer (and
    when [start + len] overflows), so the error the function builds for a
    short slice is never returned: see [CursorImpl] below. *)
Definition cursor_next_value_ref (len : Z) : R bytes :=
  fun i => if len <=? zlen i then Ok (take (Z.to_nat len) i, drop (Z.to_nat len) i) else Panic.

(** The implementation of both on an [io::Cursor], buffer and position. *)
Module CursorImpl.
Record cursor : Type := mkCursor { get_ref : bytes; position : Z }.

(** The unread suffix: the state of [R]. *)
Definition unread (c : cursor) : bytes := drop (Z.to_nat (position c)) (get_ref c).
Definition advance (c : cursor) (n : Z) : cursor := mkCursor (get_ref c) (position c + n).
Definition wf (c : cursor) : Prop := 0 <= position c <= zlen (get_ref c) /\ zlen (get_ref c) < 2 ^ 63.

(** [Cursor::read_exact] reads from the suffix of the buffer at [pos]. *)
Definition next_value (c : cursor) (len : Z) : outcome Error (bytes * cursor) :=
  let suffix := drop (Z.to_nat (Z.min (position c) (zlen (get_ref c)))) (get_ref c) in
  if len <=? zlen suffix then Ok (take (Z.to_nat len) suffix, advance c len)
  else Err (EIo UnexpectedEof).

Definition next_value_ref (c : cursor) (len : Z) : outcome Error (bytes * cursor) :=
  let start := position c in
  let stop := start + len in
  if 2 ^ 64 <=? stop then Panic
  else if zlen (get_ref c) <? stop then Panic
  else
    let result := take (Z.to_nat len) (drop (Z.to_nat start) (get_ref c)) in
    if negb (zlen result =? len)
    then Err (EGeneral "cursor_next_value_ref could not retrieve a full slice")
    else Ok (result, advance c len).

Definition abs (o : outcome Error (bytes * cursor)) : outcome Error (bytes * bytes) :=
  omap (fun p => (p.1, unread p.2)) o.

Lemma unread_advance c n : wf c -> 0 <= n -> unread (advance c n) = drop (Z.to_nat n) (unread c).
Proof.
  intros [Hp _] Hn. unfold unread, advance; simpl. rewrite drop_drop. f_equal. lia.
Qed.

Lemma zlen_unread c : wf c -> zlen (unread c) = zlen (get_ref c) - position c.
Proof. intros [Hp _]. unfold unread, zlen in *. rewrite length_drop. lia. Qed.

Lemma next_value_abs c len : wf c -> 0 <= len -> abs (next_value c len) = cursor_next_value len (unread c).
Proof.
  intros Hc Hl. pose proof (zlen_unread c Hc) as Hu. unfold next_value.
  replace (Z.min (position c) (zlen (get_ref c))) with (position c) by (destruct Hc; lia).
  change (drop (Z.to_nat (position c)) (get_ref c)) with (unread c).
  unfold cursor_next_value, read_exact. destruct (Z.leb_spec len (zlen (unread c))) as [H|H].
  - rewrite (proj2 (Nat.leb_le _ _)) by (unfold zlen in H; lia). simpl.
    by rewrite unread_advance.
  - by rewrite (proj2 (Nat.leb_gt _ _)) by (unfold zlen in H; lia).
Qed.

Lemma next_value_ref_abs c len :
  wf c -> in_u 64 len -> abs (next_value_ref c len) = cursor_next_value_ref len (unread c).
Proof.
  intros Hc [Hl Hu]. pose proof (zlen_unread c Hc) as Hz. destruct Hc as [Hp Hm].
  unfold next_value_ref, cursor_next_value_ref.
  destruct (Z.leb_spec (2 ^ 64) (position c + len)) as [H1|H1].
  { by rewrite (proj2 (Z.leb_gt _ _)) by lia. }
  destruct (Z.ltb_spec (zlen (get_ref c)) (position c + len)) as [H2|H2].
  { by rewrite (proj2 (Z.leb_gt _ _)) by lia. }
  rewrite (proj2 (Z.leb_le _ _)) by lia.
  change (drop (Z.to_nat (position c)) (get_ref c)) with (unread c).
  replace (zlen (take (Z.to_nat len) (unread c)) =? len) with true; simpl.
  - rewrite unread_advance; done.
  - symmetry. apply Z.eqb_eq. unfold zlen in *. rewrite length_take. lia.
Qed.

(** Reading from an [io::Cursor] with its position is reading from the
    unread bytes: both ways of taking the next value (copied, borrowed) on
    a buffer and position return the same result and leave the same unread
    bytes as the stream operations the parsers are written with; and the
    error [cursor_next_value_ref] builds for a short slice is never
    returned, as slicing panics first. *)
Theorem cursor_refinement c len :
  wf c -> in_u 64 len ->
  abs (next_value c len) = cursor_next_value len (unread c) /\
  abs (next_value_ref c len) = cursor_next_value_ref len (unread c) /\
  forall e, next_value_ref c len <> Err e.
Proof.
  intros Hc Hl. pose proof (next_value_ref_abs c len Hc Hl) as Hr.
  split; [apply next_value_abs; [done|apply Hl]|]. split; [exact Hr|].
  intros e He. rewrite He in Hr. unfold cursor_next_value_ref in Hr. by case_match.
Qed.

Lemma cursor_refinement_witness :
  let c := mkCursor [u8 1; u8 2; u8 3] 1 in
  abs (next_value c 2) = cursor_next_value 2 (unread c) /\
  abs (next_value_ref c 2) = cursor_next_value_ref 2 (unread c) /\
  forall e, next_value_ref c 2 <> Err e.
Proof. apply (cursor_refinement (mkCursor [u8 1; u8 2; u8 3] 1) 2); repeat split; by vm_compute. Defined.
End CursorImpl.

(** ** UTF-8 *)

Definition cont (b : byte) : bool := (0x80 <=? b2z b) && (b2z b <=? 0xBF).
Definition between (lo hi : Z) (b : byte) : bool := (lo <=? b2z b) && (b2z b <=? hi).

(** [std::str::from_utf8(..).is_ok()]: well-formed UTF-8 (Unicode Table 3-7). *)
Fixpoint utf8_valid (l : bytes) : bool :=
  match l with
  | [] => true
  | b :: t =>
    if b2z b <? 0x80 then utf8_valid t
    else if between 0xC2 0xDF b then
      match t with c1 :: t' => cont c1 && utf8_valid t' | _ => false end
    else if between 0xE0 0xEF b then
      match t with
      | c1 :: c2 :: t' =>
        (if b2z b =? 0xE0 then between 0xA0 0xBF c1
         else if b2z b =? 0xED then between 0x80 0x9F c1 else cont c1)
        && cont c2 && utf8_valid t'
      | _ => false
      end
    else if between 0xF0 0xF4 b then
      match t with
      | c1 :: c2 :: c3 :: t' =>
        (if b2z b =? 0xF0 then between 0x90 0xBF c1
         else if b2z b =? 0xF4 then between 0x80 0x8F c1 else cont c1)
        && cont c2 && cont c3 && utf8_valid t'
      | _ => false
      end
    else false
  end.

Definition from_utf8 (b : bytes) : Result bytes := if utf8_valid b then Ok b else Err EUtf8.

(** A Rust [String] is a byte string that is valid UTF-8. *)
Definition wf_string (s : bytes) : Prop := utf8_valid s = true.

(** ** Integers *)

Definition SHORT_LEN : nat := 2.
Definition INT_LEN : nat := 4.
Definition LONG_LEN : nat := 8.
Definition UUID_LEN : nat := 16.
Definition NULL_INT_LEN : Z := -1.
Definition NULL_SHORT_LEN : Z := -1.

(** [try_i32_from_bytes] and its siblings: the slice must have the exact length. *)
Definition convert_to_array (n : nat) (b : bytes) : Result bytes :=
  if bool_decide (length b = n) then Ok b else Err (EIo UnexpectedEof).
Definition try_u64_from_bytes (b : bytes) : Result Z := omap be_uint (convert_to_array 8 b).
Definition try_i64_from_bytes (b : bytes) : Result Z := omap (fun x => swrap 64 (be_uint x)) (convert_to_array 8 b).
Definition try_i32_from_bytes (b : bytes) : Result Z := omap (fun x => swrap 32 (be_uint x)) (convert_to_array 4 b).
Definition try_i16_from_bytes (b : bytes) : Result Z := omap (fun x => swrap 16 (be_uint x)) (convert_to_array 2 b).
Definition u16_from_bytes (b : bytes) : Z := be_uint b.

Definition to_short (z : Z) : bytes := be_bytes 2 z.
Definition to_int (z : Z) : bytes := be_bytes 4 z.
Definition to_bigint (z : Z) : bytes := be_bytes 8 z.
Definition to_u_short (z : Z) : bytes := be_bytes 2 z.
Definition to_u_int (z : Z) : bytes := be_bytes 4 z.
Definition to_u_big (z : Z) : bytes := be_bytes 8 z.

(** [impl Serialize for i16, i32, ...]: the big-endian bytes. *)
Definition i16_serialize (z : Z) : bytes := be_bytes 2 z.
Definition i32_serialize (z : Z) : bytes := be_bytes 4 z.
Definition i64_serialize (z : Z) : bytes := be_bytes 8 z.
Definition u32_serialize (z : Z) : bytes := be_bytes 4 z.
Definition u8_serialize (b : byte) : bytes := [b].

(** [len() as CIntShort], [len() as CInt]. *)
Definition as_i16 (z : Z) : Z := swrap 16 z.
Definition as_i32 (z : Z) : Z := swrap 32 z.

Definition CInt_from_cursor : R Z :=
  let* buff := read_exact INT_LEN in rret (swrap 32 (be_uint buff)).
Definition CIntShort_from_cursor : R Z :=
  let* buff := read_exact SHORT_LEN in rret (swrap 16 (be_uint buff)).
Definition CLong_from_cursor : R Z :=
  let* buff := read_exact LONG_LEN in rret (swrap 64 (be_uint buff)).
(** [let mut buff = [0]; cursor.read_exact(&mut buff)?; buff[0]] *)
Definition u8_from_cursor : R byte :=
  let* buff := read_exact 1 in
  match buff with b :: _ => rret b | [] => fun _ => Panic end.

(** ** Strings *)

Definition serialize_str (s : bytes) : bytes := i16_serialize (as_i16 (zlen s)) ++ s.
Definition serialize_str_long (s : bytes) : bytes := i32_serialize (as_i32 (zlen s)) ++ s.

Definition from_cursor_str : R bytes :=
  let* buff := read_exact SHORT_LEN in
  let len := swrap 16 (be_uint buff) in
  let* body_bytes := cursor_next_value_ref (as_usize len) in
  rlift (from_utf8 body_bytes).

Definition from_cursor_str_long : R bytes :=
  let* buff := read_exact INT_LEN in
  let len := swrap 32 (be_uint buff) in
  let* body_bytes := cursor_next_value_ref (as_usize len) in
  rlift (from_utf8 body_bytes).

Definition serialize_str_list (l : list bytes) : bytes :=
  i16_serialize (as_i16 (zlen l)) ++ concat (map serialize_str l).

Definition from_cursor_string_list : R (list bytes) :=
  let* buff := read_exact SHORT_LEN in
  let len := swrap 16 (be_uint buff) in
  let* _ := with_capacity (as_usize len) in
  read_n (times len) from_cursor_str.

(** ** Byte strings *)

Definition CBytes_new (b : bytes) : CBytes := mkCBytes (Some b).
Definition CBytes_new_null : CBytes := mkCBytes None.
Definition CBytes_into_bytes (c : CBytes) : option bytes := CBytes_bytes c.
Definition CBytes_is_null_or_empty (c : CBytes) : bool :=
  match CBytes_bytes c with None => true | Some b => match b with [] => true | _ => false end end.

Definition CBytes_serialize (c : CBytes) : bytes :=
  match CBytes_bytes c with
  | Some b => i32_serialize (as_i32 (zlen b)) ++ b
  | None => i32_serialize NULL_INT_LEN
  end.

Definition CBytes_from_cursor : R CBytes :=
  let* len := CInt_from_cursor in
  if len <? 0 then rret (mkCBytes None)
  else rmap CBytes_new (cursor_next_value len).

Definition CBytesShort_new (b : bytes) : CBytesShort := mkCBytesShort (Some b).
Definition CBytesShort_serialized_len (c : CBytesShort) : Z :=
  Z.of_nat SHORT_LEN + match CBytesShort_bytes c with Some b => zlen b | None => 0 end.

Definition CBytesShort_serialize (c : CBytesShort) : bytes :=
  match CBytesShort_bytes c with
  | Some b => i16_serialize (as_i16 (zlen b)) ++ b
  | None => i16_serialize NULL_SHORT_LEN
  end.

Definition CBytesShort_from_cursor : R CBytesShort :=
  let* len := CIntShort_from_cursor in
  if len <? 0 then rret (mkCBytesShort None)
  else rmap CBytesShort_new (cursor_next_value len).

(** ** Addresses *)

(** [decode_inet] ([types/data_serialization_types.rs]) *)
Definition decode_inet (b : bytes) : Result IpAddr :=
  if bool_decide (length b = 4%nat) then Ok (IpV4 b)
  else if bool_decide (length b = 16%nat) then Ok (IpV6 b)
  else Err (EIo OtherKind).

Definition SocketAddr_serialize (a : SocketAddr) : bytes :=
  (match sa_ip a with
   | IpV4 o => u8 4 :: o
   | IpV6 o => u8 16 :: o
   end) ++ to_int (sa_port a).

Definition SocketAddr_from_cursor : R SocketAddr :=
  let* n := u8_from_cursor in
  let* b := cursor_next_value (b2z n) in
  let* ip := rlift (decode_inet b) in
  let* port := CInt_from_cursor in
  rret (mkSocketAddr ip (wrap 16 port)).

(** ** Well-formedness: what the Rust types and the length fields allow *)

Definition wf_short_string (s : bytes) : Prop := wf_string s /\ zlen s < 2 ^ 15.
Definition wf_long_string (s : bytes) : Prop := wf_string s /\ zlen s < 2 ^ 31.
Definition wf_string_list (l : list bytes) : Prop := zlen l < 2 ^ 15 /\ Forall wf_short_string l.
Definition wf_cbytes (c : CBytes) : Prop :=
  match CBytes_bytes c with Some b => zlen b < 2 ^ 31 | None => True end.
Definition wf_cbytes_short (c : CBytesShort) : Prop :=
  match CBytesShort_bytes c with Some b => zlen b < 2 ^ 15 | None => True end.
Definition wf_opt {A} (wf : A -> Prop) (o : option A) : Prop :=
  match o with Some a => wf a | None => True end.

(** [if let Some(x) = &self.x { x.serialize(..) }] *)
Definition oser {A} (enc : A -> bytes) (o : option A) : bytes :=
  match o with Some a => enc a | None => [] end.
Definition is_some {A} (o : option A) : bool := match o with Some _ => true | None => false end.

(** Serialized values stay folded: proofs step over them as a whole. *)
#[global] Arguments i16_serialize : simpl never.
#[global] Arguments i32_serialize : simpl never.
#[global] Arguments i64_serialize : simpl never.
#[global] Arguments u32_serialize : simpl never.
#[global] Arguments u8_serialize : simpl never.
#[global] Arguments serialize_str : simpl never.
#[global] Arguments serialize_str_long : simpl never.
#[global] Arguments serialize_str_list : simpl never.
#[global] Arguments CBytes_serialize : simpl never.
#[global] Arguments CBytesShort_serialize : simpl never.
#[global] Arguments SocketAddr_serialize : simpl never.

(** Constants of the source are checked by evaluation. *)
Definition short_string_ok (s : bytes) : bool := utf8_valid s && (zlen s <? 2 ^ 15).
Lemma short_string_ok_wf s : short_string_ok s = true -> wf_short_string s.
Proof. unfold short_string_ok. intros [H1 H2%Z.ltb_lt]%andb_true_iff. done. Qed.
#[export] Hint Extern 2 (wf_short_string _) => apply short_string_ok_wf; reflexivity : cdrs_wf.

(** ** Round trips of the primitives *)

(** Step the leading parser of a [rbind] chain over what its serializer wrote. *)
Ltac wf_tac :=
  try done; try solve [auto with cdrs_wf]; try solve [zsolve].
Ltac rt_norm := rewrite <- ?app_assoc; cbn beta iota.
Ltac rt_apply d := let H := constr:(round_trip (dec := d)) in apply H.
Ltac rt_step :=
  rt_norm;
  match goal with
  | |- context [rbind ?d ?f ?i] =>
    erewrite (rbind_ok d f i); [|rt_apply d; wf_tac]; cbn beta iota
  | |- rmap ?f ?d ?i = _ =>
    erewrite (rmap_ok f d i); [|rt_apply d; wf_tac]; cbn beta iota
  end.
Ltac rt_end :=
  rt_norm; match goal with |- ?d _ = Ok _ => rt_apply d; wf_tac end.
Ltac rt := repeat rt_step; try done; try rt_end.

Lemma read_exact_app n a rest : length a = n -> read_exact n (a ++ rest) = Ok (a, rest).
Proof.
  intros H. unfold read_exact. rewrite length_app, (proj2 (Nat.leb_le _ _)) by lia.
  by rewrite take_app_exact, drop_app_exact.
Qed.

Lemma read_exact_short n i : (length i < n)%nat -> read_exact n i = Err (EIo UnexpectedEof).
Proof. intros. unfold read_exact. by rewrite (proj2 (Nat.leb_gt _ _)). Qed.

Lemma cursor_next_value_app n a rest : zlen a = n -> cursor_next_value n (a ++ rest) = Ok (a, rest).
Proof. intros <-. apply read_exact_app. unfold zlen. lia. Qed.

Lemma cursor_next_value_ref_app n a rest :
  zlen a = n -> cursor_next_value_ref n (a ++ rest) = Ok (a, rest).
Proof.
  intros <-. unfold cursor_next_value_ref. rewrite zlen_app.
  rewrite (proj2 (Z.leb_le _ _)) by (pose proof (zlen_nonneg rest); lia).
  by rewrite take_app_exact, drop_app_exact by (unfold zlen; lia).
Qed.

Lemma as_usize_small z : in_u 64 z -> as_usize z = z.
Proof. apply wrap_small. Qed.

#[export] Instance CInt_round_trip : RoundTrip CInt_from_cursor i32_serialize (in_i 32).
Proof.
  intros z rest Hz. unfold CInt_from_cursor, i32_serialize, INT_LEN.
  rewrite (rbind_ok _ _ _ _ _ (read_exact_app 4 _ rest (length_be_bytes 4 z))).
  unfold rret. by rewrite (sint_be_bytes 4).
Qed.

#[export] Instance CIntShort_round_trip : RoundTrip CIntShort_from_cursor i16_serialize (in_i 16).
Proof.
  intros z rest Hz. unfold CIntShort_from_cursor, i16_serialize, SHORT_LEN.
  rewrite (rbind_ok _ _ _ _ _ (read_exact_app 2 _ rest (length_be_bytes 2 z))).
  unfold rret. by rewrite (sint_be_bytes 2).
Qed.

#[export] Instance CLong_round_trip : RoundTrip CLong_from_cursor i64_serialize (in_i 64).
Proof.
  intros z rest Hz. unfold CLong_from_cursor, i64_serialize, LONG_LEN.
  rewrite (rbind_ok _ _ _ _ _ (read_exact_app 8 _ rest (length_be_bytes 8 z))).
  unfold rret. by rewrite (sint_be_bytes 8).
Qed.

#[export] Instance u8_round_trip : RoundTrip u8_from_cursor u8_serialize (fun _ => True).
Proof. intros b rest _. done. Qed.

Lemma as_i16_small z : 0 <= z < 2 ^ 15 -> as_i16 z = z.
Proof. intros. apply swrap_small; zsolve. Qed.
Lemma as_i32_small z : 0 <= z < 2 ^ 31 -> as_i32 z = z.
Proof. intros. apply swrap_small; zsolve. Qed.

Lemma as_i16_range z : in_i 16 (as_i16 z).
Proof. by apply swrap_range. Qed.
Lemma as_i32_range z : in_i 32 (as_i32 z).
Proof. by apply swrap_range. Qed.
#[export] Hint Resolve as_i16_range as_i32_range : cdrs_wf.

(** A length field followed by a body of that many bytes. *)
Lemma from_cursor_str_app s rest : wf_short_string s -> from_cursor_str (serialize_str s ++ rest) = Ok (s, rest).
Proof.
  intros [Hs Hl]. pose proof (zlen_nonneg s). unfold from_cursor_str, serialize_str. rt_norm.
  rewrite (rbind_ok _ _ _ _ _ (read_exact_app 2 _ _ (length_be_bytes 2 _))).
  rewrite (sint_be_bytes 2) by (auto with cdrs_wf; lia).
  rewrite as_i16_small, as_usize_small by zsolve.
  rewrite (rbind_ok _ _ _ _ _ (cursor_next_value_ref_app _ s rest eq_refl)).
  unfold rlift, from_utf8. unfold wf_string in Hs. by rewrite Hs.
Qed.
#[export] Instance str_round_trip : RoundTrip from_cursor_str serialize_str wf_short_string := from_cursor_str_app.

#[export] Instance str_long_round_trip : RoundTrip from_cursor_str_long serialize_str_long wf_long_string.
Proof.
  intros s rest [Hs Hl]. pose proof (zlen_nonneg s). unfold from_cursor_str_long, serialize_str_long. rt_norm.
  rewrite (rbind_ok _ _ _ _ _ (read_exact_app 4 _ _ (length_be_bytes 4 _))).
  rewrite (sint_be_bytes 4) by (auto with cdrs_wf; lia).
  rewrite as_i32_small, as_usize_small by zsolve.
  rewrite (rbind_ok _ _ _ _ _ (cursor_next_value_ref_app _ s rest eq_refl)).
  unfold rlift, from_utf8. unfold wf_string in Hs. by rewrite Hs.
Qed.

#[export] Instance string_list_round_trip :
  RoundTrip from_cursor_string_list serialize_str_list wf_string_list.
Proof.
  intros l rest [Hn Hl]. pose proof (zlen_nonneg l).
  unfold from_cursor_string_list, serialize_str_list. rt_norm.
  rewrite (rbind_ok _ _ _ _ _ (read_exact_app 2 _ _ (length_be_bytes 2 _))).
  rewrite (sint_be_bytes 2) by (auto with cdrs_wf; lia). rewrite as_i16_small by lia.
  rewrite (rbind_ok _ _ _ _ _ (with_capacity_ok (zlen l) _ ltac:(zsolve) ltac:(lia))).
  rt_end. by rewrite times_zlen.
Qed.

#[export] Instance CBytes_round_trip : RoundTrip CBytes_from_cursor CBytes_serialize wf_cbytes.
Proof.
  intros [[b|]] rest H; unfold wf_cbytes, CBytes_from_cursor, CBytes_serialize in *; simpl in *.
  - rt_step. pose proof (zlen_nonneg b). rewrite as_i32_small by lia.
    rewrite (proj2 (Z.ltb_ge _ _)) by lia.
    by rewrite (rmap_ok _ _ _ _ _ (cursor_next_value_app _ b rest eq_refl)).
  - rt_step. done.
Qed.

#[export] Instance CBytesShort_round_trip :
  RoundTrip CBytesShort_from_cursor CBytesShort_serialize wf_cbytes_short.
Proof.
  intros [[b|]] rest H; unfold wf_cbytes_short, CBytesShort_from_cursor, CBytesShort_serialize in *; simpl in *.
  - rt_step. pose proof (zlen_nonneg b). rewrite as_i16_small by lia.
    rewrite (proj2 (Z.ltb_ge _ _)) by lia.
    by rewrite (rmap_ok _ _ _ _ _ (cursor_next_value_app _ b rest eq_refl)).
  - rt_step. done.
Qed.

#[export] Instance ropt_round_trip {A} (dec : R A) enc wf b `{!RoundTrip dec enc wf} :
  RoundTrip (ropt b dec) (oser enc) (fun o => is_some o = b /\ wf_opt wf o).
Proof.
  intros o rest [<- Ho]. destruct o as [a|]; simpl in *; [|done].
  by rewrite (rmap_ok _ _ _ _ _ (round_trip a rest Ho)).
Qed.

#[export] Instance SocketAddr_round_trip :
  RoundTrip SocketAddr_from_cursor SocketAddr_serialize wf_socket_addr.
Proof.
  assert (Hgo : forall o p i rest n, length o = Z.to_nat n -> 0 <= n < 256 -> decode_inet o = Ok i ->
    in_u 16 p ->
    SocketAddr_from_cursor ((u8 n :: o) ++ to_int p ++ rest) = Ok (mkSocketAddr i p, rest)).
  { intros o p i rest n Ho Hn Hi Hp. unfold SocketAddr_from_cursor.
    change ((u8 n :: o) ++ to_int p ++ rest) with (u8_serialize (u8 n) ++ o ++ to_int p ++ rest).
    rt_step. rewrite b2z_u8, Z.mod_small by lia.
    rewrite (rbind_ok _ _ _ _ _ (cursor_next_value_app n o _ ltac:(unfold zlen; lia))).
    rewrite Hi. unfold rlift. cbn [rbind].
    change (to_int p) with (i32_serialize p).
    change (rbind _ _ _) with (rbind CInt_from_cursor (fun port => rret (mkSocketAddr i (wrap 16 port)))
                                 (i32_serialize p ++ rest)).
    rt_step. unfold rret. by rewrite wrap_small. }
  intros [[o|o] p] rest [Ho Hp]; simpl in Ho, Hp; unfold SocketAddr_serialize; simpl sa_ip; simpl sa_port;
    rewrite <- app_assoc; apply Hgo; try lia; try done.
  - unfold decode_inet. by rewrite bool_decide_true.
  - unfold decode_inet. rewrite bool_decide_false by lia. by rewrite bool_decide_true.
Qed.

(** ** Hash maps *)

(** [HashMap] iteration visits every entry once, in an unspecified order:
    the order is a parameter of whatever iterates. *)
Class HashIter (K : Type) `{Countable K} : Type := {
  hm_iter : forall V, gmap K V -> list (K * V);
  hm_iter_perm : forall V (m : gmap K V), hm_iter V m ≡ₚ map_to_list m }.
Arguments hm_iter {K _ _ _ V} _.
Arguments hm_iter_perm {K _ _ _ V} _.

(** One order that exists: the one of the map's representation. *)
Definition default_iter (K : Type) `{Countable K} : HashIter K :=
  {| hm_iter V m := map_to_list m; hm_iter_perm V m := Permutation_refl _ |}.

(** [for (k, v) in entries { map.insert(k, v) }] *)
Definition hm_collect {K V} `{Countable K} (l : list (K * V)) : gmap K V :=
  foldl (fun m kv => <[kv.1 := kv.2]> m) ∅ l.

Lemma hm_collect_nodup {K V} `{Countable K} (l : list (K * V)) :
  NoDup l.*1 -> hm_collect l = list_to_map l.
Proof.
  intros Hl. unfold hm_collect.
  enough (Hg : forall acc, foldl (fun m kv => <[kv.1:=kv.2]> m) acc l
                 = list_to_map (M := gmap K V) l ∪ acc) by by rewrite Hg, (right_id_L ∅ (∪)).
  induction l as [|[k v] l IH]; intros acc; simpl; [by rewrite (left_id_L ∅ (∪))|].
  simpl in Hl. apply NoDup_cons in Hl as [Hk Hl].
  rewrite IH by done. rewrite <- insert_union_l, insert_union_r; [done|].
  by apply not_elem_of_list_to_map_1.
Qed.

Lemma hm_collect_iter {K V} `{HashIter K} (m : gmap K V) : hm_collect (hm_iter m) = m.
Proof.
  rewrite hm_collect_nodup.
  - transitivity (list_to_map (M := gmap K V) (map_to_list m)); [|apply list_to_map_to_list].
    apply list_to_map_proper; [|apply hm_iter_perm].
    rewrite hm_iter_perm. apply NoDup_fst_map_to_list.
  - rewrite hm_iter_perm. apply NoDup_fst_map_to_list.
Qed.

Lemma hm_iter_length {K V} `{HashIter K} (m : gmap K V) : length (hm_iter m) = size m.
Proof. rewrite hm_iter_perm. apply length_map_to_list. Qed.

Lemma hm_iter_Forall {K V} `{HashIter K} (P : K * V -> Prop) (m : gmap K V) :
  map_Forall (fun k v => P (k, v)) m -> Forall P (hm_iter m).
Proof.
  intros Hm. rewrite hm_iter_perm. apply Forall_forall. intros [k v] Hin.
  apply Hm. by apply elem_of_map_to_list.
Qed.

(** Two parsers in sequence, into a pair. *)
Definition rpair {A B} (ra : R A) (rb : R B) : R (A * B) :=
  let* a := ra in let* b := rb in rret (a, b).

#[export] Instance rpair_round_trip {A B} (da : R A) ea wa (db : R B) eb wb
    `{!RoundTrip da ea wa} `{!RoundTrip db eb wb} :
  RoundTrip (rpair da db) (fun p => ea p.1 ++ eb p.2) (fun p => wa p.1 /\ wb p.2).
Proof. intros [a b] rest [Ha Hb]. unfold rpair. simpl in *. rt. Qed.
