(* ===== verification/Compression.v ===== *)
(** * Body compression: [compression.rs]

    The LZ4 and Snappy codecs are third-party crates ([lz4_flex], [snap]):
    they are the parameters [Lz4Lib] and [SnapLib], whose laws are the
    documented behaviour the driver relies on.  The module models how the
    driver wraps them: the four-byte big-endian length in front of an LZ4
    block, the size assertion, and which slice accesses can panic. *)

From S2P Require Import Prelude Types Wire.
Local Open Scope Z_scope.
Local Open Scope cdrs_scope.

(** [lz4_flex]: [compress], [compress_into], [decompress] and
    [block::get_maximum_output_size]. *)
Class Lz4Lib : Type := {
  lz4_compress : bytes -> bytes;
  lz4_compress_into : bytes -> Z -> option bytes;
  lz4_decompress : bytes -> Z -> option bytes;
  lz4_max_output_size : Z -> Z;
  (** a block decompresses to what was compressed, given its size *)
  lz4_round_trip : forall b, lz4_decompress (lz4_compress b) (zlen b) = Some b;
  (** the block fits the documented worst case *)
  lz4_compress_bound : forall b, zlen (lz4_compress b) <= lz4_max_output_size (zlen b);
  (** incompressible input is not shrunk: the worst case is at least the input *)
  lz4_max_ge : forall n, 0 <= n -> n <= lz4_max_output_size n;
  (** the documented worst case of an empty block is a small constant *)
  lz4_max_zero : lz4_max_output_size 0 <= 64;
  (** compressing into a buffer of at least the worst case succeeds, within
      the buffer, and writes a block that decompresses to the input *)
  lz4_compress_into_ok : forall b room, lz4_max_output_size (zlen b) <= room ->
    exists c, lz4_compress_into b room = Some c /\ zlen c <= room /\ lz4_decompress c (zlen b) = Some b
}.

(** [snap::raw]: [Encoder::compress_vec] and [Decoder::decompress_vec]. *)
Class SnapLib : Type := {
  snap_compress : bytes -> option bytes;
  snap_decompress : bytes -> option bytes;
  snap_round_trip : forall b c, snap_compress b = Some c -> snap_decompress c = Some b
}.

(** Instances that exist (stored blocks), used to instantiate theorems. *)
Program Definition stored_lz4 : Lz4Lib := {|
  lz4_compress b := b;
  lz4_compress_into b room := if zlen b <=? room then Some b else None;
  lz4_decompress b n := if zlen b =? n then Some b else None;
  lz4_max_output_size n := n |}.
Next Obligation. intros b. simpl. by rewrite Z.eqb_refl. Qed.
Next Obligation. intros b. simpl. lia. Qed.
Next Obligation. intros n. simpl. lia. Qed.
Next Obligation. simpl. lia. Qed.
Next Obligation.
  intros b room H. simpl in *. rewrite (proj2 (Z.leb_le _ _)) by done.
  exists b. by rewrite Z.eqb_refl.
Qed.
Program Definition stored_snap : SnapLib := {|
  snap_compress b := Some b; snap_decompress b := Some b |}.
Next Obligation. by intros b c [= ->]. Qed.

Inductive Compression : Type := Lz4 | Snappy | NoCompression.
#[export] Instance Compression_eq_dec : EqDecision Compression.
Proof. solve_decision. Defined.

Definition LZ4 : string := "lz4".
Definition SNAPPY : string := "snappy".

Definition is_compressed (c : Compression) : bool := negb (bool_decide (c = NoCompression)).

Definition as_str (c : Compression) : option string :=
  match c with Lz4 => Some LZ4 | Snappy => Some SNAPPY | NoCompression => None end.

Definition Compression_from_str (s : string) : Compression :=
  if bool_decide (s = LZ4) then Lz4
  else if bool_decide (s = SNAPPY) then Snappy else NoCompression.

Definition to_protocol_string (c : Compression) : string :=
  match c with Lz4 => "LZ4" | Snappy => "SNAPPY" | NoCompression => "NONE" end.

Definition from_protocol_string (s : string) : option Compression :=
  if bool_decide (s = "lz4" \/ s = "LZ4") then Some Lz4
  else if bool_decide (s = "snappy" \/ s = "SNAPPY") then Some Snappy
  else if bool_decide (s = "none" \/ s = "NONE") then Some NoCompression
  else None.

Section Codec.
Context {L : Lz4Lib} {SN : SnapLib}.

Definition encode_snappy (b : bytes) : outcome CompressionError bytes :=
  match snap_compress b with Some c => Ok c | None => Err SnappyError end.
Definition decode_snappy (b : bytes) : outcome CompressionError bytes :=
  match snap_decompress b with Some c => Ok c | None => Err SnappyError end.

Definition encode_lz4 (b : bytes) : outcome CompressionError bytes :=
  let len := 4 + lz4_max_output_size (zlen b) in
  if negb (len <=? 2 ^ 31 - 1) then Panic
  else match lz4_compress_into b (len - 4) with
       | Some c => Ok (be_bytes 4 (as_i32 (zlen b)) ++ c)
       | None => Err (Lz4Error OtherKind)
       end.

(** [bytes[..4]] panics on a body of fewer than four bytes, before the
    conversion whose error is mapped. *)
Definition decode_lz4 (b : bytes) : outcome CompressionError bytes :=
  if zlen b <? 4 then Panic
  else
    let uncompressed_size := swrap 32 (be_uint (take 4 b)) in
    match lz4_decompress (drop 4 b) (as_usize uncompressed_size) with
    | Some d => Ok d
    | None => Err (Lz4Error OtherKind)
    end.

Definition Compression_encode (c : Compression) (b : bytes) : outcome CompressionError bytes :=
  match c with
  | Lz4 => encode_lz4 b
  | Snappy => encode_snappy b
  | NoCompression => Ok b
  end.

Definition Compression_decode (c : Compression) (b : bytes) : outcome CompressionError bytes :=
  match c with
  | Lz4 => decode_lz4 b
  | Snappy => decode_snappy b
  | NoCompression => Ok b
  end.

(** The output buffer of [encode_lz4], less its length field. *)
Lemma encode_lz4_room b : exists c,
  lz4_compress_into b (4 + lz4_max_output_size (zlen b) - 4) = Some c /\
  lz4_decompress c (zlen b) = Some b.
Proof.
  assert (Hroom : lz4_max_output_size (zlen b) <= 4 + lz4_max_output_size (zlen b) - 4) by lia.
  destruct (lz4_compress_into_ok b _ Hroom) as (d & H1 & _ & H2). eauto.
Qed.

Lemma decode_lz4_encode b c : encode_lz4 b = Ok c -> decode_lz4 c = Ok b.
Proof.
  unfold encode_lz4, decode_lz4. destruct (negb _) eqn:Hlen; [done|].
  apply negb_false_iff, Z.leb_le in Hlen.
  destruct (encode_lz4_room b) as (d & -> & Hd). intros Hc.
  assert (c = be_bytes 4 (as_i32 (zlen b)) ++ d) as -> by congruence. clear Hc.
  pose proof (zlen_nonneg b) as H0. pose proof (lz4_max_ge (zlen b) H0).
  rewrite zlen_app, zlen_be_bytes. rewrite (proj2 (Z.ltb_ge _ _)) by (pose proof (zlen_nonneg d); lia).
  rewrite take_app_exact, drop_app_exact by apply length_be_bytes.
  rewrite (sint_be_bytes 4) by (auto with cdrs_wf; lia).
  rewrite as_i32_small by lia. rewrite as_usize_small by (unfold in_u; lia). by rewrite Hd.
Qed.

Lemma Compression_decode_encode c b d :
  Compression_encode c b = Ok d -> Compression_decode c d = Ok b.
Proof.
  destruct c; simpl; [apply decode_lz4_encode| |by intros [= ->]].
  unfold encode_snappy, decode_snappy. destruct (snap_compress b) as [e|] eqn:E; [|done].
  intros [= <-]. by rewrite (snap_round_trip b e).
Qed.

(** LZ4 encoding fails only by the size assertion. *)
Lemma encode_lz4_ok b :
  4 + lz4_max_output_size (zlen b) <= 2 ^ 31 - 1 -> exists c, encode_lz4 b = Ok c.
Proof.
  intros H. unfold encode_lz4. rewrite (proj2 (Z.leb_le _ _)) by lia. simpl.
  destruct (encode_lz4_room b) as (d & -> & _). eauto.
Qed.

(** A body within the size the LZ4 encoder asserts (and that the
    Snappy encoder accepts) is compressed without error, and decompressing
    gives it back, for every algorithm. *)
Theorem compression_round_trip c b :
  (c = Lz4 -> 4 + lz4_max_output_size (zlen b) <= 2 ^ 31 - 1) ->
  (c = Snappy -> is_Some (snap_compress b)) ->
  exists d, Compression_encode c b = Ok d /\ Compression_decode c d = Ok b.
Proof.
  intros Hl Hs. assert (Hd : exists d, Compression_encode c b = Ok d).
  { destruct c; [by apply encode_lz4_ok, Hl| |by exists b].
    destruct (Hs eq_refl) as [d Hd]. exists d. unfold Compression_encode, encode_snappy. by rewrite Hd. }
  destruct Hd as [d Hd]. exists d. split; [done|]. by apply Compression_decode_encode.
Qed.
End Codec.

Lemma Compression_from_as_str c s : as_str c = Some s -> Compression_from_str s = c.
Proof. by destruct c; intros [= <-]. Qed.

Lemma protocol_string_round_trip c : from_protocol_string (to_protocol_string c) = Some c.
Proof. by destruct c. Qed.

(** ** Witness *)

Module CompressionSamples.
#[local] Existing Instances stored_lz4 stored_snap.

Lemma compression_round_trip_witness :
  exists d, Compression_encode Lz4 (lit "body") = Ok d /\ Compression_decode Lz4 d = Ok (lit "body").
Proof. apply (compression_round_trip Lz4 (lit "body")); [by vm_compute|discriminate]. Defined.
End CompressionSamples.
