(* ===== verification/Crc.v ===== *)
(** * Checksums of v5 frames: [crc.rs]

    [crc24] protects frame headers and is computed by the driver itself; it
    is modelled with the 32-bit arithmetic of the source.  [crc32] protects
    payloads and is computed by the [crc32fast] crate, which is the parameter
    [Crc32Lib].  The results are about error detection: [crc24] is a linear
    feedback shift register whose transition is injective, so two inputs that
    differ only within a window of three bytes never collide. *)

From S2P Require Import Prelude Types.
Local Open Scope Z_scope.

(** ** [crc24] *)

Definition CRC24_POLY : Z := 0x1974f0b.
Definition CRC24_INIT : Z := 0x875060.

(** One iteration of [for _ in 0..8], on an [i32]. *)
Definition crc24_bit (crc : Z) : Z :=
  let crc := swrap 32 (Z.shiftl crc 1) in
  if negb (Z.land crc 0x1000000 =? 0) then Z.lxor crc CRC24_POLY else crc.

(** [n] iterations. *)
Definition steps (n : nat) (crc : Z) : Z := Nat.iter n crc24_bit crc.

(** The closure folded over the bytes. *)
Definition crc24_byte (crc : Z) (b : byte) : Z :=
  steps 8 (Z.lxor crc (swrap 32 (Z.shiftl (b2z b) 16))).

Definition crc24 (bs : bytes) : Z := foldl crc24_byte CRC24_INIT bs.

(** ** [crc32] *)

(** [crc32fast::Hasher]: updates accumulate, and the digest is a [u32]. *)
Class Crc32Lib : Type := {
  Hasher : Type;
  Hasher_new : Hasher;
  Hasher_update : Hasher -> bytes -> Hasher;
  Hasher_finalize : Hasher -> Z;
  Hasher_update_app : forall h a b, Hasher_update (Hasher_update h a) b = Hasher_update h (a ++ b);
  Hasher_finalize_u32 : forall h, in_u 32 (Hasher_finalize h) }.

Definition crc32_prefix : bytes := [u8 0xfa; u8 0x2d; u8 0x55; u8 0xca].

Definition crc32 `{Crc32Lib} (bs : bytes) : Z :=
  Hasher_finalize (Hasher_update (Hasher_update Hasher_new crc32_prefix) bs).

Lemma crc32_range `{Crc32Lib} bs : in_u 32 (crc32 bs).
Proof. apply Hasher_finalize_u32. Qed.

(** The reflected CRC-32 with polynomial [0xEDB88320], one such hasher. *)
Definition crc32_ieee_bit (c : Z) : Z :=
  if Z.odd c then Z.lxor (Z.shiftr c 1) 0xEDB88320 else Z.shiftr c 1.
Definition crc32_ieee_byte (c : Z) (b : byte) : Z :=
  Nat.iter 8 crc32_ieee_bit (Z.lxor c (b2z b)).
Program Definition crc32_ieee : Crc32Lib := {|
  Hasher := Z;
  Hasher_new := 0xFFFFFFFF;
  Hasher_update h bs := foldl crc32_ieee_byte h bs;
  Hasher_finalize h := wrap 32 (Z.lxor h 0xFFFFFFFF) |}.
Next Obligation. intros. simpl. by rewrite foldl_app. Qed.
Next Obligation. intros. simpl. by apply wrap_range. Qed.

(** ** The register as a linear map *)

Lemma lxor_in_u w a b : 0 <= w -> in_u w a -> in_u w b -> in_u w (Z.lxor a b).
Proof.
  intros Hw [Ha Ha']%in_u_testbit [Hb Hb']%in_u_testbit; try done.
  apply in_u_testbit; [done|]. split; [by apply Z.lxor_nonneg|].
  intros i Hi. by rewrite Z.lxor_spec, Ha', Hb'.
Qed.

(** On 24-bit registers the 32-bit shift does not overflow. *)
Lemma crc24_bit_spec c : in_u 24 c ->
  crc24_bit c = Z.lxor (Z.shiftl c 1) (if Z.testbit c 23 then CRC24_POLY else 0).
Proof.
  intros Hc. unfold crc24_bit.
  rewrite swrap_small; [|lia|rewrite Z.shiftl_mul_pow2 by lia; unfold in_u, in_i in *; lia].
  change 0x1000000 with (2 ^ 24). rewrite land_pow2, negb_involutive by lia.
  rewrite Z.shiftl_spec by lia. change (24 - 1) with 23.
  destruct (Z.testbit c 23); [done|by rewrite Z.lxor_0_r].
Qed.

Lemma crc24_bit_range c : in_u 24 c -> in_u 24 (crc24_bit c).
Proof.
  intros Hc. rewrite crc24_bit_spec by done. pose proof Hc as [H0 Hb]%in_u_testbit; [|done].
  apply in_u_testbit; [done|]. split.
  { apply Z.lxor_nonneg. rewrite Z.shiftl_nonneg. destruct (Z.testbit c 23); unfold CRC24_POLY; lia. }
  intros i Hi. rewrite Z.lxor_spec, Z.shiftl_spec by lia.
  destruct (Z.eq_dec i 24) as [->|Hn].
  - change (24 - 1) with 23. by destruct (Z.testbit c 23).
  - rewrite Hb by lia.
    assert (Hp : in_u 25 CRC24_POLY) by (unfold in_u, CRC24_POLY; lia).
    apply in_u_testbit in Hp as [_ Hp]; [|done].
    destruct (Z.testbit c 23); [rewrite Hp by lia|rewrite Z.bits_0]; done.
Qed.

Lemma crc24_bit_lxor a b : in_u 24 a -> in_u 24 b ->
  crc24_bit (Z.lxor a b) = Z.lxor (crc24_bit a) (crc24_bit b).
Proof.
  intros Ha Hb. rewrite !crc24_bit_spec by (try done; by apply lxor_in_u).
  rewrite Z.shiftl_lxor, Z.lxor_spec. apply Z.bits_inj'. intros i _.
  rewrite !Z.lxor_spec. destruct (Z.testbit a 23), (Z.testbit b 23);
    cbn [xorb]; rewrite ?Z.bits_0;
    by repeat match goal with |- context [Z.testbit ?x ?y] => destruct (Z.testbit x y) end.
Qed.

(** The polynomial is odd, so the bit shifted out is visible in bit 0. *)
Lemma crc24_bit_zero c : in_u 24 c -> crc24_bit c = 0 -> c = 0.
Proof.
  intros Hc. rewrite crc24_bit_spec by done. intros H.
  destruct (Z.testbit c 23) eqn:E.
  - apply (f_equal (fun x => Z.testbit x 0)) in H.
    rewrite Z.lxor_spec, Z.shiftl_spec_low, Z.bits_0 in H by lia. done.
  - rewrite Z.lxor_0_r, Z.shiftl_mul_pow2 in H by lia. lia.
Qed.

Lemma crc24_bit_inj a b : in_u 24 a -> in_u 24 b -> crc24_bit a = crc24_bit b -> a = b.
Proof.
  intros Ha Hb H. apply Z.lxor_eq, crc24_bit_zero; [by apply lxor_in_u|].
  by rewrite crc24_bit_lxor, H, Z.lxor_nilpotent.
Qed.

Lemma steps_add n m c : steps n (steps m c) = steps (n + m) c.
Proof. unfold steps. by rewrite Nat.iter_add. Qed.
Lemma steps_S n c : steps (S n) c = crc24_bit (steps n c).
Proof. reflexivity. Qed.
Lemma crc24_byte_steps c b : crc24_byte c b = steps 8 (Z.lxor c (swrap 32 (Z.shiftl (b2z b) 16))).
Proof. unfold crc24_byte. reflexivity. Qed.
#[global] Opaque steps.

Lemma iter_bit_range n c : in_u 24 c -> in_u 24 (steps n c).
Proof. intros. induction n; rewrite ?steps_S; [done|by apply crc24_bit_range]. Qed.

Lemma iter_bit_lxor n a b : in_u 24 a -> in_u 24 b ->
  steps n (Z.lxor a b) = Z.lxor (steps n a) (steps n b).
Proof.
  intros Ha Hb. induction n as [|n IH]; rewrite ?steps_S; [done|].
  by rewrite IH, crc24_bit_lxor by by apply iter_bit_range.
Qed.

Lemma iter_bit_inj n a b : in_u 24 a -> in_u 24 b ->
  steps n a = steps n b -> a = b.
Proof.
  intros Ha Hb. induction n as [|n IH]; rewrite ?steps_S; [done|]. intros H.
  by apply IH, crc24_bit_inj; try apply iter_bit_range.
Qed.

(** Without feedback the register only shifts. *)
Lemma iter_bit_shift n c : 0 <= c -> c * 2 ^ Z.of_nat n < 2 ^ 24 ->
  steps n c = c * 2 ^ Z.of_nat n.
Proof.
  intros H0. induction n as [|n IH]; intros H; [change (steps 0 c) with c; lia|].
  rewrite Nat2Z.inj_succ, Z.pow_succ_r in H |- * by lia.
  rewrite steps_S, IH by lia. pose proof (pow2_pos (Z.of_nat n) ltac:(lia)).
  assert (Hs : in_u 23 (c * 2 ^ Z.of_nat n)) by (unfold in_u; nia).
  rewrite crc24_bit_spec by (unfold in_u in *; lia).
  apply in_u_testbit in Hs as [_ Hs]; [|done].
  rewrite Hs, Z.lxor_0_r, Z.shiftl_mul_pow2 by lia. lia.
Qed.

(** ** Range *)

Lemma byte_shift_in_u b : swrap 32 (Z.shiftl (b2z b) 16) = b2z b * 2 ^ 16 /\ in_u 24 (b2z b * 2 ^ 16).
Proof.
  pose proof (b2z_range b). rewrite Z.shiftl_mul_pow2 by lia.
  split; [apply swrap_small|]; unfold in_u, in_i; lia.
Qed.

Lemma crc24_byte_range c b : in_u 24 c -> in_u 24 (crc24_byte c b).
Proof.
  intros Hc. rewrite crc24_byte_steps. destruct (byte_shift_in_u b) as [-> Hb].
  by apply iter_bit_range, lxor_in_u.
Qed.

Lemma crc24_from_range c bs : in_u 24 c -> in_u 24 (foldl crc24_byte c bs).
Proof. revert c. induction bs; intros c Hc; simpl; [done|]. by apply IHbs, crc24_byte_range. Qed.

Lemma crc24_init_range : in_u 24 CRC24_INIT.
Proof. unfold in_u, CRC24_INIT. lia. Qed.

Lemma crc24_range bs : in_u 24 (crc24 bs).
Proof. apply crc24_from_range, crc24_init_range. Qed.

(** ** Detection *)

Lemma crc24_from_inj bs c d : in_u 24 c -> in_u 24 d ->
  foldl crc24_byte c bs = foldl crc24_byte d bs -> c = d.
Proof.
  revert c d. induction bs as [|b bs IH]; intros c d Hc Hd; simpl; [done|].
  intros H. apply IH in H; [|by apply crc24_byte_range..].
  rewrite !crc24_byte_steps in H. destruct (byte_shift_in_u b) as [Hs Hb]. rewrite Hs in H.
  apply iter_bit_inj in H; [|by apply lxor_in_u..].
  apply (f_equal (fun x => Z.lxor x (b2z b * 2 ^ 16))) in H.
  by rewrite !Z.lxor_assoc, Z.lxor_nilpotent, !Z.lxor_0_r in H.
Qed.

(** Feeding a byte is shifting the register eight times and adding the byte
    shifted twenty-four times. *)
Lemma crc24_byte_linear c b : in_u 24 c ->
  crc24_byte c b = Z.lxor (steps 8 c) (steps 24 (b2z b)).
Proof.
  intros Hc. rewrite crc24_byte_steps. destruct (byte_shift_in_u b) as [-> Hb].
  rewrite iter_bit_lxor by done. f_equal.
  pose proof (b2z_range b). change (2 ^ 16) with (2 ^ Z.of_nat 16).
  rewrite <- (iter_bit_shift 16) by lia.
  by rewrite steps_add.
Qed.

Ltac crc_range :=
  repeat match goal with
  | |- in_u 24 (Z.lxor _ _) => apply lxor_in_u
  | |- in_u 24 (steps _ _) => apply iter_bit_range
  | |- in_u 24 (crc24_byte _ _) => apply crc24_byte_range
  | _ => done
  end.

(** Three bytes enter the register as one 24-bit number. *)
Lemma crc24_window c x y z : in_u 24 c ->
  foldl crc24_byte c [x; y; z] =
  steps 24 (Z.lxor c (Z.lxor (b2z x * 2 ^ 16) (Z.lxor (b2z y * 2 ^ 8) (b2z z)))).
Proof.
  intros Hc. pose proof (b2z_range x). pose proof (b2z_range y). pose proof (b2z_range z).
  assert (Hx : in_u 24 (b2z x)) by (unfold in_u; lia).
  assert (Hy : in_u 24 (b2z y)) by (unfold in_u; lia).
  assert (Hz : in_u 24 (b2z z)) by (unfold in_u; lia).
  cbn [foldl]. rewrite (crc24_byte_linear _ z), (crc24_byte_linear _ y), (crc24_byte_linear c x) by crc_range.
  rewrite !(iter_bit_lxor 8) by crc_range.
  rewrite !steps_add. simpl Nat.add.
  change (2 ^ 16) with (2 ^ Z.of_nat 16). change (2 ^ 8) with (2 ^ Z.of_nat 8).
  rewrite <- (iter_bit_shift 16 (b2z x)), <- (iter_bit_shift 8 (b2z y)) by lia.
  rewrite !(iter_bit_lxor 24) by crc_range.
  rewrite !steps_add. simpl Nat.add. by rewrite !Z.lxor_assoc.
Qed.

Lemma bytes3_inj x y z x' y' z' :
  Z.lxor (b2z x * 2 ^ 16) (Z.lxor (b2z y * 2 ^ 8) (b2z z)) =
  Z.lxor (b2z x' * 2 ^ 16) (Z.lxor (b2z y' * 2 ^ 8) (b2z z')) -> x = x' /\ y = y' /\ z = z'.
Proof.
  assert (Hsum : forall a b c, Z.lxor (b2z a * 2 ^ 16) (Z.lxor (b2z b * 2 ^ 8) (b2z c))
                   = b2z a * 2 ^ 16 + (b2z b * 2 ^ 8 + b2z c)).
  { intros a b c. pose proof (b2z_range a). pose proof (b2z_range b). pose proof (b2z_range c).
    by rewrite (lxor_disjoint 8), (lxor_disjoint 16) by lia. }
  rewrite !Hsum. pose proof (b2z_range x). pose proof (b2z_range y). pose proof (b2z_range z).
  pose proof (b2z_range x'). pose proof (b2z_range y'). pose proof (b2z_range z').
  intros Heq. repeat split; apply b2z_inj; lia.
Qed.

(** Two windows of three bytes leave the same register only if they are equal. *)
Lemma crc24_window_inj p w w' s : length w = 3%nat -> length w' = 3%nat ->
  crc24 (p ++ w ++ s) = crc24 (p ++ w' ++ s) -> w = w'.
Proof.
  intros Hw Hw'. destruct w as [|x [|y [|z []]]]; try done. destruct w' as [|x' [|y' [|z' []]]]; try done.
  unfold crc24. rewrite !foldl_app. pose proof (crc24_from_range _ p crc24_init_range) as Hp.
  intros H. apply crc24_from_inj in H; [|by apply crc24_from_range..].
  rewrite !crc24_window in H by done. pose proof (b2z_range x).
  assert (Hr : forall a b c, in_u 24 (Z.lxor (b2z a * 2 ^ 16) (Z.lxor (b2z b * 2 ^ 8) (b2z c)))).
  { intros a b c. pose proof (b2z_range a). pose proof (b2z_range b). pose proof (b2z_range c).
    repeat apply lxor_in_u; unfold in_u; lia. }
  apply iter_bit_inj in H; [|by apply lxor_in_u..].
  apply (f_equal (Z.lxor (foldl crc24_byte CRC24_INIT p))) in H.
  rewrite <- !(Z.lxor_assoc (foldl _ _ _) (foldl _ _ _)), Z.lxor_nilpotent, !Z.lxor_0_l in H.
  apply bytes3_inj in H as (-> & -> & ->). done.
Qed.

(** The header checksum detects every corruption confined to three
    consecutive bytes. *)
Theorem crc24_detects_burst p w w' s :
  length w = 3%nat -> length w' = 3%nat -> w <> w' ->
  crc24 (p ++ w ++ s) <> crc24 (p ++ w' ++ s).
Proof. intros Hw Hw' Hne H. by eapply Hne, crc24_window_inj. Qed.

Lemma crc24_detects_burst_witness :
  crc24 ([u8 1] ++ [u8 2; u8 3; u8 4] ++ [u8 5]) <> crc24 ([u8 1] ++ [u8 2; u8 255; u8 4] ++ [u8 5]).
Proof. apply (crc24_detects_burst [u8 1] [u8 2; u8 3; u8 4] [u8 2; u8 255; u8 4] [u8 5]); by vm_compute. Defined.
