(* ===== verification/Envelope.v ===== *)
(** * Envelopes: [frame.rs]

    The nine-byte header, its enumerations and flags, and the two directions
    of the codec: [encode_with] and [from_buffer], with
    [check_envelope_size].  [from_buffer] is called on a buffer that may hold
    any number of envelopes and end inside one; the theorems say that it reads
    back what [encode_with] wrote, that it waits for more data exactly on a
    proper prefix, and that what it returns depends only on the bytes it
    consumed. *)

From S2P Require Import Prelude Types Wire Compression.
Local Open Scope Z_scope.
Local Open Scope cdrs_scope.

(** ** Constants *)

Definition ENVELOPE_HEADER_LEN : Z := 9.
Definition EVENT_STREAM_ID : Z := -1.

(** The name says maximum; the function returns the smaller argument. *)
Definition const_max (a b : Z) : Z := if a <? b then a else b.

Definition PAYLOAD_SIZE_LIMIT : Z := Z.shiftl 1 17.
Definition UNCOMPRESSED_FRAME_HEADER_LENGTH : Z := 6.
Definition COMPRESSED_FRAME_HEADER_LENGTH : Z := 8.
Definition FRAME_TRAILER_LENGTH : Z := 4.
Definition MAX_FRAME_SIZE : Z :=
  PAYLOAD_SIZE_LIMIT + const_max UNCOMPRESSED_FRAME_HEADER_LENGTH COMPRESSED_FRAME_HEADER_LENGTH
  + FRAME_TRAILER_LENGTH.

(** ** Enumerations of the header *)

Definition Version_to_u8 (v : Version) : Z := match v with V3 => 3 | V4 => 4 | V5 => 5 end.

Definition Version_try_from (b : Z) : Result Version :=
  match Z.land b 0x7F with
  | 3 => Ok V3
  | 4 => Ok V4
  | 5 => Ok V5
  | _ => Err (EGeneral "Unknown cassandra version: {v}")
  end.

Definition Direction_to_u8 (d : Direction) : Z := match d with Request => 0x00 | Response => 0x80 end.
Definition Direction_from (b : Z) : Direction :=
  match Z.land b 0x80 with 0 => Request | _ => Response end.

Definition Opcode_to_u8 (o : Opcode) : Z :=
  match o with
  | OpError => 0x00 | OpStartup => 0x01 | OpReady => 0x02 | OpAuthenticate => 0x03
  | OpOptions => 0x05 | OpSupported => 0x06 | OpQuery => 0x07 | OpResult => 0x08
  | OpPrepare => 0x09 | OpExecute => 0x0A | OpRegister => 0x0B | OpEvent => 0x0C
  | OpBatch => 0x0D | OpAuthChallenge => 0x0E | OpAuthResponse => 0x0F | OpAuthSuccess => 0x10
  end.

Definition Opcode_try_from (b : Z) : Result Opcode :=
  match b with
  | 0x00 => Ok OpError | 0x01 => Ok OpStartup | 0x02 => Ok OpReady | 0x03 => Ok OpAuthenticate
  | 0x05 => Ok OpOptions | 0x06 => Ok OpSupported | 0x07 => Ok OpQuery | 0x08 => Ok OpResult
  | 0x09 => Ok OpPrepare | 0x0A => Ok OpExecute | 0x0B => Ok OpRegister | 0x0C => Ok OpEvent
  | 0x0D => Ok OpBatch | 0x0E => Ok OpAuthChallenge | 0x0F => Ok OpAuthResponse
  | 0x10 => Ok OpAuthSuccess
  | _ => Err (EGeneral "Unknown opcode: {value}")
  end.

(** [bitflags! { struct Flags: u8 }] as the bits of the byte. *)
Module Flags.
Definition COMPRESSION : Z := 0x01.
Definition TRACING : Z := 0x02.
Definition CUSTOM_PAYLOAD : Z := 0x04.
Definition WARNING : Z := 0x08.
Definition BETA : Z := 0x10.
Definition all : Z := 0x1f.
Definition from_bits_truncate (b : Z) : Z := Z.land b all.
Definition contains (f g : Z) : bool := Z.land f g =? g.
Definition union (f g : Z) : Z := Z.lor f g.
Definition difference (f g : Z) : Z := Z.ldiff f g.
Definition wf (f : Z) : Prop := 0 <= f <= all.
End Flags.

(** ** Data *)

Inductive CheckEnvelopeSizeError : Type :=
| CsNotEnoughBytes | CsUnsupportedVersion (v : Z) | CsUnsupportedOpcode (o : Z).

Inductive ParseEnvelopeError : Type :=
| NotEnoughBytes
| UnsupportedVersion (v : Z)
| UnsupportedOpcode (o : Z)
| DecompressionError (e : CompressionError)
| InvalidUuid
| InvalidWarnings (e : Error).
#[export] Instance ParseEnvelopeError_eq_dec : EqDecision ParseEnvelopeError.
Proof. solve_decision. Defined.

Record Envelope `{UuidLib} : Type := mkEnvelope {
  version : Version;
  direction : Direction;
  flags : Z;
  opcode : Opcode;
  stream_id : Z;
  body : bytes;
  tracing_id : option Uuid;
  warnings : list bytes }.
#[export] Instance Envelope_eq_dec `{UuidLib} : EqDecision Envelope.
Proof. solve_decision. Defined.

Record ParsedEnvelope `{UuidLib} : Type := mkParsed { envelope_len : Z; envelope : Envelope }.
#[export] Instance ParsedEnvelope_eq_dec `{UuidLib} : EqDecision ParsedEnvelope.
Proof. solve_decision. Defined.

#[global] Arguments mkEnvelope {_} _ _ _ _ _ _ _ _.
#[global] Arguments mkParsed {_} _ _.

(** [data[i]] and [&data[a..b]], on indices the guards put in range. *)
Definition at_ (i : nat) (data : bytes) : Z := b2z (nth i data Byte.x00).
Definition slice (a b : nat) (data : bytes) : bytes := take (b - a) (drop a data).

Section Codec.
Context {U : UuidLib} {L : Lz4Lib} {SN : SnapLib}.

Definition decode_timeuuid (b : bytes) : option Uuid := Uuid_from_slice b.

(** The cursor over the decompressed body: tracing id, warnings, the rest.
    [read_exact(..).unwrap()] panics on a body of fewer than 16 bytes. *)
Definition read_tracing_id (flags : Z) (dir : Direction) (i : bytes)
  : outcome ParseEnvelopeError (option Uuid * bytes) :=
  if Flags.contains flags Flags.TRACING && bool_decide (dir = Response) then
    match read_exact UUID_LEN i with
    | Ok (tracing_bytes, i') =>
      match decode_timeuuid tracing_bytes with
      | Some u => Ok (Some u, i')
      | None => Err InvalidUuid
      end
    | _ => Panic
    end
  else Ok (None, i).

Definition read_warnings (flags : Z) (i : bytes)
  : outcome ParseEnvelopeError (list bytes * bytes) :=
  if Flags.contains flags Flags.WARNING
  then map_err InvalidWarnings (from_cursor_string_list i)
  else Ok ([], i).

Definition header_envelope_len (data : bytes) : Z :=
  let body_len := as_usize (swrap 32 (be_uint (slice 5 9 data))) in
  wrap 64 (ENVELOPE_HEADER_LEN + body_len).

Definition from_buffer (data : bytes) (compression : Compression)
  : outcome ParseEnvelopeError ParsedEnvelope :=
  if zlen data <? ENVELOPE_HEADER_LEN then Err NotEnoughBytes
  else
    let envelope_len := header_envelope_len data in
    if zlen data <? envelope_len then Err NotEnoughBytes
    else
      let? version := map_err (fun _ => UnsupportedVersion (Z.land (at_ 0 data) 0x7f))
                              (Version_try_from (at_ 0 data)) in
      let direction := Direction_from (at_ 0 data) in
      let flags := Flags.from_bits_truncate (at_ 1 data) in
      let stream_id := swrap 16 (be_uint (slice 2 4 data)) in
      let? opcode := map_err (fun _ => UnsupportedOpcode (at_ 4 data))
                             (Opcode_try_from (at_ 4 data)) in
      if envelope_len <? ENVELOPE_HEADER_LEN then Panic
      else
        let body_bytes := slice 9 (Z.to_nat envelope_len) data in
        let? full_body := map_err DecompressionError
          (Compression_decode
             (if Flags.contains flags Flags.COMPRESSION then compression else NoCompression)
             body_bytes) in
        let? '(tracing_id, cursor) := read_tracing_id flags direction full_body in
        let? '(warnings, body) := read_warnings flags cursor in
        Ok (mkParsed envelope_len
              (mkEnvelope version direction flags opcode stream_id body tracing_id warnings)).

Definition check_envelope_size (data : bytes) : outcome CheckEnvelopeSizeError Z :=
  if zlen data <? ENVELOPE_HEADER_LEN then Err CsNotEnoughBytes
  else
    let envelope_len := header_envelope_len data in
    if zlen data <? envelope_len then Err CsNotEnoughBytes
    else
      let? _ := map_err (fun _ => CsUnsupportedVersion (Z.land (at_ 0 data) 0x7f))
                        (Version_try_from (at_ 0 data)) in
      Ok envelope_len.

Definition encode_is_compressed (e : Envelope) (compressor : Compression) : bool :=
  (Version_rank (version e) <? Version_rank V5) && is_compressed compressor.

(** The flags written: the compression bit says what was done to the body. *)
Definition encoded_flags (e : Envelope) (compressor : Compression) : Z :=
  if encode_is_compressed e compressor
  then Flags.union (flags e) Flags.COMPRESSION
  else Flags.difference (flags e) Flags.COMPRESSION.

Definition tracing_bytes (e : Envelope) : Result bytes :=
  if Flags.contains (flags e) Flags.TRACING && bool_decide (direction e = Response) then
    match tracing_id e with
    | Some u => Ok (Uuid_into_bytes u)
    | None => Err (EIo OtherKind)
    end
  else Ok [].

Definition warning_bytes (e : Envelope) : bytes :=
  if Flags.contains (flags e) Flags.WARNING && bool_decide (direction e = Response) then
    be_bytes 2 (as_i16 (zlen (warnings e))) ++
    concat (map (fun w => be_bytes 2 (as_i16 (zlen w)) ++ w) (warnings e))
  else [].

Definition encode_with (e : Envelope) (compressor : Compression) : Result bytes :=
  let combined_version_byte := Z.lor (Version_to_u8 (version e)) (Direction_to_u8 (direction e)) in
  let v := [u8 combined_version_byte; u8 (encoded_flags e compressor)]
           ++ be_bytes 2 (stream_id e) ++ [u8 (Opcode_to_u8 (opcode e))] in
  let? tracing := tracing_bytes e in
  let flags_buffer := tracing ++ warning_bytes e in
  if encode_is_compressed e compressor then
    let? encoded_body := map_err ECompression
      (match flags_buffer with
       | [] => Compression_encode compressor (body e)
       | _ => Compression_encode compressor (flags_buffer ++ body e)
       end) in
    Ok (v ++ be_bytes 4 (as_i32 (zlen encoded_body)) ++ encoded_body)
  else
    match flags_buffer with
    | [] => Ok (v ++ be_bytes 4 (as_i32 (zlen (body e))) ++ body e)
    | _ =>
      let body_len := swrap 32 (as_i32 (zlen (body e)) + as_i32 (zlen flags_buffer)) in
      Ok (v ++ be_bytes 4 body_len ++ flags_buffer ++ body e)
    end.
End Codec.

(** ** Header enumerations *)

Lemma Version_byte_round_trip v d :
  Version_try_from (Z.lor (Version_to_u8 v) (Direction_to_u8 d)) = Ok v /\
  Direction_from (Z.lor (Version_to_u8 v) (Direction_to_u8 d)) = d.
Proof. by destruct v, d. Qed.

Lemma Opcode_round_trip o : Opcode_try_from (Opcode_to_u8 o) = Ok o.
Proof. by destruct o. Qed.

Lemma Opcode_try_from_inv b o : Opcode_try_from b = Ok o -> Opcode_to_u8 o = b.
Proof.
  unfold Opcode_try_from. intros H.
  repeat match type of H with
  | Ok _ = _ => injection H as <-; reflexivity
  | Err _ = _ => discriminate H
  | context [match ?x with _ => _ end] => is_var x; destruct x
  end.
Qed.

Lemma Opcode_byte o : 0 <= Opcode_to_u8 o < 256.
Proof. by destruct o. Qed.

Lemma version_byte_range v d : 0 <= Z.lor (Version_to_u8 v) (Direction_to_u8 d) < 256.
Proof. by destruct v, d. Qed.

(** Flags are finitely many: a decidable property of them is checked on each. *)
Lemma Flags_forall (P : Z -> Prop) `{!forall f, Decision (P f)} f :
  forallb (fun f => bool_decide (P f)) (seqZ 0 32) = true -> Flags.wf f -> P f.
Proof.
  intros Hall [H0 H1]. rewrite forallb_forall in Hall. eapply bool_decide_eq_true, Hall.
  apply list_elem_of_In, elem_of_seqZ. unfold Flags.all in *. lia.
Qed.

Ltac flags_tac f :=
  pattern f; match goal with |- ?P _ => apply (Flags_forall P) end; [by vm_compute|done].

Section CodecProofs.
Context {U : UuidLib} {L : Lz4Lib} {SN : SnapLib}.

(** The nine header bytes. *)
Definition hdr (vb fb sid ob n : Z) : bytes :=
  ([u8 vb; u8 fb] ++ be_bytes 2 sid ++ [u8 ob]) ++ be_bytes 4 n.

Lemma length_hdr vb fb sid ob n : length (hdr vb fb sid ob n) = 9%nat.
Proof. done. Qed.

Lemma zlen_hdr vb fb sid ob n tl : zlen (hdr vb fb sid ob n ++ tl) = 9 + zlen tl.
Proof. unfold zlen. rewrite length_app, length_hdr. lia. Qed.

Lemma hdr_fields vb fb sid ob n tl :
  let data := hdr vb fb sid ob n ++ tl in
  at_ 0 data = vb mod 256 /\ at_ 1 data = fb mod 256 /\ slice 2 4 data = be_bytes 2 sid /\
  at_ 4 data = ob mod 256 /\ slice 5 9 data = be_bytes 4 n /\ drop 9 data = tl.
Proof.
  unfold at_. simpl nth. rewrite !b2z_u8. repeat split; try reflexivity.
Qed.

Lemma hdr_envelope_len vb fb sid ob n tl :
  0 <= n < 2 ^ 31 -> header_envelope_len (hdr vb fb sid ob n ++ tl) = 9 + n.
Proof.
  intros Hn. unfold header_envelope_len.
  destruct (hdr_fields vb fb sid ob n tl) as (_ & _ & _ & _ & -> & _).
  rewrite (sint_be_bytes 4) by (unfold in_i; lia). rewrite (as_usize_small n) by (unfold in_u; lia).
  apply wrap_small. unfold in_u, ENVELOPE_HEADER_LEN. lia.
Qed.

(** What [from_buffer] does with the header's fields and the body bytes. *)
Definition parse_body (c : Compression) (v : Version) (d : Direction) (f : Z) (o : Opcode) (sid : Z)
    (bb : bytes) : outcome ParseEnvelopeError ParsedEnvelope :=
  let? full_body := map_err DecompressionError
    (Compression_decode (if Flags.contains f Flags.COMPRESSION then c else NoCompression) bb) in
  let? '(tid, cursor) := read_tracing_id f d full_body in
  let? '(ws, b) := read_warnings f cursor in
  Ok (mkParsed (9 + zlen bb) (mkEnvelope v d f o sid b tid ws)).

Lemma from_buffer_hdr c v d f o sid bb rest :
  Flags.wf f -> in_i 16 sid -> zlen bb < 2 ^ 31 ->
  from_buffer (hdr (Z.lor (Version_to_u8 v) (Direction_to_u8 d)) f sid (Opcode_to_u8 o) (zlen bb)
               ++ bb ++ rest) c
  = parse_body c v d f o sid bb.
Proof.
  intros Hf Hsid Hbb. pose proof (zlen_nonneg bb). pose proof (zlen_nonneg rest).
  unfold from_buffer. rewrite hdr_envelope_len by lia. rewrite zlen_hdr, zlen_app.
  unfold ENVELOPE_HEADER_LEN. rewrite !(proj2 (Z.ltb_ge _ _)) by lia.
  set (vb := Z.lor _ _).
  destruct (hdr_fields vb f sid (Opcode_to_u8 o) (zlen bb) (bb ++ rest))
    as (-> & -> & -> & -> & _ & Hdrop).
  rewrite (Z.mod_small vb) by apply version_byte_range.
  rewrite (Z.mod_small (Opcode_to_u8 o)) by apply Opcode_byte.
  destruct (Version_byte_round_trip v d) as [Hv Hd]. fold vb in Hv, Hd.
  rewrite Hv, Hd, Opcode_round_trip, (sint_be_bytes 2) by done. cbn [map_err obind].
  replace (Flags.from_bits_truncate (f mod 256)) with f
    by (symmetry; flags_tac f).
  replace (slice 9 (Z.to_nat (9 + zlen bb)) _) with bb; [done|].
  unfold slice. rewrite Hdrop, take_app_exact; [done|unfold zlen; lia].
Qed.

(** ** Well-formed envelopes *)

(** What the fields of an envelope mean together: the tracing id is there
    when the flag says so, and warnings travel only in responses. *)
Definition wf_envelope (e : Envelope) : Prop :=
  Flags.wf (flags e) /\ in_i 16 (stream_id e) /\
  is_some (tracing_id e)
    = Flags.contains (flags e) Flags.TRACING && bool_decide (direction e = Response) /\
  (if Flags.contains (flags e) Flags.WARNING
   then direction e = Response /\ wf_string_list (warnings e) else warnings e = []).

(** The envelope as it is read back: its flags are the ones written. *)
Definition with_encoded_flags (e : Envelope) (c : Compression) : Envelope :=
  mkEnvelope (version e) (direction e) (encoded_flags e c) (opcode e) (stream_id e)
    (body e) (tracing_id e) (warnings e).

Lemma encoded_flags_facts e c : Flags.wf (flags e) ->
  let f := encoded_flags e c in
  Flags.wf f /\ Flags.contains f Flags.COMPRESSION = encode_is_compressed e c /\
  Flags.contains f Flags.TRACING = Flags.contains (flags e) Flags.TRACING /\
  Flags.contains f Flags.WARNING = Flags.contains (flags e) Flags.WARNING.
Proof.
  intros Hf. unfold encoded_flags, Flags.wf. destruct (encode_is_compressed e c); simpl;
    flags_tac (flags e).
Qed.

(** ** [encode_with] writes the header and the body it describes *)

(** The bytes after the header, before compression. *)
Definition plain_body (e : Envelope) (tr : bytes) : bytes := (tr ++ warning_bytes e) ++ body e.

Lemma encode_with_inv e c bs :
  encode_with e c = Ok bs -> zlen bs < 2 ^ 31 + 9 ->
  exists tr bb, tracing_bytes e = Ok tr /\ zlen bb < 2 ^ 31 /\
    (if encode_is_compressed e c then Compression_encode c (plain_body e tr) = Ok bb
     else bb = plain_body e tr) /\
    bs = hdr (Z.lor (Version_to_u8 (version e)) (Direction_to_u8 (direction e)))
             (encoded_flags e c) (stream_id e) (Opcode_to_u8 (opcode e)) (zlen bb) ++ bb.
Proof.
  unfold encode_with, plain_body, hdr. destruct (tracing_bytes e) as [tr| |]; [|done..].
  cbn [obind]. set (v := [_; _] ++ _ ++ _). assert (Hv : zlen v = 5) by done. clearbody v.
  remember (tr ++ warning_bytes e) as fb eqn:Hfb.
  destruct (encode_is_compressed e c).
  - replace (match fb with [] => _ | _ => _ end) with (Compression_encode c (fb ++ body e))
      by by destruct fb.
    destruct (Compression_encode c (fb ++ body e)) as [bb| |] eqn:Eb; [|done..].
    cbn [map_err obind]. intros Hbs Hlen.
    assert (bs = v ++ be_bytes 4 (as_i32 (zlen bb)) ++ bb) as -> by congruence.
    rewrite !zlen_app, Hv, zlen_be_bytes in Hlen. pose proof (zlen_nonneg bb).
    exists tr, bb. rewrite <- Hfb, as_i32_small, <- app_assoc by lia. repeat split; try done; lia.
  - intros Hbs Hlen. exists tr, (fb ++ body e).
    enough (Hg : bs = v ++ be_bytes 4 (zlen (fb ++ body e)) ++ fb ++ body e /\ zlen (fb ++ body e) < 2 ^ 31)
      by (destruct Hg as [-> Hg]; rewrite <- Hfb, <- app_assoc; repeat split; done).
    clear Hfb. pose proof (zlen_nonneg fb). pose proof (zlen_nonneg (body e)). rewrite zlen_app.
    destruct fb as [|x fb].
    + assert (bs = v ++ be_bytes 4 (as_i32 (zlen (body e))) ++ body e) as -> by congruence.
      rewrite !zlen_app, Hv, zlen_be_bytes in Hlen. rewrite as_i32_small by lia. split; [done|]. rewrite zlen_nil. lia.
    + revert H Hbs. generalize (x :: fb) as fb'. intros fb' H Hbs.
      assert (bs = v ++ be_bytes 4 (swrap 32 (as_i32 (zlen (body e)) + as_i32 (zlen fb'))) ++ fb' ++ body e)
        as -> by congruence.
      rewrite !zlen_app, Hv, zlen_be_bytes in Hlen. rewrite (as_i32_small (zlen (body e))), (as_i32_small (zlen fb')) by lia.
      rewrite swrap_small by (unfold in_i; lia). split; [|lia]. do 3 f_equal. lia.
Qed.

(** ** Reading the parts of the body back *)

Lemma tracing_round_trip e tr rest f :
  tracing_bytes e = Ok tr ->
  Flags.contains f Flags.TRACING = Flags.contains (flags e) Flags.TRACING ->
  is_some (tracing_id e)
    = Flags.contains (flags e) Flags.TRACING && bool_decide (direction e = Response) ->
  read_tracing_id f (direction e) (tr ++ rest) = Ok (tracing_id e, rest).
Proof.
  unfold tracing_bytes, read_tracing_id. intros Htr -> Hsome.
  destruct (_ && _); destruct (tracing_id e) as [u|]; try done; injection Htr as <-; [|done].
  rewrite read_exact_app by apply Uuid_len. unfold decode_timeuuid. by rewrite Uuid_round_trip.
Qed.

Lemma warnings_round_trip e rest f :
  Flags.contains f Flags.WARNING = Flags.contains (flags e) Flags.WARNING ->
  (if Flags.contains (flags e) Flags.WARNING
   then direction e = Response /\ wf_string_list (warnings e) else warnings e = []) ->
  read_warnings f (warning_bytes e ++ rest) = Ok (warnings e, rest).
Proof.
  unfold read_warnings, warning_bytes. intros -> H.
  destruct (Flags.contains (flags e) Flags.WARNING); [|by rewrite H].
  destruct H as [-> Hw]. rewrite bool_decide_true by done. cbn [andb].
  change (be_bytes 2 _ ++ _) with (serialize_str_list (warnings e)).
  by rewrite (round_trip (dec := from_cursor_string_list) _ _ Hw).
Qed.

Lemma parse_body_plain e c tr bb :
  wf_envelope e -> tracing_bytes e = Ok tr ->
  (if encode_is_compressed e c then Compression_encode c (plain_body e tr) = Ok bb
   else bb = plain_body e tr) ->
  parse_body c (version e) (direction e) (encoded_flags e c) (opcode e) (stream_id e) bb
  = Ok (mkParsed (9 + zlen bb) (with_encoded_flags e c)).
Proof.
  intros (Hf & _ & Htid & Hw) Htr Hbb. destruct (encoded_flags_facts e c Hf) as (_ & Hc & Ht & Hwf).
  unfold parse_body. rewrite Hc.
  assert (Compression_decode (if encode_is_compressed e c then c else NoCompression) bb
          = Ok (plain_body e tr)) as ->.
  { destruct (encode_is_compressed e c); [by apply Compression_decode_encode|by rewrite Hbb]. }
  cbn [map_err obind]. unfold plain_body. rewrite <- app_assoc.
  rewrite (tracing_round_trip e) by done. cbn [obind].
  rewrite (warnings_round_trip e) by done. done.
Qed.

Lemma encode_decode e c bs rest :
  wf_envelope e -> encode_with e c = Ok bs -> zlen bs < 2 ^ 31 + 9 ->
  from_buffer (bs ++ rest) c = Ok (mkParsed (zlen bs) (with_encoded_flags e c)).
Proof.
  intros He Hbs Hlen. destruct (encode_with_inv e c bs Hbs Hlen) as (tr & bb & Htr & Hbb & Hc & ->).
  pose proof He as (Hf & Hsid & _). rewrite zlen_hdr, <- app_assoc.
  rewrite from_buffer_hdr by (try done; by apply encoded_flags_facts).
  by apply parse_body_plain with tr.
Qed.

(** ** Progress and locality of [from_buffer] *)

Lemma at_app i data more : (i < length data)%nat -> at_ i (data ++ more) = at_ i data.
Proof. intros. unfold at_. by rewrite app_nth1. Qed.

Lemma slice_app a b data more : (a <= b <= length data)%nat -> slice a b (data ++ more) = slice a b data.
Proof.
  intros. unfold slice. rewrite drop_app_le by lia. apply take_app_le. rewrite length_drop. lia.
Qed.

(** The outcome is decided once the header and the body are there. *)
Lemma header_len_app data more : ENVELOPE_HEADER_LEN <= zlen data ->
  header_envelope_len (data ++ more) = header_envelope_len data.
Proof.
  unfold ENVELOPE_HEADER_LEN, zlen. intros H. unfold header_envelope_len.
  by rewrite slice_app by lia.
Qed.

Lemma header_len_nonneg data : 0 <= header_envelope_len data.
Proof. unfold header_envelope_len. pose proof (wrap_range 64 (ENVELOPE_HEADER_LEN + as_usize (swrap 32 (be_uint (slice 5 9 data)))) ltac:(lia)) as []. done. Qed.

Lemma from_buffer_waits data c :
  from_buffer data c = Err NotEnoughBytes <->
  zlen data < ENVELOPE_HEADER_LEN \/ zlen data < header_envelope_len data.
Proof.
  unfold from_buffer. split.
  - destruct (Z.ltb_spec (zlen data) ENVELOPE_HEADER_LEN); [by left|].
    destruct (Z.ltb_spec (zlen data) (header_envelope_len data)); [by right|].
    unfold read_tracing_id, read_warnings, map_err, obind.
    intros Hx. exfalso. repeat case_match; by simplify_eq.
  - intros [H|H]; rewrite (proj2 (Z.ltb_lt _ _) H); [done|by case_match].
Qed.

Lemma from_buffer_app data more c :
  from_buffer data c <> Err NotEnoughBytes -> from_buffer (data ++ more) c = from_buffer data c.
Proof.
  intros Hne. assert (H : ENVELOPE_HEADER_LEN <= zlen data /\ header_envelope_len data <= zlen data).
  { rewrite from_buffer_waits in Hne. lia. }
  clear Hne. destruct H as [H1 H2]. pose proof (header_len_nonneg data) as H0.
  unfold from_buffer. rewrite header_len_app, zlen_app by done. pose proof (zlen_nonneg more).
  rewrite !(proj2 (Z.ltb_ge (_ + _) _)), !(proj2 (Z.ltb_ge (zlen data) _)) by lia.
  unfold zlen, ENVELOPE_HEADER_LEN in *. destruct (Z.ltb_spec (header_envelope_len data) 9).
  - by rewrite !at_app by lia.
  - by rewrite !at_app, !slice_app by lia.
Qed.

Lemma from_buffer_consumed data c p :
  from_buffer data c = Ok p ->
  ENVELOPE_HEADER_LEN <= envelope_len p <= zlen data /\ envelope_len p = header_envelope_len data.
Proof.
  intros H. assert (Hw : ~ (zlen data < ENVELOPE_HEADER_LEN \/ zlen data < header_envelope_len data))
    by (rewrite <- (from_buffer_waits data c); congruence).
  revert H. unfold from_buffer, obind, map_err. repeat case_match; intros; simplify_eq; simpl; try done;
    try lia.
Qed.

Lemma proper_prefix_waits e c bs p q :
  encode_with e c = Ok bs -> zlen bs < 2 ^ 31 + 9 -> bs = p ++ q -> q <> [] ->
  from_buffer p c = Err NotEnoughBytes.
Proof.
  intros Hbs Hlen Hpq Hq. apply from_buffer_waits.
  destruct (encode_with_inv e c bs Hbs Hlen) as (tr & bb & _ & Hbb & _ & Hh).
  destruct (Z.lt_ge_cases (zlen p) ENVELOPE_HEADER_LEN) as [H|H]; [by left|right].
  rewrite <- (header_len_app p q H), <- Hpq, Hh.
  pose proof (zlen_nonneg bb). rewrite hdr_envelope_len by lia.
  apply (f_equal zlen) in Hpq. rewrite Hh, zlen_hdr, zlen_app in Hpq.
  destruct q as [|x q]; [done|]. rewrite zlen_cons in Hpq. pose proof (zlen_nonneg q). lia.
Qed.

(** ** Properties *)

(** C7: an encoded envelope, followed by any bytes, is read back as
    the same envelope, and exactly its own bytes are consumed.  Only the
    compression flag may differ: it records whether the body was compressed. *)
Theorem envelope_round_trip e c bs rest :
  wf_envelope e -> encode_with e c = Ok bs -> zlen bs < 2 ^ 31 + 9 ->
  from_buffer (bs ++ rest) c = Ok (mkParsed (zlen bs) (with_encoded_flags e c)).
Proof. apply encode_decode. Qed.

(** Without compression (always from v5 on) encoding fails in one case
    only, a response flagged for tracing without a tracing id; the bytes
    written are the header and the body sections. *)
Theorem encode_with_total e c :
  encode_is_compressed e c = false ->
  match encode_with e c with
  | Ok bs => exists tr, tracing_bytes e = Ok tr /\
             zlen bs = 9 + zlen tr + zlen (warning_bytes e) + zlen (body e)
  | Err err => err = EIo OtherKind /\ tracing_id e = None /\ direction e = Response /\
               Flags.contains (flags e) Flags.TRACING = true
  | Panic => False
  end.
Proof.
  intros Hc. unfold encode_with. rewrite Hc. destruct (tracing_bytes e) as [tr| |] eqn:Ht; cbn [obind].
  - destruct (tr ++ warning_bytes e) as [|x l] eqn:Ef; exists tr; split; try done.
    + apply app_nil in Ef as [-> ->]. rewrite !zlen_app. simpl. rewrite !zlen_be_bytes. unfold zlen. simpl. lia.
    + rewrite app_assoc, <- Ef, !zlen_app, !zlen_be_bytes. unfold zlen. simpl. lia.
  - unfold tracing_bytes in Ht. destruct (_ && _) eqn:E; [|done].
    apply andb_true_iff in E as [E1 E2%bool_decide_eq_true]. by destruct (tracing_id e); simplify_eq.
  - unfold tracing_bytes in Ht. by repeat case_match.
Qed.

(** On every proper prefix of an encoded envelope [from_buffer]
    asks for more bytes, and does nothing else. *)
Theorem envelope_prefix_waits e c bs p q :
  encode_with e c = Ok bs -> zlen bs < 2 ^ 31 + 9 -> bs = p ++ q -> q <> [] ->
  from_buffer p c = Err NotEnoughBytes /\ check_envelope_size p = Err CsNotEnoughBytes.
Proof.
  intros H1 H2 H3 H4. pose proof (proper_prefix_waits e c bs p q H1 H2 H3 H4) as H. split; [done|].
  apply from_buffer_waits in H. unfold check_envelope_size.
  destruct H as [H|H]; rewrite (proj2 (Z.ltb_lt _ _) H); [done|by case_match].
Qed.

(** Once [from_buffer] has not asked for more bytes, further bytes
    in the buffer change nothing; and a parsed envelope has consumed at
    least its header and no more than the buffer. *)
Theorem from_buffer_stable data more c :
  from_buffer data c <> Err NotEnoughBytes ->
  from_buffer (data ++ more) c = from_buffer data c /\
  forall p, from_buffer data c = Ok p -> ENVELOPE_HEADER_LEN <= envelope_len p <= zlen data.
Proof.
  intros H. split; [by apply from_buffer_app|]. intros p Hp. by apply from_buffer_consumed in Hp as [? _].
Qed.

(** [check_envelope_size] predicts [from_buffer]: it waits exactly
    when parsing waits, reports the length parsing consumes, and the same
    unsupported version. *)
Theorem check_envelope_size_agrees data c :
  (check_envelope_size data = Err CsNotEnoughBytes <-> from_buffer data c = Err NotEnoughBytes) /\
  (forall p, from_buffer data c = Ok p -> check_envelope_size data = Ok (envelope_len p)) /\
  (forall v, check_envelope_size data = Err (CsUnsupportedVersion v)
             <-> from_buffer data c = Err (UnsupportedVersion v)).
Proof.
  assert (Hw := from_buffer_waits data c). assert (Hc := from_buffer_consumed data c).
  unfold check_envelope_size. destruct (Z.ltb_spec (zlen data) ENVELOPE_HEADER_LEN) as [H1|H1].
  { rewrite (proj2 Hw) by (by left). split; [done|]. split; done. }
  destruct (Z.ltb_spec (zlen data) (header_envelope_len data)) as [H2|H2].
  { rewrite (proj2 Hw) by (by right). split; [done|]. split; done. }
  split; [|split].
  - rewrite Hw. split; [|lia]. by destruct (Version_try_from _).
  - intros p Hp. destruct (Hc p Hp) as [_ ->]. clear Hc Hw. revert Hp. unfold from_buffer.
    rewrite !(proj2 (Z.ltb_ge _ _)) by lia. by destruct (Version_try_from _).
  - intros v. unfold from_buffer. rewrite !(proj2 (Z.ltb_ge (zlen data) _)) by lia.
    destruct (Version_try_from (at_ 0 data)); cbn [map_err obind]; [|split; by intros [= ->]|done].
    split; [done|]. clear. unfold read_tracing_id, read_warnings, map_err, obind. intros.
    exfalso. repeat case_match; by simplify_eq.
Qed.
End CodecProofs.

(** The version, direction and opcode bytes are decoded to what was
      encoded, and an opcode byte is accepted only if it is one that is written. *)
Theorem header_bytes_bijective v d o b :
  Version_try_from (Z.lor (Version_to_u8 v) (Direction_to_u8 d)) = Ok v /\
  Direction_from (Z.lor (Version_to_u8 v) (Direction_to_u8 d)) = d /\
  (Opcode_try_from b = Ok o <-> b = Opcode_to_u8 o).
Proof.
  destruct (Version_byte_round_trip v d) as [-> ->]. repeat split.
  - intros H. by apply Opcode_try_from_inv in H.
  - intros ->. apply Opcode_round_trip.
Qed.

(** ** Witnesses *)

Module EnvelopeSamples.
#[local] Existing Instances uuid_bytes stored_lz4 stored_snap.

(** A traced, warned v4 response, compressed. *)
Definition sample : Envelope :=
  mkEnvelope V4 Response (Z.lor Flags.TRACING Flags.WARNING) OpResult (-3) (lit "rows")
    (Uuid_from_slice (replicate 16 (u8 7))) [lit "tombstones"].
Definition sample_bytes : bytes :=
  match encode_with sample Lz4 with Ok b => b | _ => [] end.
(** The same envelope in v5, where compression is the frame's business. *)
Definition sample_v5 : Envelope :=
  mkEnvelope V5 Response Flags.TRACING OpResult 9 (lit "rows") None [].

Lemma sample_wf : wf_envelope sample.
Proof.
  unfold wf_envelope. repeat split; try (by vm_compute); try (unfold in_i; simpl; lia).
  repeat constructor.
Qed.

Lemma envelope_round_trip_witness :
  from_buffer (sample_bytes ++ [u8 1]) Lz4 = Ok (mkParsed (zlen sample_bytes) (with_encoded_flags sample Lz4)).
Proof.
  apply (envelope_round_trip sample Lz4 sample_bytes [u8 1]);
    [exact sample_wf|by vm_compute|by vm_compute].
Defined.

Lemma encode_with_total_witness :
  match encode_with sample_v5 Lz4 with
  | Ok bs => exists tr, tracing_bytes sample_v5 = Ok tr /\
             zlen bs = 9 + zlen tr + zlen (warning_bytes sample_v5) + zlen (body sample_v5)
  | Err err => err = EIo OtherKind /\ tracing_id sample_v5 = None /\ direction sample_v5 = Response /\
               Flags.contains (flags sample_v5) Flags.TRACING = true
  | Panic => False
  end.
Proof. apply (encode_with_total sample_v5 Lz4). by vm_compute. Defined.

Lemma envelope_prefix_waits_witness :
  from_buffer (take 20 sample_bytes) Lz4 = Err NotEnoughBytes /\
  check_envelope_size (take 20 sample_bytes) = Err CsNotEnoughBytes.
Proof.
  apply (envelope_prefix_waits sample Lz4 sample_bytes _ (drop 20 sample_bytes)); by vm_compute.
Defined.

Lemma from_buffer_stable_witness :
  from_buffer (sample_bytes ++ [u8 9]) Lz4 = from_buffer sample_bytes Lz4 /\
  forall p, from_buffer sample_bytes Lz4 = Ok p ->
    ENVELOPE_HEADER_LEN <= envelope_len p <= zlen sample_bytes.
Proof. apply (from_buffer_stable sample_bytes [u8 9] Lz4). by vm_compute. Defined.
End EnvelopeSamples.
