(* ===== verification/Frame.v ===== *)
(** * Frames: [frame/frame_encoder.rs], single frames of [frame/frame_decoder.rs]

    From v5 on, envelopes travel in frames: a header with the payload length
    and a self-contained bit, protected by a CRC-24, the payload, and its
    CRC-32.  The three encoders are instances of the trait [FrameEncoder]; the
    two [try_decode_frame] functions are the inverse of the v5 encoders.
    [Framed] is the contract the decoders of [FrameStream] rely on. *)

From S2P Require Import Prelude Types Wire Compression Crc Envelope.
Local Open Scope Z_scope.
Local Open Scope cdrs_scope.

(** ** The trait [FrameEncoder] *)

Class FrameEncoder (E : Type) : Type := {
  can_fit : E -> Z -> bool;
  reset : E -> E;
  add_envelope : E -> bytes -> E;
  finalize_self_contained : E -> E * bytes;
  finalize_non_self_contained : E -> bytes -> outcome Error (E * (Z * bytes));
  has_envelopes : E -> bool }.

(** [usize::saturating_add] *)
Definition saturating_add (a b : Z) : Z := Z.min (a + b) (2 ^ 64 - 1).

(** [put3b(&mut buffer[at..], value)] *)
Definition put3b (buffer : bytes) (at_ : nat) (value : Z) : bytes :=
  take at_ buffer ++ take 3 (le_bytes 4 value) ++ drop (at_ + 3) buffer.

Section Encoders.
Context {C : Crc32Lib} {L : Lz4Lib}.

Definition add_trailer (buffer : bytes) (payload_start : nat) : bytes :=
  buffer ++ le_bytes 4 (crc32 (drop payload_start buffer)).

(** ** [LegacyFrameEncoder]: one envelope per buffer *)

Record LegacyFrameEncoder : Type := mkLegacyEnc { le_buffer : bytes }.

Definition bytes_is_empty (b : bytes) : bool := match b with [] => true | _ => false end.

#[export] Instance Legacy_FrameEncoder : FrameEncoder LegacyFrameEncoder := {|
  can_fit e _ := bytes_is_empty (le_buffer e);
  reset e := mkLegacyEnc [];
  add_envelope e envelope := mkLegacyEnc envelope;
  finalize_self_contained e := (e, le_buffer e);
  finalize_non_self_contained e envelope := Ok (mkLegacyEnc envelope, (zlen envelope, envelope));
  has_envelopes e := negb (bytes_is_empty (le_buffer e)) |}.

(** ** [UncompressedFrameEncoder] *)

Record UncompressedFrameEncoder : Type := mkUncompressedEnc { ue_buffer : bytes }.

Definition UncompressedFrameEncoder_default : UncompressedFrameEncoder :=
  mkUncompressedEnc (replicate 6 Byte.x00).

Definition Uncompressed_write_header (buffer : bytes) (self_contained : bool) : bytes :=
  let len := wrap 64 (zlen buffer - UNCOMPRESSED_FRAME_HEADER_LENGTH) in
  let len := if self_contained then Z.lor len (Z.shiftl 1 17) else len in
  let buffer := put3b buffer 0 (swrap 32 len) in
  put3b buffer 3 (crc24 (take 3 (le_bytes 8 len))).

#[export] Instance Uncompressed_FrameEncoder : FrameEncoder UncompressedFrameEncoder := {|
  can_fit e len :=
    saturating_add (wrap 64 (zlen (ue_buffer e) - UNCOMPRESSED_FRAME_HEADER_LENGTH)) len
    <? PAYLOAD_SIZE_LIMIT;
  reset e := mkUncompressedEnc (take 6 (ue_buffer e));
  add_envelope e envelope := mkUncompressedEnc (ue_buffer e ++ envelope);
  finalize_self_contained e :=
    let buffer := add_trailer (Uncompressed_write_header (ue_buffer e) true) 6 in
    (mkUncompressedEnc buffer, buffer);
  finalize_non_self_contained e envelope :=
    let max_size := Z.min (zlen envelope) (PAYLOAD_SIZE_LIMIT - 1) in
    let buffer := ue_buffer e ++ take (Z.to_nat max_size) envelope in
    let buffer := add_trailer (Uncompressed_write_header buffer false) 6 in
    Ok (mkUncompressedEnc buffer, (max_size, buffer));
  has_envelopes e := UNCOMPRESSED_FRAME_HEADER_LENGTH <? zlen (ue_buffer e) |}.

(** ** [Lz4FrameEncoder] *)

Record Lz4FrameEncoder : Type := mkLz4Enc { ze_buffer : bytes }.

Definition Lz4FrameEncoder_default : Lz4FrameEncoder := mkLz4Enc (replicate 8 Byte.x00).

Definition Lz4_write_header (buffer : bytes) (uncompressed_size : Z) (self_contained : bool) : bytes :=
  let len := wrap 64 (zlen buffer - COMPRESSED_FRAME_HEADER_LENGTH) in
  let header := Z.lor len (wrap 64 (Z.shiftl uncompressed_size 17)) in
  let header := if self_contained then Z.lor header (Z.shiftl 1 34) else header in
  let crc := crc24 (take 5 (le_bytes 8 header)) in
  let header := Z.lor header (wrap 64 (Z.shiftl crc 40)) in
  le_bytes 8 header ++ drop 8 buffer.

(** [Vec::resize(n, 0)] *)
Definition resize (buffer : bytes) (n : nat) : bytes :=
  take n buffer ++ replicate (n - length buffer) Byte.x00.

(** [compress_into] writes the block at the start of its output slice. *)
Definition Lz4_finalize_non_self_contained (e : Lz4FrameEncoder) (envelope : bytes)
  : outcome Error (Lz4FrameEncoder * (Z * bytes)) :=
  let uncompressed_size := Z.min (zlen envelope) (PAYLOAD_SIZE_LIMIT - 1) in
  let offset := uncompressed_size in
  let chunk := take (Z.to_nat uncompressed_size) envelope in
  let buffer := resize (ze_buffer e)
    (Z.to_nat (lz4_max_output_size uncompressed_size
               + COMPRESSED_FRAME_HEADER_LENGTH + FRAME_TRAILER_LENGTH)) in
  match lz4_compress_into chunk (zlen buffer - COMPRESSED_FRAME_HEADER_LENGTH) with
  | None => Panic
  | Some block =>
    let buffer := take 8 buffer ++ block ++ drop (8 + length block) buffer in
    let compressed_size := zlen block in
    let '(buffer, compressed_size, uncompressed_size) :=
      if PAYLOAD_SIZE_LIMIT <=? compressed_size
      then (take 8 buffer ++ chunk ++ drop (8 + length chunk) buffer, uncompressed_size, 0)
      else (buffer, compressed_size, uncompressed_size) in
    let buffer := take (Z.to_nat (COMPRESSED_FRAME_HEADER_LENGTH + compressed_size)) buffer in
    let buffer := add_trailer (Lz4_write_header buffer uncompressed_size false) 8 in
    Ok (mkLz4Enc buffer, (offset, buffer))
  end.

#[export] Instance Lz4_FrameEncoder : FrameEncoder Lz4FrameEncoder := {|
  can_fit e len :=
    lz4_max_output_size
      (saturating_add (wrap 64 (zlen (ze_buffer e) - COMPRESSED_FRAME_HEADER_LENGTH)) len)
    <? PAYLOAD_SIZE_LIMIT;
  reset e := mkLz4Enc (take 8 (ze_buffer e));
  add_envelope e envelope := mkLz4Enc (ze_buffer e ++ envelope);
  finalize_self_contained e :=
    let uncompressed_size := zlen (ze_buffer e) - COMPRESSED_FRAME_HEADER_LENGTH in
    let compressed_payload := lz4_compress (drop 8 (ze_buffer e)) in
    let buffer := take 8 (ze_buffer e) ++ compressed_payload in
    let buffer := add_trailer (Lz4_write_header buffer uncompressed_size true) 8 in
    (mkLz4Enc buffer, buffer);
  finalize_non_self_contained := Lz4_finalize_non_self_contained;
  has_envelopes e := COMPRESSED_FRAME_HEADER_LENGTH <? zlen (ze_buffer e) |}.

(** ** [try_decode_frame] *)

(** [Ok (Some (self_contained, payload), remaining)] when a frame was taken
    off the buffer, [Ok (None, buffer)] when it is incomplete. *)
Definition frame_result : Type := outcome Error (option (bool * bytes) * bytes).

Definition create_header_crc_mismatch_error : Error :=
  EGeneral "Header CRC mismatch - expected {header_crc24}, found {computed_crc}.".
Definition create_payload_crc_mismatch_error : Error :=
  EGeneral "Payload CRC mismatch - read {payload_crc32}, computed {computed_crc}.".

(** [for (i, byte) in ...enumerate() { header |= (byte as i64) << (8 * i) }] *)
Fixpoint header_bytes (i : Z) (bs : bytes) (header : Z) : Z :=
  match bs with
  | [] => header
  | b :: bs' => header_bytes (i + 1) bs' (Z.lor header (Z.shiftl (b2z b) (8 * i)))
  end.

Definition Uncompressed_header (buffer : bytes) : Z :=
  if 8 <=? zlen buffer
  then Z.land (swrap 64 (le_uint (take 8 buffer))) 0xffffffffffff
  else header_bytes 0 (take 6 buffer) 0.

Definition Uncompressed_try_decode_frame (buffer : bytes) : frame_result :=
  let buffer_len := zlen buffer in
  if buffer_len <? UNCOMPRESSED_FRAME_HEADER_LENGTH then Ok (None, buffer)
  else
    let header := Uncompressed_header buffer in
    let header_crc24 := swrap 32 (Z.land (Z.shiftr header 24) 0xffffff) in
    let computed_crc := crc24 (take 3 (le_bytes 8 header)) in
    if negb (header_crc24 =? computed_crc) then Err create_header_crc_mismatch_error
    else
      let payload_length := Z.land header 0x1ffff in
      let payload_end := UNCOMPRESSED_FRAME_HEADER_LENGTH + payload_length in
      let frame_end := payload_end + FRAME_TRAILER_LENGTH in
      if buffer_len <? frame_end then Ok (None, buffer)
      else
        let payload_crc32 := le_uint (slice (Z.to_nat payload_end) (Z.to_nat frame_end) buffer) in
        let computed_crc := crc32 (slice 6 (Z.to_nat payload_end) buffer) in
        if negb (payload_crc32 =? computed_crc) then Err create_payload_crc_mismatch_error
        else
          let self_contained := negb (Z.land header (Z.shiftl 1 17) =? 0) in
          let payload := slice 6 (Z.to_nat payload_end) buffer in
          Ok (Some (self_contained, payload), drop (Z.to_nat frame_end) buffer).

Definition Lz4_try_decode_frame (buffer : bytes) : frame_result :=
  let buffer_len := zlen buffer in
  if buffer_len <? COMPRESSED_FRAME_HEADER_LENGTH then Ok (None, buffer)
  else
    let header := swrap 64 (le_uint (take 8 buffer)) in
    let header_crc24 := swrap 32 (Z.land (Z.shiftr header 40) 0xffffff) in
    let computed_crc := crc24 (take 5 (le_bytes 8 header)) in
    if negb (header_crc24 =? computed_crc) then Err create_header_crc_mismatch_error
    else
      let compressed_length := Z.land header 0x1ffff in
      let compressed_payload_end := compressed_length + COMPRESSED_FRAME_HEADER_LENGTH in
      let frame_end := compressed_payload_end + FRAME_TRAILER_LENGTH in
      if buffer_len <? frame_end then Ok (None, buffer)
      else
        let compressed_payload_crc32 :=
          le_uint (slice (Z.to_nat compressed_payload_end) (Z.to_nat frame_end) buffer) in
        let compressed := slice 8 (Z.to_nat compressed_payload_end) buffer in
        let computed_crc := crc32 compressed in
        if negb (compressed_payload_crc32 =? computed_crc)
        then Err create_payload_crc_mismatch_error
        else
          let self_contained := negb (Z.land header (Z.shiftl 1 34) =? 0) in
          let uncompressed_length := Z.land (Z.shiftr header 17) 0x1ffff in
          if uncompressed_length =? 0
          then Ok (Some (self_contained, compressed), drop (Z.to_nat frame_end) buffer)
          else
            match lz4_decompress compressed uncompressed_length with
            | Some payload => Ok (Some (self_contained, payload), drop (Z.to_nat frame_end) buffer)
            | None => Err (ECompression (Lz4Error OtherKind))
            end.
End Encoders.

(** ** The frame contract *)

(** [fr] is one complete frame with payload [payload]: it is taken off the
    front of any buffer, and each proper prefix is left for later. *)
Definition Framed (try_decode : bytes -> frame_result) (fr : bytes) (sc : bool) (payload : bytes) : Prop :=
  fr <> [] /\
  (forall rest, try_decode (fr ++ rest) = Ok (Some (sc, payload), rest)) /\
  (forall p q, fr = p ++ q -> q <> [] -> try_decode p = Ok (None, p)).

Lemma take_le_bytes n m z : (m <= n)%nat -> take m (le_bytes n z) = le_bytes m z.
Proof.
  revert n z. induction m as [|m IH]; intros [|n] z H; try done; [lia|].
  cbn [le_bytes take]. f_equal. apply IH. lia.
Qed.

(** A proper prefix is shorter and agrees on what it has. *)
Lemma proper_prefix_facts (fr p q : bytes) n : fr = p ++ q -> q <> [] -> (n <= length p)%nat ->
  take n p = take n fr /\ zlen p < zlen fr.
Proof.
  intros -> Hq Hn. split; [by rewrite take_app_le|].
  rewrite zlen_app. destruct q; [done|]. rewrite zlen_cons. pose proof (zlen_nonneg q). lia.
Qed.

Definition b2n (b : bool) : Z := if b then 1 else 0.

Section UncompressedProofs.
Context {C : Crc32Lib}.

Lemma header_bytes_spec bs i h : 0 <= i -> 0 <= h < 2 ^ (8 * i) ->
  header_bytes i bs h = h + le_uint bs * 2 ^ (8 * i).
Proof.
  revert i h. induction bs as [|b bs IH]; intros i h Hi Hh; [simpl; lia|].
  cbn [header_bytes le_uint]. pose proof (b2z_range b).
  rewrite lor_disjoint by lia.
  assert (Hp : 2 ^ (8 * (i + 1)) = 256 * 2 ^ (8 * i))
    by (replace (8 * (i + 1)) with (8 + 8 * i) by lia; rewrite Z.pow_add_r by lia; done).
  rewrite IH by (rewrite ?Hp; nia). rewrite Hp. lia.
Qed.

Lemma Uncompressed_header_spec buffer : 6 <= zlen buffer ->
  Uncompressed_header buffer = le_uint (take 6 buffer).
Proof.
  intros H. unfold Uncompressed_header. destruct (Z.leb_spec 8 (zlen buffer)) as [H8|H8].
  - change 0xffffffffffff with (2 ^ 48 - 1). rewrite land_mask by lia.
    pose proof (swrap_bits 64 0 48 (le_uint (take 8 buffer)) ltac:(lia) ltac:(lia) ltac:(lia) ltac:(lia)) as Hb.
    rewrite Z.pow_0_r, !Z.div_1_r in Hb. rewrite Hb.
    assert (take 8 buffer = take 6 buffer ++ take 2 (drop 6 buffer)) as ->
      by (rewrite take_drop_commute, <- (take_drop 6 (take 8 buffer)) at 1; by rewrite take_take).
    assert (Hl : length (take 6 buffer) = 6%nat) by (rewrite length_take; unfold zlen in *; lia).
    rewrite le_uint_app, Hl. change (2 ^ (8 * Z.of_nat 6)) with (2 ^ 48).
    rewrite (Z.mul_comm (2 ^ 48)), Z.mod_add by lia.
    pose proof (le_uint_range (take 6 buffer)) as Hr. rewrite Hl in Hr. by apply Z.mod_small.
  - rewrite header_bytes_spec by (simpl; lia). simpl (2 ^ _). lia.
Qed.

(** The frame as bytes. *)
Definition u_word (sc : bool) (payload : bytes) : Z := zlen payload + b2n sc * 2 ^ 17.
Definition u_header (sc : bool) (payload : bytes) : bytes :=
  le_bytes 3 (u_word sc payload) ++ le_bytes 3 (crc24 (le_bytes 3 (u_word sc payload))).
Definition u_frame (sc : bool) (payload : bytes) : bytes :=
  u_header sc payload ++ payload ++ le_bytes 4 (crc32 payload).

Lemma u_word_range sc payload : zlen payload < 2 ^ 17 -> 0 <= u_word sc payload < 2 ^ 18.
Proof. pose proof (zlen_nonneg payload). unfold u_word, b2n. destruct sc; lia. Qed.

Lemma zlen_u_frame sc payload : zlen (u_frame sc payload) = 10 + zlen payload.
Proof. unfold u_frame, u_header, zlen. rewrite !length_app, !length_le_bytes. lia. Qed.

Lemma Uncompressed_header_written buffer payload sc :
  length buffer = 6%nat -> zlen payload < 2 ^ 17 ->
  Uncompressed_write_header (buffer ++ payload) sc = u_header sc payload ++ payload.
Proof.
  intros Hb Hp. unfold Uncompressed_write_header, u_header.
  assert (Hlen : wrap 64 (zlen (buffer ++ payload) - UNCOMPRESSED_FRAME_HEADER_LENGTH) = zlen payload).
  { rewrite zlen_app. unfold zlen at 1. rewrite Hb. unfold UNCOMPRESSED_FRAME_HEADER_LENGTH.
    rewrite wrap_small; [lia|]. pose proof (zlen_nonneg payload). unfold in_u. lia. }
  rewrite Hlen. pose proof (zlen_nonneg payload) as H0.
  assert (Hw : (if sc then Z.lor (zlen payload) (Z.shiftl 1 17) else zlen payload) = u_word sc payload).
  { unfold u_word, b2n. destruct sc; [|lia]. rewrite lor_disjoint by lia. lia. }
  rewrite Hw. pose proof (u_word_range sc payload Hp).
  rewrite swrap_small by (unfold in_i; lia). rewrite take_le_bytes by lia.
  unfold put3b. rewrite !take_le_bytes by lia.
  do 6 (destruct buffer as [|? buffer]; [done|]). destruct buffer; [|done].
  simpl take. simpl drop. rewrite drop_0. by rewrite <- app_assoc.
Qed.

(** What the decoder reads from a header that was written. *)
Lemma u_header_decoded sc payload buffer :
  zlen payload < 2 ^ 17 -> take 6 buffer = u_header sc payload -> 6 <= zlen buffer ->
  Uncompressed_try_decode_frame buffer =
    if zlen buffer <? 6 + zlen payload + 4 then Ok (None, buffer)
    else if negb (le_uint (slice (6 + length payload) (10 + length payload) buffer)
                  =? crc32 (slice 6 (6 + length payload) buffer))
         then Err create_payload_crc_mismatch_error
         else Ok (Some (sc, slice 6 (6 + length payload) buffer), drop (10 + length payload) buffer).
Proof.
  intros Hp Ht Hb. unfold Uncompressed_try_decode_frame, UNCOMPRESSED_FRAME_HEADER_LENGTH, FRAME_TRAILER_LENGTH.
  rewrite (proj2 (Z.ltb_ge _ 6)) by lia. rewrite Uncompressed_header_spec, Ht by done.
  pose proof (u_word_range sc payload Hp) as Hw. pose proof (zlen_nonneg payload) as H0.
  set (crc := crc24 (le_bytes 3 (u_word sc payload))). assert (Hc : in_u 24 crc) by apply crc24_range.
  assert (Hh : le_uint (u_header sc payload) = u_word sc payload + crc * 2 ^ 24).
  { unfold u_header. rewrite le_uint_app, length_le_bytes.
    rewrite (uint_le_bytes 3 24), (uint_le_bytes 3 24) by (unfold in_u in *; lia). fold crc.
    change (2 ^ (8 * Z.of_nat 3)) with (2 ^ 24). lia. }
  rewrite Hh. set (h := u_word sc payload + crc * 2 ^ 24). unfold in_u in Hc.
  assert (E1 : swrap 32 (Z.land (Z.shiftr h 24) 0xffffff) = crc).
  { rewrite Z.shiftr_div_pow2 by lia. change 0xffffff with (2 ^ 24 - 1). rewrite land_mask by lia.
    unfold h. rewrite Z.div_add, Z.div_small, Z.add_0_l, Z.mod_small by lia.
    apply swrap_small; unfold in_i; lia. }
  assert (E2 : take 3 (le_bytes 8 h) = le_bytes 3 (u_word sc payload)).
  { rewrite take_le_bytes by lia. rewrite <- (le_bytes_mod 3 h). change (8 * Z.of_nat 3) with 24.
    unfold h. rewrite Z.mod_add, Z.mod_small by lia. done. }
  assert (E3 : Z.land h 0x1ffff = zlen payload).
  { change 0x1ffff with (2 ^ 17 - 1). rewrite land_mask by lia. unfold h, u_word.
    replace (zlen payload + b2n sc * 2 ^ 17 + crc * 2 ^ 24)
      with (zlen payload + (b2n sc + crc * 2 ^ 7) * 2 ^ 17) by lia.
    rewrite Z.mod_add, Z.mod_small by lia. done. }
  assert (E4 : negb (Z.land h (Z.shiftl 1 17) =? 0) = sc).
  { change (Z.shiftl 1 17) with (2 ^ 17). rewrite land_pow2, negb_involutive, testbit_div by lia.
    unfold h, u_word.
    replace (zlen payload + b2n sc * 2 ^ 17 + crc * 2 ^ 24)
      with (zlen payload + (b2n sc + crc * 2 ^ 7) * 2 ^ 17) by lia.
    rewrite Z.div_add, Z.div_small, Z.add_0_l by lia.
    change (2 ^ 7) with (2 * 2 ^ 6). rewrite Z.mul_assoc, (Z.mul_comm crc 2), <- Z.mul_assoc.
    rewrite Z.odd_add_mul_2. by destruct sc. }
  rewrite E1, E2, E3, E4. fold crc. rewrite Z.eqb_refl. cbn [negb].
  replace (Z.to_nat (6 + zlen payload)) with (6 + length payload)%nat by (unfold zlen; lia).
  replace (Z.to_nat (6 + zlen payload + 4)) with (10 + length payload)%nat by (unfold zlen; lia).
  done.
Qed.

Lemma u_frame_framed sc payload : zlen payload < 2 ^ 17 ->
  Framed Uncompressed_try_decode_frame (u_frame sc payload) sc payload.
Proof.
  intros Hp. assert (Hh : length (u_header sc payload) = 6%nat)
    by (unfold u_header; by rewrite length_app, !length_le_bytes).
  split; [|split].
  - intros H. apply (f_equal zlen) in H. rewrite zlen_u_frame, zlen_nil in H. pose proof (zlen_nonneg payload). lia.
  - intros rest. pose proof (zlen_nonneg rest). pose proof (zlen_nonneg payload).
    assert (Hl : zlen (u_frame sc payload ++ rest) = 10 + zlen payload + zlen rest)
      by by rewrite zlen_app, zlen_u_frame.
    assert (Ht : take 6 (u_frame sc payload ++ rest) = u_header sc payload)
      by (unfold u_frame; rewrite <- !app_assoc; by apply take_app_exact).
    rewrite (u_header_decoded sc payload), Hl by (try done; lia).
    rewrite (proj2 (Z.ltb_ge _ _)) by lia.
    unfold u_frame, slice. rewrite <- !app_assoc.
    assert (Hd : drop 6 (u_header sc payload ++ payload ++ le_bytes 4 (crc32 payload) ++ rest)
                 = payload ++ le_bytes 4 (crc32 payload) ++ rest) by by apply drop_app_exact.
    replace (6 + length payload - 6)%nat with (length payload) by lia.
    replace (10 + length payload - (6 + length payload))%nat with 4%nat by lia.
    rewrite <- (drop_drop _ (length payload) 6), Hd, take_app_length, drop_app_length.
    rewrite take_app_exact by apply length_le_bytes.
    rewrite (uint_le_bytes 4 32) by (try done; apply crc32_range). rewrite Z.eqb_refl. cbn [negb].
    replace (10 + length payload)%nat with (6 + (length payload + 4))%nat by lia.
    by rewrite <- !drop_drop, Hd, drop_app_length, drop_app_exact by apply length_le_bytes.
  - intros p q Hfr Hq. destruct (Z.lt_ge_cases (zlen p) 6) as [H6|H6].
    { unfold Uncompressed_try_decode_frame, UNCOMPRESSED_FRAME_HEADER_LENGTH.
      by rewrite (proj2 (Z.ltb_lt _ _)). }
    destruct (proper_prefix_facts _ p q 6 Hfr Hq ltac:(unfold zlen in *; lia)) as [Ht Hl].
    rewrite (u_header_decoded sc payload) by
      (try done; rewrite Ht; unfold u_frame; by apply take_app_exact).
    rewrite zlen_u_frame in Hl. rewrite (proj2 (Z.ltb_lt _ _)) by lia. done.
Qed.
End UncompressedProofs.

Section Lz4Proofs.
Context {C : Crc32Lib} {L : Lz4Lib}.

(** The frame as bytes: [block] is the compressed payload, or the payload
    itself when [ulen] is 0. *)
Definition z_word (sc : bool) (ulen : Z) (block : bytes) : Z :=
  zlen block + ulen * 2 ^ 17 + b2n sc * 2 ^ 34.
Definition z_header (sc : bool) (ulen : Z) (block : bytes) : bytes :=
  le_bytes 8 (z_word sc ulen block + crc24 (le_bytes 5 (z_word sc ulen block)) * 2 ^ 40).
Definition z_frame (sc : bool) (ulen : Z) (block : bytes) : bytes :=
  z_header sc ulen block ++ block ++ le_bytes 4 (crc32 block).

(** What the receiver makes of a block. *)
Definition z_payload (ulen : Z) (block payload : bytes) : Prop :=
  if ulen =? 0 then payload = block else lz4_decompress block ulen = Some payload.

Lemma z_word_range sc ulen block : zlen block < 2 ^ 17 -> in_u 17 ulen ->
  0 <= z_word sc ulen block < 2 ^ 35.
Proof. pose proof (zlen_nonneg block). unfold z_word, b2n, in_u. destruct sc; lia. Qed.

Lemma zlen_z_frame sc ulen block : zlen (z_frame sc ulen block) = 12 + zlen block.
Proof. unfold z_frame, z_header, zlen. rewrite !length_app, !length_le_bytes. lia. Qed.

Lemma Lz4_header_written buffer block ulen sc :
  length buffer = 8%nat -> zlen block < 2 ^ 17 -> in_u 17 ulen ->
  Lz4_write_header (buffer ++ block) ulen sc = z_header sc ulen block ++ block.
Proof.
  intros Hb Hp Hu. unfold Lz4_write_header, z_header. pose proof (zlen_nonneg block) as H0.
  assert (Hlen : wrap 64 (zlen (buffer ++ block) - COMPRESSED_FRAME_HEADER_LENGTH) = zlen block).
  { rewrite zlen_app. unfold zlen at 1. rewrite Hb. unfold COMPRESSED_FRAME_HEADER_LENGTH.
    rewrite wrap_small; [lia|]. unfold in_u. lia. }
  rewrite Hlen. pose proof (z_word_range sc ulen block Hp Hu) as Hw. unfold in_u in Hu.
  rewrite (wrap_small 64 (Z.shiftl ulen 17)) by (rewrite Z.shiftl_mul_pow2 by lia; unfold in_u; lia).
  rewrite (lor_disjoint 17 ulen (zlen block)) by lia.
  assert (Hz : (if sc then Z.lor (zlen block + ulen * 2 ^ 17) (Z.shiftl 1 34) else zlen block + ulen * 2 ^ 17)
               = z_word sc ulen block).
  { unfold z_word, b2n. destruct sc; [|lia]. rewrite lor_disjoint by lia. lia. }
  rewrite Hz. rewrite take_le_bytes by lia.
  assert (Hc : in_u 24 (crc24 (le_bytes 5 (z_word sc ulen block)))) by apply crc24_range.
  set (crc := crc24 _) in *. clearbody crc.
  unfold in_u in Hc. rewrite (wrap_small 64 (Z.shiftl crc 40)) by (rewrite Z.shiftl_mul_pow2 by lia; unfold in_u; lia).
  rewrite lor_disjoint by lia. by rewrite drop_app_exact.
Qed.

Lemma z_header_decoded sc ulen block buffer :
  zlen block < 2 ^ 17 -> in_u 17 ulen -> take 8 buffer = z_header sc ulen block -> 8 <= zlen buffer ->
  Lz4_try_decode_frame buffer =
    if zlen buffer <? zlen block + 8 + 4 then Ok (None, buffer)
    else if negb (le_uint (slice (8 + length block) (12 + length block) buffer)
                  =? crc32 (slice 8 (8 + length block) buffer))
         then Err create_payload_crc_mismatch_error
         else if ulen =? 0
         then Ok (Some (sc, slice 8 (8 + length block) buffer), drop (12 + length block) buffer)
         else match lz4_decompress (slice 8 (8 + length block) buffer) ulen with
              | Some payload => Ok (Some (sc, payload), drop (12 + length block) buffer)
              | None => Err (ECompression (Lz4Error OtherKind))
              end.
Proof.
  intros Hp Hu Ht Hb. unfold Lz4_try_decode_frame, COMPRESSED_FRAME_HEADER_LENGTH, FRAME_TRAILER_LENGTH.
  rewrite (proj2 (Z.ltb_ge _ 8)) by lia. rewrite Ht.
  pose proof (z_word_range sc ulen block Hp Hu) as Hw. pose proof (zlen_nonneg block) as H0.
  unfold z_header. set (crc := crc24 (le_bytes 5 (z_word sc ulen block))).
  assert (Hc : in_u 24 crc) by apply crc24_range. unfold in_u in Hc, Hu.
  rewrite (uint_le_bytes 8 64) by (unfold in_u; lia).
  set (w := z_word sc ulen block + crc * 2 ^ 40).
  assert (Hfield : forall a k, 0 <= a -> 0 <= k -> a + k <= 64 ->
            Z.land (Z.shiftr (swrap 64 w) a) (2 ^ k - 1) = (w / 2 ^ a) mod 2 ^ k).
  { intros a k Ha Hk Hak. rewrite Z.shiftr_div_pow2, land_mask, swrap_bits by lia. done. }
  assert (E1 : swrap 32 (Z.land (Z.shiftr (swrap 64 w) 40) 0xffffff) = crc).
  { change 0xffffff with (2 ^ 24 - 1). rewrite (Hfield 40 24) by lia. unfold w. rewrite Z.div_add, Z.div_small, Z.add_0_l, Z.mod_small by lia.
    apply swrap_small; unfold in_i; lia. }
  assert (E2 : take 5 (le_bytes 8 (swrap 64 w)) = le_bytes 5 (z_word sc ulen block)).
  { rewrite take_le_bytes by lia. rewrite <- (le_bytes_mod 5 (swrap 64 w)). change (8 * Z.of_nat 5) with 40.
    pose proof (swrap_bits 64 0 40 w ltac:(lia) ltac:(lia) ltac:(lia) ltac:(lia)) as Hs.
    rewrite Z.pow_0_r, !Z.div_1_r in Hs. rewrite Hs. unfold w. rewrite Z.mod_add, Z.mod_small by lia. done. }
  assert (E3 : Z.land (swrap 64 w) 0x1ffff = zlen block).
  { pose proof (Hfield 0 17 ltac:(lia) ltac:(lia) ltac:(lia)) as Hs.
    rewrite Z.shiftr_0_r, Z.pow_0_r, Z.div_1_r in Hs. change (2 ^ 17 - 1) with 0x1ffff in Hs. rewrite Hs.
    unfold w, z_word.
    replace (zlen block + ulen * 2 ^ 17 + b2n sc * 2 ^ 34 + crc * 2 ^ 40)
      with (zlen block + (ulen + b2n sc * 2 ^ 17 + crc * 2 ^ 23) * 2 ^ 17) by lia.
    rewrite Z.mod_add, Z.mod_small by lia. done. }
  assert (E5 : Z.land (Z.shiftr (swrap 64 w) 17) 0x1ffff = ulen).
  { change 0x1ffff with (2 ^ 17 - 1). rewrite (Hfield 17 17) by lia. unfold w, z_word.
    replace (zlen block + ulen * 2 ^ 17 + b2n sc * 2 ^ 34 + crc * 2 ^ 40)
      with (zlen block + (ulen + (b2n sc + crc * 2 ^ 6) * 2 ^ 17) * 2 ^ 17) by lia.
    rewrite Z.div_add, Z.div_small, Z.add_0_l, Z.mod_add, Z.mod_small by lia. done. }
  assert (E4 : negb (Z.land (swrap 64 w) (Z.shiftl 1 34) =? 0) = sc).
  { change (Z.shiftl 1 34) with (2 ^ 34). rewrite land_pow2, negb_involutive, testbit_div by lia.
    pose proof (swrap_bits 64 34 1 w ltac:(lia) ltac:(lia) ltac:(lia) ltac:(lia)) as Hs.
    change (2 ^ 1) with 2 in Hs. rewrite !Zmod_odd in Hs.
    assert (Z.odd (swrap 64 w / 2 ^ 34) = Z.odd (w / 2 ^ 34)) as ->
      by (destruct (Z.odd (swrap 64 w / 2 ^ 34)), (Z.odd (w / 2 ^ 34)); done).
    unfold w, z_word.
    replace (zlen block + ulen * 2 ^ 17 + b2n sc * 2 ^ 34 + crc * 2 ^ 40)
      with (zlen block + ulen * 2 ^ 17 + (b2n sc + 2 * (crc * 2 ^ 5)) * 2 ^ 34) by lia.
    rewrite Z.div_add, Z.div_small, Z.add_0_l, Z.odd_add_mul_2 by lia. by destruct sc. }
  rewrite E1, E2, E3, E4, E5. fold crc. rewrite Z.eqb_refl. cbn [negb].
  replace (Z.to_nat (zlen block + 8)) with (8 + length block)%nat by (unfold zlen; lia).
  replace (Z.to_nat (zlen block + 8 + 4)) with (12 + length block)%nat by (unfold zlen; lia).
  done.
Qed.

Lemma z_frame_framed sc ulen block payload :
  zlen block < 2 ^ 17 -> in_u 17 ulen -> z_payload ulen block payload ->
  Framed Lz4_try_decode_frame (z_frame sc ulen block) sc payload.
Proof.
  intros Hp Hu Hz. assert (Hh : length (z_header sc ulen block) = 8%nat) by apply length_le_bytes.
  split; [|split].
  - intros H. apply (f_equal zlen) in H. rewrite zlen_z_frame, zlen_nil in H. pose proof (zlen_nonneg block). lia.
  - intros rest. pose proof (zlen_nonneg rest). pose proof (zlen_nonneg block).
    assert (Hl : zlen (z_frame sc ulen block ++ rest) = 12 + zlen block + zlen rest)
      by by rewrite zlen_app, zlen_z_frame.
    assert (Ht : take 8 (z_frame sc ulen block ++ rest) = z_header sc ulen block)
      by (unfold z_frame; rewrite <- !app_assoc; by apply take_app_exact).
    rewrite (z_header_decoded sc ulen block), Hl by (try done; lia).
    rewrite (proj2 (Z.ltb_ge _ _)) by lia.
    unfold z_frame, slice. rewrite <- !app_assoc.
    assert (Hd : drop 8 (z_header sc ulen block ++ block ++ le_bytes 4 (crc32 block) ++ rest)
                 = block ++ le_bytes 4 (crc32 block) ++ rest) by by apply drop_app_exact.
    replace (8 + length block - 8)%nat with (length block) by lia.
    replace (12 + length block - (8 + length block))%nat with 4%nat by lia.
    rewrite <- (drop_drop _ (length block) 8), Hd, take_app_length, drop_app_length.
    rewrite take_app_exact by apply length_le_bytes.
    rewrite (uint_le_bytes 4 32) by (try done; apply crc32_range). rewrite Z.eqb_refl. cbn [negb].
    replace (12 + length block)%nat with (8 + (length block + 4))%nat by lia.
    rewrite <- !drop_drop, Hd, drop_app_length, drop_app_exact by apply length_le_bytes.
    unfold z_payload in Hz. destruct (ulen =? 0); [by rewrite Hz|by rewrite Hz].
  - intros p q Hfr Hq. destruct (Z.lt_ge_cases (zlen p) 8) as [H6|H6].
    { unfold Lz4_try_decode_frame, COMPRESSED_FRAME_HEADER_LENGTH. by rewrite (proj2 (Z.ltb_lt _ _)). }
    destruct (proper_prefix_facts _ p q 8 Hfr Hq ltac:(unfold zlen in *; lia)) as [Ht Hl].
    rewrite (z_header_decoded sc ulen block) by
      (try done; rewrite Ht; unfold z_frame; by apply take_app_exact).
    rewrite zlen_z_frame in Hl. rewrite (proj2 (Z.ltb_lt _ _)) by lia. done.
Qed.
End Lz4Proofs.

(** ** What the encoders of v5 promise the writer *)

(** [holds e p]: the encoder is collecting envelopes and [p] are their bytes;
    [finalized e]: a frame was built and [reset] is due. *)
Class EncoderLaws (E : Type) `{FrameEncoder E} (try_decode : bytes -> frame_result) : Type := {
  holds : E -> bytes -> Prop;
  finalized : E -> Prop;
  holds_add : forall e p b,
    holds e p -> can_fit e (zlen b) = true -> holds (add_envelope e b) (p ++ b);
  holds_has : forall e p, holds e p -> has_envelopes e = negb (bytes_is_empty p);
  finalize_self_contained_ok : forall e p, holds e p -> p <> [] ->
    finalized (finalize_self_contained e).1 /\
    Framed try_decode (finalize_self_contained e).2 true p;
  finalize_non_self_contained_ok : forall e b, holds e [] -> b <> [] ->
    exists e' n fr, finalize_non_self_contained e b = Ok (e', (n, fr)) /\ finalized e' /\
      0 < n <= zlen b /\ n < PAYLOAD_SIZE_LIMIT /\ (n = zlen b \/ n = PAYLOAD_SIZE_LIMIT - 1) /\
      Framed try_decode fr false (take (Z.to_nat n) b);
  reset_ok : forall e, finalized e -> holds (reset e) [] }.

Lemma take_drop_at {A} n (h p : list A) : length h = n -> take n (h ++ p) = h /\ drop n (h ++ p) = p.
Proof. intros. by rewrite take_app_exact, drop_app_exact. Qed.

Lemma first_chunk_len (b : bytes) : b <> [] ->
  let n := Z.min (zlen b) (PAYLOAD_SIZE_LIMIT - 1) in
  0 < n <= zlen b /\ n < PAYLOAD_SIZE_LIMIT /\ zlen (take (Z.to_nat n) b) = n /\
  (n = zlen b \/ n = PAYLOAD_SIZE_LIMIT - 1).
Proof.
  intros Hb n. apply zlen_pos in Hb. change PAYLOAD_SIZE_LIMIT with 131072 in *.
  rewrite zlen_take by lia. lia.
Qed.

Section UncompressedLaws.
Context {C : Crc32Lib}.

Definition u_holds (e : UncompressedFrameEncoder) (p : bytes) : Prop :=
  exists h, length h = 6%nat /\ ue_buffer e = h ++ p /\ zlen p < 2 ^ 17.
Definition u_finalized (e : UncompressedFrameEncoder) : Prop := (6 <= length (ue_buffer e))%nat.

Lemma u_trailer h p sc : length h = 6%nat -> zlen p < 2 ^ 17 ->
  add_trailer (Uncompressed_write_header (h ++ p) sc) 6 = u_frame sc p.
Proof.
  intros Hh Hp. rewrite Uncompressed_header_written by done. unfold add_trailer, u_frame.
  rewrite drop_app_exact by (unfold u_header; by rewrite length_app, !length_le_bytes).
  by rewrite <- app_assoc.
Qed.

Lemma u_frame_finalized sc p : u_finalized (mkUncompressedEnc (u_frame sc p)).
Proof. unfold u_finalized. simpl. pose proof (zlen_u_frame sc p). unfold zlen in *. lia. Qed.

#[export] Program Instance Uncompressed_EncoderLaws :
    EncoderLaws UncompressedFrameEncoder Uncompressed_try_decode_frame := {|
  holds := u_holds; finalized := u_finalized |}.
Next Obligation.
  intros e p b (h & Hh & He & Hp) Hfit. simpl in Hfit. unfold saturating_add in Hfit.
  rewrite He, zlen_app in Hfit. unfold zlen at 1 in Hfit. rewrite Hh in Hfit.
  change UNCOMPRESSED_FRAME_HEADER_LENGTH with 6 in Hfit. change PAYLOAD_SIZE_LIMIT with (2 ^ 17) in Hfit.
  pose proof (zlen_nonneg p). pose proof (zlen_nonneg b).
  rewrite wrap_small in Hfit by (unfold in_u; lia). apply Z.ltb_lt in Hfit.
  exists h. simpl. rewrite He, <- app_assoc, zlen_app. repeat split; try done. lia.
Qed.
Next Obligation.
  intros e p (h & Hh & He & Hp). simpl. rewrite He, zlen_app. unfold zlen at 1. rewrite Hh.
  unfold UNCOMPRESSED_FRAME_HEADER_LENGTH. destruct p as [|x p]; [done|].
  rewrite zlen_cons. pose proof (zlen_nonneg p). simpl. apply Z.ltb_lt. lia.
Qed.
Next Obligation.
  intros e p (h & Hh & He & Hp) _. cbn -[u_frame]. rewrite He, u_trailer by done.
  split; [apply u_frame_finalized|by apply u_frame_framed].
Qed.
Next Obligation.
  intros e b (h & Hh & He & _) Hb. rewrite app_nil_r in He.
  destruct (first_chunk_len b Hb) as (H1 & H2 & H3 & H4).
  set (n := Z.min (zlen b) (PAYLOAD_SIZE_LIMIT - 1)) in *. cbn -[u_frame Z.min]. fold n.
  change PAYLOAD_SIZE_LIMIT with (2 ^ 17) in *.
  rewrite He, u_trailer by (try done; lia). do 3 eexists. split; [done|].
  split; [apply u_frame_finalized|]. do 3 (split; [done|]). apply u_frame_framed. lia.
Qed.
Next Obligation.
  intros e He. exists (take 6 (ue_buffer e)). simpl. rewrite length_take, app_nil_r.
  unfold u_finalized in He. repeat split; try done. lia.
Qed.

Lemma Uncompressed_default_holds : holds UncompressedFrameEncoder_default [].
Proof. by exists (replicate 6 Byte.x00). Qed.
End UncompressedLaws.

Section Lz4Laws.
Context {C : Crc32Lib} {L : Lz4Lib}.

Definition z_holds (e : Lz4FrameEncoder) (p : bytes) : Prop :=
  exists h, length h = 8%nat /\ ze_buffer e = h ++ p /\ lz4_max_output_size (zlen p) < 2 ^ 17.
Definition z_finalized (e : Lz4FrameEncoder) : Prop := (8 <= length (ze_buffer e))%nat.

Lemma z_trailer h block ulen sc : length h = 8%nat -> zlen block < 2 ^ 17 -> in_u 17 ulen ->
  add_trailer (Lz4_write_header (h ++ block) ulen sc) 8 = z_frame sc ulen block.
Proof.
  intros Hh Hp Hu. rewrite Lz4_header_written by done. unfold add_trailer, z_frame.
  rewrite drop_app_exact by apply length_le_bytes. by rewrite <- app_assoc.
Qed.

Lemma z_frame_finalized sc ulen block : z_finalized (mkLz4Enc (z_frame sc ulen block)).
Proof. unfold z_finalized. simpl. pose proof (zlen_z_frame sc ulen block). unfold zlen in *. lia. Qed.

Lemma small_payload (p : bytes) : lz4_max_output_size (zlen p) < 2 ^ 17 -> 0 <= zlen p < 2 ^ 17.
Proof. intros H. pose proof (zlen_nonneg p) as H0. pose proof (lz4_max_ge _ H0). lia. Qed.

(** Overwriting the buffer after its header and truncating it there. *)
Lemma overwrite_truncate (buf block : bytes) : (8 + length block <= length buf)%nat ->
  take (8 + length block) (take 8 buf ++ block ++ drop (8 + length block) buf) = take 8 buf ++ block.
Proof.
  intros H. rewrite app_assoc. apply take_app_exact. rewrite length_app, length_take. lia.
Qed.

Lemma Lz4_chunk_ok e b : z_holds e [] -> b <> [] ->
  let n := Z.min (zlen b) (PAYLOAD_SIZE_LIMIT - 1) in
  let chunk := take (Z.to_nat n) b in
  exists block ulen, zlen block < 2 ^ 17 /\ in_u 17 ulen /\ z_payload ulen block chunk /\
    Lz4_finalize_non_self_contained e b
    = Ok (mkLz4Enc (z_frame false ulen block), (n, z_frame false ulen block)).
Proof.
  intros (h & Hh & He & _) Hb n chunk. destruct (first_chunk_len b Hb) as (H1 & H2 & H3 & _).
  fold n in H1, H2, H3. fold chunk in H3. change PAYLOAD_SIZE_LIMIT with (2 ^ 17) in H2.
  assert (Hmax : n <= lz4_max_output_size n) by (apply lz4_max_ge; lia).
  unfold Lz4_finalize_non_self_contained. fold n. fold chunk.
  rewrite He, app_nil_r. unfold COMPRESSED_FRAME_HEADER_LENGTH, FRAME_TRAILER_LENGTH.
  set (buf := resize h _).
  assert (Hbl : zlen buf = lz4_max_output_size n + 12).
  { unfold buf, resize, zlen. rewrite length_app, length_take, length_replicate, Hh. lia. }
  assert (Hb8 : length (take 8 buf) = 8%nat) by (rewrite length_take; unfold zlen in Hbl; lia).
  assert (Hroom : lz4_max_output_size (zlen chunk) <= zlen buf - 8) by (rewrite H3, Hbl; lia).
  destruct (lz4_compress_into_ok chunk _ Hroom) as (block & -> & Hfit & Hdec).
  change PAYLOAD_SIZE_LIMIT with (2 ^ 17). destruct (Z.leb_spec (2 ^ 17) (zlen block)) as [Hbig|Hsmall].
  - exists chunk, 0. rewrite H3. assert (Hu : in_u 17 0) by (unfold in_u; lia).
    split; [done|]. split; [done|]. split; [done|].
    replace (Z.to_nat (8 + n)) with (8 + length chunk)%nat by (unfold zlen in H3; lia).
    assert (Ht8 : take 8 (take 8 buf ++ block ++ drop (8 + length block) buf) = take 8 buf)
      by by apply take_app_exact.
    rewrite app_assoc, (take_app_exact (8 + length chunk)) by
      (rewrite length_app, Ht8, Hb8; lia).
    by rewrite Ht8, z_trailer by (try done; lia).
  - exists block, n. assert (Hu : in_u 17 n) by (unfold in_u; lia).
    split; [done|]. split; [done|]. split; [unfold z_payload; rewrite (proj2 (Z.eqb_neq n 0)) by lia; by rewrite <- H3 at 1|].
    replace (Z.to_nat (8 + zlen block)) with (8 + length block)%nat by (unfold zlen; lia).
    rewrite overwrite_truncate by (unfold zlen in *; lia). by rewrite z_trailer by (try done; lia).
Qed.

#[export] Program Instance Lz4_EncoderLaws : EncoderLaws Lz4FrameEncoder Lz4_try_decode_frame := {|
  holds := z_holds; finalized := z_finalized |}.
Next Obligation.
  intros e p b (h & Hh & He & Hp) Hfit. pose proof (small_payload p Hp). pose proof (zlen_nonneg b).
  simpl in Hfit. unfold saturating_add in Hfit.
  rewrite He, zlen_app in Hfit. unfold zlen at 1 in Hfit. rewrite Hh in Hfit.
  change COMPRESSED_FRAME_HEADER_LENGTH with 8 in Hfit. change PAYLOAD_SIZE_LIMIT with (2 ^ 17) in Hfit.
  rewrite wrap_small in Hfit by (unfold in_u; lia). apply Z.ltb_lt in Hfit.
  exists h. simpl. rewrite He, <- app_assoc, zlen_app. repeat split; try done.
  replace (Z.of_nat 8 + zlen p - 8) with (zlen p) in Hfit by lia.
  assert (Hm : Z.min (zlen p + zlen b) (2 ^ 64 - 1) <= lz4_max_output_size (Z.min (zlen p + zlen b) (2 ^ 64 - 1)))
    by (apply lz4_max_ge; lia).
  replace (Z.min (zlen p + zlen b) (2 ^ 64 - 1)) with (zlen p + zlen b) in Hfit by lia. done.
Qed.
Next Obligation.
  intros e p (h & Hh & He & Hp). simpl. rewrite He, zlen_app. unfold zlen at 1. rewrite Hh.
  unfold COMPRESSED_FRAME_HEADER_LENGTH. destruct p as [|x p]; [done|].
  rewrite zlen_cons. pose proof (zlen_nonneg p). simpl. apply Z.ltb_lt. lia.
Qed.
Next Obligation.
  intros e p (h & Hh & He & Hp) Hne. pose proof (small_payload p Hp) as Hs. apply zlen_pos in Hne.
  cbn [finalize_self_contained Lz4_FrameEncoder fst snd]. rewrite He. destruct (take_drop_at 8 h p Hh) as [-> ->].
  pose proof (lz4_compress_bound p) as Hb.
  replace (zlen (h ++ p) - COMPRESSED_FRAME_HEADER_LENGTH) with (zlen p)
    by (rewrite zlen_app; unfold zlen at 2; rewrite Hh; unfold COMPRESSED_FRAME_HEADER_LENGTH; lia).
  assert (Hu : in_u 17 (zlen p)) by (unfold in_u; lia).
  rewrite z_trailer by (try done; lia). split; [apply z_frame_finalized|].
  apply z_frame_framed; [lia|done|]. unfold z_payload. rewrite (proj2 (Z.eqb_neq _ 0)) by lia.
  apply lz4_round_trip.
Qed.
Next Obligation.
  intros e b He Hb. destruct (Lz4_chunk_ok e b He Hb) as (block & ulen & H1 & H2 & H3 & H4).
  destruct (first_chunk_len b Hb) as (H5 & H6 & _ & H7).
  do 3 eexists. split; [exact H4|]. split; [apply z_frame_finalized|]. do 3 (split; [done|]).
  by apply z_frame_framed.
Qed.
Next Obligation.
  intros e He. exists (take 8 (ze_buffer e)). simpl. rewrite length_take, app_nil_r.
  unfold z_finalized in He. repeat split; try done; [lia|]. pose proof lz4_max_zero.
  change (zlen (@nil byte)) with 0. lia.
Qed.

Lemma Lz4_default_holds : holds Lz4FrameEncoder_default [].
Proof.
  exists (replicate 8 Byte.x00). repeat split; try done. pose proof lz4_max_zero.
  change (zlen (@nil byte)) with 0. lia.
Qed.
End Lz4Laws.

(** ** Corrupted headers *)

Section Corruption.
Context {C : Crc32Lib} {L : Lz4Lib}.

(** The first six bytes are a word and its checksum; decoding fails on the
    header exactly when they disagree. *)
Lemma u_header_check w c tail : length w = 3%nat -> length c = 3%nat ->
  le_uint c <> crc24 w ->
  Uncompressed_try_decode_frame (w ++ c ++ tail) = Err create_header_crc_mismatch_error.
Proof.
  intros Hw Hc Hne. assert (Hl : zlen (w ++ c ++ tail) = 6 + zlen tail)
    by (rewrite !zlen_app; unfold zlen; lia). pose proof (zlen_nonneg tail).
  unfold Uncompressed_try_decode_frame, UNCOMPRESSED_FRAME_HEADER_LENGTH.
  rewrite (proj2 (Z.ltb_ge _ 6)), Uncompressed_header_spec by lia.
  rewrite (app_assoc w), (take_app_exact 6), le_uint_app, Hw by (rewrite length_app; lia).
  pose proof (le_uint_range w) as Hrw. pose proof (le_uint_range c) as Hrc. rewrite Hw in Hrw. rewrite Hc in Hrc.
  change (2 ^ (8 * Z.of_nat 3)) with (2 ^ 24) in *.
  rewrite Z.shiftr_div_pow2, (Z.mul_comm (2 ^ 24)), Z.div_add, Z.div_small, Z.add_0_l by lia.
  change 0xffffff with (2 ^ 24 - 1). rewrite land_mask, Z.mod_small, swrap_small by (unfold in_i; lia).
  rewrite take_le_bytes, <- (le_bytes_mod 3) by lia. change (8 * Z.of_nat 3) with 24.
  rewrite Z.mod_add, Z.mod_small by lia. rewrite <- Hw at 1. rewrite le_bytes_le_uint.
  by rewrite (proj2 (Z.eqb_neq _ _)).
Qed.

Lemma z_header_check w c tail : length w = 5%nat -> length c = 3%nat ->
  le_uint c <> crc24 w ->
  Lz4_try_decode_frame (w ++ c ++ tail) = Err create_header_crc_mismatch_error.
Proof.
  intros Hw Hc Hne. assert (Hl : zlen (w ++ c ++ tail) = 8 + zlen tail)
    by (rewrite !zlen_app; unfold zlen; lia). pose proof (zlen_nonneg tail).
  unfold Lz4_try_decode_frame, COMPRESSED_FRAME_HEADER_LENGTH.
  rewrite (proj2 (Z.ltb_ge _ 8)) by lia.
  rewrite (app_assoc w), (take_app_exact 8), le_uint_app, Hw by (rewrite length_app; lia).
  pose proof (le_uint_range w) as Hrw. pose proof (le_uint_range c) as Hrc. rewrite Hw in Hrw. rewrite Hc in Hrc.
  change (2 ^ (8 * Z.of_nat 5)) with (2 ^ 40) in *. change (2 ^ (8 * Z.of_nat 3)) with (2 ^ 24) in *.
  rewrite Z.shiftr_div_pow2 by lia. change 0xffffff with (2 ^ 24 - 1).
  rewrite land_mask, (swrap_bits 64 40 24) by lia.
  rewrite (Z.mul_comm (2 ^ 40)), Z.div_add, Z.div_small, Z.add_0_l, Z.mod_small, swrap_small
    by (unfold in_i; lia).
  rewrite take_le_bytes, <- (le_bytes_mod 5) by lia. change (8 * Z.of_nat 5) with 40.
  pose proof (swrap_bits 64 0 40 (le_uint w + le_uint c * 2 ^ 40) ltac:(lia) ltac:(lia) ltac:(lia) ltac:(lia)) as Hs.
  rewrite Z.pow_0_r, !Z.div_1_r in Hs. rewrite Hs, Z.mod_add, Z.mod_small by lia.
  rewrite <- Hw at 1. rewrite le_bytes_le_uint. by rewrite (proj2 (Z.eqb_neq _ _)).
Qed.

Lemma le_uint_inj a b : length a = length b -> le_uint a = le_uint b -> a = b.
Proof. intros Hl H. by rewrite <- (le_bytes_le_uint a), <- (le_bytes_le_uint b), Hl, H. Qed.

(** A frame header is rejected when its length and flag
    bytes are altered in any way within three consecutive bytes (all of
    them, in the uncompressed format) while the checksum is kept, and when
    the checksum bytes are altered while the rest is kept. *)
Theorem frame_header_corruption_detected :
  (forall w w' tail, length w = 3%nat -> length w' = 3%nat -> w <> w' ->
     Uncompressed_try_decode_frame (w' ++ le_bytes 3 (crc24 w) ++ tail)
     = Err create_header_crc_mismatch_error) /\
  (forall p w w' s tail, length (p ++ w ++ s) = 5%nat -> length w = 3%nat -> length w' = 3%nat -> w <> w' ->
     Lz4_try_decode_frame ((p ++ w' ++ s) ++ le_bytes 3 (crc24 (p ++ w ++ s)) ++ tail)
     = Err create_header_crc_mismatch_error) /\
  (forall w c tail, length w = 3%nat -> length c = 3%nat -> c <> le_bytes 3 (crc24 w) ->
     Uncompressed_try_decode_frame (w ++ c ++ tail) = Err create_header_crc_mismatch_error) /\
  (forall w c tail, length w = 5%nat -> length c = 3%nat -> c <> le_bytes 3 (crc24 w) ->
     Lz4_try_decode_frame (w ++ c ++ tail) = Err create_header_crc_mismatch_error).
Proof.
  assert (Hcrc : forall w, le_uint (le_bytes 3 (crc24 w)) = crc24 w)
    by (intros; apply (uint_le_bytes 3 24); [done|apply crc24_range]).
  split; [|split; [|split]].
  - intros w w' tail Hw Hw' Hne. apply u_header_check; [done|by rewrite length_le_bytes|]. rewrite Hcrc.
    intros H. apply Hne. apply (crc24_window_inj [] w w' []); try done. by rewrite !app_nil_r.
  - intros p w w' s tail Hl Hw Hw' Hne. rewrite !length_app in Hl.
    apply z_header_check; [rewrite !length_app; lia|by rewrite length_le_bytes|]. rewrite Hcrc.
    intros H. apply Hne. by apply (crc24_window_inj p w w' s).
  - intros w c tail Hw Hc Hne. apply u_header_check; try done. intros H. apply Hne.
    apply le_uint_inj; [by rewrite length_le_bytes|by rewrite Hcrc].
  - intros w c tail Hw Hc Hne. apply z_header_check; try done. intros H. apply Hne.
    apply le_uint_inj; [by rewrite length_le_bytes|by rewrite Hcrc].
Qed.

(** C8: both v5 encoders, whatever envelopes they have collected,
    finalize a frame that is decoded to exactly those bytes, flagged
    self-contained, leaving the rest of the buffer; a partial frame is
    left alone. *)
Theorem frame_encoder_round_trip :
  (forall e p, u_holds e p -> p <> [] ->
     Framed Uncompressed_try_decode_frame (finalize_self_contained e).2 true p) /\
  (forall e p, z_holds e p -> p <> [] ->
     Framed Lz4_try_decode_frame (finalize_self_contained e).2 true p) /\
  (forall e b, u_holds e [] -> b <> [] -> exists e' n fr,
     finalize_non_self_contained e b = Ok (e', (n, fr)) /\ 0 < n <= zlen b /\
     Framed Uncompressed_try_decode_frame fr false (take (Z.to_nat n) b)) /\
  (forall e b, z_holds e [] -> b <> [] -> exists e' n fr,
     finalize_non_self_contained e b = Ok (e', (n, fr)) /\ 0 < n <= zlen b /\
     Framed Lz4_try_decode_frame fr false (take (Z.to_nat n) b)).
Proof.
  split; [|split; [|split]].
  - intros e p He Hp. by apply finalize_self_contained_ok.
  - intros e p He Hp. by apply finalize_self_contained_ok.
  - intros e b He Hb. destruct (finalize_non_self_contained_ok
      (EncoderLaws := Uncompressed_EncoderLaws) e b He Hb) as (e' & n & fr & H1 & _ & H2 & _ & _ & H3). by exists e', n, fr.
  - intros e b He Hb. destruct (finalize_non_self_contained_ok
      (EncoderLaws := Lz4_EncoderLaws) e b He Hb) as (e' & n & fr & H1 & _ & H2 & _ & _ & H3). by exists e', n, fr.
Qed.
End Corruption.
