(* ===== verification/FrameStream.v ===== *)
(** * Decoding a byte stream: [frame/frame_decoder.rs], [frame_encoding.rs]

    The stateful decoders fed with whatever the socket returned.
    [extract_envelopes] is specified by the relation [parses]; the legacy
    decoder is proved to compute it on the concatenation of its chunks, and
    the v5 decoder to handle exactly the frames of its input, wherever the
    chunks are cut. *)

From S2P Require Import Prelude Types Wire Compression Crc Envelope Frame.
Local Open Scope Z_scope.
Local Open Scope cdrs_scope.

Definition create_unexpected_self_contained_error : Error :=
  EGeneral "Found self-contained frame while waiting for non self-contained continuation!".
(** [error.to_string().into()] of a [ParseEnvelopeError] *)
Definition parse_error_text : Error := EGeneral "{error}".

(** ** The trait [FrameDecoder] *)

(** [consume] takes the decoder and the data buffer by [&mut]: the result
    comes with what both are afterwards. *)
Class FrameDecoder `{UuidLib} (D : Type) : Type :=
  consume : D -> bytes -> Compression -> outcome Error (list Envelope) * D * bytes.

Section Extract.
Context {U : UuidLib} {L : Lz4Lib} {SN : SnapLib}.

(** The loop of [extract_envelopes].  An iteration that does not leave it
    consumes at least the nine bytes of a header, so [length buffer + 1]
    iterations are enough ([extract_loop_enough]). *)
Fixpoint extract_loop (fuel : nat) (buffer : bytes) (compression : Compression)
    (current_pos : Z) (envelopes : list Envelope) : outcome Error (Z * list Envelope) :=
  match fuel with
  | O => Panic
  | S fuel' =>
    match from_buffer (drop (Z.to_nat current_pos) buffer) compression with
    | Ok p => extract_loop fuel' buffer compression (current_pos + envelope_len p)
                (envelopes ++ [envelope p])
    | Err NotEnoughBytes => Ok (current_pos, envelopes)
    | Err _ => Err parse_error_text
    | Panic => Panic
    end
  end.

Definition extract_envelopes (buffer : bytes) (compression : Compression)
  : outcome Error (Z * list Envelope) :=
  extract_loop (S (length buffer)) buffer compression 0 [].

Definition try_decode_envelopes_with_spare_data (buffer : bytes) (compression : Compression)
  : outcome Error (list Envelope * bytes) :=
  let? '(current_pos, envelopes) := extract_envelopes buffer compression in
  Ok (envelopes, drop (Z.to_nat current_pos) buffer).

Definition try_decode_envelopes_without_spare_data (buffer : bytes)
  : outcome Error (list Envelope) :=
  let? '(_, envelopes) := extract_envelopes buffer NoCompression in Ok envelopes.

(** ** [LegacyFrameDecoder] *)

Record LegacyFrameDecoder : Type := mkLegacyDec { ld_buffer : bytes }.

Definition Legacy_consume (d : LegacyFrameDecoder) (data : bytes) (compression : Compression)
  : outcome Error (list Envelope) * LegacyFrameDecoder * bytes :=
  if bytes_is_empty (ld_buffer d) then
    match try_decode_envelopes_with_spare_data data compression with
    | Ok (envelopes, buffer) => (Ok envelopes, mkLegacyDec buffer, [])
    | Err e => (Err e, d, data)
    | Panic => (Panic, d, data)
    end
  else
    let d := mkLegacyDec (ld_buffer d ++ data) in
    match try_decode_envelopes_with_spare_data (ld_buffer d) compression with
    | Ok (envelopes, buffer) => (Ok envelopes, mkLegacyDec buffer, [])
    | Err e => (Err e, d, [])
    | Panic => (Panic, d, [])
    end.

#[export] Instance Legacy_FrameDecoder : FrameDecoder LegacyFrameDecoder := Legacy_consume.

(** ** [GenericFrameDecoder] *)

Record GenericFrameDecoder : Type := mkGenericDec {
  frame_buffer : bytes;
  payload_buffer : bytes;
  expected_payload_len : option Z }.

Definition GenericFrameDecoder_default : GenericFrameDecoder := mkGenericDec [] [] None.

Definition extract_expected_payload_len (d : GenericFrameDecoder) : option Z :=
  if zlen (payload_buffer d) <? ENVELOPE_HEADER_LEN then None
  else Some (as_usize (swrap 32 (be_uint (slice 5 9 (payload_buffer d))))).

(** The branch of [extract_non_self_contained_envelopes] once the length is
    known; [payload_buffer] is cleared, [expected_payload_len] is kept. *)
Definition extract_with_len (d : GenericFrameDecoder) (expected : Z)
  : outcome Error (list Envelope) * GenericFrameDecoder :=
  if zlen (payload_buffer d) <? expected then (Ok [], d)
  else
    match try_decode_envelopes_without_spare_data (payload_buffer d) with
    | Ok envelopes => (Ok envelopes, mkGenericDec (frame_buffer d) [] (expected_payload_len d))
    | Err e => (Err e, d)
    | Panic => (Panic, d)
    end.

Definition extract_non_self_contained_envelopes (d : GenericFrameDecoder)
  : outcome Error (list Envelope) * GenericFrameDecoder :=
  match expected_payload_len d with
  | Some expected => extract_with_len d expected
  | None =>
    match extract_expected_payload_len d with
    | Some expected =>
      let d := mkGenericDec (frame_buffer d) (payload_buffer d) (Some expected) in
      extract_with_len d expected
    | None => (Ok [], d)
    end
  end.

Definition handle_frame (d : GenericFrameDecoder) (envelopes : list Envelope)
    (self_contained : bool) (frame : bytes)
  : outcome Error (list Envelope) * GenericFrameDecoder :=
  if self_contained then
    if negb (bytes_is_empty (payload_buffer d)) then (Err create_unexpected_self_contained_error, d)
    else (omap (fun more => envelopes ++ more) (try_decode_envelopes_without_spare_data frame), d)
  else
    let d := mkGenericDec (frame_buffer d) (payload_buffer d ++ frame) (expected_payload_len d) in
    let '(r, d) := extract_non_self_contained_envelopes d in
    (omap (fun more => envelopes ++ more) r, d).

Section Consume.
Variable try_decode_frame : bytes -> frame_result.

(** [while !data.is_empty()]: the decoder's own buffer is empty. *)
Fixpoint consume_data (fuel : nat) (d : GenericFrameDecoder) (data : bytes) (envelopes : list Envelope)
  : outcome Error (list Envelope) * GenericFrameDecoder * bytes :=
  match fuel with
  | O => (Panic, d, data)
  | S fuel' =>
    if bytes_is_empty data then (Ok envelopes, d, data)
    else
      match try_decode_frame data with
      | Ok (Some (self_contained, frame), data) =>
        match handle_frame d envelopes self_contained frame with
        | (Ok envelopes, d) => consume_data fuel' d data envelopes
        | (Err e, d) => (Err e, d, data)
        | (Panic, d) => (Panic, d, data)
        end
      | Ok (None, data) =>
        (Ok envelopes,
         mkGenericDec (frame_buffer d ++ data) (payload_buffer d) (expected_payload_len d), [])
      | Err e => (Err e, d, data)
      | Panic => (Panic, d, data)
      end
  end.

(** [while !self.frame_buffer.is_empty()] *)
Fixpoint consume_buffered (fuel : nat) (d : GenericFrameDecoder) (envelopes : list Envelope)
  : outcome Error (list Envelope) * GenericFrameDecoder :=
  match fuel with
  | O => (Panic, d)
  | S fuel' =>
    if bytes_is_empty (frame_buffer d) then (Ok envelopes, d)
    else
      match try_decode_frame (frame_buffer d) with
      | Ok (Some (self_contained, frame), buffer) =>
        let d := mkGenericDec buffer (payload_buffer d) (expected_payload_len d) in
        match handle_frame d envelopes self_contained frame with
        | (Ok envelopes, d) => consume_buffered fuel' d envelopes
        | (Err e, d) => (Err e, d)
        | (Panic, d) => (Panic, d)
        end
      | Ok (None, buffer) =>
        (Ok envelopes, mkGenericDec buffer (payload_buffer d) (expected_payload_len d))
      | Err e => (Err e, d)
      | Panic => (Panic, d)
      end
  end.

Definition Generic_consume (d : GenericFrameDecoder) (data : bytes)
  : outcome Error (list Envelope) * GenericFrameDecoder * bytes :=
  if bytes_is_empty (frame_buffer d)
  then consume_data (S (length data)) d data []
  else
    let d := mkGenericDec (frame_buffer d ++ data) (payload_buffer d) (expected_payload_len d) in
    (consume_buffered (S (length (frame_buffer d))) d [], []).
End Consume.

Context {C : Crc32Lib}.

Record Lz4FrameDecoder : Type := mkLz4Dec { zd_inner : GenericFrameDecoder }.
Record UncompressedFrameDecoder : Type := mkUncompressedDec { ud_inner : GenericFrameDecoder }.

#[export] Instance Lz4_FrameDecoder : FrameDecoder Lz4FrameDecoder := fun d data _ =>
  let '(r, inner, data) := Generic_consume Lz4_try_decode_frame (zd_inner d) data in
  (r, mkLz4Dec inner, data).
#[export] Instance Uncompressed_FrameDecoder : FrameDecoder UncompressedFrameDecoder := fun d data _ =>
  let '(r, inner, data) := Generic_consume Uncompressed_try_decode_frame (ud_inner d) data in
  (r, mkUncompressedDec inner, data).
End Extract.

(** ** [ProtocolFrameEncodingFactory] *)

Inductive codec_kind : Type := LegacyCodec | UncompressedCodec | Lz4Codec.

(** [create_encoder] and [create_decoder] choose by the same rule. *)
Definition create_encoder (version : Version) (compression : Compression) : codec_kind :=
  if ge_v5 version
  then match compression with Lz4 => Lz4Codec | _ => UncompressedCodec end
  else LegacyCodec.
Definition create_decoder (version : Version) (compression : Compression) : codec_kind :=
  if ge_v5 version
  then match compression with Lz4 => Lz4Codec | _ => UncompressedCodec end
  else LegacyCodec.

(** ** Specification of [extract_envelopes] *)

Section ParsesSpec.
Context {U : UuidLib} {L : Lz4Lib} {SN : SnapLib}.
Variable c : Compression.

(** [parses data es rest]: [data] is the envelopes [es] and [rest], which
    does not hold a complete envelope. *)
Inductive parses : bytes -> list Envelope -> bytes -> Prop :=
| parses_wait data : from_buffer data c = Err NotEnoughBytes -> parses data [] data
| parses_more data p es rest :
    from_buffer data c = Ok p ->
    parses (drop (Z.to_nat (envelope_len p)) data) es rest ->
    parses data (envelope p :: es) rest.

Lemma parses_nil : parses [] [] [].
Proof. by constructor. Qed.

Lemma parses_det data es rest es' rest' :
  parses data es rest -> parses data es' rest' -> es = es' /\ rest = rest'.
Proof.
  intros H. revert es' rest'. induction H as [data H|data p es rest H _ IH]; intros es' rest' H'.
  - inversion H'; subst; [done|congruence].
  - inversion H' as [|? p' es2 rest2 Hp Hr]; subst; [congruence|].
    assert (p' = p) as -> by congruence. destruct (IH _ _ Hr) as [-> ->]. done.
Qed.

Lemma parses_rest data es rest : parses data es rest -> parses rest [] rest /\ zlen rest <= zlen data.
Proof.
  induction 1 as [data H|data p es rest H _ [IH1 IH2]]; [split; [by constructor|lia]|].
  split; [done|]. unfold zlen in *. rewrite length_drop in IH2. lia.
Qed.

Lemma drop_consumed data p more : from_buffer data c = Ok p ->
  drop (Z.to_nat (envelope_len p)) (data ++ more) = drop (Z.to_nat (envelope_len p)) data ++ more.
Proof.
  intros H. apply from_buffer_consumed in H as [[_ H] _]. apply drop_app_le. unfold zlen in H. lia.
Qed.

(** Cutting the stream anywhere and parsing the pieces in turn is parsing
    the stream. *)
Lemma parses_app a es1 r1 b es2 r2 :
  parses a es1 r1 -> parses (r1 ++ b) es2 r2 -> parses (a ++ b) (es1 ++ es2) r2.
Proof.
  induction 1 as [a H|a p es1 r1 H _ IH]; intros Hb; [done|].
  simpl. apply parses_more; [by rewrite from_buffer_app, H by congruence|].
  rewrite drop_consumed by done. by apply IH.
Qed.

Lemma parses_app_inv data es rest : parses data es rest -> forall a b, data = a ++ b ->
  exists es1 r1 es2, parses a es1 r1 /\ parses (r1 ++ b) es2 rest /\ es = es1 ++ es2.
Proof.
  induction 1 as [data H|data p es rest H Hp IH]; intros a b ->.
  - exists [], a, []. split; [|split; [by constructor|done]].
    constructor. destruct (decide (from_buffer a c = Err NotEnoughBytes)) as [|Hne]; [done|].
    by rewrite (from_buffer_app a b c Hne) in H.
  - destruct (decide (from_buffer a c = Err NotEnoughBytes)) as [Hw|Hne].
    + exists [], a, (envelope p :: es). split; [by constructor|]. split; [by econstructor|done].
    + rewrite (from_buffer_app a b c Hne) in H. rewrite drop_consumed in IH by done.
      destruct (IH _ _ eq_refl) as (es1 & r1 & es2 & H1 & H2 & ->).
      exists (envelope p :: es1), r1, es2. split; [by econstructor|done].
Qed.

(** ** [extract_envelopes] implements [parses] *)

Lemma extract_loop_complete fuel buffer pos acc es rest :
  0 <= pos <= zlen buffer -> zlen buffer - pos < Z.of_nat fuel ->
  parses (drop (Z.to_nat pos) buffer) es rest ->
  extract_loop fuel buffer c pos acc = Ok (zlen buffer - zlen rest, acc ++ es).
Proof.
  revert pos acc es. induction fuel as [|fuel IH]; intros pos acc es Hpos Hf H; [lia|].
  cbn [extract_loop]. inversion H as [? Hw|? p es' ? Hp Hr]; subst.
  - rewrite Hw, app_nil_r. unfold zlen in *. rewrite length_drop. do 2 f_equal. lia.
  - rewrite Hp. apply from_buffer_consumed in Hp as [[H9 Hl] _]. unfold ENVELOPE_HEADER_LEN in H9.
    assert (Hd : zlen (drop (Z.to_nat pos) buffer) = zlen buffer - pos)
      by (unfold zlen in *; rewrite length_drop; lia).
    rewrite drop_drop in Hr. replace (Z.to_nat pos + Z.to_nat (envelope_len p))%nat
      with (Z.to_nat (pos + envelope_len p)) in Hr by lia.
    rewrite (IH (pos + envelope_len p) _ es'); [|lia|lia|exact Hr]. by rewrite <- app_assoc.
Qed.

Lemma extract_loop_sound fuel buffer pos acc pos' es' :
  0 <= pos <= zlen buffer -> extract_loop fuel buffer c pos acc = Ok (pos', es') ->
  exists es, es' = acc ++ es /\ 0 <= pos' <= zlen buffer /\
    parses (drop (Z.to_nat pos) buffer) es (drop (Z.to_nat pos') buffer).
Proof.
  revert pos acc. induction fuel as [|fuel IH]; intros pos acc Hpos H; [done|].
  cbn [extract_loop] in H.
  destruct (from_buffer (drop (Z.to_nat pos) buffer) c) as [p|e|] eqn:Hp; [| |done].
  - pose proof (from_buffer_consumed _ _ _ Hp) as [[H9 Hl] _]. unfold ENVELOPE_HEADER_LEN in H9.
    assert (Hd : zlen (drop (Z.to_nat pos) buffer) = zlen buffer - pos)
      by (unfold zlen in *; rewrite length_drop; lia).
    apply IH in H as (es & -> & H1 & H2); [|lia].
    exists (envelope p :: es). split; [by rewrite <- app_assoc|]. split; [done|].
    econstructor; [done|]. rewrite drop_drop.
    by replace (Z.to_nat pos + Z.to_nat (envelope_len p))%nat with (Z.to_nat (pos + envelope_len p)) by lia.
  - destruct e; try done. injection H as <- <-. exists []. rewrite app_nil_r.
    split; [done|]. split; [done|]. by constructor.
Qed.

(** More iterations than the loop needs change nothing: the loop ends by
    itself, by a break, an error or a panic of [from_buffer]. *)
Lemma extract_loop_enough fuel fuel' buffer pos acc :
  0 <= pos <= zlen buffer -> zlen buffer - pos < Z.of_nat fuel -> zlen buffer - pos < Z.of_nat fuel' ->
  extract_loop fuel buffer c pos acc = extract_loop fuel' buffer c pos acc.
Proof.
  revert fuel' pos acc. induction fuel as [|fuel IH]; intros [|fuel'] pos acc Hpos Hf Hf'; try lia.
  cbn [extract_loop]. destruct (from_buffer (drop (Z.to_nat pos) buffer) c) as [p| |] eqn:Hp; [|done..].
  apply from_buffer_consumed in Hp as [[H9 Hl] _]. unfold ENVELOPE_HEADER_LEN in H9.
  assert (Hd : zlen (drop (Z.to_nat pos) buffer) = zlen buffer - pos)
    by (unfold zlen in *; rewrite length_drop; lia).
  apply IH; lia.
Qed.

Lemma with_spare_spec buffer es rest :
  try_decode_envelopes_with_spare_data buffer c = Ok (es, rest) <-> parses buffer es rest.
Proof.
  unfold try_decode_envelopes_with_spare_data, extract_envelopes. pose proof (zlen_nonneg buffer). split.
  - destruct (extract_loop _ buffer c 0 []) as [[pos es']| |] eqn:He; [|done..].
    cbn [obind]. intros [= <- <-]. apply extract_loop_sound in He as (es2 & -> & Hpos & Hp); [|lia]. done.
  - intros H'. rewrite (extract_loop_complete _ buffer 0 [] es rest); [|lia|unfold zlen; lia|done].
    cbn [obind]. f_equal. f_equal. clear -H'.
    remember (zlen buffer - zlen rest) as n eqn:Hn.
    assert (Hg : exists l, buffer = l ++ rest).
    { clear n Hn. induction H' as [data|data p es rest Hp _ [l Hl]]; [by exists []|].
      exists (take (Z.to_nat (envelope_len p)) data ++ l). by rewrite <- app_assoc, <- Hl, take_drop. }
    destruct Hg as [l ->]. rewrite zlen_app in Hn. apply drop_app_exact. unfold zlen in Hn. lia.
Qed.
End ParsesSpec.

(** ** Feeding chunks *)

(** The read loop of the transport: each read appends to [buffer], which is
    then consumed. *)
Fixpoint feed `{FrameDecoder D} (c : Compression) (d : D) (buffer : bytes) (chunks : list bytes)
  : outcome Error (list Envelope * D * bytes) :=
  match chunks with
  | [] => Ok ([], d, buffer)
  | chunk :: chunks' =>
    match consume d (buffer ++ chunk) c with
    | (Ok es, d, buffer) =>
      let? '(es', d, buffer) := feed c d buffer chunks' in Ok (es ++ es', d, buffer)
    | (Err e, _, _) => Err e
    | (Panic, _, _) => Panic
    end
  end.

Section LegacyStream.
Context {U : UuidLib} {L : Lz4Lib} {SN : SnapLib}.

Lemma legacy_consume_spec c d data es r buffer :
  Legacy_consume d data c = (Ok es, mkLegacyDec r, buffer) <->
  parses c (ld_buffer d ++ data) es r /\ buffer = [].
Proof.
  unfold Legacy_consume. destruct d as [b]. simpl.
  assert (Hb : bytes_is_empty b = true -> b ++ data = data) by by destruct b.
  destruct (bytes_is_empty b) eqn:E; [rewrite (Hb eq_refl)|]; rewrite <- with_spare_spec;
    (destruct (try_decode_envelopes_with_spare_data _ c) as [[es' r']| |];
     [|split; [done|by intros []]|split; [done|by intros []]]);
    (split; [intros [= <- <- <-]; done|intros [[= -> ->] ->]; done]).
Qed.

Lemma legacy_feed_spec c d chunks es r buffer :
  parses c (ld_buffer d) [] (ld_buffer d) ->
  feed c d [] chunks = Ok (es, mkLegacyDec r, buffer) <->
  parses c (ld_buffer d ++ concat chunks) es r /\ buffer = [].
Proof.
  revert d es. induction chunks as [|chunk chunks IH]; intros d es Hd; cbn [feed concat].
  - rewrite app_nil_r. split.
    + intros [= <- -> <-]. done.
    + intros [H ->]. destruct (parses_det c _ _ _ _ _ Hd H) as [<- <-]. by destruct d.
  - rewrite app_assoc. simpl app at 1. split.
    + destruct (consume d chunk c) as [[[es1|e|] d1] b1] eqn:Hc; try done.
      destruct d1 as [r1]. apply legacy_consume_spec in Hc as [Hp ->].
      pose proof (parses_rest c _ _ _ Hp) as [Hr _].
      destruct (feed c (mkLegacyDec r1) [] chunks) as [[[es2 [r2]] b2]| |] eqn:Hf; cbn [obind]; try done.
      intros [= <- <- <-]. apply IH in Hf as [Hf ->]; [|done]. split; [|done].
      by apply (parses_app c _ _ r1).
    + intros [H ->]. destruct (parses_app_inv c _ _ _ H _ _ eq_refl) as (es1 & r1 & es2 & H1 & H2 & ->).
      assert (Hc : consume d chunk c = (Ok es1, mkLegacyDec r1, [])) by by apply legacy_consume_spec.
      rewrite Hc. pose proof (parses_rest c _ _ _ H1) as [Hr _].
      assert (Hf : feed c (mkLegacyDec r1) [] chunks = Ok (es2, mkLegacyDec r, [])) by by apply IH.
      by rewrite Hf.
Qed.

(** A list of envelopes and what the legacy encoder wrote for each. *)
Definition encoded (c : Compression) (e : Envelope) (bs : bytes) : Prop :=
  wf_envelope e /\ encode_with e c = Ok bs /\ zlen bs < 2 ^ 31 + 9.

Lemma parses_encoded c es bss rest :
  Forall2 (encoded c) es bss -> parses c rest [] rest ->
  parses c (concat bss ++ rest) (map (fun e => with_encoded_flags e c) es) rest.
Proof.
  intros H Hr. induction H as [|e bs es bss (He & Hb & Hl) _ IH]; [done|].
  cbn [concat map]. rewrite <- app_assoc.
  change (with_encoded_flags e c) with (envelope (mkParsed (zlen bs) (with_encoded_flags e c))).
  econstructor; [by apply encode_decode|]. simpl. by rewrite drop_app_exact by (unfold zlen; lia).
Qed.

(** Envelopes written one after another by the legacy encoder
    and received in arbitrary chunks, the last of which may end inside
    another envelope, are all delivered, in order and once, and the bytes
    of the incomplete one are kept. *)
Theorem legacy_stream_round_trip c es bss tail missing e_tail bs_tail chunks :
  Forall2 (encoded c) es bss -> encoded c e_tail bs_tail -> bs_tail = tail ++ missing -> missing <> [] ->
  concat chunks = concat (map (fun bs => (finalize_self_contained (add_envelope (mkLegacyEnc []) bs)).2) bss)
                  ++ tail ->
  feed c (mkLegacyDec []) [] chunks
  = Ok (map (fun e => with_encoded_flags e c) es, mkLegacyDec tail, []).
Proof.
  intros Hes (He & Hb & Hl) Hsplit Hmiss Hchunks. apply legacy_feed_spec; [apply parses_nil|].
  split; [|done]. simpl ld_buffer. rewrite Hchunks. simpl. rewrite map_id.
  apply parses_encoded; [done|]. constructor. by eapply proper_prefix_waits.
Qed.

(** The legacy decoder does not depend on where the stream was
    cut: feeding the chunks succeeds with some envelopes and leftover
    exactly when feeding them as one block does. *)
Theorem legacy_chunking_invariance c chunks es r :
  feed c (mkLegacyDec []) [] chunks = Ok (es, mkLegacyDec r, []) <->
  feed c (mkLegacyDec []) [] [concat chunks] = Ok (es, mkLegacyDec r, []).
Proof.
  rewrite !legacy_feed_spec by apply parses_nil. simpl. by rewrite app_nil_r.
Qed.
End LegacyStream.

(** ** The v5 decoder *)

Section GenericStream.
Context {U : UuidLib} {L : Lz4Lib} {SN : SnapLib}.
Variable try_decode : bytes -> frame_result.

(** Handling a sequence of frames, stopping at the first error. *)
Fixpoint handle_frames (d : GenericFrameDecoder) (envelopes : list Envelope) (fs : list (bool * bytes))
  : outcome Error (list Envelope) * GenericFrameDecoder :=
  match fs with
  | [] => (Ok envelopes, d)
  | (sc, p) :: fs' =>
    match handle_frame d envelopes sc p with
    | (Ok envelopes, d) => handle_frames d envelopes fs'
    | (Err e, d) => (Err e, d)
    | (Panic, d) => (Panic, d)
    end
  end.

Definition set_frame_buffer (d : GenericFrameDecoder) (b : bytes) : GenericFrameDecoder :=
  mkGenericDec b (payload_buffer d) (expected_payload_len d).

(** [handle_frame] does not look at the frame buffer, nor at what was
    collected before. *)
Lemma handle_frame_frame d acc sc p b :
  handle_frame (set_frame_buffer d b) acc sc p =
  let '(r, d') := handle_frame d [] sc p in
  (omap (fun more => acc ++ more) r, set_frame_buffer d' b).
Proof.
  unfold handle_frame, extract_non_self_contained_envelopes, extract_with_len, set_frame_buffer.
  destruct d as [fb pb ex]; simpl. destruct sc.
  - destruct (bytes_is_empty pb); simpl; [|done].
    by destruct (try_decode_envelopes_without_spare_data p).
  - unfold extract_expected_payload_len. simpl.
    destruct ex as [n|]; [|destruct (zlen (pb ++ p) <? ENVELOPE_HEADER_LEN)]; simpl; try done;
      (destruct (zlen (pb ++ p) <? _); simpl; [done|]);
      by destruct (try_decode_envelopes_without_spare_data (pb ++ p)).
Qed.

Lemma set_frame_buffer_id d : set_frame_buffer d (frame_buffer d) = d.
Proof. by destruct d. Qed.

Lemma handle_frame_keeps_buffer d acc sc p :
  frame_buffer (handle_frame d acc sc p).2 = frame_buffer d.
Proof.
  rewrite <- (set_frame_buffer_id d) at 1. rewrite handle_frame_frame. by destruct (handle_frame d [] sc p).
Qed.

Lemma handle_frames_frame fs d acc b :
  handle_frames (set_frame_buffer d b) acc fs =
  let '(r, d') := handle_frames d [] fs in
  (omap (fun more => acc ++ more) r, set_frame_buffer d' b).
Proof.
  revert d acc b. induction fs as [|[sc p] fs IH]; intros d acc b; cbn [handle_frames].
  { simpl. by rewrite app_nil_r. }
  rewrite handle_frame_frame. destruct (handle_frame d [] sc p) as [[es|e|] d'] eqn:Hh; simpl; [|done..].
  rewrite IH. rewrite <- (set_frame_buffer_id d') at 2. rewrite IH.
  destruct (handle_frames d' [] fs) as [[es'|e|] d'']; simpl; [|done..]. by rewrite app_assoc.
Qed.

Lemma handle_frames_app fs1 fs2 d acc :
  handle_frames d acc (fs1 ++ fs2) =
  match handle_frames d acc fs1 with
  | (Ok es, d) => handle_frames d es fs2
  | (Err e, d) => (Err e, d)
  | (Panic, d) => (Panic, d)
  end.
Proof.
  revert d acc. induction fs1 as [|[sc p] fs1 IH]; intros d acc; [done|]. cbn [handle_frames app].
  destruct (handle_frame d acc sc p) as [[es|e|] d']; [apply IH|done..].
Qed.

(** A frame stream: complete frames, then a part of one. *)
Definition framed (f : bytes * (bool * bytes)) : Prop := Framed try_decode f.1 f.2.1 f.2.2.
Definition partial (tail : bytes) : Prop :=
  exists fr sc p q, Framed try_decode fr sc p /\ fr = tail ++ q /\ q <> [].

Lemma framed_not_empty fr sc p : Framed try_decode fr sc p -> bytes_is_empty fr = false.
Proof. intros [H _]. by destruct fr. Qed.

Lemma consume_data_frames fs : Forall framed fs -> forall fuel d tail acc es d',
  partial tail -> (length (concat fs.*1 ++ tail) < fuel)%nat ->
  handle_frames d acc fs.*2 = (Ok es, d') ->
  consume_data try_decode fuel d (concat fs.*1 ++ tail) acc
  = (Ok es, set_frame_buffer d' (frame_buffer d' ++ tail), []).
Proof.
  induction 1 as [|[fr [sc p]] fs Hf _ IH]; intros fuel d tail acc es d' Ht Hfuel Hh.
  - simpl in *. injection Hh as <- <-. destruct fuel as [|fuel]; [lia|]. cbn [consume_data].
    destruct tail as [|x tail]; [simpl; by rewrite app_nil_r, set_frame_buffer_id|]. simpl.
    destruct Ht as (fr & sc & p & q & (_ & _ & Hpart) & Heq & Hq). by rewrite (Hpart _ _ Heq Hq).
  - cbn [fmap list_fmap fst snd concat] in *. rewrite <- app_assoc in *. unfold framed in Hf. simpl in Hf.
    cbn [handle_frames] in Hh. destruct fuel as [|fuel]; [lia|]. cbn [consume_data].
    pose proof (framed_not_empty _ _ _ Hf) as Hne. destruct Hf as (Hnil & Hdec & _).
    rewrite Hdec. destruct fr as [|x fr]; [done|]. cbn [app bytes_is_empty].
    destruct (handle_frame d acc sc p) as [[es1|e|] d1]; [|done..].
    apply IH; [done| |done]. simpl in Hfuel. rewrite length_app in Hfuel. lia.
Qed.

Lemma consume_buffered_frames fs : Forall framed fs -> forall fuel d tail acc es d',
  partial tail -> (length (concat fs.*1 ++ tail) < fuel)%nat ->
  frame_buffer d = concat fs.*1 ++ tail ->
  handle_frames d acc fs.*2 = (Ok es, d') ->
  consume_buffered try_decode fuel d acc = (Ok es, set_frame_buffer d' tail).
Proof.
  induction 1 as [|[fr [sc p]] fs Hf _ IH]; intros fuel d tail acc es d' Ht Hfuel Hb Hh.
  - simpl in *. injection Hh as <- <-. destruct fuel as [|fuel]; [lia|]. cbn [consume_buffered]. rewrite Hb.
    destruct tail as [|x tail]; [simpl; by rewrite <- Hb, set_frame_buffer_id|]. simpl.
    destruct Ht as (fr & sc & p & q & (_ & _ & Hpart) & Heq & Hq). by rewrite (Hpart _ _ Heq Hq).
  - cbn [fmap list_fmap fst snd concat] in *. rewrite <- app_assoc in *. unfold framed in Hf. simpl in Hf.
    cbn [handle_frames] in Hh. destruct fuel as [|fuel]; [lia|]. cbn [consume_buffered]. rewrite Hb.
    pose proof (framed_not_empty _ _ _ Hf) as Hne. destruct Hf as (Hnil & Hdec & _).
    rewrite Hdec. destruct fr as [|x fr]; [done|]. cbn [app bytes_is_empty].
    change (mkGenericDec (concat fs.*1 ++ tail) (payload_buffer d) (expected_payload_len d))
      with (set_frame_buffer d (concat fs.*1 ++ tail)).
    rewrite handle_frame_frame. rewrite <- (set_frame_buffer_id d), handle_frame_frame in Hh.
    destruct (handle_frame d [] sc p) as [[es1|e|] d1]; [|done..]. simpl in Hh |- *.
    rewrite handle_frames_frame in Hh.
    rewrite (IH fuel (set_frame_buffer d1 (concat fs.*1 ++ tail)) tail (acc ++ es1) es
               (set_frame_buffer d' (concat fs.*1 ++ tail))); try done.
    + simpl in Hfuel. rewrite length_app in Hfuel. lia.
    + rewrite handle_frames_frame. by destruct (handle_frames d1 [] fs.*2) as [[es2|e|] d2]; simplify_eq/=.
Qed.

Lemma generic_consume_frames d data fs tail es d' :
  Forall framed fs -> partial tail -> frame_buffer d ++ data = concat fs.*1 ++ tail ->
  handle_frames d [] fs.*2 = (Ok es, d') ->
  Generic_consume try_decode d data = (Ok es, set_frame_buffer d' tail, []).
Proof.
  intros Hfs Ht Hdata Hh. unfold Generic_consume. destruct (frame_buffer d) as [|x fb] eqn:Hfb; cbn [bytes_is_empty].
  - simpl in Hdata. subst data. rewrite (consume_data_frames fs Hfs _ d tail [] es d') by (try done; lia).
    assert (Hb : frame_buffer d' = []).
    { rewrite <- (set_frame_buffer_id d), handle_frames_frame in Hh.
      destruct (handle_frames d [] fs.*2). injection Hh as _ <-. done. }
    by rewrite Hb.
  - change (mkGenericDec ((x :: fb) ++ data) _ _) with (set_frame_buffer d ((x :: fb) ++ data)).
    rewrite Hdata. cbn [frame_buffer set_frame_buffer].
    assert (Hc : consume_buffered try_decode (S (length (concat fs.*1 ++ tail)))
                   (set_frame_buffer d (concat fs.*1 ++ tail)) [] = (Ok es, set_frame_buffer d' tail)).
    { apply (consume_buffered_frames fs Hfs _ _ tail [] es (set_frame_buffer d' (concat fs.*1 ++ tail)));
        [done|lia|done|by rewrite handle_frames_frame, Hh]. }
    cbn -[consume_buffered length concat app] in Hc |- *. by rewrite Hc.
Qed.

(** ** Cutting a frame stream *)

Lemma partial_prefix tail a b : partial tail -> tail = a ++ b -> partial a.
Proof.
  intros (fr & sc & p & q & Hf & -> & Hq) ->. exists ((a ++ b) ++ q), sc, p, (b ++ q).
  split; [done|]. split; [by rewrite app_assoc|]. intros [_ ->]%app_nil. done.
Qed.

Lemma split_frames fs : Forall framed fs -> forall tail a b,
  partial tail -> a ++ b = concat fs.*1 ++ tail ->
  exists fs1 fs2 tail1, fs = fs1 ++ fs2 /\ a = concat fs1.*1 ++ tail1 /\ partial tail1 /\
    tail1 ++ b = concat fs2.*1 ++ tail.
Proof.
  induction 1 as [|[fr [sc p]] fs Hf Hfs IH]; intros tail a b Ht Heq.
  - exists [], [], a. simpl in *. repeat split; try done. by apply (partial_prefix tail a b).
  - cbn [fmap list_fmap fst concat] in Heq. rewrite <- app_assoc in Heq. unfold framed in Hf; simpl in Hf.
    destruct (Nat.le_gt_cases (length fr) (length a)) as [Hle|Hgt].
    + assert (a = fr ++ drop (length fr) a) as Ha.
      { rewrite <- (take_drop (length fr) a) at 1. f_equal.
        apply (f_equal (take (length fr))) in Heq. by rewrite take_app_length, take_app_le in Heq. }
      rewrite Ha, <- app_assoc in Heq. apply app_inv_head in Heq.
      destruct (IH tail _ b Ht Heq) as (fs1 & fs2 & tail1 & -> & Ha1 & Ht1 & Hb1).
      exists ((fr, (sc, p)) :: fs1), fs2, tail1. repeat split; try done.
      cbn [fmap list_fmap fst concat]. rewrite <- app_assoc, <- Ha1. exact Ha.
    + assert (Hfr : fr = a ++ drop (length a) fr).
      { rewrite <- (take_drop (length a) fr) at 1. f_equal.
        apply (f_equal (take (length a))) in Heq. rewrite take_app_length, take_app_le in Heq by lia. done. }
      exists [], ((fr, (sc, p)) :: fs), a. repeat split; try done.
      * exists fr, sc, p, (drop (length a) fr). split; [done|]. split; [done|].
        intros Hnil. apply (f_equal length) in Hnil. rewrite length_drop in Hnil. simpl in Hnil. lia.
      * cbn [fmap list_fmap fst concat]. by rewrite <- app_assoc.
Qed.

(** Chunk by chunk, the frames of the stream are handled in order. *)
Fixpoint feed_generic (d : GenericFrameDecoder) (buffer : bytes) (chunks : list bytes)
  : outcome Error (list Envelope * GenericFrameDecoder * bytes) :=
  match chunks with
  | [] => Ok ([], d, buffer)
  | chunk :: chunks' =>
    match Generic_consume try_decode d (buffer ++ chunk) with
    | (Ok es, d, buffer) =>
      let? '(es', d, buffer) := feed_generic d buffer chunks' in Ok (es ++ es', d, buffer)
    | (Err e, _, _) => Err e
    | (Panic, _, _) => Panic
    end
  end.

Lemma feed_generic_frames chunks : forall d fs tail es d',
  Forall framed fs -> partial tail -> partial (frame_buffer d) ->
  frame_buffer d ++ concat chunks = concat fs.*1 ++ tail ->
  handle_frames d [] fs.*2 = (Ok es, d') ->
  feed_generic d [] chunks = Ok (es, set_frame_buffer d' tail, []).
Proof.
  induction chunks as [|chunk chunks IH]; intros d fs tail es d' Hfs Ht Hd Heq Hh.
  - simpl in Heq. rewrite app_nil_r in Heq. simpl.
    assert (fs = []) as ->.
    { destruct fs as [|[fr [sc p]] fs]; [done|]. exfalso.
      apply Forall_cons in Hfs as [(Hne & Hdec & _) _]. simpl in Hdec, Hne.
      destruct Hd as (fr' & sc' & p' & q & (_ & _ & Hpart) & Hfr' & Hq).
      pose proof (Hpart _ _ Hfr' Hq) as Hnone. rewrite Heq in Hnone.
      cbn [fmap list_fmap fst concat] in Hnone. rewrite <- app_assoc, Hdec in Hnone. done. }
    simpl in Heq, Hh. injection Hh as <- <-. by rewrite <- Heq, set_frame_buffer_id.
  - cbn [concat] in Heq. rewrite app_assoc in Heq.
    destruct (split_frames fs Hfs tail _ _ Ht Heq) as (fs1 & fs2 & tail1 & -> & Ha & Ht1 & Hb).
    apply Forall_app in Hfs as [Hfs1 Hfs2]. rewrite fmap_app, handle_frames_app in Hh.
    destruct (handle_frames d [] fs1.*2) as [[es1|e|] d1] eqn:Hh1; try done.
    cbn [feed_generic]. simpl app at 1. rewrite (generic_consume_frames d chunk fs1 tail1 es1 d1) by done.
    rewrite <- (set_frame_buffer_id d1), handle_frames_frame in Hh.
    destruct (handle_frames d1 [] fs2.*2) as [[es2|e|] d2] eqn:Hh2; try done. simpl in Hh. injection Hh as <- <-.
    rewrite (IH (set_frame_buffer d1 tail1) fs2 tail es2 (set_frame_buffer d2 tail1)); try done.
    by rewrite handle_frames_frame, Hh2.
Qed.
End GenericStream.

(** ** What the frames deliver *)

Section Delivery.
Context {U : UuidLib} {L : Lz4Lib} {SN : SnapLib}.

Definition received (e : Envelope) : Envelope := with_encoded_flags e NoCompression.
Definition all_encoded (es : list Envelope) (bss : list bytes) : Prop :=
  Forall2 (encoded NoCompression) es bss.

Lemma without_spare_parses buffer es rest :
  parses NoCompression buffer es rest -> try_decode_envelopes_without_spare_data buffer = Ok es.
Proof.
  intros H. apply with_spare_spec in H. revert H.
  unfold try_decode_envelopes_with_spare_data, try_decode_envelopes_without_spare_data.
  destruct (extract_envelopes buffer NoCompression) as [[pos es']| |]; cbn [obind]; [|done..].
  by intros [= -> _].
Qed.

Lemma without_spare_encoded es bss : all_encoded es bss ->
  try_decode_envelopes_without_spare_data (concat bss) = Ok (map received es).
Proof.
  intros H. eapply without_spare_parses. rewrite <- (app_nil_r (concat bss)).
  apply parses_encoded; [done|]. apply parses_nil.
Qed.

(** A self-contained frame delivers its envelopes. *)
Lemma handle_self_contained d acc es bss : payload_buffer d = [] -> all_encoded es bss ->
  handle_frame d acc true (concat bss) = (Ok (acc ++ map received es), d).
Proof. intros Hd H. unfold handle_frame. by rewrite Hd, (without_spare_encoded es). Qed.

Lemma handle_self_contained_all d acc (msgs : list (list Envelope * list bytes)) :
  payload_buffer d = [] -> Forall (fun m => all_encoded m.1 m.2) msgs ->
  handle_frames d acc (map (fun m => (true, concat m.2)) msgs)
  = (Ok (acc ++ map received (concat msgs.*1)), d).
Proof.
  intros Hd H. revert acc. induction H as [|[es bss] msgs Hm _ IH]; intros acc;
    cbn [map handle_frames fst snd fmap list_fmap concat].
  - by rewrite app_nil_r.
  - rewrite (handle_self_contained d acc es bss), IH by done. by rewrite map_app, app_assoc.
Qed.

(** The length field of a partly received envelope. *)
Lemma encoded_len_field e bs pre rest : encoded NoCompression e bs -> bs = pre ++ rest ->
  9 <= zlen pre -> as_usize (swrap 32 (be_uint (slice 5 9 pre))) = zlen bs - 9.
Proof.
  intros (_ & He & Hl) Hbs Hp. destruct (encode_with_inv e _ bs He Hl) as (tr & bb & _ & Hbb & _ & Hh).
  rewrite <- (slice_app 5 9 pre rest) by (unfold zlen in Hp; lia). rewrite <- Hbs, Hh, zlen_hdr.
  match goal with |- context [hdr ?a ?b ?c0 ?d ?n ++ ?t] =>
    destruct (hdr_fields a b c0 d n t) as (_ & _ & _ & _ & Hs & _) end.
  rewrite Hs. pose proof (zlen_nonneg bb). rewrite (sint_be_bytes 4) by (unfold in_i; lia).
  rewrite as_usize_small by (unfold in_u; lia). lia.
Qed.

(** The state while a large envelope arrives: [pre] was received so far. *)
Definition collecting (fb pre : bytes) (n : Z) : GenericFrameDecoder :=
  mkGenericDec fb pre (if zlen pre <? 9 then None else Some n).

Lemma collect_piece e bs fb pre piece rest acc : encoded NoCompression e bs ->
  bs = pre ++ piece ++ rest -> zlen (pre ++ piece) < zlen bs - 9 ->
  handle_frame (collecting fb pre (zlen bs - 9)) acc false piece
  = (Ok acc, collecting fb (pre ++ piece) (zlen bs - 9)).
Proof.
  intros He Hbs Hlt. rewrite app_assoc in Hbs.
  unfold handle_frame, collecting, extract_non_self_contained_envelopes, extract_expected_payload_len,
    extract_with_len, ENVELOPE_HEADER_LEN; cbn [payload_buffer expected_payload_len frame_buffer].
  pose proof (zlen_nonneg piece). destruct (Z.ltb_spec (zlen pre) 9) as [H9|H9].
  - destruct (Z.ltb_spec (zlen (pre ++ piece)) 9) as [H9'|H9']; cbn [payload_buffer expected_payload_len frame_buffer omap]; [by rewrite app_nil_r|].
    rewrite (encoded_len_field e bs _ rest He Hbs H9').
    rewrite (proj2 (Z.ltb_lt (zlen (pre ++ piece)) _)) by lia. cbn [payload_buffer expected_payload_len frame_buffer omap]. by rewrite app_nil_r.
  - rewrite (proj2 (Z.ltb_ge (zlen (pre ++ piece)) 9)) by (rewrite zlen_app; lia).
    rewrite (proj2 (Z.ltb_lt _ _)) by done. cbn [payload_buffer expected_payload_len frame_buffer omap]. by rewrite app_nil_r.
Qed.

Lemma collect_last e bs fb pre piece acc : encoded NoCompression e bs -> bs = pre ++ piece ->
  handle_frame (collecting fb pre (zlen bs - 9)) acc false piece
  = (Ok (acc ++ [received e]), mkGenericDec fb [] (Some (zlen bs - 9))).
Proof.
  intros He Hbs. assert (H9 : 9 <= zlen bs).
  { destruct He as (_ & He & Hl). destruct (encode_with_inv e _ bs He Hl) as (tr & bb & _ & _ & _ & ->).
    rewrite zlen_hdr. pose proof (zlen_nonneg bb). lia. }
  assert (Hdec : try_decode_envelopes_without_spare_data bs = Ok [received e]).
  { rewrite <- (app_nil_r bs). change (bs ++ []) with (concat [bs]).
    apply (without_spare_encoded [e] [bs]). constructor; [done|constructor]. }
  unfold handle_frame, collecting, extract_non_self_contained_envelopes, extract_expected_payload_len,
    extract_with_len, ENVELOPE_HEADER_LEN; cbn [payload_buffer expected_payload_len frame_buffer].
  rewrite <- Hbs. pose proof (zlen_nonneg piece). rewrite (proj2 (Z.ltb_ge (zlen bs) 9)) by done.
  rewrite (encoded_len_field e bs bs [] He (eq_sym (app_nil_r bs)) H9).
  assert (Hge : (zlen bs <? zlen bs - 9) = false) by (apply Z.ltb_ge; lia).
  destruct (zlen pre <? 9); rewrite Hge, Hdec; done.
Qed.

Lemma collect_pieces e bs fb pieces : forall pre rest acc, encoded NoCompression e bs ->
  bs = pre ++ concat pieces ++ rest -> (pieces = [] \/ zlen (pre ++ concat pieces) < zlen bs - 9) ->
  handle_frames (collecting fb pre (zlen bs - 9)) acc (map (pair false) pieces)
  = (Ok acc, collecting fb (pre ++ concat pieces) (zlen bs - 9)).
Proof.
  induction pieces as [|piece pieces IH]; intros pre rest acc He Hbs Hlt; [simpl; by rewrite app_nil_r|].
  destruct Hlt as [|Hlt]; [done|]. cbn [map handle_frames concat] in *. rewrite <- app_assoc in Hbs.
  pose proof (zlen_nonneg (concat pieces)).
  rewrite (collect_piece e bs fb pre piece (concat pieces ++ rest)); [|done|done|].
  - rewrite (IH _ rest) by (rewrite <- ?app_assoc; auto). by rewrite app_assoc.
  - rewrite !zlen_app in *. lia.
Qed.

(** A large envelope sent in pieces is reassembled, by a decoder that has
    not reassembled one before, when the last piece carries more than the
    last nine bytes. *)
Lemma handle_large d e bs pieces last acc :
  payload_buffer d = [] -> expected_payload_len d = None -> encoded NoCompression e bs ->
  bs = concat pieces ++ last -> (pieces = [] \/ zlen (concat pieces) < zlen bs - 9) ->
  handle_frames d acc (map (pair false) pieces ++ [(false, last)])
  = (Ok (acc ++ [received e]), mkGenericDec (frame_buffer d) [] (Some (zlen bs - 9))).
Proof.
  intros Hp Hn He Hbs Hlt. destruct d as [fb pb ex]; simpl in *; subst pb ex.
  change (mkGenericDec fb [] None) with (collecting fb [] (zlen bs - 9)).
  rewrite handle_frames_app, (collect_pieces e bs fb pieces [] last) by done. cbn [handle_frames app].
  by rewrite (collect_last e bs).
Qed.


(** The decoder clears its payload buffer although the large
    envelope it is receiving is incomplete, and so loses it, whenever the
    pieces received so far reach the remembered length.  That length is
    the body length of the first large envelope of the connection: it
    leaves out the nine header bytes and it is never reset. *)
Theorem large_envelope_dropped d e bs piece rest n acc :
  encoded NoCompression e bs -> bs = (payload_buffer d ++ piece) ++ rest -> rest <> [] ->
  9 <= zlen (payload_buffer d ++ piece) ->
  expected_payload_len d = Some n \/ expected_payload_len d = None /\ n = zlen bs - 9 ->
  n <= zlen (payload_buffer d ++ piece) ->
  handle_frame d acc false piece = (Ok acc, mkGenericDec (frame_buffer d) [] (Some n)).
Proof.
  intros He Hbs Hrest H9 Hn Hle. assert (Hparse :
    try_decode_envelopes_without_spare_data (payload_buffer d ++ piece) = Ok []).
  { eapply without_spare_parses. constructor. destruct He as (_ & He & Hl).
    by eapply proper_prefix_waits. }
  pose proof (encoded_len_field e bs _ rest He Hbs H9) as Hlen.
  unfold handle_frame, extract_non_self_contained_envelopes, extract_expected_payload_len,
    extract_with_len, ENVELOPE_HEADER_LEN. cbn [payload_buffer expected_payload_len frame_buffer].
  rewrite Hlen, (proj2 (Z.ltb_ge (zlen (payload_buffer d ++ piece)) 9)) by done.
  destruct Hn as [->|[-> ->]];
    rewrite (proj2 (Z.ltb_ge (zlen (payload_buffer d ++ piece)) _)) by done;
    rewrite Hparse; simpl; by rewrite app_nil_r.
Qed.
End Delivery.

(** ** Witnesses *)

Module StreamSamples.
#[local] Existing Instances uuid_bytes stored_lz4 stored_snap crc32_ieee.

Definition small : Envelope := mkEnvelope V5 Request 0 OpOptions 1 [] None [].
Definition large : Envelope := mkEnvelope V5 Request 0 OpQuery 2 (lit "SELECT key FROM table") None [].
Definition enc (e : Envelope) : bytes := match encode_with e NoCompression with Ok b => b | _ => [] end.

Lemma small_encoded : encoded NoCompression small (enc small).
Proof. repeat split; by vm_compute. Qed.
Lemma large_encoded : encoded NoCompression large (enc large).
Proof. repeat split; by vm_compute. Qed.

Lemma legacy_stream_round_trip_witness :
  feed NoCompression (mkLegacyDec []) [] [take 4 (enc small); drop 4 (enc small) ++ take 12 (enc large)]
  = Ok ([with_encoded_flags small NoCompression], mkLegacyDec (take 12 (enc large)), []).
Proof.
  apply (legacy_stream_round_trip NoCompression [small] [enc small] (take 12 (enc large))
           (drop 12 (enc large)) large (enc large)).
  - constructor; [apply small_encoded|constructor].
  - apply large_encoded.
  - by vm_compute.
  - by vm_compute.
  - by vm_compute.
Defined.

Definition frames : list (bytes * (bool * bytes)) :=
  [(u_frame true (enc small), (true, enc small));
   (u_frame false (take 11 (enc large)), (false, take 11 (enc large)));
   (u_frame false (drop 11 (enc large)), (false, drop 11 (enc large)))].

Lemma frames_framed : Forall (framed Uncompressed_try_decode_frame) frames.
Proof. repeat constructor; apply u_frame_framed; by vm_compute. Qed.


(** All but the last five bytes of the large envelope arrive first. *)
Lemma large_envelope_dropped_witness :
  handle_frame GenericFrameDecoder_default [] false (take 25 (enc large))
  = (Ok [], mkGenericDec (frame_buffer GenericFrameDecoder_default) [] (Some 21)).
Proof.
  apply (large_envelope_dropped GenericFrameDecoder_default large (enc large) (take 25 (enc large))
           (drop 25 (enc large)) 21 []).
  - apply large_encoded.
  - by vm_compute.
  - by vm_compute.
  - by vm_compute.
  - right. by vm_compute.
  - by vm_compute.
Defined.
End StreamSamples.
