(* ===== verification/Query.v ===== *)
(** * Query parameters: [consistency.rs], [types/value.rs], [query/]

    Bound values, the flags that say which parameters follow, and
    [QueryParams] itself, with its builder. *)

From S2P Require Import Prelude Types Wire.
Local Open Scope Z_scope.
Local Open Scope cdrs_scope.

(** ** [Consistency] *)

Definition Consistency_to_i16 (c : Consistency) : Z :=
  match c with
  | Any => 0x0000 | One => 0x0001 | Two => 0x0002 | Three => 0x0003 | Quorum => 0x0004
  | All => 0x0005 | LocalQuorum => 0x0006 | EachQuorum => 0x0007 | Serial => 0x0008
  | LocalSerial => 0x0009 | LocalOne => 0x000A
  end.

Definition Consistency_try_from (v : Z) : Result Consistency :=
  match v with
  | 0x0000 => Ok Any | 0x0001 => Ok One | 0x0002 => Ok Two | 0x0003 => Ok Three
  | 0x0004 => Ok Quorum | 0x0005 => Ok All | 0x0006 => Ok LocalQuorum | 0x0007 => Ok EachQuorum
  | 0x0008 => Ok Serial | 0x0009 => Ok LocalSerial | 0x000A => Ok LocalOne
  | _ => Err (EUnknownConsistency v)
  end.

Definition Consistency_from_str (s : string) : Result Consistency :=
  if bool_decide (s = "Any") then Ok Any
  else if bool_decide (s = "One") then Ok One
  else if bool_decide (s = "Two") then Ok Two
  else if bool_decide (s = "Three") then Ok Three
  else if bool_decide (s = "Quorum") then Ok Quorum
  else if bool_decide (s = "All") then Ok All
  else if bool_decide (s = "LocalQuorum") then Ok LocalQuorum
  else if bool_decide (s = "EachQuorum") then Ok EachQuorum
  else if bool_decide (s = "Serial") then Ok Serial
  else if bool_decide (s = "LocalSerial") then Ok LocalSerial
  else if bool_decide (s = "LocalOne") then Ok LocalOne
  else Err (EGeneral "Invalid consistency provided: {s}").

Definition Consistency_serialize (c : Consistency) : bytes := i16_serialize (Consistency_to_i16 c).
Definition Consistency_from_bytes (b : bytes) : Result Consistency :=
  let? v := try_i16_from_bytes b in Consistency_try_from v.
Definition Consistency_from_cursor : R Consistency :=
  let* v := CIntShort_from_cursor in rlift (Consistency_try_from v).

Definition is_dc_local (c : Consistency) : bool :=
  match c with LocalOne | LocalQuorum | LocalSerial => true | _ => false end.

(** ** [Value] *)

Inductive Value : Type := VSome (b : bytes) | VNull | VNotSet.
#[export] Instance Value_eq_dec : EqDecision Value.
Proof. solve_decision. Defined.

Definition NULL_INT_VALUE : Z := -1.
Definition NOT_SET_INT_VALUE : Z := -2.

Definition Value_serialize (v : Value) : bytes :=
  match v with
  | VNull => i32_serialize NULL_INT_VALUE
  | VNotSet => i32_serialize NOT_SET_INT_VALUE
  | VSome b => i32_serialize (as_i32 (zlen b)) ++ b
  end.

Definition Value_from_cursor : R Value :=
  let* value_size := CInt_from_cursor in
  if 0 <? value_size then let* b := cursor_next_value value_size in rret (VSome b)
  else if value_size =? -1 then rret VNull
  else if value_size =? -2 then rret VNotSet
  else rerr (EGeneral "Could not decode query values").

(** [From<Option<T>> for Value] *)
Definition Value_from_option {T} (into : T -> bytes) (o : option T) : Value :=
  match o with Some b => VSome (into b) | None => VNull end.

(** An empty value is written with length 0, which is not read back. *)
Definition wf_value (v : Value) : Prop :=
  match v with VSome b => b <> [] /\ zlen b < 2 ^ 31 | _ => True end.

(** ** [QueryFlags] *)

Module QueryFlags.
Definition VALUE : Z := 0x001.
Definition SKIP_METADATA : Z := 0x002.
Definition PAGE_SIZE : Z := 0x004.
Definition WITH_PAGING_STATE : Z := 0x008.
Definition WITH_SERIAL_CONSISTENCY : Z := 0x010.
Definition WITH_DEFAULT_TIMESTAMP : Z := 0x020.
Definition WITH_NAMES_FOR_VALUES : Z := 0x040.
Definition WITH_KEYSPACE : Z := 0x080.
Definition WITH_NOW_IN_SECONDS : Z := 0x100.
Definition empty : Z := 0.
Definition all : Z := 0x1ff.
Definition from_bits_truncate (b : Z) : Z := Z.land b all.
Definition contains (f g : Z) : bool := Z.land f g =? g.
Definition insert (f g : Z) : Z := Z.lor f g.

(** From v5 on the flags are four bytes; before, one. *)
Definition serialize (f : Z) (v : Version) : bytes :=
  if ge_v5 v then u32_serialize f else u8_serialize (u8 f).
Definition from_cursor (v : Version) : R Z :=
  if ge_v5 v
  then let* buff := read_exact INT_LEN in rret (from_bits_truncate (be_uint buff))
  else let* b := u8_from_cursor in rret (from_bits_truncate (b2z b)).

Definition wf (v : Version) (f : Z) : Prop := 0 <= f < (if ge_v5 v then 2 ^ 9 else 2 ^ 8).
End QueryFlags.

(** [if cond { flags.insert(flag) }] *)
Definition insert_if (b : bool) (flag f : Z) : Z := if b then QueryFlags.insert f flag else f.

(** ** [QueryValues] *)

Inductive QueryValues : Type :=
| SimpleValues (v : list Value)
| NamedValues (m : gmap bytes Value).
#[export] Instance QueryValues_eq_dec : EqDecision QueryValues.
Proof. solve_decision. Defined.

(** [query_values!]: the values one after the other, or named, a name given
    twice keeping its last value. *)
Fixpoint query_values_simple (pushed : list Value) (values : list Value) : QueryValues :=
  match values with
  | [] => SimpleValues pushed
  | value :: values => query_values_simple (pushed ++ [value]) values
  end.
Fixpoint query_values_named (inserted : gmap bytes Value) (values : list (bytes * Value)) : QueryValues :=
  match values with
  | [] => NamedValues inserted
  | (name, value) :: values => query_values_named (<[name := value]> inserted) values
  end.
Definition has_names (q : QueryValues) : bool :=
  match q with SimpleValues _ => false | NamedValues _ => true end.
Definition QueryValues_len (q : QueryValues) : Z :=
  match q with SimpleValues v => zlen v | NamedValues m => Z.of_nat (size m) end.
Definition QueryValues_is_empty (q : QueryValues) : bool := QueryValues_len q =? 0.

Definition serialize_named (kv : bytes * Value) : bytes := serialize_str kv.1 ++ Value_serialize kv.2.

Definition QueryValues_serialize `{!HashIter bytes} (q : QueryValues) : bytes :=
  match q with
  | SimpleValues v => concat (map Value_serialize v)
  | NamedValues m => concat (map serialize_named (hm_iter m))
  end.

(** ** [QueryParams] *)

Record QueryParams : Type := mkQueryParams {
  qp_consistency : Consistency;
  qp_with_names : bool;
  qp_values : option QueryValues;
  qp_page_size : option Z;
  qp_paging_state : option CBytes;
  qp_serial_consistency : option Consistency;
  qp_timestamp : option Z;
  qp_keyspace : option bytes;
  qp_now_in_seconds : option Z }.
#[export] Instance QueryParams_eq_dec : EqDecision QueryParams.
Proof. solve_decision. Defined.

Definition QueryParams_flags (q : QueryParams) : Z :=
  let flags := QueryFlags.empty in
  let flags := insert_if (is_some (qp_values q)) QueryFlags.VALUE flags in
  let flags := insert_if (qp_with_names q) QueryFlags.WITH_NAMES_FOR_VALUES flags in
  let flags := insert_if (is_some (qp_page_size q)) QueryFlags.PAGE_SIZE flags in
  let flags := insert_if (is_some (qp_paging_state q)) QueryFlags.WITH_PAGING_STATE flags in
  let flags := insert_if (is_some (qp_serial_consistency q)) QueryFlags.WITH_SERIAL_CONSISTENCY flags in
  let flags := insert_if (is_some (qp_timestamp q)) QueryFlags.WITH_DEFAULT_TIMESTAMP flags in
  let flags := insert_if (is_some (qp_keyspace q)) QueryFlags.WITH_KEYSPACE flags in
  insert_if (is_some (qp_now_in_seconds q)) QueryFlags.WITH_NOW_IN_SECONDS flags.

Definition serialize_values `{!HashIter bytes} (values : QueryValues) : bytes :=
  i16_serialize (as_i16 (QueryValues_len values)) ++ QueryValues_serialize values.

Definition QueryParams_serialize `{!HashIter bytes} (v : Version) (q : QueryParams) : bytes :=
  i16_serialize (Consistency_to_i16 (qp_consistency q)) ++
  QueryFlags.serialize (QueryParams_flags q) v ++
  oser serialize_values (qp_values q) ++
  oser i32_serialize (qp_page_size q) ++
  oser CBytes_serialize (qp_paging_state q) ++
  oser Consistency_serialize (qp_serial_consistency q) ++
  oser i64_serialize (qp_timestamp q) ++
  oser serialize_str (qp_keyspace q) ++
  oser i32_serialize (qp_now_in_seconds q).

Definition read_values (names : bool) : R QueryValues :=
  let* number_of_values := CIntShort_from_cursor in
  let* _ := with_capacity (as_usize number_of_values) in
  if names then
    let* kvs := read_n (times number_of_values) (rpair from_cursor_str Value_from_cursor) in
    rret (NamedValues (hm_collect kvs))
  else
    let* vec := read_n (times number_of_values) Value_from_cursor in
    rret (SimpleValues vec).

Definition QueryParams_from_cursor (v : Version) : R QueryParams :=
  let* consistency := Consistency_from_cursor in
  let* flags := QueryFlags.from_cursor v in
  let has := QueryFlags.contains flags in
  let* values := ropt (has QueryFlags.VALUE) (read_values (has QueryFlags.WITH_NAMES_FOR_VALUES)) in
  let* page_size := ropt (has QueryFlags.PAGE_SIZE) CInt_from_cursor in
  let* paging_state := ropt (has QueryFlags.WITH_PAGING_STATE) CBytes_from_cursor in
  let* serial_consistency := ropt (has QueryFlags.WITH_SERIAL_CONSISTENCY) Consistency_from_cursor in
  let* timestamp := ropt (has QueryFlags.WITH_DEFAULT_TIMESTAMP) CLong_from_cursor in
  let* keyspace := ropt (has QueryFlags.WITH_KEYSPACE) from_cursor_str in
  let* now_in_seconds := ropt (has QueryFlags.WITH_NOW_IN_SECONDS) CInt_from_cursor in
  rret (mkQueryParams consistency (has QueryFlags.WITH_NAMES_FOR_VALUES) values page_size
          paging_state serial_consistency timestamp keyspace now_in_seconds).

(** ** [QueryParamsBuilder] *)

Record QueryParamsBuilder : Type := mkQPB {
  qb_flags : option Z;
  qb_params : QueryParams }.

Definition QueryParams_default : QueryParams :=
  mkQueryParams One false None None None None None None None.
Definition QueryParamsBuilder_new : QueryParamsBuilder := mkQPB None QueryParams_default.

(** [Option::or] *)
Definition opt_or {A} (o : option A) (d : A) : option A :=
  match o with Some a => Some a | None => Some d end.

Inductive qp_setter : Type :=
| SetConsistency (c : Consistency) | SetFlags (f : Z) | SetValues (q : QueryValues)
| SetNames (b : bool) | SetPageSize (n : Z) | SetPagingState (s : CBytes)
| SetSerialConsistency (c : Consistency) | SetTimestamp (t : Z) | SetKeyspace (k : bytes)
| SetNowInSeconds (n : Z).

(** The [with_*] methods of the builder. *)
Definition qp_with (s : qp_setter) (b : QueryParamsBuilder) : QueryParamsBuilder :=
  let '(mkQueryParams c wn v ps pst sc ts ks now) := qb_params b in
  match s with
  | SetConsistency c' => mkQPB (qb_flags b) (mkQueryParams c' wn v ps pst sc ts ks now)
  | SetFlags f => mkQPB (Some f) (qb_params b)
  | SetValues q =>
    let flags := QueryFlags.VALUE in
    let flags := if has_names q then QueryFlags.insert flags QueryFlags.WITH_NAMES_FOR_VALUES else flags in
    mkQPB (opt_or (qb_flags b) flags) (mkQueryParams c (has_names q) (Some q) ps pst sc ts ks now)
  | SetNames wn' => mkQPB (qb_flags b) (mkQueryParams c wn' v ps pst sc ts ks now)
  | SetPageSize n => mkQPB (opt_or (qb_flags b) QueryFlags.PAGE_SIZE) (mkQueryParams c wn v (Some n) pst sc ts ks now)
  | SetPagingState s => mkQPB (opt_or (qb_flags b) QueryFlags.WITH_PAGING_STATE) (mkQueryParams c wn v ps (Some s) sc ts ks now)
  | SetSerialConsistency sc' => mkQPB (qb_flags b) (mkQueryParams c wn v ps pst (Some sc') ts ks now)
  | SetTimestamp t => mkQPB (qb_flags b) (mkQueryParams c wn v ps pst sc (Some t) ks now)
  | SetKeyspace k => mkQPB (qb_flags b) (mkQueryParams c wn v ps pst sc ts (Some k) now)
  | SetNowInSeconds n => mkQPB (qb_flags b) (mkQueryParams c wn v ps pst sc ts ks (Some n))
  end.

Definition qp_build (b : QueryParamsBuilder) : QueryParams := qb_params b.

(** ** Round trips *)

Lemma Consistency_try_from_to c : Consistency_try_from (Consistency_to_i16 c) = Ok c.
Proof. by destruct c. Qed.
Lemma Consistency_i16_range c : in_i 16 (Consistency_to_i16 c).
Proof. by destruct c. Qed.
#[export] Hint Resolve Consistency_i16_range : cdrs_wf.

#[export] Instance Consistency_round_trip :
  RoundTrip Consistency_from_cursor Consistency_serialize (fun _ => True).
Proof.
  intros c rest _. unfold Consistency_from_cursor, Consistency_serialize. rt_step.
  unfold rlift. by rewrite Consistency_try_from_to.
Qed.

#[export] Instance Value_round_trip : RoundTrip Value_from_cursor Value_serialize wf_value.
Proof.
  intros [b| |] rest H; unfold Value_from_cursor, Value_serialize; [|by rt_step..].
  destruct H as [Hb Hl]. apply zlen_pos in Hb. rt_step. rewrite as_i32_small by lia.
  rewrite (proj2 (Z.ltb_lt _ _)) by lia.
  by rewrite (rbind_ok _ _ _ _ _ (cursor_next_value_app _ b rest eq_refl)).
Qed.

#[export] Instance QueryFlags_round_trip v :
  RoundTrip (QueryFlags.from_cursor v) (fun f => QueryFlags.serialize f v) (QueryFlags.wf v).
Proof.
  intros f rest Hf. unfold QueryFlags.from_cursor, QueryFlags.serialize, QueryFlags.wf,
    QueryFlags.from_bits_truncate, QueryFlags.all in *. change 0x1ff with (2 ^ 9 - 1).
  destruct (ge_v5 v).
  - unfold u32_serialize, INT_LEN. rewrite (rbind_ok _ _ _ _ _ (read_exact_app 4 _ rest (length_be_bytes 4 f))).
    rewrite (uint_be_bytes 4 32) by (unfold in_u; lia). unfold rret. by rewrite land_mask, Z.mod_small by lia.
  - rt_step. rewrite b2z_u8. unfold rret. rewrite land_mask, (Z.mod_small f 256), Z.mod_small by lia. done.
Qed.

Definition wf_query_values (q : QueryValues) : Prop :=
  match q with
  | SimpleValues l => zlen l < 2 ^ 15 /\ Forall wf_value l
  | NamedValues m => Z.of_nat (size m) < 2 ^ 15 /\
                     map_Forall (fun k v => wf_short_string k /\ wf_value v) m
  end.

(** The number of elements, then the elements. *)
Lemma with_count {A B} (r : Z -> R A) (f : A -> R B) n i : 0 <= n < 2 ^ 15 ->
  rbind CIntShort_from_cursor (fun len => rbind (with_capacity (as_usize len)) (fun _ => rbind (r len) f))
    (i16_serialize (as_i16 n) ++ i) = rbind (r n) f i.
Proof.
  intros Hn. assert (H16 : in_i 16 n) by (unfold in_i; lia). assert (H32 : in_i 32 n) by (unfold in_i; lia).
  assert (H0 : 0 <= n) by lia. rewrite as_i16_small by lia.
  rewrite (rbind_ok _ _ _ _ _ (round_trip (dec := CIntShort_from_cursor) n i H16)).
  by rewrite (rbind_ok _ _ _ _ _ (with_capacity_ok n i H32 H0)).
Qed.

#[export] Instance serialize_named_round_trip :
  RoundTrip (rpair from_cursor_str Value_from_cursor) serialize_named
    (fun kv => wf_short_string kv.1 /\ wf_value kv.2) := rpair_round_trip _ _ _ _ _ _.

#[export] Instance read_values_round_trip `{!HashIter bytes} names :
  RoundTrip (read_values names) serialize_values (fun q => has_names q = names /\ wf_query_values q).
Proof.
  intros q rest [<- Hq]. unfold read_values, serialize_values. rewrite <- app_assoc.
  destruct q as [l|m]; cbn [has_names QueryValues_len QueryValues_serialize wf_query_values] in *;
    destruct Hq as [Hn Hq].
  - rewrite (with_count (fun n => read_n (times n) Value_from_cursor)) by (split; [apply zlen_nonneg|done]).
    rewrite times_zlen. rt_step. done.
  - rewrite (with_count (fun n => read_n (times n) (rpair from_cursor_str Value_from_cursor))) by lia.
    assert (Hl : length (hm_iter m) = times (Z.of_nat (size m))) by (rewrite hm_iter_length; unfold times; lia).
    rewrite (rbind_ok _ _ _ _ _ (read_n_round_trip _ serialize_named _ _ (hm_iter m) rest
               (conj Hl (hm_iter_Forall _ m Hq)))).
    unfold rret. by rewrite hm_collect_iter.
Qed.

(** Each flag is set exactly by its condition. *)
Definition flags_of (b1 b2 b3 b4 b5 b6 b7 b8 : bool) : Z :=
  let flags := QueryFlags.empty in
  let flags := insert_if b1 QueryFlags.VALUE flags in
  let flags := insert_if b2 QueryFlags.WITH_NAMES_FOR_VALUES flags in
  let flags := insert_if b3 QueryFlags.PAGE_SIZE flags in
  let flags := insert_if b4 QueryFlags.WITH_PAGING_STATE flags in
  let flags := insert_if b5 QueryFlags.WITH_SERIAL_CONSISTENCY flags in
  let flags := insert_if b6 QueryFlags.WITH_DEFAULT_TIMESTAMP flags in
  let flags := insert_if b7 QueryFlags.WITH_KEYSPACE flags in
  insert_if b8 QueryFlags.WITH_NOW_IN_SECONDS flags.

Lemma flags_of_contains b1 b2 b3 b4 b5 b6 b7 b8 :
  let has := QueryFlags.contains (flags_of b1 b2 b3 b4 b5 b6 b7 b8) in
  has QueryFlags.VALUE = b1 /\ has QueryFlags.WITH_NAMES_FOR_VALUES = b2 /\
  has QueryFlags.PAGE_SIZE = b3 /\ has QueryFlags.WITH_PAGING_STATE = b4 /\
  has QueryFlags.WITH_SERIAL_CONSISTENCY = b5 /\ has QueryFlags.WITH_DEFAULT_TIMESTAMP = b6 /\
  has QueryFlags.WITH_KEYSPACE = b7 /\ has QueryFlags.WITH_NOW_IN_SECONDS = b8.
Proof. destruct b1, b2, b3, b4, b5, b6, b7, b8; repeat split. Qed.

Lemma flags_of_range v b1 b2 b3 b4 b5 b6 b7 b8 : (ge_v5 v = false -> b8 = false) ->
  QueryFlags.wf v (flags_of b1 b2 b3 b4 b5 b6 b7 b8).
Proof.
  unfold QueryFlags.wf. intros H. destruct (ge_v5 v).
  - destruct b1, b2, b3, b4, b5, b6, b7, b8; by compute.
  - rewrite H by done. destruct b1, b2, b3, b4, b5, b6, b7; by compute.
Qed.

(** What the wire format can carry: named values are flagged, and the one
    byte of flags before v5 has no room for [WITH_NOW_IN_SECONDS]. *)
Definition wf_query_params (v : Version) (q : QueryParams) : Prop :=
  match qp_values q with
  | Some vs => has_names vs = qp_with_names q /\ wf_query_values vs
  | None => True
  end /\
  wf_opt (in_i 32) (qp_page_size q) /\ wf_opt wf_cbytes (qp_paging_state q) /\
  wf_opt (in_i 64) (qp_timestamp q) /\ wf_opt wf_short_string (qp_keyspace q) /\
  wf_opt (in_i 32) (qp_now_in_seconds q) /\
  (ge_v5 v = false -> qp_now_in_seconds q = None).

Lemma wf_opt_true {A} (o : option A) : wf_opt (fun _ => True) o.
Proof. by destruct o. Qed.
#[export] Hint Resolve wf_opt_true : cdrs_wf.

#[export] Instance QueryParams_round_trip `{!HashIter bytes} v :
  RoundTrip (QueryParams_from_cursor v) (QueryParams_serialize v) (wf_query_params v).
Proof.
  intros [c wn vs ps pst sc ts ks now] rest (Hv & Hps & Hpst & Hts & Hks & Hnow & H5); simpl in *.
  unfold QueryParams_from_cursor, QueryParams_serialize; simpl.
  change (QueryParams_flags _) with
    (flags_of (is_some vs) wn (is_some ps) (is_some pst) (is_some sc) (is_some ts) (is_some ks) (is_some now)).
  change (i16_serialize (Consistency_to_i16 c)) with (Consistency_serialize c). rt_step.
  assert (Hf : QueryFlags.wf v (flags_of (is_some vs) wn (is_some ps) (is_some pst) (is_some sc) (is_some ts)
                 (is_some ks) (is_some now))) by (apply flags_of_range; intros ->%H5; done).
  rewrite <- ?app_assoc.
  erewrite rbind_ok; [|exact (QueryFlags_round_trip v _ _ Hf)]. cbn beta zeta.
  destruct (flags_of_contains (is_some vs) wn (is_some ps) (is_some pst) (is_some sc) (is_some ts) (is_some ks)
              (is_some now)) as (-> & -> & -> & -> & -> & -> & -> & ->).
  erewrite rbind_ok; [|apply (round_trip (dec := ropt _ (read_values wn)) vs); split; [done|by destruct vs]].
  repeat rt_step. done.
Qed.

(** Before v5 only the low byte of the flags is written. *)
Lemma flags_truncated v f : ge_v5 v = false -> QueryFlags.serialize f v = QueryFlags.serialize (f mod 256) v.
Proof. intros H. unfold QueryFlags.serialize. by rewrite H, u8_mod. Qed.

Lemma flags_of_low b1 b2 b3 b4 b5 b6 b7 b8 :
  flags_of b1 b2 b3 b4 b5 b6 b7 b8 mod 256 = flags_of b1 b2 b3 b4 b5 b6 b7 false.
Proof. by destruct b1, b2, b3, b4, b5, b6, b7, b8. Qed.

Definition drop_now (q : QueryParams) : QueryParams :=
  mkQueryParams (qp_consistency q) (qp_with_names q) (qp_values q) (qp_page_size q) (qp_paging_state q)
    (qp_serial_consistency q) (qp_timestamp q) (qp_keyspace q) None.

Lemma QueryParams_serialize_legacy `{!HashIter bytes} v q : ge_v5 v = false ->
  QueryParams_serialize v q
  = QueryParams_serialize v (drop_now q) ++ oser i32_serialize (qp_now_in_seconds q).
Proof.
  intros Hv. destruct q as [c wn vs ps pst sc ts ks now]. unfold QueryParams_serialize. simpl.
  change (QueryParams_flags (mkQueryParams c wn vs ps pst sc ts ks now)) with
    (flags_of (is_some vs) wn (is_some ps) (is_some pst) (is_some sc) (is_some ts) (is_some ks) (is_some now)).
  rewrite (flags_truncated v) by done. rewrite flags_of_low.
  change (QueryParams_flags (drop_now _)) with
    (flags_of (is_some vs) wn (is_some ps) (is_some pst) (is_some sc) (is_some ts) (is_some ks) false).
  rewrite <- !app_assoc. do 8 f_equal.
Qed.

(** Query parameters that the protocol version can express are read
    back from what was written, whatever follows. *)
Theorem query_params_round_trip `{!HashIter bytes} v q rest :
  wf_query_params v q -> QueryParams_from_cursor v (QueryParams_serialize v q ++ rest) = Ok (q, rest).
Proof. apply round_trip. Qed.

(** Before v5 the flag of [now_in_seconds] does not fit the flag byte but
    its four bytes are written all the same: a reader gets the other
    parameters and is left in front of four stray bytes. *)
Theorem now_in_seconds_lost_before_v5 `{!HashIter bytes} v q n rest :
  ge_v5 v = false -> qp_now_in_seconds q = Some n -> wf_query_params v (drop_now q) ->
  QueryParams_from_cursor v (QueryParams_serialize v q ++ rest)
  = Ok (drop_now q, i32_serialize n ++ rest).
Proof.
  intros Hv Hn Hq. rewrite QueryParams_serialize_legacy, Hn, <- app_assoc by done.
  by apply (round_trip (dec := QueryParams_from_cursor v)).
Qed.

(** The setters the application uses to say what the values are. *)
Definition names_setter (s : qp_setter) : bool := match s with SetNames _ => true | _ => false end.

(** [query_values!] keeps the values in order; of a name given more than once it
    keeps the last value. *)
Theorem query_values_collects (values : list Value) (named : list (bytes * Value)) :
  query_values_simple [] values = SimpleValues values /\
  exists m, query_values_named ∅ named = NamedValues m /\
    forall name, m !! name = snd <$> last (filter (fun nv => nv.1 = name) named).
Proof.
  split.
  - enough (H : forall pushed, query_values_simple pushed values = SimpleValues (pushed ++ values)) by apply (H []).
    induction values as [|v vs IH]; intros pushed; simpl; [by rewrite app_nil_r|]. by rewrite IH, <- app_assoc.
  - enough (H : forall inserted, exists m, query_values_named inserted named = NamedValues m /\
      forall name, m !! name = match last (filter (fun nv => nv.1 = name) named) with Some nv => Some nv.2 | None => inserted !! name end).
    { destruct (H ∅) as (m & Hm & Hl). exists m. split; [done|]. intros name. rewrite Hl.
      by destruct (last _); [|rewrite lookup_empty]. }
    induction named as [|[n v] named IH]; intros inserted; simpl; [by exists inserted|].
    destruct (IH (<[n := v]> inserted)) as (m & Hm & Hl). exists m. split; [done|]. intros name. rewrite Hl, filter_cons. cbn [fst].
    destruct (decide (n = name)) as [->|Hne]; [|by rewrite lookup_insert_ne].
    rewrite last_cons. destruct (last _); [done|]. by rewrite lookup_insert_eq.
Qed.

Definition qp_builder_ok (b : QueryParamsBuilder) : Prop :=
  match qp_values (qb_params b) with
  | Some vs => has_names vs = qp_with_names (qb_params b)
  | None => qp_with_names (qb_params b) = false
  end.

Lemma qp_with_ok s b : names_setter s = false -> qp_builder_ok b -> qp_builder_ok (qp_with s b).
Proof.
  destruct b as [f [c wn v ps pst sc ts ks now]]; unfold qp_builder_ok; destruct s; simpl; done.
Qed.

(** Whatever the order and repetition of the [with_*] calls ([with_names]
    apart), the parameters built flag their values as named exactly when
    they are. *)
Theorem query_params_builder_consistent (ss : list qp_setter) :
  forallb (fun s => negb (names_setter s)) ss = true ->
  let q := qp_build (foldl (fun b s => qp_with s b) QueryParamsBuilder_new ss) in
  match qp_values q with
  | Some vs => has_names vs = qp_with_names q
  | None => qp_with_names q = false
  end.
Proof.
  intros H. change (qp_builder_ok (foldl (fun b s => qp_with s b) QueryParamsBuilder_new ss)).
  assert (H0 : qp_builder_ok QueryParamsBuilder_new) by done. revert H0.
  generalize QueryParamsBuilder_new as b. induction ss as [|s ss IH]; intros b Hb; [done|].
  simpl in *. apply andb_true_iff in H as [Hs H]. apply IH; [done|].
  apply qp_with_ok; [by destruct (names_setter s)|done].
Qed.

(** ** [quote] ([query/utils.rs]) *)

Definition dquote : byte := u8 34.
Definition quote (text : bytes) : bytes :=
  dquote :: concat (map (fun b => if bool_decide (b = dquote) then [dquote; dquote] else [b]) text) ++ [dquote].

(** How a CQL lexer reads the body of a quoted identifier: a doubled quote is
    a quote, a single one ends it. *)
Fixpoint unquote_body (l : bytes) : option (bytes * bytes) :=
  match l with
  | [] => None
  | b :: l' =>
    if bool_decide (b = dquote) then
      match l' with
      | c :: l'' => if bool_decide (c = dquote)
                    then '(t, r) ← unquote_body l''; Some (dquote :: t, r)
                    else Some ([], l')
      | [] => Some ([], [])
      end
    else '(t, r) ← unquote_body l'; Some (b :: t, r)
  end.
Definition unquote (l : bytes) : option (bytes * bytes) :=
  match l with b :: l' => if bool_decide (b = dquote) then unquote_body l' else None | [] => None end.

(** A quoted identifier, followed by anything but a quote, is read by a CQL
    lexer as the identifier it was made from; quotes inside it do not end it. *)
Theorem quote_read_back text rest :
  head rest <> Some dquote -> unquote (quote text ++ rest) = Some (text, rest).
Proof.
  intros Hr. unfold unquote, quote. rewrite <- app_comm_cons, <- app_assoc.
  rewrite bool_decide_true by done. change ([dquote] ++ rest) with (dquote :: rest).
  induction text as [|b text IH]; cbn [map concat].
  - cbn [app unquote_body]. rewrite bool_decide_true by done. destruct rest as [|c rest]; [done|].
    rewrite bool_decide_false; [done|]. intros ->. done.
  - rewrite <- app_assoc. case_bool_decide as Hb; cbn [app unquote_body].
    + subst b. rewrite !bool_decide_true by done. by rewrite IH.
    + rewrite bool_decide_false by done. by rewrite IH.
Qed.

(** ** Witnesses *)

Module QuerySamples.
#[local] Instance order : HashIter bytes := default_iter bytes.

Definition named : QueryValues := NamedValues {[lit "id" := VSome [u8 1]; lit "name" := VNotSet]}.
Definition params : QueryParams :=
  mkQueryParams Quorum true (Some named) (Some 100) (Some (mkCBytes None)) (Some LocalSerial)
    (Some (-5)) (Some (lit "ks")) (Some 7).

Lemma named_wf : wf_query_values named.
Proof.
  split; [by vm_compute|]. apply map_Forall_insert_2; [|apply map_Forall_singleton];
    repeat split; by vm_compute.
Qed.

Lemma params_wf v : (ge_v5 v = true) -> wf_query_params v params.
Proof. intros Hv. split; [split; [done|apply named_wf]|]. repeat split; try (by vm_compute). congruence. Qed.
Lemma params_drop_wf v : wf_query_params v (drop_now params).
Proof. split; [split; [done|apply named_wf]|]. repeat split; try (by vm_compute). Qed.

Lemma query_params_round_trip_witness :
  QueryParams_from_cursor V5 (QueryParams_serialize V5 params ++ [u8 1]) = Ok (params, [u8 1]).
Proof. apply (query_params_round_trip V5 params [u8 1]). by apply params_wf. Defined.

Lemma now_in_seconds_lost_witness :
  QueryParams_from_cursor V4 (QueryParams_serialize V4 params ++ [])
  = Ok (drop_now params, i32_serialize 7 ++ []).
Proof. apply (now_in_seconds_lost_before_v5 V4 params 7 []); [done|done|apply params_drop_wf]. Defined.

Lemma query_params_builder_witness :
  let ss := [SetValues named; SetPageSize 3; SetValues (SimpleValues [VNull])] in
  let q := qp_build (foldl (fun b s => qp_with s b) QueryParamsBuilder_new ss) in
  match qp_values q with
  | Some vs => has_names vs = qp_with_names q
  | None => qp_with_names q = false
  end.
Proof. apply (query_params_builder_consistent [SetValues named; SetPageSize 3; SetValues (SimpleValues [VNull])]). done. Defined.

Lemma quote_read_back_witness :
  unquote (quote [u8 97; dquote; u8 98] ++ [u8 46]) = Some ([u8 97; dquote; u8 98], [u8 46]).
Proof. apply (quote_read_back [u8 97; dquote; u8 98] [u8 46]). by vm_compute. Defined.
End QuerySamples.
