(* ===== verification/Events.v ===== *)
(** * Server events: [frame/events.rs], [frame/message_event.rs]

    Events are tagged by strings; every tag, target and change type is read
    back from what is written, and the options of a schema change are read by
    the shape its target prescribes. *)

From S2P Require Import Prelude Types Wire.
Local Open Scope Z_scope.
Local Open Scope cdrs_scope.

Definition TOPOLOGY_CHANGE : bytes := lit "TOPOLOGY_CHANGE".
Definition STATUS_CHANGE : bytes := lit "STATUS_CHANGE".
Definition SCHEMA_CHANGE : bytes := lit "SCHEMA_CHANGE".
Definition NEW_NODE : bytes := lit "NEW_NODE".
Definition REMOVED_NODE : bytes := lit "REMOVED_NODE".
Definition UP : bytes := lit "UP".
Definition DOWN : bytes := lit "DOWN".
Definition CREATED : bytes := lit "CREATED".
Definition UPDATED : bytes := lit "UPDATED".
Definition DROPPED : bytes := lit "DROPPED".
Definition KEYSPACE : bytes := lit "KEYSPACE".
Definition TABLE : bytes := lit "TABLE".
Definition TYPE : bytes := lit "TYPE".
Definition FUNCTION : bytes := lit "FUNCTION".
Definition AGGREGATE : bytes := lit "AGGREGATE".

(** ** Topology and status *)

Inductive TopologyChangeType : Type := NewNode | RemovedNode.
Definition TopologyChangeType_serialize (t : TopologyChangeType) : bytes :=
  match t with NewNode => serialize_str NEW_NODE | RemovedNode => serialize_str REMOVED_NODE end.
Definition TopologyChangeType_from_cursor : R TopologyChangeType :=
  let* tc := from_cursor_str in
  if bool_decide (tc = NEW_NODE) then rret NewNode
  else if bool_decide (tc = REMOVED_NODE) then rret RemovedNode
  else rerr (EUnexpectedTopologyChangeType tc).

Record TopologyChange : Type := mkTopologyChange {
  tc_change_type : TopologyChangeType; tc_addr : SocketAddr }.
Definition TopologyChange_serialize (t : TopologyChange) : bytes :=
  TopologyChangeType_serialize (tc_change_type t) ++ SocketAddr_serialize (tc_addr t).
Definition TopologyChange_from_cursor : R TopologyChange :=
  let* change_type := TopologyChangeType_from_cursor in
  let* addr := SocketAddr_from_cursor in
  rret (mkTopologyChange change_type addr).

Inductive StatusChangeType : Type := Up | Down.
Definition StatusChangeType_serialize (t : StatusChangeType) : bytes :=
  match t with Up => serialize_str UP | Down => serialize_str DOWN end.
Definition StatusChangeType_from_cursor : R StatusChangeType :=
  let* sct := from_cursor_str in
  if bool_decide (sct = UP) then rret Up
  else if bool_decide (sct = DOWN) then rret Down
  else rerr (EUnexpectedStatusChangeType sct).

Record StatusChange : Type := mkStatusChange {
  sc_change_type : StatusChangeType; sc_addr : SocketAddr }.
Definition StatusChange_serialize (s : StatusChange) : bytes :=
  StatusChangeType_serialize (sc_change_type s) ++ SocketAddr_serialize (sc_addr s).
Definition StatusChange_from_cursor : R StatusChange :=
  let* change_type := StatusChangeType_from_cursor in
  let* addr := SocketAddr_from_cursor in
  rret (mkStatusChange change_type addr).

(** ** Schema *)

Inductive SchemaChangeType : Type := Created | Updated | Dropped.
Definition SchemaChangeType_serialize (t : SchemaChangeType) : bytes :=
  match t with
  | Created => serialize_str CREATED
  | Updated => serialize_str UPDATED
  | Dropped => serialize_str DROPPED
  end.
Definition SchemaChangeType_from_cursor : R SchemaChangeType :=
  let* ct := from_cursor_str in
  if bool_decide (ct = CREATED) then rret Created
  else if bool_decide (ct = UPDATED) then rret Updated
  else if bool_decide (ct = DROPPED) then rret Dropped
  else rerr (EUnexpectedSchemaChangeType ct).

Inductive SchemaChangeTarget : Type := TKeyspace | TTable | TType | TFunction | TAggregate.
Definition SchemaChangeTarget_serialize (t : SchemaChangeTarget) : bytes :=
  match t with
  | TKeyspace => serialize_str KEYSPACE
  | TTable => serialize_str TABLE
  | TType => serialize_str TYPE
  | TFunction => serialize_str FUNCTION
  | TAggregate => serialize_str AGGREGATE
  end.
Definition SchemaChangeTarget_from_cursor : R SchemaChangeTarget :=
  let* t := from_cursor_str in
  if bool_decide (t = KEYSPACE) then rret TKeyspace
  else if bool_decide (t = TABLE) then rret TTable
  else if bool_decide (t = TYPE) then rret TType
  else if bool_decide (t = FUNCTION) then rret TFunction
  else if bool_decide (t = AGGREGATE) then rret TAggregate
  else rerr (EUnexpectedSchemaChangeTarget t).

Inductive SchemaChangeOptions : Type :=
| OKeyspace (ks : bytes)
| OTableType (ks t : bytes)
| OFunctionAggregate (ks fa_name : bytes) (types : list bytes).

Definition SchemaChangeOptions_serialize (o : SchemaChangeOptions) : bytes :=
  match o with
  | OKeyspace ks => serialize_str ks
  | OTableType ks t => serialize_str ks ++ serialize_str t
  | OFunctionAggregate ks fa_name l =>
    serialize_str ks ++ serialize_str fa_name ++
    i16_serialize (as_i16 (zlen l)) ++ concat (map serialize_str l)
  end.

Definition from_cursor_keyspace : R SchemaChangeOptions :=
  let* ks := from_cursor_str in rret (OKeyspace ks).
Definition from_cursor_table_type : R SchemaChangeOptions :=
  let* keyspace := from_cursor_str in
  let* name := from_cursor_str in
  rret (OTableType keyspace name).
Definition from_cursor_function_aggregate : R SchemaChangeOptions :=
  let* keyspace := from_cursor_str in
  let* name := from_cursor_str in
  let* types := from_cursor_string_list in
  rret (OFunctionAggregate keyspace name types).

Definition from_cursor_and_target (target : SchemaChangeTarget) : R SchemaChangeOptions :=
  match target with
  | TKeyspace => from_cursor_keyspace
  | TTable | TType => from_cursor_table_type
  | TFunction | TAggregate => from_cursor_function_aggregate
  end.

Record SchemaChange : Type := mkSchemaChange {
  sch_change_type : SchemaChangeType; sch_target : SchemaChangeTarget; sch_options : SchemaChangeOptions }.
Definition SchemaChange_serialize (s : SchemaChange) : bytes :=
  SchemaChangeType_serialize (sch_change_type s) ++
  SchemaChangeTarget_serialize (sch_target s) ++
  SchemaChangeOptions_serialize (sch_options s).
Definition SchemaChange_from_cursor : R SchemaChange :=
  let* change_type := SchemaChangeType_from_cursor in
  let* target := SchemaChangeTarget_from_cursor in
  let* options := from_cursor_and_target target in
  rret (mkSchemaChange change_type target options).

(** ** Events *)

Inductive ServerEvent : Type :=
| EvTopologyChange (t : TopologyChange)
| EvStatusChange (s : StatusChange)
| EvSchemaChange (s : SchemaChange).

Definition ServerEvent_serialize (e : ServerEvent) : bytes :=
  match e with
  | EvTopologyChange t => serialize_str TOPOLOGY_CHANGE ++ TopologyChange_serialize t
  | EvStatusChange s => serialize_str STATUS_CHANGE ++ StatusChange_serialize s
  | EvSchemaChange s => serialize_str SCHEMA_CHANGE ++ SchemaChange_serialize s
  end.
Definition ServerEvent_from_cursor : R ServerEvent :=
  let* event_type := from_cursor_str in
  if bool_decide (event_type = TOPOLOGY_CHANGE) then rmap EvTopologyChange TopologyChange_from_cursor
  else if bool_decide (event_type = STATUS_CHANGE) then rmap EvStatusChange StatusChange_from_cursor
  else if bool_decide (event_type = SCHEMA_CHANGE) then rmap EvSchemaChange SchemaChange_from_cursor
  else rerr (EUnknownServerEvent event_type).

Inductive SimpleServerEvent : Type := SimpleTopologyChange | SimpleStatusChange | SimpleSchemaChange.
#[export] Instance SimpleServerEvent_eq_dec : EqDecision SimpleServerEvent.
Proof. solve_decision. Defined.

Definition SimpleServerEvent_as_str (e : SimpleServerEvent) : bytes :=
  match e with
  | SimpleTopologyChange => TOPOLOGY_CHANGE
  | SimpleStatusChange => STATUS_CHANGE
  | SimpleSchemaChange => SCHEMA_CHANGE
  end.
Definition SimpleServerEvent_from (e : ServerEvent) : SimpleServerEvent :=
  match e with
  | EvTopologyChange _ => SimpleTopologyChange
  | EvStatusChange _ => SimpleStatusChange
  | EvSchemaChange _ => SimpleSchemaChange
  end.
Definition SimpleServerEvent_try_from (value : bytes) : Result SimpleServerEvent :=
  if bool_decide (value = TOPOLOGY_CHANGE) then Ok SimpleTopologyChange
  else if bool_decide (value = STATUS_CHANGE) then Ok SimpleStatusChange
  else if bool_decide (value = SCHEMA_CHANGE) then Ok SimpleSchemaChange
  else Err (EUnknownServerEvent value).

Record BodyResEvent : Type := mkBodyResEvent { bre_event : ServerEvent }.
Definition BodyResEvent_serialize (b : BodyResEvent) : bytes := ServerEvent_serialize (bre_event b).
Definition BodyResEvent_from_cursor : R BodyResEvent :=
  let* event := ServerEvent_from_cursor in rret (mkBodyResEvent event).

(** ** Well-formedness *)

Definition wf_schema_options (t : SchemaChangeTarget) (o : SchemaChangeOptions) : Prop :=
  match t, o with
  | TKeyspace, OKeyspace ks => wf_short_string ks
  | (TTable | TType), OTableType ks n => wf_short_string ks /\ wf_short_string n
  | (TFunction | TAggregate), OFunctionAggregate ks n l =>
    wf_short_string ks /\ wf_short_string n /\ wf_string_list l
  | _, _ => False
  end.
Definition wf_schema_change (s : SchemaChange) : Prop := wf_schema_options (sch_target s) (sch_options s).
Definition wf_event (e : ServerEvent) : Prop :=
  match e with
  | EvTopologyChange t => wf_socket_addr (tc_addr t)
  | EvStatusChange s => wf_socket_addr (sc_addr s)
  | EvSchemaChange s => wf_schema_change s
  end.

(** ** Round trips *)

(** A tag read back selects its own branch: the tags differ. *)
Ltac tag := rt_step; repeat (rewrite bool_decide_false by (vm_compute; congruence)); rewrite ?bool_decide_true by done.

#[export] Instance TopologyChangeType_round_trip :
  RoundTrip TopologyChangeType_from_cursor TopologyChangeType_serialize (fun _ => True).
Proof. intros [] rest _; unfold TopologyChangeType_from_cursor, TopologyChangeType_serialize; by tag. Qed.
#[export] Instance StatusChangeType_round_trip :
  RoundTrip StatusChangeType_from_cursor StatusChangeType_serialize (fun _ => True).
Proof. intros [] rest _; unfold StatusChangeType_from_cursor, StatusChangeType_serialize; by tag. Qed.
#[export] Instance SchemaChangeType_round_trip :
  RoundTrip SchemaChangeType_from_cursor SchemaChangeType_serialize (fun _ => True).
Proof. intros [] rest _; unfold SchemaChangeType_from_cursor, SchemaChangeType_serialize; by tag. Qed.
#[export] Instance SchemaChangeTarget_round_trip :
  RoundTrip SchemaChangeTarget_from_cursor SchemaChangeTarget_serialize (fun _ => True).
Proof. intros [] rest _; unfold SchemaChangeTarget_from_cursor, SchemaChangeTarget_serialize; by tag. Qed.

#[export] Instance TopologyChange_round_trip :
  RoundTrip TopologyChange_from_cursor TopologyChange_serialize (fun t => wf_socket_addr (tc_addr t)).
Proof. intros [ty a] rest H. unfold TopologyChange_from_cursor, TopologyChange_serialize. simpl in *. rt. Qed.
#[export] Instance StatusChange_round_trip :
  RoundTrip StatusChange_from_cursor StatusChange_serialize (fun t => wf_socket_addr (sc_addr t)).
Proof. intros [ty a] rest H. unfold StatusChange_from_cursor, StatusChange_serialize. simpl in *. rt. Qed.

#[export] Instance SchemaChangeOptions_round_trip t :
  RoundTrip (from_cursor_and_target t) SchemaChangeOptions_serialize (wf_schema_options t).
Proof.
  intros [ks|ks n|ks n l] rest H; destruct t;
    cbn [from_cursor_and_target SchemaChangeOptions_serialize wf_schema_options] in *; try done;
    unfold from_cursor_keyspace, from_cursor_table_type, from_cursor_function_aggregate.
  1: rt.
  1-2: destruct H as [H1 H2]; rt.
  all: change (i16_serialize (as_i16 (zlen l)) ++ concat (map serialize_str l)) with (serialize_str_list l);
    destruct H as (H1 & H2 & H3); rt.
Qed.

#[export] Instance SchemaChange_round_trip :
  RoundTrip SchemaChange_from_cursor SchemaChange_serialize wf_schema_change.
Proof.
  intros [ty t o] rest H. unfold SchemaChange_from_cursor, SchemaChange_serialize, wf_schema_change in *.
  simpl in *. rt.
Qed.

#[export] Instance ServerEvent_round_trip : RoundTrip ServerEvent_from_cursor ServerEvent_serialize wf_event.
Proof. intros [t|s|s] rest H; unfold ServerEvent_from_cursor, ServerEvent_serialize; tag; rt. Qed.

#[export] Instance BodyResEvent_round_trip :
  RoundTrip BodyResEvent_from_cursor BodyResEvent_serialize (fun b => wf_event (bre_event b)).
Proof. intros [e] rest H. unfold BodyResEvent_from_cursor, BodyResEvent_serialize. simpl in *. rt. Qed.

Lemma SimpleServerEvent_round_trip e : SimpleServerEvent_try_from (SimpleServerEvent_as_str e) = Ok e.
Proof. by destruct e. Qed.

(** Every well-formed server event (topology, status and schema
    changes with each of their targets) is read back from its encoding,
    whatever follows it, and the name of its kind is the one REGISTER
    accepts. *)
Theorem server_event_round_trip e rest :
  wf_event e ->
  ServerEvent_from_cursor (ServerEvent_serialize e ++ rest) = Ok (e, rest) /\
  SimpleServerEvent_try_from (SimpleServerEvent_as_str (SimpleServerEvent_from e)) = Ok (SimpleServerEvent_from e).
Proof. intros H. split; [by apply round_trip|apply SimpleServerEvent_round_trip]. Qed.

(** ** Witness *)

Module EventSamples.
Definition dropped_table : ServerEvent :=
  EvSchemaChange (mkSchemaChange Dropped TTable (OTableType (lit "ks") (lit "t"))).

Lemma server_event_round_trip_witness :
  ServerEvent_from_cursor (ServerEvent_serialize dropped_table ++ [u8 1]) = Ok (dropped_table, [u8 1]) /\
  SimpleServerEvent_try_from (SimpleServerEvent_as_str (SimpleServerEvent_from dropped_table))
  = Ok (SimpleServerEvent_from dropped_table).
Proof. apply (server_event_round_trip dropped_table [u8 1]). split; apply short_string_ok_wf; reflexivity. Defined.
End EventSamples.
