(* ===== verification/Requests.v ===== *)
(** * Requests: [frame/message_*.rs] of the request opcodes, [frame/message_request.rs]

    Every request body with its serializer and parser, the dispatch on the
    opcode, the envelopes the driver builds from them, and the batch builder
    ([query/batch_query_builder.rs]). *)

From S2P Require Import Prelude Types Wire Compression Envelope Query Events.
Local Open Scope Z_scope.
Local Open Scope cdrs_scope.

(** ** PREPARE *)

Module PrepareFlags.
Definition WITH_KEYSPACE : Z := 0x01.
Definition empty : Z := 0.
Definition all : Z := 0x01.
Definition contains (f g : Z) : bool := Z.land f g =? g.
Definition serialize (f : Z) : bytes := u32_serialize f.
Definition from_cursor : R Z :=
  let* buff := read_exact INT_LEN in rret (Z.land (be_uint buff) all).
End PrepareFlags.

Record BodyReqPrepare : Type := mkBodyReqPrepare { brp_query : bytes; brp_keyspace : option bytes }.

Definition BodyReqPrepare_serialize (v : Version) (b : BodyReqPrepare) : bytes :=
  serialize_str_long (brp_query b) ++
  if ge_v5 v then
    match brp_keyspace b with
    | Some keyspace => PrepareFlags.serialize PrepareFlags.WITH_KEYSPACE ++ serialize_str keyspace
    | None => PrepareFlags.serialize PrepareFlags.empty
    end
  else [].

Definition BodyReqPrepare_from_cursor (v : Version) : R BodyReqPrepare :=
  if ge_v5 v then
    let* query := from_cursor_str_long in
    let* flags := PrepareFlags.from_cursor in
    if PrepareFlags.contains flags PrepareFlags.WITH_KEYSPACE
    then let* keyspace := from_cursor_str in rret (mkBodyReqPrepare query (Some keyspace))
    else rret (mkBodyReqPrepare query None)
  else let* query := from_cursor_str_long in rret (mkBodyReqPrepare query None).

(** ** STARTUP *)

Definition CQL_VERSION : bytes := lit "CQL_VERSION".
Definition CQL_VERSION_VAL : bytes := lit "3.0.0".
Definition COMPRESSION : bytes := lit "COMPRESSION".
Definition DRIVER_NAME : bytes := lit "DRIVER_NAME".
Definition DRIVER_VERSION : bytes := lit "DRIVER_VERSION".

Record BodyReqStartup : Type := mkBodyReqStartup { brs_map : gmap bytes bytes }.

(** [pkg_version] is [option_env!("CARGO_PKG_VERSION")], fixed by the build. *)
Definition BodyReqStartup_new (pkg_version compression : option bytes) (v : Version) : BodyReqStartup :=
  let map := <[CQL_VERSION := CQL_VERSION_VAL]> (∅ : gmap bytes bytes) in
  let map := match compression with Some c => <[COMPRESSION := c]> map | None => map end in
  let map :=
    if ge_v5 v then
      let map := <[DRIVER_NAME := lit "cdrs-tokio"]> map in
      match pkg_version with Some pv => <[DRIVER_VERSION := pv]> map | None => map end
    else map in
  mkBodyReqStartup map.

Definition serialize_entry (kv : bytes * bytes) : bytes := serialize_str kv.1 ++ serialize_str kv.2.

Definition BodyReqStartup_serialize `{!HashIter bytes} (b : BodyReqStartup) : bytes :=
  i16_serialize (as_i16 (Z.of_nat (size (brs_map b)))) ++ concat (map serialize_entry (hm_iter (brs_map b))).

Definition BodyReqStartup_from_cursor : R BodyReqStartup :=
  let* num := CIntShort_from_cursor in
  let* _ := with_capacity (as_usize num) in
  let* kvs := read_n (times num) (rpair from_cursor_str from_cursor_str) in
  rret (mkBodyReqStartup (hm_collect kvs)).

(** ** QUERY, EXECUTE *)

Record BodyReqQuery : Type := mkBodyReqQuery { brq_query : bytes; brq_query_params : QueryParams }.
Definition BodyReqQuery_serialize `{!HashIter bytes} (v : Version) (b : BodyReqQuery) : bytes :=
  serialize_str_long (brq_query b) ++ QueryParams_serialize v (brq_query_params b).
Definition BodyReqQuery_new (query : bytes) (consistency : Consistency) (values : option QueryValues) (with_names : bool)
    (page_size : option Z) (paging_state : option CBytes) (serial_consistency : option Consistency)
    (timestamp : option Z) (keyspace : option bytes) (now_in_seconds : option Z) : BodyReqQuery :=
  mkBodyReqQuery query
    (mkQueryParams consistency with_names values page_size paging_state serial_consistency timestamp keyspace now_in_seconds).
Definition BodyReqQuery_from_cursor (v : Version) : R BodyReqQuery :=
  let* query := from_cursor_str_long in
  let* query_params := QueryParams_from_cursor v in
  rret (mkBodyReqQuery query query_params).

(** The borrowed [BodyReqExecute] and [BodyReqExecuteOwned] have the same
    fields; the latter serializes as the former. *)
Record BodyReqExecuteOwned : Type := mkBodyReqExecute {
  bre_id : CBytesShort; bre_result_metadata_id : option CBytesShort; bre_query_parameters : QueryParams }.
Definition BodyReqExecute_serialize `{!HashIter bytes} (v : Version) (b : BodyReqExecuteOwned) : bytes :=
  CBytesShort_serialize (bre_id b) ++
  oser CBytesShort_serialize (bre_result_metadata_id b) ++
  QueryParams_serialize v (bre_query_parameters b).
Definition BodyReqExecuteOwned_from_cursor (v : Version) : R BodyReqExecuteOwned :=
  let* id := CBytesShort_from_cursor in
  let* result_metadata_id := ropt (ge_v5 v) CBytesShort_from_cursor in
  let* query_parameters := QueryParams_from_cursor v in
  rret (mkBodyReqExecute id result_metadata_id query_parameters).

(** ** REGISTER, OPTIONS, AUTH_RESPONSE *)

Record BodyReqRegister : Type := mkBodyReqRegister { brr_events : list SimpleServerEvent }.
Definition BodyReqRegister_serialize (b : BodyReqRegister) : bytes :=
  serialize_str_list (map SimpleServerEvent_as_str (brr_events b)).

(** [try_collect] *)
Fixpoint try_collect {A B} (f : A -> Result B) (l : list A) : Result (list B) :=
  match l with
  | [] => Ok []
  | x :: l' => let? y := f x in let? ys := try_collect f l' in Ok (y :: ys)
  end.
Definition BodyReqRegister_from_cursor : R BodyReqRegister :=
  let* events := from_cursor_string_list in
  rlift (omap mkBodyReqRegister (try_collect SimpleServerEvent_try_from events)).

Record BodyReqAuthResponse : Type := mkBodyReqAuthResponse { bra_data : CBytes }.
Definition BodyReqAuthResponse_serialize (b : BodyReqAuthResponse) : bytes := CBytes_serialize (bra_data b).
Definition BodyReqAuthResponse_from_cursor : R BodyReqAuthResponse :=
  rmap mkBodyReqAuthResponse CBytes_from_cursor.

(** ** BATCH *)

Inductive BatchType : Type := Logged | Unlogged | Counter.
Definition BatchType_to_u8 (t : BatchType) : Z := match t with Logged => 0 | Unlogged => 1 | Counter => 2 end.
Definition BatchType_try_from (b : Z) : Result BatchType :=
  match b with
  | 0 => Ok Logged | 1 => Ok Unlogged | 2 => Ok Counter
  | _ => Err (EGeneral "Unknown batch type: {value}")
  end.

Inductive BatchQuerySubj : Type := PreparedId (id : CBytesShort) | QueryString (s : bytes).
Record BatchQuery : Type := mkBatchQuery { bq_subject : BatchQuerySubj; bq_values : QueryValues }.

Definition BatchQuery_serialize `{!HashIter bytes} (q : BatchQuery) : bytes :=
  match bq_subject q with
  | PreparedId id => u8_serialize (u8 1) ++ CBytesShort_serialize id
  | QueryString s => u8_serialize (u8 0) ++ serialize_str_long s
  end ++ i16_serialize (as_i16 (QueryValues_len (bq_values q))) ++ QueryValues_serialize (bq_values q).

Definition BatchQuery_from_cursor : R BatchQuery :=
  let* is_prepared := u8_from_cursor in
  let* subject :=
    if negb (b2z is_prepared =? 0) then rmap PreparedId CBytesShort_from_cursor
    else rmap QueryString from_cursor_str_long in
  let* len := CIntShort_from_cursor in
  let* _ := with_capacity (as_usize len) in
  let* values := read_n (times len) Value_from_cursor in
  rret (mkBatchQuery subject (SimpleValues values)).

Record BodyReqBatch : Type := mkBodyReqBatch {
  bb_batch_type : BatchType; bb_queries : list BatchQuery; bb_consistency : Consistency;
  bb_serial_consistency : option Consistency; bb_timestamp : option Z;
  bb_keyspace : option bytes; bb_now_in_seconds : option Z }.

Definition BodyReqBatch_flags (b : BodyReqBatch) : Z :=
  let flags := QueryFlags.empty in
  let flags := insert_if (is_some (bb_serial_consistency b)) QueryFlags.WITH_SERIAL_CONSISTENCY flags in
  let flags := insert_if (is_some (bb_timestamp b)) QueryFlags.WITH_DEFAULT_TIMESTAMP flags in
  let flags := insert_if (is_some (bb_keyspace b)) QueryFlags.WITH_KEYSPACE flags in
  insert_if (is_some (bb_now_in_seconds b)) QueryFlags.WITH_NOW_IN_SECONDS flags.

Definition BodyReqBatch_serialize `{!HashIter bytes} (v : Version) (b : BodyReqBatch) : bytes :=
  u8_serialize (u8 (BatchType_to_u8 (bb_batch_type b))) ++
  i16_serialize (as_i16 (zlen (bb_queries b))) ++
  concat (map BatchQuery_serialize (bb_queries b)) ++
  Consistency_serialize (bb_consistency b) ++
  QueryFlags.serialize (BodyReqBatch_flags b) v ++
  oser Consistency_serialize (bb_serial_consistency b) ++
  oser i64_serialize (bb_timestamp b) ++
  oser serialize_str (bb_keyspace b) ++
  oser i32_serialize (bb_now_in_seconds b).

Definition BodyReqBatch_from_cursor (v : Version) : R BodyReqBatch :=
  let* batch_type := u8_from_cursor in
  let* batch_type := rlift (BatchType_try_from (b2z batch_type)) in
  let* len := CIntShort_from_cursor in
  let* _ := with_capacity (as_usize len) in
  let* queries := read_n (times len) BatchQuery_from_cursor in
  let* consistency := Consistency_from_cursor in
  let* query_flags := QueryFlags.from_cursor v in
  let has := QueryFlags.contains query_flags in
  let* serial_consistency := ropt (has QueryFlags.WITH_SERIAL_CONSISTENCY) Consistency_from_cursor in
  let* timestamp := ropt (has QueryFlags.WITH_DEFAULT_TIMESTAMP) CLong_from_cursor in
  let* keyspace := ropt (has QueryFlags.WITH_KEYSPACE) from_cursor_str in
  let* now_in_seconds := ropt (has QueryFlags.WITH_NOW_IN_SECONDS) CInt_from_cursor in
  rret (mkBodyReqBatch batch_type queries consistency serial_consistency timestamp keyspace now_in_seconds).

(** [BatchQueryBuilder]: the fields of the batch it is building. *)
Definition BatchQueryBuilder_new : BodyReqBatch := mkBodyReqBatch Logged [] One None None None None.
Inductive batch_setter : Type :=
| WithBatchType (t : BatchType) | AddQuery (query : bytes) (values : QueryValues)
| AddQueryPrepared (id : CBytesShort) (values : QueryValues) | ClearQueries
| WithConsistency (c : Consistency) | WithSerialConsistency (c : Consistency)
| WithTimestamp (t : Z) | WithKeyspace (k : bytes) | WithNowInSeconds (n : Z).
Definition batch_with (s : batch_setter) (b : BodyReqBatch) : BodyReqBatch :=
  let '(mkBodyReqBatch t qs c sc ts ks now) := b in
  match s with
  | WithBatchType t => mkBodyReqBatch t qs c sc ts ks now
  | AddQuery q v => mkBodyReqBatch t (qs ++ [mkBatchQuery (QueryString q) v]) c sc ts ks now
  | AddQueryPrepared id v => mkBodyReqBatch t (qs ++ [mkBatchQuery (PreparedId id) v]) c sc ts ks now
  | ClearQueries => mkBodyReqBatch t [] c sc ts ks now
  | WithConsistency c => mkBodyReqBatch t qs c sc ts ks now
  | WithSerialConsistency sc => mkBodyReqBatch t qs c (Some sc) ts ks now
  | WithTimestamp ts => mkBodyReqBatch t qs c sc (Some ts) ks now
  | WithKeyspace ks => mkBodyReqBatch t qs c sc ts (Some ks) now
  | WithNowInSeconds n => mkBodyReqBatch t qs c sc ts ks (Some n)
  end.
Definition batch_build (b : BodyReqBatch) : Result BodyReqBatch :=
  let with_names_for_values := forallb (fun q => has_names (bq_values q)) (bb_queries b) in
  if negb with_names_for_values then
    let some_names_for_values := existsb (fun q => has_names (bq_values q)) (bb_queries b) in
    if some_names_for_values
    then Err (EGeneral "Inconsistent query values - mixed with and without names values")
    else Ok b
  else Ok b.

(** ** [RequestBody] *)

Inductive RequestBody : Type :=
| RqStartup (b : BodyReqStartup)
| RqOptions
| RqQuery (b : BodyReqQuery)
| RqPrepare (b : BodyReqPrepare)
| RqExecute (b : BodyReqExecuteOwned)
| RqRegister (b : BodyReqRegister)
| RqBatch (b : BodyReqBatch)
| RqAuthResponse (b : BodyReqAuthResponse).

Definition RequestBody_serialize `{!HashIter bytes} (v : Version) (r : RequestBody) : bytes :=
  match r with
  | RqQuery b => BodyReqQuery_serialize v b
  | RqStartup b => BodyReqStartup_serialize b
  | RqOptions => []
  | RqPrepare b => BodyReqPrepare_serialize v b
  | RqExecute b => BodyReqExecute_serialize v b
  | RqRegister b => BodyReqRegister_serialize b
  | RqBatch b => BodyReqBatch_serialize v b
  | RqAuthResponse b => BodyReqAuthResponse_serialize b
  end.

Definition RequestBody_from_cursor (o : Opcode) (v : Version) : R RequestBody :=
  match o with
  | OpStartup => rmap RqStartup BodyReqStartup_from_cursor
  | OpOptions => rret RqOptions
  | OpQuery => rmap RqQuery (BodyReqQuery_from_cursor v)
  | OpPrepare => rmap RqPrepare (BodyReqPrepare_from_cursor v)
  | OpExecute => rmap RqExecute (BodyReqExecuteOwned_from_cursor v)
  | OpRegister => rmap RqRegister BodyReqRegister_from_cursor
  | OpBatch => rmap RqBatch (BodyReqBatch_from_cursor v)
  | OpAuthResponse => rmap RqAuthResponse BodyReqAuthResponse_from_cursor
  | _ => rerr (ENonRequestOpcode o)
  end.

(** [RequestBody::try_from] parses from a cursor over the body and ignores
    what is left. *)
Definition RequestBody_try_from (b : bytes) (o : Opcode) (v : Version) : Result RequestBody :=
  omap fst (RequestBody_from_cursor o v b).

Definition request_opcode (r : RequestBody) : Opcode :=
  match r with
  | RqStartup _ => OpStartup | RqOptions => OpOptions | RqQuery _ => OpQuery
  | RqPrepare _ => OpPrepare | RqExecute _ => OpExecute | RqRegister _ => OpRegister
  | RqBatch _ => OpBatch | RqAuthResponse _ => OpAuthResponse
  end.

Definition request_body `{UuidLib} (e : Envelope) : Result RequestBody :=
  RequestBody_try_from (body e) (opcode e) (version e).

(** ** [Envelope::new_req_*] *)

Section NewRequests.
Context `{UuidLib} `{!HashIter bytes}.

Definition new_request (o : Opcode) (flags : Z) (v : Version) (b : bytes) : Envelope :=
  mkEnvelope v Request flags o 0 b None [].
Definition new_query (q : BodyReqQuery) (flags : Z) (v : Version) : Envelope :=
  new_request OpQuery flags v (BodyReqQuery_serialize v q).
Definition new_req_query (query : bytes) (consistency : Consistency) (values : option QueryValues) (with_names : bool)
    (page_size : option Z) (paging_state : option CBytes) (serial_consistency : option Consistency)
    (timestamp : option Z) (keyspace : option bytes) (now_in_seconds : option Z) (flags : Z) (v : Version) : Envelope :=
  let body := BodyReqQuery_new query consistency values with_names page_size paging_state serial_consistency timestamp
    keyspace now_in_seconds in
  new_request OpQuery flags v (BodyReqQuery_serialize v body).
Definition new_req_execute (id : CBytesShort) (result_metadata_id : option CBytesShort)
    (query_parameters : QueryParams) (flags : Z) (v : Version) : Envelope :=
  new_request OpExecute flags v
    (BodyReqExecute_serialize v (mkBodyReqExecute id result_metadata_id query_parameters)).
Definition new_req_prepare (query : bytes) (keyspace : option bytes) (flags : Z) (v : Version) : Envelope :=
  new_request OpPrepare flags v (BodyReqPrepare_serialize v (mkBodyReqPrepare query keyspace)).
Definition new_req_startup (pkg_version compression : option bytes) (v : Version) : Envelope :=
  new_request OpStartup 0 v (BodyReqStartup_serialize (BodyReqStartup_new pkg_version compression v)).
Definition new_req_register (events : list SimpleServerEvent) (v : Version) : Envelope :=
  new_request OpRegister 0 v (BodyReqRegister_serialize (mkBodyReqRegister events)).
Definition new_req_options (v : Version) : Envelope := new_request OpOptions 0 v [].
Definition new_req_auth_response (token_bytes : CBytes) (v : Version) : Envelope :=
  new_request OpAuthResponse 0 v (BodyReqAuthResponse_serialize (mkBodyReqAuthResponse token_bytes)).
Definition new_req_batch (query : BodyReqBatch) (flags : Z) (v : Version) : Envelope :=
  new_request OpBatch flags v (BodyReqBatch_serialize v query).

(** The envelope for a request. *)
Definition request_envelope (r : RequestBody) (flags : Z) (v : Version) : Envelope :=
  new_request (request_opcode r) flags v (RequestBody_serialize v r).
End NewRequests.

(** ** Round trips *)

#[export] Instance serialize_entry_round_trip :
  RoundTrip (rpair from_cursor_str from_cursor_str) serialize_entry
    (fun kv => wf_short_string kv.1 /\ wf_short_string kv.2) := rpair_round_trip _ _ _ _ _ _.

Definition wf_startup (b : BodyReqStartup) : Prop :=
  Z.of_nat (size (brs_map b)) < 2 ^ 15 /\
  map_Forall (fun k v => wf_short_string k /\ wf_short_string v) (brs_map b).

#[export] Instance Startup_round_trip `{!HashIter bytes} :
  RoundTrip BodyReqStartup_from_cursor BodyReqStartup_serialize wf_startup.
Proof.
  intros [m] rest [Hn Hm]. unfold BodyReqStartup_from_cursor, BodyReqStartup_serialize. simpl brs_map in *.
  rewrite <- app_assoc.
  rewrite (with_count (fun n => read_n (times n) (rpair from_cursor_str from_cursor_str))) by lia.
  assert (Hl : length (hm_iter m) = times (Z.of_nat (size m))) by (rewrite hm_iter_length; unfold times; lia).
  rewrite (rbind_ok _ _ _ _ _ (read_n_round_trip _ serialize_entry _ _ (hm_iter m) rest
             (conj Hl (hm_iter_Forall _ m Hm)))).
  unfold rret. by rewrite hm_collect_iter.
Qed.

Lemma prepare_flags_read f rest : f = 0 \/ f = 1 ->
  PrepareFlags.from_cursor (PrepareFlags.serialize f ++ rest) = Ok (f, rest).
Proof.
  intros Hf. unfold PrepareFlags.from_cursor, PrepareFlags.serialize, u32_serialize, INT_LEN.
  rewrite (rbind_ok _ _ _ _ _ (read_exact_app 4 _ rest (length_be_bytes 4 f))).
  rewrite (uint_be_bytes 4 32) by (unfold in_u; lia). by destruct Hf as [-> | ->].
Qed.

Definition wf_prepare (v : Version) (b : BodyReqPrepare) : Prop :=
  wf_long_string (brp_query b) /\ wf_opt wf_short_string (brp_keyspace b) /\
  (ge_v5 v = false -> brp_keyspace b = None).

#[export] Instance Prepare_round_trip v :
  RoundTrip (BodyReqPrepare_from_cursor v) (BodyReqPrepare_serialize v) (wf_prepare v).
Proof.
  intros [q ks] rest (Hq & Hks & H5). unfold BodyReqPrepare_from_cursor, BodyReqPrepare_serialize. simpl in *.
  destruct (ge_v5 v).
  - rt_step. destruct ks as [ks|]; rewrite <- ?app_assoc;
      (erewrite rbind_ok; [|apply prepare_flags_read; auto]).
    + replace (PrepareFlags.contains _ _) with true by done. rt.
    + done.
  - rewrite H5 by done. rewrite app_nil_r. rt.
Qed.

Definition wf_query (v : Version) (b : BodyReqQuery) : Prop :=
  wf_long_string (brq_query b) /\ wf_query_params v (brq_query_params b).
#[export] Instance Query_round_trip `{!HashIter bytes} v :
  RoundTrip (BodyReqQuery_from_cursor v) (BodyReqQuery_serialize v) (wf_query v).
Proof. intros [q p] rest [Hq Hp]. unfold BodyReqQuery_from_cursor, BodyReqQuery_serialize. simpl in *. rt. Qed.

(** From v5 on the result metadata id is always there. *)
Definition wf_execute (v : Version) (b : BodyReqExecuteOwned) : Prop :=
  wf_cbytes_short (bre_id b) /\
  is_some (bre_result_metadata_id b) = ge_v5 v /\ wf_opt wf_cbytes_short (bre_result_metadata_id b) /\
  wf_query_params v (bre_query_parameters b).
#[export] Instance Execute_round_trip `{!HashIter bytes} v :
  RoundTrip (BodyReqExecuteOwned_from_cursor v) (BodyReqExecute_serialize v) (wf_execute v).
Proof.
  intros [id rid p] rest (H1 & H2 & H3 & H4). unfold BodyReqExecuteOwned_from_cursor, BodyReqExecute_serialize.
  simpl in *. rt.
Qed.

Lemma try_collect_events es : try_collect SimpleServerEvent_try_from (map SimpleServerEvent_as_str es) = Ok es.
Proof. induction es as [|e es IH]; [done|]. simpl. rewrite SimpleServerEvent_round_trip. simpl. by rewrite IH. Qed.

#[export] Instance Register_round_trip :
  RoundTrip BodyReqRegister_from_cursor BodyReqRegister_serialize (fun b => zlen (brr_events b) < 2 ^ 15).
Proof.
  intros [es] rest H. unfold BodyReqRegister_from_cursor, BodyReqRegister_serialize. simpl in *.
  assert (Hes : wf_string_list (map SimpleServerEvent_as_str es)).
  { split; [unfold zlen; by rewrite length_map|]. clear H.
    induction es as [|e es IH]; constructor; [destruct e; auto with cdrs_wf|done]. }
  rt_step. unfold rlift. by rewrite try_collect_events.
Qed.

#[export] Instance AuthResponse_round_trip :
  RoundTrip BodyReqAuthResponse_from_cursor BodyReqAuthResponse_serialize (fun b => wf_cbytes (bra_data b)).
Proof. intros [d] rest H. unfold BodyReqAuthResponse_from_cursor, BodyReqAuthResponse_serialize. simpl in *. rt. Qed.

(** Values of batched statements have no names on the wire. *)
Definition wf_batch_query (q : BatchQuery) : Prop :=
  match bq_subject q with
  | PreparedId id => wf_cbytes_short id
  | QueryString s => wf_long_string s
  end /\ has_names (bq_values q) = false /\ wf_query_values (bq_values q).
Lemma rbind_rmap {A B C} (g : A -> B) (m : R A) (f : B -> R C) i :
  rbind (rmap g m) f i = rbind m (fun a => f (g a)) i.
Proof. unfold rmap. by rewrite rbind_assoc. Qed.

#[export] Instance BatchQuery_round_trip `{!HashIter bytes} :
  RoundTrip BatchQuery_from_cursor BatchQuery_serialize wf_batch_query.
Proof.
  intros [s [l|m]] rest (Hs & Hn & Hv); [|done]. simpl in Hs, Hv. destruct Hv as [Hl Hv].
  unfold BatchQuery_from_cursor, BatchQuery_serialize. cbn [bq_subject bq_values QueryValues_len QueryValues_serialize].
  destruct s as [id|s]; (rewrite <- !app_assoc; rt_step;
    match goal with |- context [negb (b2z (u8 ?k) =? 0)] =>
      change (negb (b2z (u8 k) =? 0)) with (bool_decide (k = 1)) end; cbn beta iota;
    try rewrite bool_decide_true by done; try rewrite bool_decide_false by done;
    rewrite rbind_rmap; rt_step;
    rewrite (with_count (fun n => read_n (times n) Value_from_cursor)) by (split; [apply zlen_nonneg|done]);
    rewrite times_zlen; rt).
Qed.

Definition wf_batch (v : Version) (b : BodyReqBatch) : Prop :=
  zlen (bb_queries b) < 2 ^ 15 /\ Forall wf_batch_query (bb_queries b) /\
  wf_opt (in_i 64) (bb_timestamp b) /\ wf_opt wf_short_string (bb_keyspace b) /\
  wf_opt (in_i 32) (bb_now_in_seconds b) /\ (ge_v5 v = false -> bb_now_in_seconds b = None).

#[export] Instance Batch_round_trip `{!HashIter bytes} v :
  RoundTrip (BodyReqBatch_from_cursor v) (BodyReqBatch_serialize v) (wf_batch v).
Proof.
  intros [t qs c sc ts ks now] rest (Hl & Hq & Hts & Hks & Hnow & H5).
  unfold BodyReqBatch_from_cursor, BodyReqBatch_serialize.
  cbn [bb_batch_type bb_queries bb_consistency bb_serial_consistency bb_timestamp bb_keyspace bb_now_in_seconds] in *.
  rt_step.
  assert (Ht : BatchType_try_from (b2z (u8 (BatchType_to_u8 t))) = Ok t) by by destruct t.
  rewrite Ht. rewrite (rbind_ok (rlift (Ok t)) _ _ t _ eq_refl). cbn beta. rewrite <- ?app_assoc.
  rewrite (with_count (fun n => read_n (times n) BatchQuery_from_cursor)) by (split; [apply zlen_nonneg|done]).
  rewrite times_zlen. rt_step. rt_step.
  change (BodyReqBatch_flags _) with
    (flags_of false false false false (is_some sc) (is_some ts) (is_some ks) (is_some now)).
  assert (Hf : QueryFlags.wf v (flags_of false false false false (is_some sc) (is_some ts) (is_some ks) (is_some now)))
    by (apply flags_of_range; intros ->%H5; done).
  erewrite rbind_ok; [|exact (QueryFlags_round_trip v _ _ Hf)]. cbn beta zeta.
  destruct (flags_of_contains false false false false (is_some sc) (is_some ts) (is_some ks)
              (is_some now)) as (_ & _ & _ & _ & -> & -> & -> & ->).
  repeat rt_step. done.
Qed.

(** ** Requests as a whole *)

Definition wf_request (v : Version) (r : RequestBody) : Prop :=
  match r with
  | RqStartup b => wf_startup b
  | RqOptions => True
  | RqQuery b => wf_query v b
  | RqPrepare b => wf_prepare v b
  | RqExecute b => wf_execute v b
  | RqRegister b => zlen (brr_events b) < 2 ^ 15
  | RqBatch b => wf_batch v b
  | RqAuthResponse b => wf_cbytes (bra_data b)
  end.

Lemma request_read_back `{!HashIter bytes} v r rest : wf_request v r ->
  RequestBody_from_cursor (request_opcode r) v (RequestBody_serialize v r ++ rest) = Ok (r, rest).
Proof. destruct r; intros H; cbn [request_opcode RequestBody_from_cursor RequestBody_serialize wf_request] in *; rt. Qed.

Lemma request_body_envelope `{UuidLib} `{!HashIter bytes} r flags v : wf_request v r ->
  request_body (request_envelope r flags v) = Ok r.
Proof.
  intros Hr. unfold request_body, RequestBody_try_from. simpl.
  pose proof (request_read_back v r [] Hr) as Hq. rewrite app_nil_r in Hq. by rewrite Hq.
Qed.

Lemma request_envelope_wf `{UuidLib} `{!HashIter bytes} r flags v :
  Flags.wf flags -> Flags.contains flags Flags.WARNING = false -> wf_envelope (request_envelope r flags v).
Proof.
  intros Hf Hw. unfold wf_envelope. simpl. rewrite Hw. repeat split; try done.
  - apply Hf.
  - apply Hf.
  - by rewrite andb_false_r.
Qed.


(** The STARTUP options always announce the CQL version, announce the
    compression exactly when there is one, name the driver from v5 on, and
    can always be sent. *)
Theorem startup_announces `{!HashIter bytes} pkg compression v :
  wf_opt wf_short_string pkg -> wf_opt wf_short_string compression ->
  let b := BodyReqStartup_new pkg compression v in
  brs_map b !! CQL_VERSION = Some CQL_VERSION_VAL /\
  brs_map b !! COMPRESSION = compression /\
  brs_map b !! DRIVER_NAME = (if ge_v5 v then Some (lit "cdrs-tokio") else None) /\
  brs_map b !! DRIVER_VERSION = (if ge_v5 v then pkg else None) /\
  BodyReqStartup_from_cursor (BodyReqStartup_serialize b) = Ok (b, []).
Proof.
  intros Hp Hc b. assert (Hwf : wf_startup b).
  { unfold b, BodyReqStartup_new, wf_startup; destruct compression, (ge_v5 v), pkg; simpl in *;
      (split; [by rewrite ?map_size_insert_None by (by vm_compute)|]);
      repeat (apply map_Forall_insert_2; [split; auto with cdrs_wf|]); apply map_Forall_empty. }
  pose proof (Startup_round_trip b [] Hwf) as Hr. rewrite app_nil_r in Hr.
  repeat split; [..|exact Hr]; unfold b, BodyReqStartup_new; destruct compression, (ge_v5 v), pkg; by simpl_map.
Qed.

(** The batch builder fails exactly when some statements have named values
    and others do not, and otherwise returns the batch as it was assembled. *)
Theorem batch_build_rejects_mixed (b : BodyReqBatch) :
  ((exists e, batch_build b = Err e) <->
   (exists q, In q (bb_queries b) /\ has_names (bq_values q) = true) /\
   (exists q, In q (bb_queries b) /\ has_names (bq_values q) = false)) /\
  (forall b', batch_build b = Ok b' -> b' = b) /\ batch_build b <> Panic.
Proof.
  unfold batch_build.
  destruct (forallb (fun q => has_names (bq_values q)) (bb_queries b)) eqn:Hall; simpl.
  - rewrite forallb_forall in Hall. split; [|split; [congruence|done]]. split; [by intros []|].
    intros [_ (q & Hq & Hn)]. by rewrite Hall in Hn.
  - assert (Hsome : exists q, In q (bb_queries b) /\ has_names (bq_values q) = false).
    { clear -Hall. induction (bb_queries b) as [|q l IH]; [done|]. simpl in *.
      destruct (has_names (bq_values q)) eqn:E; [|by exists q; auto].
      destruct (IH Hall) as (q' & ? & ?). exists q'. auto. }
    destruct (existsb (fun q => has_names (bq_values q)) (bb_queries b)) eqn:Hex.
    + apply existsb_exists in Hex. split; [|split; done]. split; [done|eauto].
    + split; [|split; [congruence|done]]. split; [by intros []|]. intros [Hq _].
      apply existsb_exists in Hq. congruence.
Qed.

(** ** Witnesses *)

Module RequestSamples.
#[local] Existing Instances uuid_bytes stored_lz4 stored_snap.
#[local] Instance order : HashIter bytes := default_iter bytes.

Definition stmt : RequestBody :=
  RqBatch (mkBodyReqBatch Unlogged
    [mkBatchQuery (QueryString (lit "INSERT")) (SimpleValues [VSome [u8 1]; VNull]);
     mkBatchQuery (PreparedId (mkCBytesShort (Some [u8 9]))) (SimpleValues [])]
    Quorum (Some Serial) (Some (-3)) (Some (lit "ks")) None).
Definition stmt_bytes : bytes :=
  match encode_with (request_envelope stmt 0 V4) Lz4 with Ok b => b | _ => [] end.

Lemma stmt_wf : wf_request V4 stmt.
Proof. repeat first [split | constructor]; try (by vm_compute); try (unfold in_i; lia). Qed.


Lemma startup_announces_witness :
  let b := BodyReqStartup_new (Some (lit "8.1.0")) (Some (lit "lz4")) V5 in
  brs_map b !! CQL_VERSION = Some CQL_VERSION_VAL /\
  brs_map b !! COMPRESSION = Some (lit "lz4") /\
  brs_map b !! DRIVER_NAME = (if ge_v5 V5 then Some (lit "cdrs-tokio") else None) /\
  brs_map b !! DRIVER_VERSION = (if ge_v5 V5 then Some (lit "8.1.0") else None) /\
  BodyReqStartup_from_cursor (BodyReqStartup_serialize b) = Ok (b, []).
Proof.
  apply (startup_announces (Some (lit "8.1.0")) (Some (lit "lz4")) V5); apply short_string_ok_wf; by vm_compute.
Defined.
End RequestSamples.
