(* ===== verification/ErrorMsg.v ===== *)
(** * ERROR responses: [frame/message_error.rs]

    An error body is a code, a message and, for some codes, further fields;
    the code written for an error type is the one that selects its parser. *)

From S2P Require Import Prelude Types Wire Query.
Local Open Scope Z_scope.
Local Open Scope cdrs_scope.

(** ** [WriteType], [FailureInfo] *)

Definition WriteType_name (w : WriteType) : bytes :=
  match w with
  | WtSimple => lit "SIMPLE"
  | WtBatch => lit "BATCH"
  | WtUnloggedBatch => lit "UNLOGGED_BATCH"
  | WtCounter => lit "COUNTER"
  | WtBatchLog => lit "BATCH_LOG"
  | WtCas => lit "CAS"
  | WtView => lit "VIEW"
  | WtCdc => lit "CDC"
  | WtUnknown write_type => write_type
  end.
Definition WriteType_serialize (w : WriteType) : bytes := serialize_str (WriteType_name w).

Definition WriteType_of_name (s : bytes) : WriteType :=
  if bool_decide (s = lit "SIMPLE") then WtSimple
  else if bool_decide (s = lit "BATCH") then WtBatch
  else if bool_decide (s = lit "UNLOGGED_BATCH") then WtUnloggedBatch
  else if bool_decide (s = lit "COUNTER") then WtCounter
  else if bool_decide (s = lit "BATCH_LOG") then WtBatchLog
  else if bool_decide (s = lit "CAS") then WtCas
  else if bool_decide (s = lit "VIEW") then WtView
  else if bool_decide (s = lit "CDC") then WtCdc
  else WtUnknown s.
Definition WriteType_from_cursor : R WriteType :=
  let* wt := from_cursor_str in rret (WriteType_of_name wt).

Section Errors.
Context `{!HashIter SocketAddr}.

Definition serialize_reason (kv : SocketAddr * Z) : bytes := SocketAddr_serialize kv.1 ++ i16_serialize kv.2.

Definition FailureInfo_serialize (f : FailureInfo) : bytes :=
  match f with
  | NumFailures count => i32_serialize count
  | ReasonMap map => i32_serialize (as_i32 (Z.of_nat (size map))) ++ concat (List.map serialize_reason (hm_iter map))
  end.
Definition FailureInfo_from_cursor (v : Version) : R FailureInfo :=
  match v with
  | V3 | V4 => rmap NumFailures CInt_from_cursor
  | V5 =>
    let* num_failures := CInt_from_cursor in
    let* _ := with_capacity (as_usize num_failures) in
    let* l := read_n (times num_failures) (rpair SocketAddr_from_cursor CIntShort_from_cursor) in
    rret (ReasonMap (hm_collect l))
  end.

(** ** The fields of each error *)

Definition UnavailableError_serialize (e : UnavailableError) : bytes :=
  Consistency_serialize (ue_cl e) ++ i32_serialize (ue_required e) ++ i32_serialize (ue_alive e).
Definition UnavailableError_from_cursor : R UnavailableError :=
  let* cl := Consistency_from_cursor in
  let* required := CInt_from_cursor in
  let* alive := CInt_from_cursor in
  rret (mkUnavailable cl required alive).

Definition WriteTimeoutError_serialize (e : WriteTimeoutError) : bytes :=
  Consistency_serialize (wte_cl e) ++ i32_serialize (wte_received e) ++ i32_serialize (wte_block_for e) ++
  WriteType_serialize (wte_write_type e) ++ oser i16_serialize (wte_contentions e).
Definition WriteTimeoutError_from_cursor : R WriteTimeoutError :=
  let* cl := Consistency_from_cursor in
  let* received := CInt_from_cursor in
  let* block_for := CInt_from_cursor in
  let* write_type := WriteType_from_cursor in
  let* contentions := ropt (bool_decide (write_type = WtCas)) CIntShort_from_cursor in
  rret (mkWriteTimeout cl received block_for write_type contentions).

Definition ReadTimeoutError_serialize (e : ReadTimeoutError) : bytes :=
  Consistency_serialize (rte_cl e) ++ i32_serialize (rte_received e) ++ i32_serialize (rte_block_for e) ++
  u8_serialize (rte_data_present e).
Definition ReadTimeoutError_from_cursor : R ReadTimeoutError :=
  let* cl := Consistency_from_cursor in
  let* received := CInt_from_cursor in
  let* block_for := CInt_from_cursor in
  let* data_present := u8_from_cursor in
  rret (mkReadTimeout cl received block_for data_present).
Definition ReadTimeout_replica_has_responded (e : ReadTimeoutError) : bool :=
  negb (b2z (rte_data_present e) =? 0).

Definition ReadFailureError_serialize (e : ReadFailureError) : bytes :=
  Consistency_serialize (rfe_cl e) ++ i32_serialize (rfe_received e) ++ i32_serialize (rfe_block_for e) ++
  FailureInfo_serialize (rfe_failure_info e) ++ u8_serialize (rfe_data_present e).
Definition ReadFailureError_from_cursor (v : Version) : R ReadFailureError :=
  let* cl := Consistency_from_cursor in
  let* received := CInt_from_cursor in
  let* block_for := CInt_from_cursor in
  let* failure_info := FailureInfo_from_cursor v in
  let* data_present := u8_from_cursor in
  rret (mkReadFailure cl received block_for failure_info data_present).

Definition FunctionFailureError_serialize (e : FunctionFailureError) : bytes :=
  serialize_str (ffe_keyspace e) ++ serialize_str (ffe_function e) ++ serialize_str_list (ffe_arg_types e).
Definition FunctionFailureError_from_cursor : R FunctionFailureError :=
  let* keyspace := from_cursor_str in
  let* function := from_cursor_str in
  let* arg_types := from_cursor_string_list in
  rret (mkFunctionFailure keyspace function arg_types).

Definition WriteFailureError_serialize (e : WriteFailureError) : bytes :=
  Consistency_serialize (wfe_cl e) ++ i32_serialize (wfe_received e) ++ i32_serialize (wfe_block_for e) ++
  FailureInfo_serialize (wfe_failure_info e) ++ WriteType_serialize (wfe_write_type e).
Definition WriteFailureError_from_cursor (v : Version) : R WriteFailureError :=
  let* cl := Consistency_from_cursor in
  let* received := CInt_from_cursor in
  let* block_for := CInt_from_cursor in
  let* failure_info := FailureInfo_from_cursor v in
  let* write_type := WriteType_from_cursor in
  rret (mkWriteFailure cl received block_for failure_info write_type).

Definition AlreadyExistsError_serialize (e : AlreadyExistsError) : bytes :=
  serialize_str (aee_ks e) ++ serialize_str (aee_table e).
Definition AlreadyExistsError_from_cursor : R AlreadyExistsError :=
  let* ks := from_cursor_str in
  let* table := from_cursor_str in
  rret (mkAlreadyExists ks table).

Definition UnpreparedError_serialize (e : UnpreparedError) : bytes := CBytesShort_serialize (upe_id e).
Definition UnpreparedError_from_cursor : R UnpreparedError :=
  let* id := CBytesShort_from_cursor in rret (mkUnprepared id).

(** ** [ErrorType], [ErrorBody] *)

Definition to_error_code (t : ErrorType) : Z :=
  match t with
  | EtServer => 0x0000 | EtProtocol => 0x000A | EtAuthentication => 0x0100
  | EtUnavailable _ => 0x1000 | EtOverloaded => 0x1001 | EtIsBootstrapping => 0x1002
  | EtTruncate => 0x1003 | EtWriteTimeout _ => 0x1100 | EtReadTimeout _ => 0x1200
  | EtReadFailure _ => 0x1300 | EtFunctionFailure _ => 0x1400 | EtWriteFailure _ => 0x1500
  | EtSyntax => 0x2000 | EtUnauthorized => 0x2100 | EtInvalid => 0x2200 | EtConfig => 0x2300
  | EtAlreadyExists _ => 0x2400 | EtUnprepared _ => 0x2500
  end.

Definition ErrorType_serialize (t : ErrorType) : bytes :=
  match t with
  | EtUnavailable e => UnavailableError_serialize e
  | EtWriteTimeout e => WriteTimeoutError_serialize e
  | EtReadTimeout e => ReadTimeoutError_serialize e
  | EtReadFailure e => ReadFailureError_serialize e
  | EtFunctionFailure e => FunctionFailureError_serialize e
  | EtWriteFailure e => WriteFailureError_serialize e
  | EtAlreadyExists e => AlreadyExistsError_serialize e
  | EtUnprepared e => UnpreparedError_serialize e
  | _ => []
  end.

Definition from_cursor_with_code (error_code : Z) (v : Version) : R ErrorType :=
  match error_code with
  | 0x0000 => rret EtServer
  | 0x000A => rret EtProtocol
  | 0x0100 => rret EtAuthentication
  | 0x1000 => rmap EtUnavailable UnavailableError_from_cursor
  | 0x1001 => rret EtOverloaded
  | 0x1002 => rret EtIsBootstrapping
  | 0x1003 => rret EtTruncate
  | 0x1100 => rmap EtWriteTimeout WriteTimeoutError_from_cursor
  | 0x1200 => rmap EtReadTimeout ReadTimeoutError_from_cursor
  | 0x1300 => rmap EtReadFailure (ReadFailureError_from_cursor v)
  | 0x1400 => rmap EtFunctionFailure FunctionFailureError_from_cursor
  | 0x1500 => rmap EtWriteFailure (WriteFailureError_from_cursor v)
  | 0x2000 => rret EtSyntax
  | 0x2100 => rret EtUnauthorized
  | 0x2200 => rret EtInvalid
  | 0x2300 => rret EtConfig
  | 0x2400 => rmap EtAlreadyExists AlreadyExistsError_from_cursor
  | 0x2500 => rmap EtUnprepared UnpreparedError_from_cursor
  | _ => rerr (EUnexpectedErrorCode error_code)
  end.

Definition ErrorBody_serialize (b : ErrorBody) : bytes :=
  i32_serialize (to_error_code (eb_ty b)) ++ serialize_str (eb_message b) ++ ErrorType_serialize (eb_ty b).
Definition ErrorBody_from_cursor (v : Version) : R ErrorBody :=
  let* error_code := CInt_from_cursor in
  let* message := from_cursor_str in
  let* ty := from_cursor_with_code error_code v in
  rret (mkErrorBody message ty).
End Errors.

(** [str::contains] *)
Fixpoint starts_with (p s : bytes) : bool :=
  match p, s with
  | [], _ => true
  | x :: p', y :: s' => bool_decide (x = y) && starts_with p' s'
  | _ :: _, [] => false
  end.
Fixpoint str_contains (s p : bytes) : bool :=
  starts_with p s || match s with [] => false | _ :: s' => str_contains s' p end.

Definition is_bad_protocol (b : ErrorBody) : bool :=
  (bool_decide (eb_ty b = EtServer) || bool_decide (eb_ty b = EtProtocol)) &&
  (str_contains (eb_message b) (lit "Invalid or unsupported protocol version") ||
   str_contains (eb_message b) (lit "Beta version of the protocol used")).

(** ** Well-formedness *)

Definition wf_failure_info (v : Version) (f : FailureInfo) : Prop :=
  match f with
  | NumFailures n => in_i 32 n /\ v <> V5
  | ReasonMap m => v = V5 /\ Z.of_nat (size m) < 2 ^ 31 /\
                   map_Forall (fun a c => wf_socket_addr a /\ in_i 16 c) m
  end.
(** A name that is not one of the known ones is kept as [Unknown]. *)
Definition wf_write_type (w : WriteType) : Prop :=
  wf_short_string (WriteType_name w) /\ WriteType_of_name (WriteType_name w) = w.

Definition wf_error_type (v : Version) (t : ErrorType) : Prop :=
  match t with
  | EtUnavailable e => in_i 32 (ue_required e) /\ in_i 32 (ue_alive e)
  | EtWriteTimeout e =>
    in_i 32 (wte_received e) /\ in_i 32 (wte_block_for e) /\ wf_write_type (wte_write_type e) /\
    is_some (wte_contentions e) = bool_decide (wte_write_type e = WtCas) /\ wf_opt (in_i 16) (wte_contentions e)
  | EtReadTimeout e => in_i 32 (rte_received e) /\ in_i 32 (rte_block_for e)
  | EtReadFailure e =>
    in_i 32 (rfe_received e) /\ in_i 32 (rfe_block_for e) /\ wf_failure_info v (rfe_failure_info e)
  | EtFunctionFailure e =>
    wf_short_string (ffe_keyspace e) /\ wf_short_string (ffe_function e) /\ wf_string_list (ffe_arg_types e)
  | EtWriteFailure e =>
    in_i 32 (wfe_received e) /\ in_i 32 (wfe_block_for e) /\ wf_failure_info v (wfe_failure_info e) /\
    wf_write_type (wfe_write_type e)
  | EtAlreadyExists e => wf_short_string (aee_ks e) /\ wf_short_string (aee_table e)
  | EtUnprepared e => wf_cbytes_short (upe_id e)
  | _ => True
  end.
Definition wf_error_body (v : Version) (b : ErrorBody) : Prop :=
  wf_short_string (eb_message b) /\ wf_error_type v (eb_ty b).

(** ** Round trips *)

Lemma to_error_code_range t : in_i 32 (to_error_code t).
Proof. by destruct t. Qed.
#[export] Hint Resolve to_error_code_range : cdrs_wf.

#[export] Instance WriteType_round_trip : RoundTrip WriteType_from_cursor WriteType_serialize wf_write_type.
Proof.
  intros w rest [Hs Hn]. unfold WriteType_from_cursor, WriteType_serialize. rt_step. unfold rret. by rewrite Hn.
Qed.

#[export] Instance reason_round_trip :
  RoundTrip (rpair SocketAddr_from_cursor CIntShort_from_cursor) serialize_reason
    (fun kv => wf_socket_addr kv.1 /\ in_i 16 kv.2) := rpair_round_trip _ _ _ _ _ _.

Section ErrorProofs.
Context `{!HashIter SocketAddr}.

#[export] Instance FailureInfo_round_trip v :
  RoundTrip (FailureInfo_from_cursor v) FailureInfo_serialize (wf_failure_info v).
Proof.
  intros [n|m] rest H; unfold FailureInfo_from_cursor, FailureInfo_serialize; simpl in H.
  - destruct H as [Hn Hv]. destruct v; [rt|rt|done].
  - destruct H as (-> & Hn & Hm). rewrite <- app_assoc. rewrite as_i32_small by lia.
    assert (H32 : in_i 32 (Z.of_nat (size m))) by (unfold in_i; lia).
    assert (H0 : 0 <= Z.of_nat (size m)) by lia.
    rewrite (rbind_ok _ _ _ _ _ (round_trip (dec := CInt_from_cursor) _ _ H32)).
    rewrite (rbind_ok _ _ _ _ _ (with_capacity_ok _ _ H32 H0)).
    assert (Hl : length (hm_iter m) = times (Z.of_nat (size m))) by (rewrite hm_iter_length; unfold times; lia).
    rewrite (rbind_ok _ _ _ _ _ (read_n_round_trip _ serialize_reason _ _ (hm_iter m) rest
               (conj Hl (hm_iter_Forall _ m Hm)))).
    unfold rret. by rewrite hm_collect_iter.
Qed.

Lemma error_type_read_back v t rest : wf_error_type v t ->
  from_cursor_with_code (to_error_code t) v (ErrorType_serialize t ++ rest) = Ok (t, rest).
Proof.
  destruct t as [| | |e| | | |e|e|e|e|e| | | | |e|e]; intros H;
    cbn [to_error_code from_cursor_with_code ErrorType_serialize]; try done;
    destruct e; cbn [wf_error_type] in H; cbn in H; unfold rmap;
    unfold UnavailableError_from_cursor, UnavailableError_serialize, WriteTimeoutError_from_cursor,
      WriteTimeoutError_serialize, ReadTimeoutError_from_cursor, ReadTimeoutError_serialize,
      ReadFailureError_from_cursor, ReadFailureError_serialize, FunctionFailureError_from_cursor,
      FunctionFailureError_serialize, WriteFailureError_from_cursor, WriteFailureError_serialize,
      AlreadyExistsError_from_cursor, AlreadyExistsError_serialize, UnpreparedError_from_cursor,
      UnpreparedError_serialize;
    rewrite rbind_assoc; destruct_and?;
    repeat (rt_step; rewrite ?rbind_assoc); done.
Qed.

#[export] Instance ErrorBody_round_trip v :
  RoundTrip (ErrorBody_from_cursor v) ErrorBody_serialize (wf_error_body v).
Proof.
  intros [m t] rest [Hm Ht]. unfold ErrorBody_from_cursor, ErrorBody_serialize. simpl in *.
  rt_step. rt_step. rewrite <- ?app_assoc. by rewrite (rbind_ok _ _ _ _ _ (error_type_read_back v t rest Ht)).
Qed.

(** Every server error, its code, message and details, is read back from
    its encoding, for the details the protocol version carries. *)
Theorem error_body_round_trip v b rest :
  wf_error_body v b -> ErrorBody_from_cursor v (ErrorBody_serialize b ++ rest) = Ok (b, rest).
Proof. apply round_trip. Qed.

Lemma rmap_inv {A B} (g : A -> B) (m : R A) i b r : rmap g m i = Ok (b, r) -> exists a, b = g a.
Proof. unfold rmap, rbind, rret. destruct (m i) as [[a i']| |]; [|done..]. intros [= <- <-]. eauto. Qed.

(** An error is decoded only to a type that has the code received: codes
    and error types correspond one to one. *)
Theorem error_code_decides code v i t rest :
  from_cursor_with_code code v i = Ok (t, rest) -> to_error_code t = code.
Proof.
  unfold from_cursor_with_code. intros H.
  repeat match type of H with
  | rret _ _ = _ => injection H as <- <-; reflexivity
  | rerr _ _ = _ => discriminate H
  | rmap _ _ _ = _ => apply rmap_inv in H as [? ->]; reflexivity
  | context [match ?x with _ => _ end] => is_var x; destruct x
  end.
Qed.
End ErrorProofs.

(** ** Witnesses *)

Module ErrorSamples.
#[local] Instance order : HashIter SocketAddr := default_iter SocketAddr.

Definition node : SocketAddr := mkSocketAddr (IpV4 [u8 127; u8 0; u8 0; u8 1]) 9042.
Definition failure : ErrorBody :=
  mkErrorBody (lit "write failed")
    (EtWriteFailure (mkWriteFailure Quorum 1 2 (ReasonMap {[node := 3]}) WtCas)).

Lemma failure_wf : wf_error_body V5 failure.
Proof.
  split; [auto with cdrs_wf|]. cbn.
  do 2 (split; [unfold in_i; lia|]). split; [split; [done|split; [by vm_compute|]]|].
  - refine (proj2 (map_Forall_singleton (M := gmap SocketAddr) (fun a c => wf_socket_addr a /\ in_i 16 c) node 3) _).
    repeat split; by vm_compute.
  - split; [auto with cdrs_wf|done].
Qed.

Lemma error_body_round_trip_witness :
  ErrorBody_from_cursor V5 (ErrorBody_serialize failure ++ [u8 1]) = Ok (failure, [u8 1]).
Proof. apply (error_body_round_trip V5 failure [u8 1]). exact failure_wf. Defined.

Lemma error_code_decides_witness : to_error_code EtOverloaded = 0x1001.
Proof. apply (error_code_decides 0x1001 V4 [] EtOverloaded []). reflexivity. Defined.
End ErrorSamples.
