(* ===== verification/Results.v ===== *)
(** * RESULT responses: [frame/message_result.rs]

    Result kinds, row metadata, column types and rows.  Column types nest
    (sets of tuples of user types ...): their parser recurses on what is
    left to read, with the number of bytes left as the bound. *)

From S2P Require Import Prelude Types Wire Query Events.
Local Open Scope Z_scope.
Local Open Scope cdrs_scope.

(** ** [ResultKind] *)

Inductive ResultKind : Type := RkVoid | RkRows | RkSetKeyspace | RkPrepared | RkSchemaChange.
#[export] Instance ResultKind_eq_dec : EqDecision ResultKind.
Proof. solve_decision. Defined.

Definition ResultKind_to_i32 (k : ResultKind) : Z :=
  match k with
  | RkVoid => 0x0001 | RkRows => 0x0002 | RkSetKeyspace => 0x0003 | RkPrepared => 0x0004
  | RkSchemaChange => 0x0005
  end.
Definition ResultKind_try_from (v : Z) : Result ResultKind :=
  match v with
  | 0x0001 => Ok RkVoid | 0x0002 => Ok RkRows | 0x0003 => Ok RkSetKeyspace
  | 0x0004 => Ok RkPrepared | 0x0005 => Ok RkSchemaChange
  | _ => Err (EUnexpectedResultKind v)
  end.
Definition ResultKind_serialize (k : ResultKind) : bytes := i32_serialize (ResultKind_to_i32 k).
Definition ResultKind_from_cursor : R ResultKind :=
  let* rk := CInt_from_cursor in rlift (ResultKind_try_from rk).
Definition ResultKind_from_bytes (b : bytes) : Result ResultKind :=
  let? v := try_i32_from_bytes b in ResultKind_try_from v.

(** ** Column types *)

Inductive ColType : Type :=
| CtCustom | CtAscii | CtBigint | CtBlob | CtBoolean | CtCounter | CtDecimal | CtDouble | CtFloat
| CtInt | CtTimestamp | CtUuid | CtVarchar | CtVarint | CtTimeuuid | CtInet | CtDate | CtTime
| CtSmallint | CtTinyint | CtDuration | CtList | CtMap | CtSet | CtUdt | CtTuple.
#[export] Instance ColType_eq_dec : EqDecision ColType.
Proof. solve_decision. Defined.

Definition ColType_to_i16 (t : ColType) : Z :=
  match t with
  | CtCustom => 0x0000 | CtAscii => 0x0001 | CtBigint => 0x0002 | CtBlob => 0x0003
  | CtBoolean => 0x0004 | CtCounter => 0x0005 | CtDecimal => 0x0006 | CtDouble => 0x0007
  | CtFloat => 0x0008 | CtInt => 0x0009 | CtTimestamp => 0x000B | CtUuid => 0x000C
  | CtVarchar => 0x000D | CtVarint => 0x000E | CtTimeuuid => 0x000F | CtInet => 0x0010
  | CtDate => 0x0011 | CtTime => 0x0012 | CtSmallint => 0x0013 | CtTinyint => 0x0014
  | CtDuration => 0x0015 | CtList => 0x0020 | CtMap => 0x0021 | CtSet => 0x0022
  | CtUdt => 0x0030 | CtTuple => 0x0031
  end.
(** [0x0080] is a second code of [Varchar]. *)
Definition ColType_try_from (v : Z) : Result ColType :=
  match v with
  | 0x0000 => Ok CtCustom | 0x0001 => Ok CtAscii | 0x0002 => Ok CtBigint | 0x0003 => Ok CtBlob
  | 0x0004 => Ok CtBoolean | 0x0005 => Ok CtCounter | 0x0006 => Ok CtDecimal | 0x0007 => Ok CtDouble
  | 0x0008 => Ok CtFloat | 0x0009 => Ok CtInt | 0x000B => Ok CtTimestamp | 0x000C => Ok CtUuid
  | 0x000D => Ok CtVarchar | 0x000E => Ok CtVarint | 0x000F => Ok CtTimeuuid | 0x0010 => Ok CtInet
  | 0x0011 => Ok CtDate | 0x0012 => Ok CtTime | 0x0013 => Ok CtSmallint | 0x0014 => Ok CtTinyint
  | 0x0015 => Ok CtDuration | 0x0020 => Ok CtList | 0x0021 => Ok CtMap | 0x0022 => Ok CtSet
  | 0x0030 => Ok CtUdt | 0x0031 => Ok CtTuple | 0x0080 => Ok CtVarchar
  | _ => Err (EUnexpectedColumnType v)
  end.
Definition ColType_serialize (t : ColType) : bytes := i16_serialize (ColType_to_i16 t).
(** [FromBytes] *)
Definition ColType_from_bytes (b : bytes) : Result ColType :=
  let? t := try_i16_from_bytes b in ColType_try_from t.
Definition ColType_from_cursor : R ColType :=
  let* t := CIntShort_from_cursor in rlift (ColType_try_from t).

Inductive ColTypeOption : Type :=
| mkColTypeOption (id : ColType) (value : option ColTypeOptionValue)
with ColTypeOptionValue : Type :=
| CString (s : bytes)
| CColType (c : ColType)
| CSet (c : ColTypeOption)
| CList (c : ColTypeOption)
| UdtType (c : CUdt)
| TupleType (c : CTuple)
| CMap (v1 v2 : ColTypeOption)
with CUdt : Type :=
| mkCUdt (ks udt_name : bytes) (descriptions : list (bytes * ColTypeOption))
with CTuple : Type :=
| mkCTuple (types : list ColTypeOption).

Fixpoint ColTypeOption_serialize (t : ColTypeOption) : bytes :=
  match t with
  | mkColTypeOption id value =>
    ColType_serialize id ++ match value with Some v => ColTypeOptionValue_serialize v | None => [] end
  end
with ColTypeOptionValue_serialize (v : ColTypeOptionValue) : bytes :=
  match v with
  | CString c => serialize_str c
  | CColType c => ColType_serialize c
  | CSet c => ColTypeOption_serialize c
  | CList c => ColTypeOption_serialize c
  | UdtType c => CUdt_serialize c
  | TupleType c => CTuple_serialize c
  | CMap v1 v2 => ColTypeOption_serialize v1 ++ ColTypeOption_serialize v2
  end
with CUdt_serialize (u : CUdt) : bytes :=
  match u with
  | mkCUdt ks udt_name descriptions =>
    serialize_str ks ++ serialize_str udt_name ++ i16_serialize (as_i16 (zlen descriptions)) ++
    concat (map (fun p => serialize_str (fst p) ++ ColTypeOption_serialize (snd p)) descriptions)
  end
with CTuple_serialize (t : CTuple) : bytes :=
  match t with
  | mkCTuple types =>
    i16_serialize (as_i16 (zlen types)) ++ concat (map ColTypeOption_serialize types)
  end.

(** The parsers of user types and tuples, given the one of column types. *)
Definition CUdt_from_cursor (rec : R ColTypeOption) : R CUdt :=
  let* ks := from_cursor_str in
  let* udt_name := from_cursor_str in
  let* n := CIntShort_from_cursor in
  let* _ := with_capacity (as_usize n) in
  let* descriptions := read_n (times n) (rpair from_cursor_str rec) in
  rret (mkCUdt ks udt_name descriptions).

Definition CTuple_from_cursor (rec : R ColTypeOption) : R CTuple :=
  let* n := CIntShort_from_cursor in
  let* _ := with_capacity (as_usize n) in
  let* types := read_n (times n) rec in
  rret (mkCTuple types).

Definition ColTypeOption_value (rec : R ColTypeOption) (id : ColType) : R (option ColTypeOptionValue) :=
  match id with
  | CtCustom => let* s := from_cursor_str in rret (Some (CString s))
  | CtSet => let* col_type := rec in rret (Some (CSet col_type))
  | CtList => let* col_type := rec in rret (Some (CList col_type))
  | CtUdt => let* u := CUdt_from_cursor rec in rret (Some (UdtType u))
  | CtTuple => let* t := CTuple_from_cursor rec in rret (Some (TupleType t))
  | CtMap =>
    let* name_type := rec in
    let* value_type := rec in
    rret (Some (CMap name_type value_type))
  | _ => rret None
  end.

Definition ColTypeOption_step (rec : R ColTypeOption) : R ColTypeOption :=
  let* id := ColType_from_cursor in
  let* value := ColTypeOption_value rec id in
  rret (mkColTypeOption id value).

(** Every recursive call is made after reading a type code, so a depth of
    the number of unread bytes is enough ([ColTypeOption_fuel_enough]). *)
Fixpoint ColTypeOption_fuel (fuel : nat) : R ColTypeOption :=
  match fuel with
  | O => fun _ => Panic
  | S fuel' => ColTypeOption_step (ColTypeOption_fuel fuel')
  end.
Definition ColTypeOption_from_cursor : R ColTypeOption :=
  fun i => ColTypeOption_fuel (S (length i)) i.

(** ** Metadata *)

Record TableSpec : Type := mkTableSpec { ts_ks_name : bytes; ts_table_name : bytes }.
Definition TableSpec_serialize (t : TableSpec) : bytes :=
  serialize_str (ts_ks_name t) ++ serialize_str (ts_table_name t).
Definition TableSpec_from_cursor : R TableSpec :=
  let* ks_name := from_cursor_str in
  let* table_name := from_cursor_str in
  rret (mkTableSpec ks_name table_name).

Record ColSpec : Type := mkColSpec {
  cs_table_spec : option TableSpec; cs_name : bytes; cs_col_type : ColTypeOption }.
Definition ColSpec_serialize (c : ColSpec) : bytes :=
  oser TableSpec_serialize (cs_table_spec c) ++ serialize_str (cs_name c) ++
  ColTypeOption_serialize (cs_col_type c).
Definition ColSpec_from_cursor (has_global_table_space : bool) : R ColSpec :=
  let* table_spec := ropt (negb has_global_table_space) TableSpec_from_cursor in
  let* name := from_cursor_str in
  let* col_type := ColTypeOption_from_cursor in
  rret (mkColSpec table_spec name col_type).
Definition parse_colspecs (column_count : Z) (has_global_table_space : bool) : R (list ColSpec) :=
  read_n (times column_count) (ColSpec_from_cursor has_global_table_space).

Module RowsMetadataFlags.
Definition GLOBAL_TABLE_SPACE : Z := 0x0001.
Definition HAS_MORE_PAGES : Z := 0x0002.
Definition NO_METADATA : Z := 0x0004.
Definition METADATA_CHANGED : Z := 0x0008.
Definition all : Z := 0x000f.
Definition from_bits_truncate (b : Z) : Z := Z.land b all.
Definition contains (f g : Z) : bool := Z.land f g =? g.
Definition from_bits (b : Z) : option Z := if b =? from_bits_truncate b then Some b else None.
Definition wf (f : Z) : Prop := 0 <= f <= all.
Definition serialize (f : Z) : bytes := i32_serialize f.
(** [FromBytes]: a [u64], cast to the type of the flags. *)
Definition from_bytes (b : bytes) : Result Z :=
  let? f := try_u64_from_bytes b in
  match from_bits (as_i32 f) with Some flags => Ok flags | None => Err (EGeneral "Unexpected rows metadata flag") end.
End RowsMetadataFlags.

Record RowsMetadata : Type := mkRowsMetadata {
  rm_flags : Z; rm_columns_count : Z; rm_paging_state : option CBytes;
  rm_new_metadata_id : option CBytesShort; rm_global_table_spec : option TableSpec;
  rm_col_specs : list ColSpec }.

Definition list_is_empty {A} (l : list A) : bool := match l with [] => true | _ => false end.

(** The assertions of [serialize]: flags that contradict the data panic. *)
Definition RowsMetadata_asserts (m : RowsMetadata) : bool :=
  let has := RowsMetadataFlags.contains (rm_flags m) in
  eqb (has RowsMetadataFlags.HAS_MORE_PAGES) (is_some (rm_paging_state m)) &&
  match has RowsMetadataFlags.NO_METADATA, has RowsMetadataFlags.GLOBAL_TABLE_SPACE with
  | false, false => negb (is_some (rm_global_table_spec m)) && negb (list_is_empty (rm_col_specs m))
  | false, true => negb (list_is_empty (rm_col_specs m))
  | true, _ => negb (is_some (rm_global_table_spec m)) && list_is_empty (rm_col_specs m)
  end.

Definition RowsMetadata_bytes (m : RowsMetadata) : bytes :=
  i32_serialize (rm_flags m) ++ i32_serialize (rm_columns_count m) ++
  oser CBytes_serialize (rm_paging_state m) ++
  oser CBytesShort_serialize (rm_new_metadata_id m) ++
  oser TableSpec_serialize (rm_global_table_spec m) ++
  concat (map ColSpec_serialize (rm_col_specs m)).
Definition RowsMetadata_serialize (m : RowsMetadata) : Result bytes :=
  if RowsMetadata_asserts m then Ok (RowsMetadata_bytes m) else Panic.

Definition extract_global_table_space (has_global_table_space : bool) : R (option TableSpec) :=
  ropt has_global_table_space TableSpec_from_cursor.

Definition RowsMetadata_from_cursor : R RowsMetadata :=
  let* bits := CInt_from_cursor in
  let flags := RowsMetadataFlags.from_bits_truncate bits in
  let* columns_count := CInt_from_cursor in
  let* paging_state := ropt (RowsMetadataFlags.contains flags RowsMetadataFlags.HAS_MORE_PAGES) CBytes_from_cursor in
  if RowsMetadataFlags.contains flags RowsMetadataFlags.NO_METADATA
  then rret (mkRowsMetadata flags columns_count paging_state None None [])
  else
    let* new_metadata_id :=
      ropt (RowsMetadataFlags.contains flags RowsMetadataFlags.METADATA_CHANGED) CBytesShort_from_cursor in
    let has_global_table_space := RowsMetadataFlags.contains flags RowsMetadataFlags.GLOBAL_TABLE_SPACE in
    let* global_table_spec := extract_global_table_space has_global_table_space in
    let* col_specs := parse_colspecs columns_count has_global_table_space in
    rret (mkRowsMetadata flags columns_count paging_state new_metadata_id global_table_spec col_specs).

Module PreparedMetadataFlags.
Definition GLOBAL_TABLE_SPACE : Z := 0x0001.
Definition contains (f g : Z) : bool := Z.land f g =? g.
End PreparedMetadataFlags.

Record PreparedMetadata : Type := mkPreparedMetadata {
  pm_pk_indexes : list Z; pm_global_table_spec : option TableSpec; pm_col_specs : list ColSpec }.

(** [pk_count] is written for every version. *)
Definition PreparedMetadata_serialize (m : PreparedMetadata) : bytes :=
  i32_serialize (if is_some (pm_global_table_spec m) then PreparedMetadataFlags.GLOBAL_TABLE_SPACE else 0) ++
  i32_serialize (as_i32 (zlen (pm_col_specs m))) ++
  i32_serialize (as_i32 (zlen (pm_pk_indexes m))) ++
  concat (map i16_serialize (pm_pk_indexes m)) ++
  oser TableSpec_serialize (pm_global_table_spec m) ++
  concat (map ColSpec_serialize (pm_col_specs m)).

Definition PreparedMetadata_from_cursor (v : Version) : R PreparedMetadata :=
  let* bits := CInt_from_cursor in
  let flags := Z.land bits PreparedMetadataFlags.GLOBAL_TABLE_SPACE in
  let* columns_count := CInt_from_cursor in
  let* pk_count := match v with V3 => rret 0 | _ => CInt_from_cursor end in
  let* pk_indexes := read_n (times pk_count) CIntShort_from_cursor in
  let has_global_table_space := PreparedMetadataFlags.contains flags PreparedMetadataFlags.GLOBAL_TABLE_SPACE in
  let* global_table_spec := extract_global_table_space has_global_table_space in
  let* col_specs := parse_colspecs columns_count has_global_table_space in
  rret (mkPreparedMetadata pk_indexes global_table_spec col_specs).

(** ** Result bodies *)

Record BodyResResultRows : Type := mkResultRows {
  rr_metadata : RowsMetadata; rr_rows_count : Z; rr_rows_content : list (list CBytes);
  rr_protocol_version : Version }.
Definition BodyResResultRows_serialize (r : BodyResResultRows) : Result bytes :=
  let? m := RowsMetadata_serialize (rr_metadata r) in
  Ok (m ++ i32_serialize (rr_rows_count r) ++ concat (map CBytes_serialize (concat (rr_rows_content r)))).
Definition rows_content (rows_count columns_count : Z) : R (list (list CBytes)) :=
  read_n (times rows_count) (read_n (times columns_count) CBytes_from_cursor).
Definition BodyResResultRows_from_cursor (v : Version) : R BodyResResultRows :=
  let* metadata := RowsMetadata_from_cursor in
  let* rows_count := CInt_from_cursor in
  let* content := rows_content rows_count (rm_columns_count metadata) in
  rret (mkResultRows metadata rows_count content v).

Record BodyResResultPrepared : Type := mkResultPrepared {
  rp_id : CBytesShort; rp_result_metadata_id : option CBytesShort;
  rp_metadata : PreparedMetadata; rp_result_metadata : RowsMetadata }.
Definition BodyResResultPrepared_serialize (p : BodyResResultPrepared) : Result bytes :=
  let? m := RowsMetadata_serialize (rp_result_metadata p) in
  Ok (CBytesShort_serialize (rp_id p) ++ oser CBytesShort_serialize (rp_result_metadata_id p) ++
      PreparedMetadata_serialize (rp_metadata p) ++ m).
Definition BodyResResultPrepared_from_cursor (v : Version) : R BodyResResultPrepared :=
  let* id := CBytesShort_from_cursor in
  let* result_metadata_id := ropt (bool_decide (v = V5)) CBytesShort_from_cursor in
  let* metadata := PreparedMetadata_from_cursor v in
  let* result_metadata := RowsMetadata_from_cursor in
  rret (mkResultPrepared id result_metadata_id metadata result_metadata).

Inductive ResResultBody : Type :=
| ResVoid
| ResRows (r : BodyResResultRows)
| ResSetKeyspace (body : bytes)
| ResPrepared (p : BodyResResultPrepared)
| ResSchemaChange (s : SchemaChange).

Definition ResResultBody_serialize (r : ResResultBody) : Result bytes :=
  match r with
  | ResVoid => Ok (ResultKind_serialize RkVoid)
  | ResRows rows => omap (app (ResultKind_serialize RkRows)) (BodyResResultRows_serialize rows)
  | ResSetKeyspace k => Ok (ResultKind_serialize RkSetKeyspace ++ serialize_str k)
  | ResPrepared p => omap (app (ResultKind_serialize RkPrepared)) (BodyResResultPrepared_serialize p)
  | ResSchemaChange s => Ok (ResultKind_serialize RkSchemaChange ++ SchemaChange_serialize s)
  end.

Definition parse_body_from_cursor (result_kind : ResultKind) (v : Version) : R ResResultBody :=
  match result_kind with
  | RkVoid => rret ResVoid
  | RkRows => let* r := BodyResResultRows_from_cursor v in rret (ResRows r)
  | RkSetKeyspace => let* x := from_cursor_str in rret (ResSetKeyspace x)
  | RkPrepared => let* p := BodyResResultPrepared_from_cursor v in rret (ResPrepared p)
  | RkSchemaChange => let* s := SchemaChange_from_cursor in rret (ResSchemaChange s)
  end.
Definition ResResultBody_from_cursor (v : Version) : R ResResultBody :=
  let* result_kind := ResultKind_from_cursor in parse_body_from_cursor result_kind v.

Definition as_rows_metadata (r : ResResultBody) : option RowsMetadata :=
  match r with ResRows rows => Some (rr_metadata rows) | _ => None end.
Definition into_prepared (r : ResResultBody) : option BodyResResultPrepared :=
  match r with ResPrepared p => Some p | _ => None end.
Definition into_set_keyspace (r : ResResultBody) : option bytes :=
  match r with ResSetKeyspace k => Some k | _ => None end.

(** ** The depth bound of column types is enough *)

(** A parser that does not give back bytes. *)
Definition shrinks {A} (m : R A) : Prop := forall i a i', m i = Ok (a, i') -> (length i' <= length i)%nat.

Lemma shrinks_ret {A} (a : A) : shrinks (rret a).
Proof. intros i b i' [= <- <-]. done. Qed.
Lemma shrinks_bind {A B} (m : R A) (f : A -> R B) : shrinks m -> (forall a, shrinks (f a)) -> shrinks (rbind m f).
Proof.
  intros Hm Hf i b i'. unfold rbind. destruct (m i) as [[a j]| |] eqn:E; [|done..].
  intros H. apply Hm in E. apply Hf in H. lia.
Qed.
Lemma shrinks_err {A} e : shrinks (@rerr A e).
Proof. done. Qed.
Lemma shrinks_lift {A} (o : Result A) : shrinks (rlift o).
Proof. intros i a i'. unfold rlift. destruct o; [|done..]. intros [= <- <-]. done. Qed.
Lemma shrinks_read_exact n : shrinks (read_exact n).
Proof.
  intros i a i'. unfold read_exact. case_match; [|done]. intros [= <- <-]. rewrite length_drop. lia.
Qed.
Lemma shrinks_next_ref n : shrinks (cursor_next_value_ref n).
Proof.
  intros i a i'. unfold cursor_next_value_ref. case_match; [|done]. intros [= <- <-]. rewrite length_drop. lia.
Qed.
Lemma shrinks_capacity n : shrinks (with_capacity n).
Proof. intros i a i'. unfold with_capacity. case_match; [|done]. intros [= <- <-]. done. Qed.
Lemma shrinks_read_n {A} n (m : R A) : shrinks m -> shrinks (read_n n m).
Proof.
  intros Hm. induction n; simpl; [apply shrinks_ret|].
  apply shrinks_bind; [done|]. intros a. apply shrinks_bind; [done|]. intros l. apply shrinks_ret.
Qed.
#[local] Hint Resolve shrinks_ret shrinks_bind shrinks_err shrinks_lift shrinks_read_exact shrinks_next_ref
  shrinks_capacity shrinks_read_n : core.

Lemma shrinks_CIntShort : shrinks CIntShort_from_cursor.
Proof. unfold CIntShort_from_cursor. auto. Qed.
Lemma shrinks_str : shrinks from_cursor_str.
Proof. unfold from_cursor_str. auto. Qed.
#[local] Hint Resolve shrinks_CIntShort shrinks_str : core.

(** Two parsers that agree on every input of at most [n] bytes. *)
Definition agree {A} (n : nat) (m m' : R A) : Prop := forall i, (length i <= n)%nat -> m i = m' i.

Lemma agree_bind {A B} n (m m' : R A) (f f' : A -> R B) :
  agree n m m' -> shrinks m -> (forall a, agree n (f a) (f' a)) -> agree n (rbind m f) (rbind m' f').
Proof.
  intros Hm Hs Hf i Hi. unfold rbind. rewrite <- (Hm i Hi). destruct (m i) as [[a j]| |] eqn:E; [|done..].
  apply Hf. apply Hs in E. lia.
Qed.
Lemma agree_refl {A} n (m : R A) : agree n m m.
Proof. done. Qed.
Lemma agree_read_n {A} n k (m m' : R A) : shrinks m -> agree n m m' -> agree n (read_n k m) (read_n k m').
Proof.
  intros Hs Hm. induction k as [|k IH]; simpl; [apply agree_refl|].
  apply agree_bind; [done|done|]. intros a. apply agree_bind; [done|auto|]. intros l. apply agree_refl.
Qed.
Lemma agree_rpair {A B} n (a : R A) (m m' : R B) : shrinks a -> shrinks m -> agree n m m' ->
  agree n (rpair a m) (rpair a m').
Proof. intros Ha Hm H. unfold rpair. apply agree_bind; [apply agree_refl|done|]. intros x.
  apply agree_bind; [done|done|]. intros; apply agree_refl. Qed.

Lemma shrinks_rpair {A B} (a : R A) (m : R B) : shrinks a -> shrinks m -> shrinks (rpair a m).
Proof. unfold rpair. auto. Qed.
#[local] Hint Resolve shrinks_rpair : core.

Lemma shrinks_udt rec : shrinks rec -> shrinks (CUdt_from_cursor rec).
Proof. intros H. unfold CUdt_from_cursor. auto 12. Qed.
Lemma shrinks_tuple rec : shrinks rec -> shrinks (CTuple_from_cursor rec).
Proof. intros H. unfold CTuple_from_cursor. auto 12. Qed.
#[local] Hint Resolve shrinks_udt shrinks_tuple : core.

Lemma agree_udt n rec rec' : shrinks rec -> agree n rec rec' -> agree n (CUdt_from_cursor rec) (CUdt_from_cursor rec').
Proof.
  intros Hs H. unfold CUdt_from_cursor.
  do 4 (apply agree_bind; [apply agree_refl|by auto|intros ?]).
  apply agree_bind; [apply agree_read_n; [by auto|by apply agree_rpair; auto]|by auto|]. intros; apply agree_refl.
Qed.
Lemma agree_tuple n rec rec' : shrinks rec -> agree n rec rec' -> agree n (CTuple_from_cursor rec) (CTuple_from_cursor rec').
Proof.
  intros Hs H. unfold CTuple_from_cursor.
  do 2 (apply agree_bind; [apply agree_refl|by auto|intros ?]).
  apply agree_bind; [by apply agree_read_n|by auto|]. intros; apply agree_refl.
Qed.

Lemma shrinks_value rec id : shrinks rec -> shrinks (ColTypeOption_value rec id).
Proof. intros H. destruct id; simpl; auto 12. Qed.

Lemma agree_value n rec rec' id : shrinks rec -> agree n rec rec' ->
  agree n (ColTypeOption_value rec id) (ColTypeOption_value rec' id).
Proof.
  intros Hs H. destruct id; simpl; try apply agree_refl;
    repeat (apply agree_bind; [first [exact H | by apply agree_udt | by apply agree_tuple]|by auto|intros ?]);
    apply agree_refl.
Qed.

Lemma shrinks_fuel n : shrinks (ColTypeOption_fuel n).
Proof.
  induction n as [|n IH]; [done|]. simpl. unfold ColTypeOption_step, ColType_from_cursor.
  apply shrinks_bind; [auto|]. intros id. apply shrinks_bind; [by apply shrinks_value|auto].
Qed.

Lemma rbind_ext {A B} (m : R A) (f f' : A -> R B) i :
  (forall a j, m i = Ok (a, j) -> f a j = f' a j) -> rbind m f i = rbind m f' i.
Proof. unfold rbind. destruct (m i) as [[a j]| |]; [|done..]. intros H. by apply H. Qed.

Lemma ColType_consumes i id j : ColType_from_cursor i = Ok (id, j) -> (length j < length i)%nat.
Proof.
  unfold ColType_from_cursor, CIntShort_from_cursor, read_exact, rbind, rlift, rret, SHORT_LEN.
  destruct (2 <=? length i)%nat eqn:Hl; [|done]. apply Nat.leb_le in Hl.
  destruct (ColType_try_from _); [|done..]. intros [= <- <-]. rewrite length_drop. lia.
Qed.

(** More depth than unread bytes changes nothing. *)
Lemma ColTypeOption_fuel_enough n m i : (length i < n)%nat -> (length i < m)%nat ->
  ColTypeOption_fuel n i = ColTypeOption_fuel m i.
Proof.
  revert m i. induction n as [|n IH]; intros [|m] i Hn Hm; try lia.
  cbn [ColTypeOption_fuel]. unfold ColTypeOption_step. apply rbind_ext. intros id j Hj%ColType_consumes.
  assert (Hv : agree (length j) (ColTypeOption_value (ColTypeOption_fuel n) id)
                 (ColTypeOption_value (ColTypeOption_fuel m) id)).
  { apply agree_value; [apply shrinks_fuel|]. intros k Hk. apply IH; lia. }
  unfold rbind. by rewrite Hv.
Qed.

(** ** Round trips *)

Lemma ColType_try_from_to t : ColType_try_from (ColType_to_i16 t) = Ok t.
Proof. by destruct t. Qed.
Lemma ColType_i16_range t : in_i 16 (ColType_to_i16 t).
Proof. by destruct t. Qed.
#[export] Hint Resolve ColType_i16_range : cdrs_wf.

#[export] Instance ColType_round_trip : RoundTrip ColType_from_cursor ColType_serialize (fun _ => True).
Proof.
  intros t rest _. unfold ColType_from_cursor, ColType_serialize. rt_step. unfold rlift.
  by rewrite ColType_try_from_to.
Qed.

(** Each type code comes with the value it prescribes. *)
Fixpoint wf_col_type (t : ColTypeOption) : Prop :=
  match t with
  | mkColTypeOption id value =>
    match id, value with
    | CtCustom, Some (CString s) => wf_short_string s
    | CtSet, Some (CSet c) => wf_col_type c
    | CtList, Some (CList c) => wf_col_type c
    | CtMap, Some (CMap k v) => wf_col_type k /\ wf_col_type v
    | CtUdt, Some (UdtType (mkCUdt ks n ds)) =>
      wf_short_string ks /\ wf_short_string n /\ zlen ds < 2 ^ 15 /\
      fold_right (fun p P => (wf_short_string (fst p) /\ wf_col_type (snd p)) /\ P) True ds
    | CtTuple, Some (TupleType (mkCTuple ts)) =>
      zlen ts < 2 ^ 15 /\ fold_right (fun c P => wf_col_type c /\ P) True ts
    | (CtCustom | CtSet | CtList | CtMap | CtUdt | CtTuple), _ => False
    | _, None => True
    | _, Some _ => False
    end
  end.

Fixpoint col_depth (t : ColTypeOption) : nat :=
  match t with
  | mkColTypeOption _ value =>
    match value with
    | Some (CSet c) | Some (CList c) => S (col_depth c)
    | Some (CMap k v) => S (Nat.max (col_depth k) (col_depth v))
    | Some (UdtType (mkCUdt _ _ ds)) => S (fold_right (fun p n => Nat.max (col_depth (snd p)) n) O ds)
    | Some (TupleType (mkCTuple ts)) => S (fold_right (fun c n => Nat.max (col_depth c) n) O ts)
    | _ => O
    end
  end.

Lemma fold_and_Forall {A} (P : A -> Prop) l : fold_right (fun x Q => P x /\ Q) True l -> Forall P l.
Proof. induction l; simpl; [constructor|]. intros []. constructor; auto. Qed.

Lemma fold_max_Forall {A} (f : A -> nat) l n :
  (fold_right (fun x m => Nat.max (f x) m) O l < n)%nat -> Forall (fun x => (f x < n)%nat) l.
Proof. induction l; simpl; intros H; constructor; [lia|apply IHl; lia]. Qed.

(** At depth [n] the parser reads every type that nests less. *)
Lemma ColTypeOption_fuel_round_trip n :
  RoundTrip (ColTypeOption_fuel n) ColTypeOption_serialize
    (fun t => wf_col_type t /\ (col_depth t < n)%nat).
Proof.
  induction n as [|n IH]; intros [id value] rest [Hwf Hd]; [lia|].
  cbn [ColTypeOption_fuel]. unfold ColTypeOption_step. cbn [ColTypeOption_serialize].
  rt_step. rewrite <- ?app_assoc.
  enough (Hv : ColTypeOption_value (ColTypeOption_fuel n) id
                 (match value with Some v => ColTypeOptionValue_serialize v | None => [] end ++ rest)
               = Ok (value, rest)) by by rewrite (rbind_ok _ _ _ _ _ Hv).
  destruct value as [[s|c|c|c|[ks un ds]|[ts]|k v]|]; destruct id; cbn [wf_col_type] in Hwf; try done;
    cbn [ColTypeOption_value ColTypeOptionValue_serialize CUdt_serialize CTuple_serialize]; cbn [col_depth] in Hd.
  - rt_step. done.
  - erewrite rbind_ok; [|apply (IH c); split; [done|lia]]. done.
  - erewrite rbind_ok; [|apply (IH c); split; [done|lia]]. done.
  - destruct Hwf as (Hks & Hun & Hn & Hds). unfold CUdt_from_cursor. rewrite rbind_assoc. rt_step.
    rewrite rbind_assoc. rt_step. rewrite rbind_assoc.
    assert (Hl : 0 <= zlen ds < 2 ^ 15) by (split; [apply zlen_nonneg|done]).
    erewrite rbind_ok; [|apply (round_trip (dec := CIntShort_from_cursor)); auto with cdrs_wf].
    rewrite as_i16_small by done. rewrite rbind_assoc.
    erewrite rbind_ok; [|apply with_capacity_ok; [unfold in_i; lia|lia]]. rewrite rbind_assoc, times_zlen.
    assert (RTp : RoundTrip (rpair from_cursor_str (ColTypeOption_fuel n))
                    (fun p => serialize_str p.1 ++ ColTypeOption_serialize p.2)
                    (fun p => wf_short_string p.1 /\ (wf_col_type p.2 /\ (col_depth p.2 < n)%nat)))
      by exact (@rpair_round_trip _ _ _ _ wf_short_string _ _ (fun t => wf_col_type t /\ (col_depth t < n)%nat) _ IH).
    assert (Hall : Forall (fun p => wf_short_string p.1 /\ (wf_col_type p.2 /\ (col_depth p.2 < n)%nat)) ds).
    { apply fold_and_Forall in Hds.
      assert (Hm : Forall (fun p => (col_depth (snd p) < n)%nat) ds) by (apply fold_max_Forall; lia).
      clear -Hds Hm. induction Hds as [|p l [H1 H2] _ IHl]; constructor; apply Forall_cons in Hm as [Hm1 Hm2]; auto. }
    by rewrite (rbind_ok _ _ _ _ _ (@read_n_round_trip _ _ _ _ (length ds) RTp ds rest (conj eq_refl Hall))).
  - destruct Hwf as (Hn & Hts). unfold CTuple_from_cursor. rewrite rbind_assoc.
    assert (Hl : 0 <= zlen ts < 2 ^ 15) by (split; [apply zlen_nonneg|done]).
    rewrite <- app_assoc.
    erewrite rbind_ok; [|apply (round_trip (dec := CIntShort_from_cursor)); auto with cdrs_wf].
    rewrite as_i16_small by done. rewrite rbind_assoc.
    erewrite rbind_ok; [|apply with_capacity_ok; [unfold in_i; lia|lia]]. rewrite rbind_assoc, times_zlen.
    assert (Hall : Forall (fun c => wf_col_type c /\ (col_depth c < n)%nat) ts).
    { apply fold_and_Forall in Hts.
      assert (Hm : Forall (fun c => (col_depth c < n)%nat) ts) by (apply fold_max_Forall; lia).
      clear -Hts Hm. induction Hts as [|c l H1 _ IHl]; constructor; apply Forall_cons in Hm as [Hm1 Hm2]; auto. }
    by rewrite (rbind_ok _ _ _ _ _ (@read_n_round_trip _ _ _ _ (length ts) IH ts rest (conj eq_refl Hall))).
  - destruct Hwf as [Hk Hv]. rewrite <- app_assoc.
    erewrite rbind_ok; [|apply (IH k); split; [done|lia]].
    erewrite rbind_ok; [|apply (IH v); split; [done|lia]]. done.
Qed.

Lemma concat_member {A} (f : A -> bytes) l x : In x l -> (length (f x) <= length (concat (map f l)))%nat.
Proof. induction l; simpl; [done|]. rewrite length_app. intros [->|H]; [lia|apply IHl in H; lia]. Qed.

Lemma fold_max_le {A} (f : A -> nat) l n : (forall x, In x l -> (f x <= n)%nat) ->
  (fold_right (fun x m => Nat.max (f x) m) O l <= n)%nat.
Proof. induction l; simpl; intros H; [lia|]. specialize (IHl ltac:(auto)). pose proof (H a ltac:(auto)). lia. Qed.

(** Every level of nesting takes bytes. *)
Lemma col_depth_length n : forall t, (col_depth t <= n)%nat -> (col_depth t < length (ColTypeOption_serialize t))%nat.
Proof.
  induction n as [|n IH]; intros [id value] Hd; cbn [ColTypeOption_serialize]; rewrite length_app;
    change (length (ColType_serialize id)) with 2%nat;
    destruct value as [[s|c|c|c|[ks un ds]|[ts]|k v]|];
    cbn [col_depth ColTypeOptionValue_serialize CUdt_serialize CTuple_serialize] in *; try lia.
  - specialize (IH c). lia.
  - specialize (IH c). lia.
  - rewrite !length_app. enough (fold_right (fun p n => Nat.max (col_depth (snd p)) n) O ds
      <= length (concat (map (fun p => serialize_str (fst p) ++ ColTypeOption_serialize (snd p)) ds)))%nat by lia.
    assert (Hm := fold_max_Forall (fun p => col_depth (snd p)) ds (S n) ltac:(lia)).
    rewrite Forall_forall in Hm. apply (fold_max_le (fun p => col_depth (snd p))). intros p Hp.
    pose proof (concat_member (fun p => serialize_str (fst p) ++ ColTypeOption_serialize (snd p)) ds p Hp) as Hc.
    cbn beta in Hc. rewrite length_app in Hc. pose proof (Hm p (proj2 (list_elem_of_In _ _) Hp)) as Hp1.
    pose proof (IH (snd p) ltac:(lia)). lia.
  - rewrite !length_app. enough (fold_right (fun c n => Nat.max (col_depth c) n) O ts
      <= length (concat (map ColTypeOption_serialize ts)))%nat by lia.
    assert (Hm := fold_max_Forall col_depth ts (S n) ltac:(lia)).
    rewrite Forall_forall in Hm. apply (fold_max_le col_depth). intros c Hc.
    pose proof (concat_member ColTypeOption_serialize ts c Hc) as Hl.
    pose proof (Hm c (proj2 (list_elem_of_In _ _) Hc)) as Hp1. pose proof (IH c ltac:(lia)). lia.
  - rewrite length_app. pose proof (IH k ltac:(lia)). pose proof (IH v ltac:(lia)). lia.
Qed.

#[export] Instance ColTypeOption_round_trip :
  RoundTrip ColTypeOption_from_cursor ColTypeOption_serialize wf_col_type.
Proof.
  intros t rest Ht. unfold ColTypeOption_from_cursor. apply ColTypeOption_fuel_round_trip. split; [done|].
  rewrite length_app. pose proof (col_depth_length _ t (Nat.le_refl _)). lia.
Qed.

Definition wf_table_spec (t : TableSpec) : Prop :=
  wf_short_string (ts_ks_name t) /\ wf_short_string (ts_table_name t).
#[export] Instance TableSpec_round_trip : RoundTrip TableSpec_from_cursor TableSpec_serialize wf_table_spec.
Proof. intros [k t] rest [Hk Ht]. unfold TableSpec_from_cursor, TableSpec_serialize. cbn in Hk, Ht. cbn [ts_ks_name ts_table_name]. rt. Qed.

Definition wf_col_spec (global : bool) (c : ColSpec) : Prop :=
  is_some (cs_table_spec c) = negb global /\ wf_opt wf_table_spec (cs_table_spec c) /\
  wf_short_string (cs_name c) /\ wf_col_type (cs_col_type c).
#[export] Instance ColSpec_round_trip global :
  RoundTrip (ColSpec_from_cursor global) ColSpec_serialize (wf_col_spec global).
Proof.
  intros [t n c] rest (H1 & H2 & H3 & H4). unfold ColSpec_from_cursor, ColSpec_serialize.
  cbn [cs_table_spec cs_name cs_col_type] in *. rt.
Qed.

#[export] Instance parse_colspecs_round_trip n global :
  RoundTrip (parse_colspecs n global) (fun l => concat (map ColSpec_serialize l))
    (fun l => length l = times n /\ Forall (wf_col_spec global) l).
Proof. apply read_n_round_trip, ColSpec_round_trip. Qed.

#[export] Instance extract_global_round_trip global :
  RoundTrip (extract_global_table_space global) (oser TableSpec_serialize)
    (fun o => is_some o = global /\ wf_opt wf_table_spec o).
Proof. apply ropt_round_trip, TableSpec_round_trip. Qed.

(** Flags that agree with the data. *)
Definition wf_rows_metadata (m : RowsMetadata) : Prop :=
  let has := RowsMetadataFlags.contains (rm_flags m) in
  RowsMetadataFlags.wf (rm_flags m) /\ in_i 32 (rm_columns_count m) /\
  is_some (rm_paging_state m) = has RowsMetadataFlags.HAS_MORE_PAGES /\ wf_opt wf_cbytes (rm_paging_state m) /\
  if has RowsMetadataFlags.NO_METADATA then
    rm_new_metadata_id m = None /\ rm_global_table_spec m = None /\ rm_col_specs m = []
  else
    is_some (rm_new_metadata_id m) = has RowsMetadataFlags.METADATA_CHANGED /\
    wf_opt wf_cbytes_short (rm_new_metadata_id m) /\
    is_some (rm_global_table_spec m) = has RowsMetadataFlags.GLOBAL_TABLE_SPACE /\
    wf_opt wf_table_spec (rm_global_table_spec m) /\
    0 < rm_columns_count m /\ zlen (rm_col_specs m) = rm_columns_count m /\
    Forall (wf_col_spec (has RowsMetadataFlags.GLOBAL_TABLE_SPACE)) (rm_col_specs m).

Lemma wf_rows_metadata_asserts m : wf_rows_metadata m -> RowsMetadata_serialize m = Ok (RowsMetadata_bytes m).
Proof.
  intros (_ & _ & Hp & _ & H). unfold RowsMetadata_serialize. enough (RowsMetadata_asserts m = true) as -> by done.
  unfold RowsMetadata_asserts. rewrite Hp, eqb_reflx. cbn [andb].
  destruct (RowsMetadataFlags.contains (rm_flags m) RowsMetadataFlags.NO_METADATA).
  - destruct H as (_ & -> & ->). done.
  - destruct H as (_ & _ & Hg & _ & H0 & Hl & _). rewrite Hg.
    assert (list_is_empty (rm_col_specs m) = false) as -> by (destruct (rm_col_specs m); [rewrite zlen_nil in Hl; lia|done]).
    by destruct (RowsMetadataFlags.contains (rm_flags m) RowsMetadataFlags.GLOBAL_TABLE_SPACE).
Qed.

#[export] Instance RowsMetadata_round_trip :
  RoundTrip RowsMetadata_from_cursor RowsMetadata_bytes wf_rows_metadata.
Proof.
  intros [f cc ps nid g cs] rest (Hf & Hcc & Hps & Hps' & H). unfold RowsMetadata_from_cursor, RowsMetadata_bytes.
  cbn [rm_flags rm_columns_count rm_paging_state rm_new_metadata_id rm_global_table_spec rm_col_specs] in *.
  unfold RowsMetadataFlags.wf, RowsMetadataFlags.all in Hf.
  erewrite rbind_ok; [|rewrite <- app_assoc; apply (round_trip (dec := CInt_from_cursor)); unfold in_i; lia].
  assert (Ef : RowsMetadataFlags.from_bits_truncate f = f).
  { unfold RowsMetadataFlags.from_bits_truncate, RowsMetadataFlags.all. change 15 with (2 ^ 4 - 1).
    rewrite land_mask, Z.mod_small by lia. done. }
  cbn beta zeta. rewrite Ef. rt_step. rt_step.
  destruct (RowsMetadataFlags.contains f RowsMetadataFlags.NO_METADATA).
  - destruct H as (-> & -> & ->). done.
  - destruct H as (H1 & H2 & H3 & H4 & H5 & H6 & H7). rt_step. rt_step.
    erewrite rbind_ok; [|apply (parse_colspecs_round_trip cc _ cs); split; [|exact H7]]; [done|].
    rewrite <- H6. by rewrite times_zlen.
Qed.

Definition wf_prepared_metadata (m : PreparedMetadata) : Prop :=
  zlen (pm_pk_indexes m) < 2 ^ 31 /\ Forall (in_i 16) (pm_pk_indexes m) /\
  wf_opt wf_table_spec (pm_global_table_spec m) /\
  zlen (pm_col_specs m) < 2 ^ 31 /\ Forall (wf_col_spec (is_some (pm_global_table_spec m))) (pm_col_specs m).

Lemma as_i32_zlen {A} (l : list A) : zlen l < 2 ^ 31 -> as_i32 (zlen l) = zlen l.
Proof. intros H. pose proof (zlen_nonneg l). apply as_i32_small. lia. Qed.

Lemma PreparedMetadata_round_trip v : v <> V3 ->
  RoundTrip (PreparedMetadata_from_cursor v) PreparedMetadata_serialize wf_prepared_metadata.
Proof.
  intros Hv [pk g cs] rest (H1 & H2 & H3 & H4 & H5).
  unfold PreparedMetadata_from_cursor, PreparedMetadata_serialize.
  cbn [pm_pk_indexes pm_global_table_spec pm_col_specs] in *.
  assert (H1' := as_i32_zlen _ H1). assert (H4' := as_i32_zlen _ H4). rewrite H1', H4'.
  pose proof (zlen_nonneg pk). pose proof (zlen_nonneg cs).
  set (f := if is_some g then PreparedMetadataFlags.GLOBAL_TABLE_SPACE else 0).
  assert (Hf : in_i 32 f) by (unfold f; destruct (is_some g); split; done).
  assert (Hg : is_some g = PreparedMetadataFlags.contains (Z.land f 1) PreparedMetadataFlags.GLOBAL_TABLE_SPACE)
    by (unfold f; by destruct (is_some g)).
  rt_step. rt_step.
  assert (in_i 32 (zlen pk)) by (unfold in_i; lia).
  assert (E : (match v with V3 => rret 0 | _ => CInt_from_cursor end) = CInt_from_cursor) by (by destruct v).
  rewrite E. rt_step.
  change PreparedMetadataFlags.GLOBAL_TABLE_SPACE with 1 in *. rewrite <- Hg.
  rt_norm; rewrite (rbind_ok _ _ _ _ _
    (@read_n_round_trip _ _ _ _ (times (zlen pk)) CIntShort_round_trip pk _ (conj (eq_sym (times_zlen pk)) H2))).
  rt_step.
  erewrite rbind_ok; [|apply (parse_colspecs_round_trip (zlen cs) _ cs); split; [by rewrite times_zlen|exact H5]].
  done.
Qed.

Lemma concat_map_concat {A} (f : A -> bytes) (ll : list (list A)) :
  concat (map f (concat ll)) = concat (map (fun l => concat (map f l)) ll).
Proof. induction ll as [|l ll IH]; [done|]. cbn [map concat]. by rewrite map_app, concat_app, IH. Qed.

(** The row count agrees with the rows, and every row has one value per column. *)
Definition wf_result_rows (v : Version) (r : BodyResResultRows) : Prop :=
  rr_protocol_version r = v /\ wf_rows_metadata (rr_metadata r) /\
  zlen (rr_rows_content r) = rr_rows_count r /\ rr_rows_count r < 2 ^ 31 /\
  Forall (fun row => length row = times (rm_columns_count (rr_metadata r)) /\ Forall wf_cbytes row)
    (rr_rows_content r).
Definition BodyResResultRows_bytes (r : BodyResResultRows) : bytes :=
  RowsMetadata_bytes (rr_metadata r) ++ i32_serialize (rr_rows_count r) ++
  concat (map CBytes_serialize (concat (rr_rows_content r))).

#[export] Instance BodyResResultRows_round_trip v :
  RoundTrip (BodyResResultRows_from_cursor v) BodyResResultRows_bytes (wf_result_rows v).
Proof.
  intros [m n rows pv] rest (Hv & Hm & Hn & Hn' & Hr). unfold BodyResResultRows_from_cursor, BodyResResultRows_bytes.
  cbn [rr_metadata rr_rows_count rr_rows_content rr_protocol_version] in *. rewrite <- Hv.
  pose proof (zlen_nonneg rows). assert (in_i 32 n) by (unfold in_i; lia).
  assert (Hl : length rows = times n) by (by rewrite <- Hn, times_zlen).
  rt_step. rt_step. unfold rows_content. rewrite concat_map_concat. rt_norm.
  rewrite (rbind_ok _ _ _ _ _ (@read_n_round_trip _ _ _ _ (times n)
    (@read_n_round_trip _ _ _ _ (times (rm_columns_count m)) CBytes_round_trip) rows rest
    (conj Hl Hr))). done.
Qed.

Definition wf_result_prepared (v : Version) (p : BodyResResultPrepared) : Prop :=
  v <> V3 /\ wf_cbytes_short (rp_id p) /\
  is_some (rp_result_metadata_id p) = bool_decide (v = V5) /\ wf_opt wf_cbytes_short (rp_result_metadata_id p) /\
  wf_prepared_metadata (rp_metadata p) /\ wf_rows_metadata (rp_result_metadata p).
Definition BodyResResultPrepared_bytes (p : BodyResResultPrepared) : bytes :=
  CBytesShort_serialize (rp_id p) ++ oser CBytesShort_serialize (rp_result_metadata_id p) ++
  PreparedMetadata_serialize (rp_metadata p) ++ RowsMetadata_bytes (rp_result_metadata p).

#[export] Instance BodyResResultPrepared_round_trip v :
  RoundTrip (BodyResResultPrepared_from_cursor v) BodyResResultPrepared_bytes (wf_result_prepared v).
Proof.
  intros [i mi m rm] rest (Hv & H1 & H2 & H3 & H4 & H5).
  unfold BodyResResultPrepared_from_cursor, BodyResResultPrepared_bytes.
  cbn [rp_id rp_result_metadata_id rp_metadata rp_result_metadata] in *.
  pose proof (PreparedMetadata_round_trip v Hv). rt.
Qed.

Definition wf_result (v : Version) (r : ResResultBody) : Prop :=
  match r with
  | ResVoid => True
  | ResRows rows => wf_result_rows v rows
  | ResSetKeyspace k => wf_short_string k
  | ResPrepared p => wf_result_prepared v p
  | ResSchemaChange s => wf_schema_change s
  end.
Definition ResResultBody_bytes (r : ResResultBody) : bytes :=
  match r with
  | ResVoid => ResultKind_serialize RkVoid
  | ResRows rows => ResultKind_serialize RkRows ++ BodyResResultRows_bytes rows
  | ResSetKeyspace k => ResultKind_serialize RkSetKeyspace ++ serialize_str k
  | ResPrepared p => ResultKind_serialize RkPrepared ++ BodyResResultPrepared_bytes p
  | ResSchemaChange s => ResultKind_serialize RkSchemaChange ++ SchemaChange_serialize s
  end.

Lemma wf_result_serialize v r : wf_result v r -> ResResultBody_serialize r = Ok (ResResultBody_bytes r).
Proof.
  destruct r as [|rows|k|p|s]; cbn [wf_result ResResultBody_serialize ResResultBody_bytes]; try done.
  - intros (_ & Hm & _). unfold BodyResResultRows_serialize. by rewrite wf_rows_metadata_asserts.
  - intros (_ & _ & _ & _ & _ & Hm). unfold BodyResResultPrepared_serialize. by rewrite wf_rows_metadata_asserts.
Qed.

#[export] Instance ResultKind_round_trip : RoundTrip ResultKind_from_cursor ResultKind_serialize (fun _ => True).
Proof. intros k rest _. by destruct k. Qed.

#[export] Instance ResResultBody_round_trip v :
  RoundTrip (ResResultBody_from_cursor v) ResResultBody_bytes (wf_result v).
Proof.
  intros r rest Hr. unfold ResResultBody_from_cursor.
  destruct r as [|rows|k|p|s]; cbn [wf_result ResResultBody_bytes] in *; rt_step; cbn [parse_body_from_cursor]; rt.
Qed.

(** C21: every well-formed RESULT body - void, rows with
    their metadata and arbitrarily nested column types, a keyspace name, a
    prepared statement (protocol 4 and 5), a schema change - serializes
    without failing one of the assertions of the serializer, and the bytes,
    whatever follows them, are read back as that body. *)
Theorem result_body_round_trip v r rest :
  wf_result v r ->
  exists bs, ResResultBody_serialize r = Ok bs /\ ResResultBody_from_cursor v (bs ++ rest) = Ok (r, rest).
Proof. intros H. exists (ResResultBody_bytes r). split; [by apply wf_result_serialize in H|by apply round_trip]. Qed.

(** The column-type parser is total and satisfies, on
    every input whether well-formed or not, the recursive equation of the
    source: read a type code, then the value that code prescribes, with the
    parser itself for the nested types.  The recursion bound of the model
    is never what decides the answer. *)
Theorem col_type_parser_unfolds i :
  ColTypeOption_from_cursor i =
  (let* id := ColType_from_cursor in
   let* value := ColTypeOption_value ColTypeOption_from_cursor id in
   rret (mkColTypeOption id value)) i.
Proof.
  unfold ColTypeOption_from_cursor at 1. cbn [ColTypeOption_fuel]. unfold ColTypeOption_step.
  apply rbind_ext. intros id j Hj%ColType_consumes.
  assert (Hv : agree (length j) (ColTypeOption_value (ColTypeOption_fuel (length i)) id)
                 (ColTypeOption_value ColTypeOption_from_cursor id)).
  { apply agree_value; [apply shrinks_fuel|]. intros k Hk. apply ColTypeOption_fuel_enough; lia. }
  unfold rbind. by rewrite Hv.
Qed.

(** ** [FromBytes] *)

(** The flags are written as an [int] of four bytes; [from_bytes] takes the
    eight of a [u64] and cannot read them. *)
Theorem rows_flags_from_bytes f : RowsMetadataFlags.wf f ->
  RowsMetadataFlags.from_bytes (RowsMetadataFlags.serialize f) = Err (EIo UnexpectedEof) /\
  RowsMetadataFlags.from_bytes (be_bytes 8 f) = Ok f.
Proof.
  intros [H0 H1]. change RowsMetadataFlags.all with 15 in H1. split.
  - unfold RowsMetadataFlags.from_bytes, try_u64_from_bytes, convert_to_array, RowsMetadataFlags.serialize, i32_serialize.
    rewrite length_be_bytes. done.
  - unfold RowsMetadataFlags.from_bytes, try_u64_from_bytes, convert_to_array. rewrite length_be_bytes. cbn [omap obind].
    rewrite bool_decide_true by done. cbn [omap obind]. rewrite be_uint_be_bytes, Z.mod_small by lia.
    rewrite as_i32_small by lia. unfold RowsMetadataFlags.from_bits, RowsMetadataFlags.from_bits_truncate.
    change RowsMetadataFlags.all with (Z.ones 4). rewrite Z.land_ones, Z.mod_small by lia. by rewrite Z.eqb_refl.
Qed.

Theorem col_type_from_bytes t : ColType_from_bytes (ColType_serialize t) = Ok t.
Proof. by destruct t; vm_compute. Qed.

(** ** Samples *)

Module ResultSamples.
Definition sample_type : ColTypeOption :=
  mkColTypeOption CtMap (Some (CMap (mkColTypeOption CtVarchar None)
    (mkColTypeOption CtList (Some (CList (mkColTypeOption CtTuple
      (Some (TupleType (mkCTuple [mkColTypeOption CtInt None; mkColTypeOption CtUuid None]))))))))).
Definition sample_metadata : RowsMetadata :=
  mkRowsMetadata RowsMetadataFlags.GLOBAL_TABLE_SPACE 1 None None
    (Some (mkTableSpec (lit "ks") (lit "t"))) [mkColSpec None (lit "c") sample_type].
Definition sample_rows : ResResultBody :=
  ResRows (mkResultRows sample_metadata 2 [[mkCBytes (Some [u8 1])]; [mkCBytes None]] V5).

Lemma result_body_round_trip_witness :
  wf_result V5 sample_rows /\
  exists bs, ResResultBody_serialize sample_rows = Ok bs /\
             ResResultBody_from_cursor V5 (bs ++ [u8 255]) = Ok (sample_rows, [u8 255]).
Proof.
  assert (H : wf_result V5 sample_rows).
  { cbn. repeat split; cbn; try done; try lia; eauto with cdrs_wf;
    repeat (constructor; cbn; repeat split; cbn; try done; try lia; eauto with cdrs_wf). }
  split; [exact H|]. exact (result_body_round_trip V5 sample_rows [u8 255] H).
Defined.

Lemma rows_flags_from_bytes_witness :
  RowsMetadataFlags.from_bytes (RowsMetadataFlags.serialize 5) = Err (EIo UnexpectedEof).
Proof. apply rows_flags_from_bytes. split; [discriminate|discriminate]. Defined.
End ResultSamples.
