(* ===== verification/Responses.v ===== *)
(** * Responses: [frame/message_response.rs], the small response bodies, [types/rows.rs]

    The remaining response bodies (SUPPORTED, AUTHENTICATE, AUTH_CHALLENGE,
    AUTH_SUCCESS, READY), the dispatch on the opcode, and the rows handed to
    the application. *)

From S2P Require Import Prelude Types Wire Compression Envelope Query Events ErrorMsg Results.
Local Open Scope Z_scope.
Local Open Scope cdrs_scope.

(** ** Small bodies *)

Record BodyResSupported : Type := mkBodyResSupported { brs_data : gmap bytes (list bytes) }.
Definition serialize_supported (kv : bytes * list bytes) : bytes :=
  serialize_str kv.1 ++ i16_serialize (as_i16 (zlen kv.2)) ++ concat (map serialize_str kv.2).
Definition BodyResSupported_serialize `{!HashIter bytes} (b : BodyResSupported) : bytes :=
  i16_serialize (as_i16 (Z.of_nat (size (brs_data b)))) ++
  concat (map serialize_supported (hm_iter (brs_data b))).
Definition BodyResSupported_from_cursor : R BodyResSupported :=
  let* l := CIntShort_from_cursor in
  let* _ := with_capacity (as_usize l) in
  let* kvs := read_n (times l) (rpair from_cursor_str from_cursor_string_list) in
  rret (mkBodyResSupported (hm_collect kvs)).

Record BodyResAuthenticate : Type := mkBodyResAuthenticate { ba_data : bytes }.
Definition BodyResAuthenticate_serialize (b : BodyResAuthenticate) : bytes := serialize_str (ba_data b).
Definition BodyResAuthenticate_from_cursor : R BodyResAuthenticate :=
  let* data := from_cursor_str in rret (mkBodyResAuthenticate data).

Record BodyResAuthChallenge : Type := mkBodyResAuthChallenge { bac_data : CBytes }.
Definition BodyResAuthChallenge_serialize (b : BodyResAuthChallenge) : bytes := CBytes_serialize (bac_data b).
Definition BodyResAuthChallenge_from_cursor : R BodyResAuthChallenge :=
  rmap mkBodyResAuthChallenge CBytes_from_cursor.

Record BodyReqAuthSuccess : Type := mkBodyReqAuthSuccess { bas_data : CBytes }.
Definition BodyReqAuthSuccess_serialize (b : BodyReqAuthSuccess) : bytes := CBytes_serialize (bas_data b).
Definition BodyReqAuthSuccess_from_cursor : R BodyReqAuthSuccess :=
  rmap mkBodyReqAuthSuccess CBytes_from_cursor.

(** ** [ResponseBody] *)

Inductive ResponseBody : Type :=
| RbError (e : ErrorBody)
| RbReady
| RbAuthenticate (b : BodyResAuthenticate)
| RbSupported (b : BodyResSupported)
| RbResult (r : ResResultBody)
| RbEvent (e : BodyResEvent)
| RbAuthChallenge (b : BodyResAuthChallenge)
| RbAuthSuccess (b : BodyReqAuthSuccess).

Definition ResponseBody_serialize `{!HashIter bytes} `{!HashIter SocketAddr} (r : ResponseBody) : Result bytes :=
  match r with
  | RbError e => Ok (ErrorBody_serialize e)
  | RbReady => Ok []
  | RbAuthenticate b => Ok (BodyResAuthenticate_serialize b)
  | RbSupported b => Ok (BodyResSupported_serialize b)
  | RbResult r => ResResultBody_serialize r
  | RbEvent e => Ok (BodyResEvent_serialize e)
  | RbAuthChallenge b => Ok (BodyResAuthChallenge_serialize b)
  | RbAuthSuccess b => Ok (BodyReqAuthSuccess_serialize b)
  end.

Definition ResponseBody_from_cursor (o : Opcode) (v : Version) : R ResponseBody :=
  match o with
  | OpError => rmap RbError (ErrorBody_from_cursor v)
  | OpReady => rret RbReady
  | OpAuthenticate => rmap RbAuthenticate BodyResAuthenticate_from_cursor
  | OpSupported => rmap RbSupported BodyResSupported_from_cursor
  | OpResult => rmap RbResult (ResResultBody_from_cursor v)
  | OpEvent => rmap RbEvent BodyResEvent_from_cursor
  | OpAuthChallenge => rmap RbAuthChallenge BodyResAuthChallenge_from_cursor
  | OpAuthSuccess => rmap RbAuthSuccess BodyReqAuthSuccess_from_cursor
  | _ => rerr (ENonResponseOpcode o)
  end.
(** The body is parsed from a cursor over it; what is left is ignored. *)
Definition ResponseBody_try_from (b : bytes) (o : Opcode) (v : Version) : Result ResponseBody :=
  omap fst (ResponseBody_from_cursor o v b).

Definition response_opcode (r : ResponseBody) : Opcode :=
  match r with
  | RbError _ => OpError | RbReady => OpReady | RbAuthenticate _ => OpAuthenticate
  | RbSupported _ => OpSupported | RbResult _ => OpResult | RbEvent _ => OpEvent
  | RbAuthChallenge _ => OpAuthChallenge | RbAuthSuccess _ => OpAuthSuccess
  end.

(** [Envelope::response_body] *)
Definition response_body `{UuidLib} (e : Envelope) : Result ResponseBody :=
  ResponseBody_try_from (body e) (opcode e) (version e).

(** ** Rows *)

Record Row : Type := mkRow { metadata : RowsMetadata; row_content : list CBytes; protocol_version : Version }.

Definition Row_from_body (b : BodyResResultRows) : list Row :=
  map (fun row => mkRow (rr_metadata b) row (rr_protocol_version b)) (rr_rows_content b).

(** [iter().position(|spec| spec.name == name)] *)
Fixpoint position (name : bytes) (specs : list ColSpec) : option nat :=
  match specs with
  | [] => None
  | s :: specs' => if bool_decide (cs_name s = name) then Some O else option_map S (position name specs')
  end.

Definition contains_column (r : Row) (name : bytes) : bool :=
  existsb (fun spec => bool_decide (cs_name spec = name)) (rm_col_specs (metadata r)).
Definition Row_is_empty (r : Row) (index : nat) : bool :=
  match row_content r !! index with Some data => CBytes_is_null_or_empty data | None => false end.
Definition is_empty_by_name (r : Row) (name : bytes) : bool :=
  match position name (rm_col_specs (metadata r)) with Some index => Row_is_empty r index | None => false end.

(** Both vectors are indexed: out of range panics. *)
Definition col_spec_by_name (r : Row) (name : bytes) : Result (option (ColSpec * CBytes)) :=
  match position name (rm_col_specs (metadata r)) with
  | None => Ok None
  | Some i =>
    match rm_col_specs (metadata r) !! i, row_content r !! i with
    | Some col_spec, Some data => Ok (Some (col_spec, data))
    | _, _ => Panic
    end
  end.
Definition col_spec_by_index (r : Row) (index : nat) : option (ColSpec * CBytes) :=
  zip (rm_col_specs (metadata r)) (row_content r) !! index.

(** ** Accessors *)

Definition ResResultBody_into_rows (r : ResResultBody) : option (list Row) :=
  match r with ResRows b => Some (Row_from_body b) | _ => None end.
Definition into_rows (r : ResponseBody) : option (list Row) :=
  match r with RbResult res => ResResultBody_into_rows res | _ => None end.
Definition response_rows_metadata (r : ResponseBody) : option RowsMetadata :=
  match r with RbResult res => as_rows_metadata res | _ => None end.
Definition as_cols (r : ResponseBody) : option BodyResResultRows :=
  match r with RbResult (ResRows rows) => Some rows | _ => None end.
Definition response_prepared (r : ResponseBody) : option BodyResResultPrepared :=
  match r with RbResult res => into_prepared res | _ => None end.
Definition response_set_keyspace (r : ResponseBody) : option bytes :=
  match r with RbResult res => into_set_keyspace res | _ => None end.
Definition into_server_event (r : ResponseBody) : option BodyResEvent :=
  match r with RbEvent e => Some e | _ => None end.
Definition authenticator (r : ResponseBody) : option bytes :=
  match r with RbAuthenticate auth => Some (ba_data auth) | _ => None end.
Definition into_error (r : ResponseBody) : option ErrorBody :=
  match r with RbError err => Some err | _ => None end.

(** ** Round trips *)

Definition wf_supported (b : BodyResSupported) : Prop :=
  Z.of_nat (size (brs_data b)) < 2 ^ 15 /\
  map_Forall (fun k v => wf_short_string k /\ wf_string_list v) (brs_data b).

#[export] Instance supported_entry_round_trip :
  RoundTrip (rpair from_cursor_str from_cursor_string_list) serialize_supported
    (fun kv => wf_short_string kv.1 /\ wf_string_list kv.2) := rpair_round_trip _ _ _ _ _ _.

#[export] Instance Supported_round_trip `{!HashIter bytes} :
  RoundTrip BodyResSupported_from_cursor BodyResSupported_serialize wf_supported.
Proof.
  intros [m] rest [Hn Hm]. unfold BodyResSupported_from_cursor, BodyResSupported_serialize. simpl brs_data in *.
  rewrite <- app_assoc.
  rewrite (with_count (fun n => read_n (times n) (rpair from_cursor_str from_cursor_string_list))) by lia.
  assert (Hl : length (hm_iter m) = times (Z.of_nat (size m))) by (rewrite hm_iter_length; unfold times; lia).
  rewrite (rbind_ok _ _ _ _ _ (read_n_round_trip _ serialize_supported _ _ (hm_iter m) rest
             (conj Hl (hm_iter_Forall _ m Hm)))).
  unfold rret. by rewrite hm_collect_iter.
Qed.

#[export] Instance Authenticate_round_trip :
  RoundTrip BodyResAuthenticate_from_cursor BodyResAuthenticate_serialize (fun b => wf_short_string (ba_data b)).
Proof. intros [d] rest H. unfold BodyResAuthenticate_from_cursor, BodyResAuthenticate_serialize. simpl ba_data in *. rt. Qed.
#[export] Instance AuthChallenge_round_trip :
  RoundTrip BodyResAuthChallenge_from_cursor BodyResAuthChallenge_serialize (fun b => wf_cbytes (bac_data b)).
Proof. intros [d] rest H. unfold BodyResAuthChallenge_from_cursor, BodyResAuthChallenge_serialize. simpl bac_data in *. rt. Qed.
#[export] Instance AuthSuccess_round_trip :
  RoundTrip BodyReqAuthSuccess_from_cursor BodyReqAuthSuccess_serialize (fun b => wf_cbytes (bas_data b)).
Proof. intros [d] rest H. unfold BodyReqAuthSuccess_from_cursor, BodyReqAuthSuccess_serialize. simpl bas_data in *. rt. Qed.

Definition wf_response (v : Version) (r : ResponseBody) : Prop :=
  match r with
  | RbError e => wf_error_body v e
  | RbReady => True
  | RbAuthenticate b => wf_short_string (ba_data b)
  | RbSupported b => wf_supported b
  | RbResult r => wf_result v r
  | RbEvent e => wf_event (bre_event e)
  | RbAuthChallenge b => wf_cbytes (bac_data b)
  | RbAuthSuccess b => wf_cbytes (bas_data b)
  end.

Section ResponseProofs.
Context `{!HashIter bytes} `{!HashIter SocketAddr}.

Lemma response_read_back v r bs rest : wf_response v r -> ResponseBody_serialize r = Ok bs ->
  ResponseBody_from_cursor (response_opcode r) v (bs ++ rest) = Ok (r, rest).
Proof.
  intros Hr Hs. destruct r as [e| |b|b|r|e|b|b];
    cbn [response_opcode ResponseBody_from_cursor ResponseBody_serialize wf_response] in *;
    try (assert (ResResultBody_serialize r = Ok (ResResultBody_bytes r)) as Hq by (by apply wf_result_serialize in Hr);
         rewrite Hq in Hs);
    match type of Hs with Ok ?x = Ok _ => assert (bs = x) as -> by congruence end; rt.
Qed.

Lemma response_body_envelope `{UuidLib} e r : wf_response (version e) r ->
  opcode e = response_opcode r -> ResponseBody_serialize r = Ok (body e) ->
  response_body e = Ok r.
Proof.
  intros Hr Ho Hb. unfold response_body, ResponseBody_try_from. rewrite Ho.
  pose proof (response_read_back _ r _ [] Hr Hb) as Hq. rewrite app_nil_r in Hq. by rewrite Hq.
Qed.

End ResponseProofs.

(** ** What a parsed body guarantees, whatever the bytes *)

Lemma rbind_inv {A B} (m : R A) (f : A -> R B) i b r : rbind m f i = Ok (b, r) ->
  exists a j, m i = Ok (a, j) /\ f a j = Ok (b, r).
Proof. unfold rbind. destruct (m i) as [[a j]| |]; [|done..]. eauto. Qed.

Lemma read_n_inv {A} (P : A -> Prop) (m : R A) n : (forall i a r, m i = Ok (a, r) -> P a) ->
  forall i l r, read_n n m i = Ok (l, r) -> length l = n /\ Forall P l.
Proof.
  intros Hm. induction n as [|n IH]; simpl; intros i l r H; [by injection H as <- <-|].
  apply rbind_inv in H as (a & j & Ha & H). apply rbind_inv in H as (l' & j' & Hl & H).
  injection H as <- <-. apply IH in Hl as [Hl1 Hl2]. apply Hm in Ha. simpl. by rewrite Hl1; eauto.
Qed.

Lemma RowsMetadata_specs i m r : RowsMetadata_from_cursor i = Ok (m, r) ->
  rm_col_specs m = [] \/ length (rm_col_specs m) = times (rm_columns_count m).
Proof.
  unfold RowsMetadata_from_cursor. intros H.
  do 3 (apply rbind_inv in H as (? & ? & _ & H)). case_match.
  - injection H as <- <-. by left.
  - do 2 (apply rbind_inv in H as (? & ? & _ & H)). apply rbind_inv in H as (l & ? & Hl & H).
    injection H as <- <-. right. simpl. by apply (read_n_inv (fun _ => True)) in Hl as [? _].
Qed.

Lemma parsed_rows_shape v i b r row : BodyResResultRows_from_cursor v i = Ok (b, r) -> In row (Row_from_body b) ->
  rm_col_specs (metadata row) = [] \/ length (rm_col_specs (metadata row)) = length (row_content row).
Proof.
  unfold BodyResResultRows_from_cursor. intros H Hrow.
  apply rbind_inv in H as (m & ? & Hm & H). apply rbind_inv in H as (n & ? & _ & H).
  apply rbind_inv in H as (c & ? & Hc & H). injection H as <- <-.
  apply RowsMetadata_specs in Hm.
  apply (read_n_inv (fun l => length l = times (rm_columns_count m))) in Hc as [_ Hc];
    [|intros ??? Hx; by apply (read_n_inv (fun _ => True)) in Hx as [? _]].
  unfold Row_from_body in Hrow. cbn [rr_rows_content] in Hrow. apply in_map_iff in Hrow as (l & <- & Hl).
  apply list_elem_of_In in Hl. rewrite Forall_forall in Hc. apply Hc in Hl.
  cbn. destruct Hm as [Hm|Hm]; [by left|right]. rewrite Hm. symmetry. exact Hl.
Qed.

Lemma position_spec name specs :
  match position name specs with
  | Some k => exists s, specs !! k = Some s /\ cs_name s = name
  | None => True
  end /\ is_some (position name specs) = existsb (fun s => bool_decide (cs_name s = name)) specs.
Proof.
  induction specs as [|s specs [IH1 IH2]]; [done|]. simpl.
  destruct (bool_decide (cs_name s = name)) eqn:E; [apply bool_decide_eq_true in E; split; [eauto|done]|].
  destruct (position name specs) as [k|]; done.
Qed.

(** Looking a column up by name in a row parsed from a RESULT body,
    whatever bytes the server sent, never panics; it finds a value exactly
    when the row has a column of that name, and the value is the one the
    lookup by index gives at that column. *)
Theorem row_lookup_safe v i b rest row name :
  BodyResResultRows_from_cursor v i = Ok (b, rest) -> In row (Row_from_body b) ->
  exists o, col_spec_by_name row name = Ok o /\ is_some o = contains_column row name /\
    forall spec data, o = Some (spec, data) ->
      cs_name spec = name /\ exists k, col_spec_by_index row k = Some (spec, data).
Proof.
  intros H Hrow. pose proof (parsed_rows_shape _ _ _ _ _ H Hrow) as Hs.
  unfold col_spec_by_name, contains_column, col_spec_by_index.
  destruct (position_spec name (rm_col_specs (metadata row))) as [Hp <-].
  destruct (position name _) as [k|]; [|by exists None].
  destruct Hp as (s & Hk & Hn). rewrite Hk. destruct Hs as [Hs|Hs]; [by rewrite Hs in Hk|].
  pose proof (lookup_lt_Some _ _ _ Hk) as Hlt. rewrite Hs in Hlt. apply lookup_lt_is_Some in Hlt as [d Hd].
  rewrite Hd. eexists. split; [done|]. split; [done|]. intros spec data [= <- <-]. split; [done|].
  exists k. apply lookup_zip_with_Some. eauto.
Qed.

(** ** Witnesses *)

Module ResponseSamples.
#[local] Existing Instances uuid_bytes stored_lz4 stored_snap.
#[local] Instance order : HashIter bytes := default_iter bytes.
#[local] Instance order_addr : HashIter SocketAddr := default_iter SocketAddr.

Definition supported : ResponseBody :=
  RbSupported (mkBodyResSupported {[lit "COMPRESSION" := [lit "lz4"; lit "snappy"]]}).
Definition supported_bytes : bytes := match ResponseBody_serialize supported with Ok b => b | _ => [] end.
Definition reply : Envelope :=
  mkEnvelope V4 Response Flags.WARNING OpSupported 5 supported_bytes None [lit "slow"].
Definition reply_bytes : bytes := match encode_with reply Lz4 with Ok b => b | _ => [] end.

Lemma reply_wf : wf_envelope reply.
Proof. repeat split; try (by vm_compute). constructor; [by apply short_string_ok_wf|constructor]. Qed.
Lemma supported_wf : wf_response V4 supported.
Proof.
  split; [by vm_compute|].
  refine (proj2 (map_Forall_singleton (M := gmap bytes) (fun k v => wf_short_string k /\ wf_string_list v) _ _) _).
  split; [by apply short_string_ok_wf|]. split; [by vm_compute|].
  repeat (constructor; [by apply short_string_ok_wf|]). constructor.
Qed.


Definition rows : BodyResResultRows :=
  mkResultRows ResultSamples.sample_metadata 1 [[mkCBytes (Some [u8 1])]] V5.
Lemma row_lookup_safe_witness :
  exists o, col_spec_by_name (mkRow ResultSamples.sample_metadata [mkCBytes (Some [u8 1])] V5) (lit "c") = Ok o /\
    is_some o = true /\
    forall spec data, o = Some (spec, data) ->
      cs_name spec = lit "c" /\
      exists k, col_spec_by_index (mkRow ResultSamples.sample_metadata [mkCBytes (Some [u8 1])] V5) k
                = Some (spec, data).
Proof.
  apply (row_lookup_safe V5 (BodyResResultRows_bytes rows) rows []); [by vm_compute|by left].
Defined.
End ResponseSamples.
