(* ===== verification/EnvelopeParser.v ===== *)
(** * The stream parser: [cdrs-tokio/src/envelope_parser.rs]

    The driver has a second envelope parser, which reads from an
    asynchronous stream instead of a buffer.  The stream is the sequence of
    bytes it delivers before its end; [read_exact] fails with
    [UnexpectedEof] when they run out. *)

From S2P Require Import Prelude Types Wire Compression Envelope Query Events ErrorMsg Results Responses.
Local Open Scope Z_scope.
Local Open Scope cdrs_scope.

Section Parser.
Context {U : UuidLib} {L : Lz4Lib} {SN : SnapLib}.

(** The part read from a cursor over the decompressed body. *)
Definition parse_full_body (flags : Z) : R (option Uuid * list bytes) :=
  let* tracing_id :=
    if Flags.contains flags Flags.TRACING
    then let* tracing_bytes := read_exact UUID_LEN in rret (decode_timeuuid tracing_bytes)
    else rret None in
  let* warnings :=
    if Flags.contains flags Flags.WARNING then from_cursor_string_list else rret [] in
  rret (tracing_id, warnings).

Definition parse_raw_envelope (compressor : Compression) : R Envelope :=
  let* version_bytes := read_exact 1 in
  let* flag_bytes := read_exact 1 in
  let* stream_bytes := read_exact 2 in
  let* opcode_bytes := read_exact 1 in
  let* length_bytes := read_exact 4 in
  let* version := rlift (Version_try_from (at_ 0 version_bytes)) in
  let direction := Direction_from (at_ 0 version_bytes) in
  let flags := Flags.from_bits_truncate (at_ 0 flag_bytes) in
  let* stream_id := rlift (try_i16_from_bytes stream_bytes) in
  let* opcode := rlift (Opcode_try_from (at_ 0 opcode_bytes)) in
  let* len := rlift (try_i32_from_bytes length_bytes) in
  let length := as_usize len in
  let* _ := with_capacity length in
  let* body_bytes := read_exact (Z.to_nat length) in
  let* full_body := rlift (map_err ECompression
    (Compression_decode
       (if Flags.contains flags Flags.COMPRESSION then compressor else NoCompression) body_bytes)) in
  let* parsed := rlift (parse_full_body flags full_body) in
  let '((tracing_id, warnings), body) := parsed in
  rret (mkEnvelope version direction flags opcode stream_id body tracing_id warnings).

(** An ERROR response becomes an error; other envelopes pass. *)
Definition convert_envelope_into_result (e : Envelope) (addr : SocketAddr) : Result Envelope :=
  match opcode e with
  | OpError =>
    let? err := response_body e in
    match err with
    | RbError body => Err (EServer body addr)
    | _ => Panic
    end
  | _ => Ok e
  end.

Definition parse_envelope (compressor : Compression) (addr : SocketAddr) : R Envelope :=
  let* e := parse_raw_envelope compressor in
  rlift (convert_envelope_into_result e addr).

(** ** Agreement with [Envelope::from_buffer] *)

(** What follows the nine header bytes, in terms of the whole input. *)
Definition parse_after_header (c : Compression) (data : bytes) : R Envelope :=
  let* version := rlift (Version_try_from (at_ 0 data)) in
  let flags := Flags.from_bits_truncate (at_ 1 data) in
  let* opcode := rlift (Opcode_try_from (at_ 4 data)) in
  let length := as_usize (swrap 32 (be_uint (slice 5 9 data))) in
  let* _ := with_capacity length in
  let* body_bytes := read_exact (Z.to_nat length) in
  let* full_body := rlift (map_err ECompression
    (Compression_decode (if Flags.contains flags Flags.COMPRESSION then c else NoCompression) body_bytes)) in
  let* parsed := rlift (parse_full_body flags full_body) in
  let '((tracing_id, warnings), body) := parsed in
  rret (mkEnvelope version (Direction_from (at_ 0 data)) flags opcode
          (swrap 16 (be_uint (slice 2 4 data))) body tracing_id warnings).

Lemma parse_raw_header c data : 9 <= zlen data ->
  parse_raw_envelope c data = parse_after_header c data (drop 9 data).
Proof.
  intros H. unfold zlen in H.
  do 9 (destruct data as [|? data]; [simpl in H; lia|]). reflexivity.
Qed.

(** Where tracing ids are read in the same cases, the bodies agree. *)
Lemma full_body_agrees f d i t i' w b :
  d = Response \/ Flags.contains f Flags.TRACING = false ->
  read_tracing_id f d i = Ok (t, i') -> read_warnings f i' = Ok (w, b) ->
  parse_full_body f i = Ok ((t, w), b).
Proof.
  intros Hd Ht Hw. unfold parse_full_body, read_tracing_id, read_warnings in *.
  assert (Ht' : (if Flags.contains f Flags.TRACING
    then let* tracing_bytes := read_exact UUID_LEN in rret (decode_timeuuid tracing_bytes)
    else rret None) i = Ok (t, i')).
  { destruct Hd as [->|Hd]; [|rewrite Hd in *; by injection Ht as <- <-].
    rewrite bool_decide_true, andb_true_r in Ht by done.
    destruct (Flags.contains f Flags.TRACING); [|by injection Ht as <- <-]. unfold rbind, rret. destruct (read_exact UUID_LEN i) as [[tb j]| |]; [|done..].
    destruct (decode_timeuuid tb); [|done]. by injection Ht as <- <-. }
  rewrite (rbind_ok _ _ _ _ _ Ht'). unfold rbind, rret.
  destruct (Flags.contains f Flags.WARNING); [|by injection Hw as <- <-].
  destruct (from_cursor_string_list i') as [[l j]| |]; simpl in Hw; [by injection Hw as <- <-|done..].
Qed.

Lemma header_len_small data : header_envelope_len data < 2 ^ 63 -> ENVELOPE_HEADER_LEN <= header_envelope_len data ->
  0 <= swrap 32 (be_uint (slice 5 9 data)) /\
  header_envelope_len data = 9 + swrap 32 (be_uint (slice 5 9 data)).
Proof.
  unfold header_envelope_len, ENVELOPE_HEADER_LEN, as_usize.
  pose proof (swrap_range 32 (be_uint (slice 5 9 data)) ltac:(lia)) as [H1 H2].
  set (n := swrap 32 _) in *. intros H3 H4. destruct (Z_lt_le_dec n 0).
  - unfold wrap in *. rewrite Z.add_mod_idemp_r in * by lia.
    destruct (Z_lt_le_dec n (-9)).
    + rewrite <- (Z_mod_plus_full (9 + n) 1), Z.mod_small in H3 by lia. lia.
    + rewrite Z.mod_small in H4 by lia. lia.
  - unfold wrap in *. rewrite !(Z.mod_small n), !Z.mod_small in * by lia. lia.
Qed.

Lemma parse_raw_from_buffer c data p : zlen data < 2 ^ 63 -> from_buffer data c = Ok p ->
  direction (envelope p) = Response \/ Flags.contains (flags (envelope p)) Flags.TRACING = false ->
  parse_raw_envelope c data = Ok (envelope p, drop (Z.to_nat (envelope_len p)) data).
Proof.
  intros Hd H. pose proof (from_buffer_consumed _ _ _ H) as [Hr He].
  destruct (header_len_small data) as [Hn Hlen]; [lia|lia|].
  rewrite parse_raw_header by (unfold ENVELOPE_HEADER_LEN in *; lia).
  revert H. unfold from_buffer. rewrite <- He. rewrite !(proj2 (Z.ltb_ge _ _)) by lia.
  set (n := swrap 32 (be_uint (slice 5 9 data))) in *.
  destruct (Version_try_from (at_ 0 data)) as [v| |] eqn:Ev; [|done..].
  destruct (Opcode_try_from (at_ 4 data)) as [o| |] eqn:Eo; [|done..].
  cbn [map_err obind]. unfold parse_after_header. rewrite Ev, Eo.
  assert (Hs : slice 9 (Z.to_nat (envelope_len p)) data = take (Z.to_nat n) (drop 9 data)).
  { unfold slice. f_equal. lia. }
  rewrite Hs. fold n. rewrite as_usize_small by (pose proof (swrap_range 32 (be_uint (slice 5 9 data)) ltac:(lia)) as []; unfold in_u; lia).
  assert (Hl : (Z.to_nat n <= length (drop 9 data))%nat).
  { rewrite length_drop. unfold zlen in *. lia. }
  unfold rbind at 1 2 3 4, rlift at 1 2, with_capacity, read_exact at 1.
  rewrite (proj2 (Z.ltb_lt n (2 ^ 63))), (proj2 (Nat.leb_le _ _) Hl) by lia.
  destruct (Compression_decode _ _) as [fb| |]; [|done..]. cbn [map_err obind].
  destruct (read_tracing_id _ _ fb) as [[t i']| |] eqn:Et; [|done..]. cbn [obind].
  destruct (read_warnings _ i') as [[w b]| |] eqn:Ew; [|done..].
  cbn [obind]. intros Hp Hdir. assert (p = mkParsed (envelope_len p) (mkEnvelope v (Direction_from (at_ 0 data))
    (Flags.from_bits_truncate (at_ 1 data)) o (swrap 16 (be_uint (slice 2 4 data))) b t w)) as Hp' by congruence.
  rewrite Hp' in Hdir. cbn in Hdir. rewrite Hp'. cbn [envelope envelope_len].
  unfold rbind, rlift. rewrite (full_body_agrees _ _ _ _ _ _ _ Hdir Et Ew). cbn.
  unfold rret. do 2 f_equal. rewrite drop_drop. f_equal. lia.
Qed.


(** Reading the encoding of a response from the stream gives that
    response's envelope, with the flags written, and leaves the rest of the
    stream, except that an ERROR response comes back as the server error it
    carries, with the address of the node. *)
Theorem parse_envelope_result `{!HashIter bytes} `{!HashIter SocketAddr} e r c bs rest addr :
  wf_envelope e -> direction e = Response -> wf_response (version e) r ->
  opcode e = response_opcode r -> ResponseBody_serialize r = Ok (body e) ->
  encode_with e c = Ok bs -> zlen bs < 2 ^ 31 + 9 -> zlen (bs ++ rest) < 2 ^ 63 ->
  parse_envelope c addr (bs ++ rest) =
  match r with
  | RbError err => Err (EServer err addr)
  | _ => Ok (with_encoded_flags e c, rest)
  end.
Proof.
  intros He Hd Hr Ho Hb Hc Hl Hbig. unfold parse_envelope.
  pose proof (encode_decode e c bs rest He Hc Hl) as Hdec.
  pose proof (parse_raw_from_buffer c _ _ Hbig Hdec (or_introl Hd)) as Hp.
  rewrite (rbind_ok _ _ _ _ _ Hp). cbn [envelope envelope_len].
  assert (Hrest : drop (Z.to_nat (zlen bs)) (bs ++ rest) = rest).
  { unfold zlen. rewrite Nat2Z.id. apply drop_app_length. }
  rewrite Hrest. unfold rlift, convert_envelope_into_result.
  change (opcode (with_encoded_flags e c)) with (opcode e). rewrite Ho.
  destruct r; try done. by rewrite (response_body_envelope (with_encoded_flags e c) _ Hr Ho Hb).
Qed.
End Parser.

(** ** Witnesses *)

Module ParserSamples.
#[local] Existing Instances uuid_bytes stored_lz4 stored_snap.
#[local] Instance order : HashIter bytes := default_iter bytes.
#[local] Instance order_addr : HashIter SocketAddr := default_iter SocketAddr.

Definition error_body : bytes := ErrorBody_serialize ErrorSamples.failure.
Definition error_reply : Envelope := mkEnvelope V5 Response 0 OpError 9 error_body None [].
Definition error_bytes : bytes := match encode_with error_reply NoCompression with Ok b => b | _ => [] end.


Lemma parse_envelope_result_witness :
  parse_envelope NoCompression ErrorSamples.node (error_bytes ++ [u8 1])
  = Err (EServer ErrorSamples.failure ErrorSamples.node).
Proof.
  apply (parse_envelope_result error_reply (RbError ErrorSamples.failure) NoCompression error_bytes [u8 1]).
  - repeat split; by vm_compute.
  - reflexivity.
  - exact ErrorSamples.failure_wf.
  - reflexivity.
  - reflexivity.
  - by vm_compute.
  - by vm_compute.
  - by vm_compute.
Defined.
End ParserSamples.
