(* ===== verification/Transport.v ===== *)
(** * Stream multiplexing: [ResponseHandlerMap] of [cdrs-tokio/src/transport.rs]

    One connection carries many requests at once: each gets a stream id, its
    handler (the sending half of a oneshot channel) waits in a map under that
    id, and the response that carries the id is sent to the handler.  The
    writer registers requests and the reader answers them, in any
    interleaving; every operation holds the lock of the map (the stream ids
    come from the writer alone).  What becomes of each handler is recorded. *)

From S2P Require Import Prelude Types Wire Compression Envelope.
Local Open Scope Z_scope.
Local Open Scope cdrs_scope.

Definition INITIAL_STREAM_ID : Z := 1.

(** A oneshot sender, by the order of creation of its channel. *)
Definition handler : Type := nat.

(** ** [next_stream_id] *)

(** [fetch_add] wraps at 16 bits; ids below zero are skipped, except that the
    counter is put back to its initial value when nobody moved it since. *)
Fixpoint next_stream_id_loop (fuel : nat) (available_stream_id : Z) : option (Z * Z) :=
  match fuel with
  | O => None
  | S fuel' =>
    let stream := available_stream_id in
    let available_stream_id := swrap 16 (available_stream_id + 1) in
    if stream <? 0 then
      if available_stream_id =? stream then Some (INITIAL_STREAM_ID, INITIAL_STREAM_ID)
      else next_stream_id_loop fuel' available_stream_id
    else Some (stream, available_stream_id)
  end.
(** There are [2^15] negative ids to skip at most. *)
Definition next_stream_id_fuel : nat := Z.to_nat (2 ^ 15 + 1).

Section Handlers.
Context {U : UuidLib} `{!HashIter Z}.

(** What happened to a handler that left the map. *)
Inductive fate : Type := Sent (response : Result Envelope) | Dropped.

Record ResponseHandlerMap : Type := mkHandlers {
  stream_handlers : gmap Z handler;
  available_stream_id : Z;
  fates : list (handler * fate) }.

Definition ResponseHandlerMap_new : ResponseHandlerMap := mkHandlers ∅ INITIAL_STREAM_ID [].

Definition next_stream_id (m : ResponseHandlerMap) : option (Z * ResponseHandlerMap) :=
  match next_stream_id_loop next_stream_id_fuel (available_stream_id m) with
  | Some (stream, a) => Some (stream, mkHandlers (stream_handlers m) a (fates m))
  | None => None
  end.

(** Inserting under an id in use drops the handler that was there. *)
Definition add_handler (m : ResponseHandlerMap) (stream_id : Z) (h : handler) : ResponseHandlerMap :=
  mkHandlers (<[stream_id := h]> (stream_handlers m)) (available_stream_id m)
    (fates m ++ match stream_handlers m !! stream_id with Some old => [(old, Dropped)] | None => [] end).

Definition send_response (m : ResponseHandlerMap) (stream_id : Z) (response : Result Envelope)
  : Result unit * ResponseHandlerMap :=
  match stream_handlers m !! stream_id with
  | Some h => (Ok tt, mkHandlers (delete stream_id (stream_handlers m)) (available_stream_id m)
                        (fates m ++ [(h, Sent response)]))
  | None => (Err (EGeneral "Unmatched stream id: {stream_id}"), m)
  end.

Definition signal_general_error (m : ResponseHandlerMap) (error : Error) : ResponseHandlerMap :=
  mkHandlers ∅ (available_stream_id m)
    (fates m ++ map (fun kh => (kh.2, Sent (Err error))) (hm_iter (stream_handlers m))).

(** ** Interleavings of the writer and the reader *)

Inductive event : Type :=
| Requested (h : handler) (stream_id : Z)
| Responded (stream_id : Z) (response : Result Envelope)
| Failed (error : Error).

Inductive step : ResponseHandlerMap -> event -> ResponseHandlerMap -> Prop :=
| step_request m h stream_id m1 :
    next_stream_id m = Some (stream_id, m1) ->
    step m (Requested h stream_id) (add_handler m1 stream_id h)
| step_response m stream_id response :
    step m (Responded stream_id response) (send_response m stream_id response).2
| step_fail m error :
    step m (Failed error) (signal_general_error m error).

Inductive run : ResponseHandlerMap -> list event -> ResponseHandlerMap -> Prop :=
| run_nil m : run m [] m
| run_cons m e m1 es m2 : step m e m1 -> run m1 es m2 -> run m (e :: es) m2.

Fixpoint requested (es : list event) : list handler :=
  match es with
  | [] => []
  | Requested h _ :: es' => h :: requested es'
  | _ :: es' => requested es'
  end.
Fixpoint assigned (es : list event) : list Z :=
  match es with
  | [] => []
  | Requested _ sid :: es' => sid :: assigned es'
  | _ :: es' => assigned es'
  end.

Definition in_flight (m : ResponseHandlerMap) : list handler := (map_to_list (stream_handlers m)).*2.

(** ** Stream ids *)

Lemma next_loop_spec fuel a : in_i 16 a -> - a < Z.of_nat fuel ->
  (0 < fuel)%nat ->
  next_stream_id_loop fuel a = Some (Z.max a 0, swrap 16 (Z.max a 0 + 1)).
Proof.
  revert a. induction fuel as [|fuel IH]; intros a Ha Hf H0; [lia|]. cbn [next_stream_id_loop].
  unfold in_i in Ha. destruct (Z.ltb_spec a 0) as [Hn|Hp]; [|by rewrite Z.max_l by lia].
  rewrite swrap_small by (unfold in_i; lia). rewrite (proj2 (Z.eqb_neq _ _)) by lia.
  rewrite IH by (unfold in_i; lia). rewrite !Z.max_r by lia. done.
Qed.

(** The counter seen from the number of ids given out. *)
Definition nth_stream_id (n : Z) : Z := (1 + n) mod 2 ^ 15.
Definition counts (m : ResponseHandlerMap) (n : Z) : Prop :=
  in_i 16 (available_stream_id m) /\ Z.max (available_stream_id m) 0 = nth_stream_id n.

Lemma next_counter k : 0 <= k < 2 ^ 15 ->
  in_i 16 (swrap 16 (k + 1)) /\ Z.max (swrap 16 (k + 1)) 0 = (k + 1) mod 2 ^ 15.
Proof.
  intros Hk. split; [apply swrap_range; lia|]. destruct (Z.eq_dec k (2 ^ 15 - 1)) as [->|]; [done|].
  rewrite swrap_small by (unfold in_i; lia). rewrite Z.mod_small; lia.
Qed.

Lemma next_stream_id_spec m n : counts m n ->
  exists m1, next_stream_id m = Some (nth_stream_id n, m1) /\ counts m1 (n + 1) /\
    stream_handlers m1 = stream_handlers m /\ fates m1 = fates m.
Proof.
  intros [Ha Hn]. unfold next_stream_id.
  rewrite next_loop_spec by (unfold in_i, next_stream_id_fuel in *; lia).
  eexists. split; [by rewrite Hn|]. split; [|done]. unfold counts. cbn [available_stream_id].
  assert (Hr : 0 <= nth_stream_id n < 2 ^ 15) by (apply Z.mod_pos_bound; lia).
  destruct (next_counter _ Hr) as [H1 H2]. split; [done|]. rewrite H2.
  unfold nth_stream_id. rewrite Zplus_mod_idemp_l. f_equal. lia.
Qed.

Lemma counts_new : counts ResponseHandlerMap_new 0.
Proof. by split. Qed.

Lemma nth_stream_id_inj a b : nth_stream_id a = nth_stream_id b -> Z.abs (a - b) < 2 ^ 15 -> a = b.
Proof.
  unfold nth_stream_id. intros H Hab.
  assert (Hz : ((1 + a) - (1 + b)) mod 2 ^ 15 = 0) by (by rewrite Zminus_mod, H, Z.sub_diag).
  apply Z.mod_divide in Hz as [q Hq]; lia.
Qed.

(** ** Invariants of the interleavings *)

Lemma step_counts m e m' n : step m e m' -> counts m n ->
  counts m' (match e with Requested _ _ => n + 1 | _ => n end) /\
  (forall h sid, e = Requested h sid -> sid = nth_stream_id n).
Proof.
  destruct 1 as [m h sid m1 Hm|m sid r|m err]; intros Hc.
  - destruct (next_stream_id_spec m n Hc) as (m2 & Hm' & Hc' & _). rewrite Hm in Hm'.
    injection Hm' as -> ->. split; [exact Hc'|]. by intros ?? [= -> ->].
  - split; [|done]. unfold send_response. by destruct (stream_handlers m !! sid).
  - done.
Qed.

Lemma run_assigned m es m' n : run m es m' -> counts m n ->
  assigned es = map (fun k => nth_stream_id (n + Z.of_nat k)) (seq 0 (length (requested es))) /\
  counts m' (n + zlen (requested es)).
Proof.
  intros H. revert n. induction H as [m|m e m1 es m2 Hs _ IH]; intros n Hc.
  - simpl. by rewrite zlen_nil, Z.add_0_r.
  - destruct (step_counts _ _ _ _ Hs Hc) as [Hc1 Hid].
    destruct e as [h sid|sid r|err]; apply IH in Hc1 as [Ha Hc2]; try done.
    cbn [assigned requested length seq map]. rewrite (Hid _ _ eq_refl), Z.add_0_r, zlen_cons. split.
    + f_equal. rewrite Ha, <- seq_shift, map_map. apply map_ext. intros k. f_equal. lia.
    + by replace (n + (1 + zlen (requested es))) with (n + 1 + zlen (requested es)) by lia.
Qed.

Lemma in_flight_delete (m : gmap Z handler) sid h : m !! sid = Some h ->
  (map_to_list m).*2 ≡ₚ h :: (map_to_list (delete sid m)).*2.
Proof. intros E. by rewrite <- (map_to_list_delete m sid h E). Qed.

Lemma in_flight_insert (m : gmap Z handler) sid h :
  (map_to_list (<[sid := h]> m)).*2 ++ match m !! sid with Some old => [old] | None => [] end
  ≡ₚ h :: (map_to_list m).*2.
Proof.
  destruct (m !! sid) as [old|] eqn:E.
  - rewrite (in_flight_delete m sid old E).
    rewrite (in_flight_delete (<[sid := h]> m) sid h), delete_insert_eq by apply lookup_insert_eq.
    cbn [app]. by rewrite Permutation_app_comm.
  - rewrite map_to_list_insert by done. csimpl. by rewrite app_nil_r.
Qed.

(** Nothing is lost and nothing is made up: handlers move. *)
Lemma step_conserves m e m' : step m e m' ->
  in_flight m' ++ (fates m').*1 ≡ₚ requested [e] ++ in_flight m ++ (fates m).*1.
Proof.
  unfold in_flight. destruct 1 as [m h sid m1 Hm|m sid r|m err]; cbn [requested app].
  - assert (Hq : stream_handlers m1 = stream_handlers m /\ fates m1 = fates m).
    { unfold next_stream_id in Hm. case_match; [|done]. case_match. by injection Hm as <- <-. }
    destruct Hq as [H1 H2]. unfold add_handler. cbn [stream_handlers fates]. rewrite H1, H2, fmap_app.
    rewrite (Permutation_app_comm (fates m).*1), app_assoc.
    pose proof (in_flight_insert (stream_handlers m) sid h) as Hp.
    change (h :: (map_to_list (stream_handlers m)).*2 ++ (fates m).*1)
      with ((h :: (map_to_list (stream_handlers m)).*2) ++ (fates m).*1).
    rewrite <- Hp. by destruct (stream_handlers m !! sid).
  - unfold send_response. destruct (stream_handlers m !! sid) as [h|] eqn:E; [|done].
    cbn [snd stream_handlers fates]. rewrite (in_flight_delete _ _ _ E), fmap_app. csimpl.
    rewrite (Permutation_app_comm (fates m).*1). csimpl. by rewrite Permutation_middle.
  - unfold signal_general_error. cbn [stream_handlers fates]. rewrite map_to_list_empty. csimpl.
    rewrite fmap_app. rewrite Permutation_app_comm. f_equiv.
    rewrite <- (hm_iter_perm (stream_handlers m)) at 1.
    by rewrite <- list_fmap_compose.
Qed.

Lemma run_conserves m es m' : run m es m' ->
  in_flight m' ++ (fates m').*1 ≡ₚ requested es ++ in_flight m ++ (fates m).*1.
Proof.
  induction 1 as [m|m e m1 es m2 Hs _ IH]; [done|]. rewrite IH, (step_conserves _ _ _ Hs).
  destruct e; [|done..]. cbn [requested app]. symmetry. apply Permutation_middle.
Qed.

(** A handler stays under its id as long as the id is neither answered nor
    given out again. *)
Lemma handler_stays m es m' n k h : run m es m' -> counts m n ->
  stream_handlers m !! nth_stream_id k = Some h ->
  k < n -> n + zlen (requested es) <= k + 2 ^ 15 ->
  (forall r, ~ In (Responded (nth_stream_id k) r) es) -> (forall err, ~ In (Failed err) es) ->
  stream_handlers m' !! nth_stream_id k = Some h.
Proof.
  intros H. revert n. induction H as [m|m e m1 es m2 Hs _ IH]; intros n Hc Hk Hlt Hw Hr He; [done|].
  destruct (step_counts _ _ _ _ Hs Hc) as [Hc1 Hid].
  assert (Hz := zlen_nonneg (requested es)).
  assert (Hr' : forall r, ~ In (Responded (nth_stream_id k) r) es) by (intros r Hi; by apply (Hr r); right).
  assert (He' : forall err, ~ In (Failed err) es) by (intros r Hi; by apply (He r); right).
  inversion Hs as [? h' sid m1' Hm|? sid r|? err]; subst.
  - cbn [requested] in Hw. rewrite zlen_cons in Hw. apply (IH (n + 1)); try done; try lia.
    destruct (next_stream_id_spec m n Hc) as (m3 & Hm3 & _ & Hs3 & _). rewrite Hm in Hm3. injection Hm3 as -> ->.
    cbn [add_handler stream_handlers]. rewrite lookup_insert_ne; [by rewrite Hs3|].
    intros Heq. apply nth_stream_id_inj in Heq; lia.
  - apply (IH n); try done. unfold send_response. destruct (stream_handlers m !! sid) eqn:E; [|done].
    cbn [snd stream_handlers]. rewrite lookup_delete_ne; [done|]. intros ->. apply (Hr r). by left.
  - exfalso. apply (He err). by left.
Qed.

Lemma run_app m es1 es2 m' : run m (es1 ++ es2) m' <-> exists m1, run m es1 m1 /\ run m1 es2 m'.
Proof.
  split.
  - revert m. induction es1 as [|e es1 IH]; intros m H; [exists m; by split; [constructor|]|].
    inversion H as [|? ? m1 ? ? Hs Hr]; subst. apply IH in Hr as (m2 & H1 & H2).
    exists m2. split; [by econstructor|done].
  - intros (m1 & H1 & H2). induction H1; [done|]. econstructor; eauto.
Qed.

(** A successful response is sent under the stream id it carries. *)
Definition own_stream (ev : event) : Prop :=
  match ev with Responded stream_id (Ok e) => Envelope.stream_id e = stream_id | _ => True end.

(** After the requests [rs], the handlers wait under the ids given to them and
    were answered with envelopes that carry those ids. *)
Record own_ids (rs : list handler) (m : ResponseHandlerMap) : Prop := {
  oi_counts : counts m (zlen rs);
  oi_waiting : forall sid h, stream_handlers m !! sid = Some h ->
    exists k, rs !! k = Some h /\ sid = nth_stream_id (Z.of_nat k);
  oi_answered : forall h e, (h, Sent (Ok e)) ∈ fates m ->
    exists k, rs !! k = Some h /\ Envelope.stream_id e = nth_stream_id (Z.of_nat k) }.

Lemma step_own_ids m ev m' rs : step m ev m' -> own_stream ev -> own_ids rs m -> own_ids (rs ++ requested [ev]) m'.
Proof.
  intros Hs Ho [Hc Hw Ha]. destruct (step_counts _ _ _ _ Hs Hc) as [Hc' Hid].
  destruct Hs as [m h sid m1 Hm|m sid r|m err]; cbn [requested]; rewrite ?app_nil_r.
  - destruct (next_stream_id_spec _ _ Hc) as (m2 & Hm2 & _ & Hsh & Hf). rewrite Hm in Hm2. injection Hm2 as Hsid ->.
    assert (Hmono : forall k x, rs !! k = Some x -> (rs ++ [h]) !! k = Some x) by (intros; by apply lookup_app_l_Some).
    split; [by rewrite zlen_app|..]; cbn [add_handler stream_handlers fates]; rewrite ?Hsh, ?Hf.
    + intros sid' h' [[<- <-]|[_ (k & Hk & ->)%Hw]]%lookup_insert_Some; [|by eauto].
      exists (length rs). split; [by rewrite lookup_app_r, Nat.sub_diag by done|exact Hsid].
    + intros h' e [(k & Hk & He)%Ha|Hd]%elem_of_app; [by eauto|].
      destruct (stream_handlers m !! sid); [|set_solver]. by apply list_elem_of_singleton in Hd.
  - unfold send_response. destruct (stream_handlers m !! sid) as [h|] eqn:E; [|done]. cbn [snd].
    split; [done|..]; cbn [stream_handlers fates].
    + intros sid' h' [_ Hl]%lookup_delete_Some. by apply Hw.
    + intros h' e [Hin|[= <- <-]%list_elem_of_singleton]%elem_of_app; [by apply Ha|].
      cbn [own_stream] in Ho. destruct (Hw _ _ E) as (k & Hk & ->). by exists k.
  - split; [done|..]; cbn [signal_general_error stream_handlers fates].
    + intros sid h. by rewrite lookup_empty.
    + intros h e [Hin|Hin]%elem_of_app; [by apply Ha|].
      apply list_elem_of_fmap in Hin as (kh & Hkh & _). congruence.
Qed.

Lemma run_own_ids m es m' rs : run m es m' -> Forall own_stream es -> own_ids rs m -> own_ids (rs ++ requested es) m'.
Proof.
  intros Hr. revert rs. induction Hr as [m|m ev m1 es m2 Hs _ IH]; intros rs Hes Ho; [by rewrite app_nil_r|].
  apply Forall_cons in Hes as [He Hes]. apply (step_own_ids _ _ _ _ Hs He) in Ho. apply IH in Ho; [|done].
  rewrite <- app_assoc in Ho. by destruct ev.
Qed.

Lemma new_own_ids : own_ids [] ResponseHandlerMap_new.
Proof. split; [done| |]; cbn; intros; [by rewrite lookup_empty in *|set_solver]. Qed.

(** The state in which an event arrives after an unanswered request. *)
Lemma request_pending es1 h sid es2 e m :
  run ResponseHandlerMap_new (es1 ++ Requested h sid :: es2 ++ [e]) m ->
  zlen (requested es2) < 2 ^ 15 ->
  (forall r, ~ In (Responded sid r) es2) -> (forall err, ~ In (Failed err) es2) ->
  exists m2, sid = nth_stream_id (zlen (requested es1)) /\
    counts m2 (zlen (requested es1) + 1 + zlen (requested es2)) /\
    stream_handlers m2 !! sid = Some h /\ step m2 e m.
Proof.
  intros H Hw Hr He. apply run_app in H as (m1 & H1 & H). inversion H as [|? ? m1' ? ? Hs H']; subst.
  apply run_app in H' as (m2 & H2 & H3). inversion H3 as [|? ? m3 ? ? Hs3 Hn]; subst.
  inversion Hn; subst. exists m2.
  destruct (run_assigned _ _ _ 0 H1 counts_new) as [_ Hc]. rewrite Z.add_0_l in Hc.
  destruct (step_counts _ _ _ _ Hs Hc) as [Hc1 Hid]. specialize (Hid _ _ eq_refl) as ->.
  destruct (run_assigned _ _ _ _ H2 Hc1) as [_ Hc2]. split; [done|]. split; [done|]. split; [|done].
  apply (handler_stays m1' es2 m2 (zlen (requested es1) + 1) (zlen (requested es1)) h); try done; try lia.
  inversion Hs; subst. cbn [add_handler stream_handlers]. apply lookup_insert_eq.
Qed.

(** In every interleaving, choosing a stream id terminates and the
    [n]-th request of a connection (from 0) gets the id [(1 + n) mod 2^15]: ids
    are never negative and any [2^15] consecutive requests have distinct
    ids. *)
Theorem stream_ids_cycle es m :
  run ResponseHandlerMap_new es m ->
  (exists m', next_stream_id m = Some ((1 + zlen (requested es)) mod 2 ^ 15, m')) /\
  (forall k sid, assigned es !! k = Some sid -> sid = (1 + Z.of_nat k) mod 2 ^ 15 /\ 0 <= sid < 2 ^ 15) /\
  (forall k, NoDup (take (Z.to_nat (2 ^ 15)) (drop k (assigned es)))).
Proof.
  intros H. destruct (run_assigned _ _ _ 0 H counts_new) as [Ha Hc]. rewrite Z.add_0_l in Hc.
  assert (Hk : forall k sid, assigned es !! k = Some sid -> sid = nth_stream_id (Z.of_nat k)).
  { intros k sid. rewrite Ha, list_lookup_fmap_Some. intros (j & -> & Hj).
    apply lookup_seq in Hj as [-> _]. done. }
  split; [destruct (next_stream_id_spec m _ Hc) as (m' & Hm & _); eauto|]. split.
  - intros k sid ->%Hk. split; [done|]. apply Z.mod_pos_bound. lia.
  - intros k. apply NoDup_alt. intros i j x Hi Hj.
    pose proof (lookup_lt_Some _ _ _ Hi) as Li. pose proof (lookup_lt_Some _ _ _ Hj) as Lj.
    rewrite length_take in Li, Lj. rewrite lookup_take_lt in Hi, Hj by lia.
    rewrite lookup_drop in Hi, Hj. apply Hk in Hi. apply Hk in Hj. rewrite Hi in Hj.
    apply nth_stream_id_inj in Hj; lia.
Qed.

(** In every interleaving of requests, responses (matched or not)
    and failures, every handler registered is either still waiting or met
    exactly one fate: no handler is answered twice, lost without trace or
    made up. *)
Theorem handlers_answered_once es m :
  run ResponseHandlerMap_new es m ->
  requested es ≡ₚ in_flight m ++ (fates m).*1 /\
  (NoDup (requested es) -> NoDup (in_flight m ++ (fates m).*1)).
Proof.
  intros H. apply run_conserves in H. change (in_flight ResponseHandlerMap_new) with (@nil handler) in H.
  cbn [ResponseHandlerMap_new fates] in H. rewrite !app_nil_r in H.
  split; [by symmetry|]. by rewrite H.
Qed.

(** C9: the first response with the stream id of a request goes to the
    handler of that request, however requests and responses of other
    streams interleave, as long as fewer than [2^15] requests were made
    meanwhile. *)
Theorem response_reaches_requester es1 h sid es2 r m :
  run ResponseHandlerMap_new (es1 ++ Requested h sid :: es2 ++ [Responded sid r]) m ->
  zlen (requested es2) < 2 ^ 15 ->
  (forall r', ~ In (Responded sid r') es2) -> (forall err, ~ In (Failed err) es2) ->
  last (fates m) = Some (h, Sent r) /\ stream_handlers m !! sid = None.
Proof.
  intros H Hw Hr He. destruct (request_pending _ _ _ _ _ _ H Hw Hr He) as (m2 & _ & _ & Hh & Hs).
  inversion Hs; subst. unfold send_response. rewrite Hh. cbn [snd fates stream_handlers].
  split; [apply last_snoc|apply lookup_delete_eq].
Qed.

(** When [2^15 - 1] requests were made since an unanswered
    one, the next request takes its stream id and its handler is dropped
    without a response, although other ids may be free. *)
Theorem stream_id_reuse_drops es1 h sid es2 h' sid' m :
  run ResponseHandlerMap_new (es1 ++ Requested h sid :: es2 ++ [Requested h' sid']) m ->
  zlen (requested es2) = 2 ^ 15 - 1 ->
  (forall r, ~ In (Responded sid r) es2) -> (forall err, ~ In (Failed err) es2) ->
  sid' = sid /\ last (fates m) = Some (h, Dropped) /\ stream_handlers m !! sid = Some h'.
Proof.
  intros H Hw Hr He. destruct (request_pending _ _ _ _ _ _ H ltac:(lia) Hr He) as (m2 & Hsid & Hc & Hh & Hs).
  destruct (step_counts _ _ _ _ Hs Hc) as [_ Hid]. specialize (Hid _ _ eq_refl).
  assert (sid' = sid) as ->.
  { rewrite Hid, Hsid, Hw. unfold nth_stream_id.
    replace (1 + (zlen (requested es1) + 1 + (2 ^ 15 - 1))) with (1 + zlen (requested es1) + 1 * 2 ^ 15) by lia.
    apply Z_mod_plus_full. }
  split; [done|]. inversion Hs as [? ? ? m3 Hm| |]; subst.
  destruct (next_stream_id_spec _ _ Hc) as (m4 & Hm4 & _ & Hs4 & _). rewrite Hm in Hm4.
  assert (m3 = m4) as -> by congruence. cbn [add_handler fates stream_handlers]. rewrite Hs4, Hh.
  split; [apply last_snoc|apply lookup_insert_eq].
Qed.
End Handlers.

(** ** Witnesses *)

Module TransportSamples.
#[local] Existing Instance uuid_bytes.
#[local] Instance order : HashIter Z := default_iter Z.

(** Any sequence of requests can be made. *)
Definition requests (n : Z) (k : nat) : list event :=
  map (fun i => Requested i (nth_stream_id (n + Z.of_nat i))) (seq 0 k).
Lemma requests_S n k : requests n (S k) = requests n k ++ [Requested k (nth_stream_id (n + Z.of_nat k))].
Proof. unfold requests. by rewrite seq_S, map_app. Qed.
Lemma requested_requests n k : requested (requests n k) = seq 0 k.
Proof. unfold requests. induction (seq 0 k) as [|x l IH]; [done|]. cbn [map requested]. by rewrite IH. Qed.
Lemma requests_run m n k : counts m n -> exists m', run m (requests n k) m' /\ counts m' (n + Z.of_nat k).
Proof.
  intros Hc. induction k as [|k (m' & Hr & Hc')].
  - exists m. rewrite Z.add_0_r. split; [constructor|done].
  - destruct (next_stream_id_spec m' _ Hc') as (m1 & Hm & Hc1 & _).
    exists (add_handler m1 (nth_stream_id (n + Z.of_nat k)) k).
    split; [|by replace (n + Z.of_nat (S k)) with (n + Z.of_nat k + 1) by lia].
    rewrite requests_S. apply run_app. exists m'. split; [done|].
    econstructor; [by constructor|constructor].
Qed.
Lemma requests_only n k e : In e (requests n k) -> exists h sid, e = Requested h sid.
Proof. unfold requests. intros (i & <- & _)%in_map_iff. eauto. Qed.

Definition answer : Result Envelope := Err (EGeneral "answer").

Lemma answered_run : exists m,
  run ResponseHandlerMap_new ([] ++ Requested 7%nat 1 :: [Requested 8%nat 2] ++ [Responded 1 answer]) m.
Proof. eexists. repeat econstructor. Qed.

Lemma stream_ids_cycle_witness : exists m,
  run ResponseHandlerMap_new (requests 0 3) m /\
  (exists m', next_stream_id m = Some (4, m')) /\
  forall k, NoDup (take (Z.to_nat (2 ^ 15)) (drop k (assigned (requests 0 3)))).
Proof.
  destruct (requests_run _ 0 3 counts_new) as (m & Hr & _). exists m.
  destruct (stream_ids_cycle _ _ Hr) as (H1 & _ & H3). by split; [|split].
Defined.

Lemma handlers_answered_once_witness : exists m,
  run ResponseHandlerMap_new [Requested 7%nat 1; Requested 8%nat 2; Responded 1 answer] m /\
  NoDup (in_flight m ++ (fates m).*1).
Proof.
  destruct answered_run as [m Hr]. exists m. split; [exact Hr|].
  apply (handlers_answered_once _ _ Hr). repeat constructor; set_solver.
Defined.

Lemma response_reaches_requester_witness : exists m,
  last (fates m) = Some (7%nat, Sent answer) /\ stream_handlers m !! 1 = None.
Proof.
  destruct answered_run as [m Hr]. exists m.
  apply (response_reaches_requester [] 7%nat 1 [Requested 8%nat 2] answer m Hr); [done|..];
    intros ? [?|[]]; discriminate.
Defined.

Lemma stream_id_reuse_drops_witness : exists m,
  1 = 1 /\ last (fates m) = Some (7%nat, Dropped) /\ stream_handlers m !! 1 = Some 9%nat.
Proof.
  destruct (next_stream_id_spec _ _ counts_new) as (m1 & Hm1 & Hc1 & _).
  destruct (requests_run (add_handler m1 1 7%nat) 1 (Z.to_nat (2 ^ 15 - 1)) Hc1) as (m2 & Hr & Hc2).
  destruct (next_stream_id_spec _ _ Hc2) as (m3 & Hm3 & _).
  rewrite Z2Nat.id in Hm3 by lia. exists (add_handler m3 1 9%nat).
  apply (stream_id_reuse_drops [] 7%nat 1 (requests 1 (Z.to_nat (2 ^ 15 - 1))) 9%nat 1).
  - cbn [app]. econstructor; [by constructor|]. apply run_app. exists m2. split; [done|].
    econstructor; [by constructor|constructor].
  - rewrite requested_requests. unfold zlen. rewrite length_seq. lia.
  - intros r (h & sid & ?)%requests_only. done.
  - intros r (h & sid & ?)%requests_only. done.
Defined.
End TransportSamples.
