(* ===== verification/Writer.v ===== *)
(** * The writing side: [start_writing] of [cdrs-tokio/src/transport.rs]

    Requests wait in a channel; the writer takes as many as are ready, gives
    each a stream id, registers its handler and collects them in frames, and
    writes the frames out.  A [batch] is the request that woke the writer up
    and those [try_recv] gave before it found the channel empty. *)

From S2P Require Import Prelude Types Wire Compression Crc Envelope Frame FrameStream Transport.
Local Open Scope Z_scope.
Local Open Scope cdrs_scope.

(** The write half of the socket. *)
Class AsyncWrite (W : Type) : Type := {
  write_all : W -> bytes -> W * option io_kind;
  flush : W -> W * option io_kind }.

Record RequestMsg : Type := mkRequestMsg { rq_data : bytes; rq_handler : handler; rq_handshake : bool }.

(** [self.data[2..4].copy_from_slice(..)] *)
Definition set_stream_id (data : bytes) (stream_id : Z) : Result bytes :=
  if (4 <=? length data)%nat then Ok (take 2 data ++ be_bytes 2 stream_id ++ drop 4 data) else Panic.

Section Writing.
Context {U : UuidLib} {E : Type} `{!FrameEncoder E} {W : Type} `{!AsyncWrite W}.

Record Writer : Type := mkWriter {
  frame_encoder : E;
  write_half : W;
  response_handler_map : ResponseHandlerMap;
  frame_stream_ids : list Z }.

(** A step of the task: a result and the state it leaves. *)
Definition WM (A : Type) : Type := Writer -> Result A * Writer.
Definition wret {A} (a : A) : WM A := fun s => (Ok a, s).
Definition wbind {A B} (m : WM A) (f : A -> WM B) : WM B := fun s =>
  match m s with
  | (Ok a, s') => f a s'
  | (Err e, s') => (Err e, s')
  | (Panic, s') => (Panic, s')
  end.
Definition wfail {A} (r : Result A) : WM A := fun s => (r, s).

Definition set_encoder (e : E) : WM unit := fun s =>
  (Ok tt, mkWriter e (write_half s) (response_handler_map s) (frame_stream_ids s)).
Definition write_bytes (b : bytes) : WM (option io_kind) := fun s =>
  let '(w, r) := write_all (write_half s) b in
  (Ok r, mkWriter (frame_encoder s) w (response_handler_map s) (frame_stream_ids s)).
Definition flush_half : WM (option io_kind) := fun s =>
  let '(w, r) := flush (write_half s) in
  (Ok r, mkWriter (frame_encoder s) w (response_handler_map s) (frame_stream_ids s)).
Definition respond (stream_id : Z) (response : Result Envelope) : WM unit := fun s =>
  let '(r, h) := send_response (response_handler_map s) stream_id response in
  (r, mkWriter (frame_encoder s) (write_half s) h (frame_stream_ids s)).

(** [drain(..).map(send_response).try_collect()]: stops at the first error;
    the drained ids are gone either way. *)
Fixpoint send_errors (h : ResponseHandlerMap) (ids : list Z) (error : Error) : Result unit * ResponseHandlerMap :=
  match ids with
  | [] => (Ok tt, h)
  | stream_id :: ids' =>
    match send_response h stream_id (Err error) with
    | (Ok _, h) => send_errors h ids' error
    | (Err e, h) => (Err e, h)
    | (Panic, h) => (Panic, h)
    end
  end.
Definition notify_error_handlers (error : Error) : WM unit := fun s =>
  let '(r, h) := send_errors (response_handler_map s) (frame_stream_ids s) error in
  (r, mkWriter (frame_encoder s) (write_half s) h []).

(** A failed write is reported to the handlers of the frame, and the writer
    goes on. *)
Definition write_frame (frame : bytes) : WM unit :=
  wbind (write_bytes frame) (fun r =>
    match r with
    | Some error => notify_error_handlers (EIo error)
    | None => wret tt
    end).

Definition write_self_contained_frame : WM unit := fun s =>
  let '(e, frame) := finalize_self_contained (frame_encoder s) in
  wbind (set_encoder e) (fun _ =>
  wbind (write_frame frame) (fun _ s =>
  set_encoder (reset (frame_encoder s)) s)) s.

(** [while data_start < data_len]; every round sends at least a byte. *)
Fixpoint write_pieces (fuel : nat) (data : bytes) : WM unit := fun s =>
  match data with
  | [] => (Ok tt, s)
  | _ =>
    match fuel with
    | O => (Panic, s)
    | S fuel' =>
      match finalize_non_self_contained (frame_encoder s) data with
      | Ok (e, (data_start_offset, frame)) =>
        wbind (set_encoder e) (fun _ =>
        wbind (write_frame frame) (fun _ s =>
        wbind (set_encoder (reset (frame_encoder s))) (fun _ =>
        write_pieces fuel' (drop (Z.to_nat data_start_offset) data)) s)) s
      | Err err => (Err err, s)
      | Panic => (Panic, s)
      end
    end
  end.

(** The loop that finds room for an envelope: flush what was collected,
    then it fits or goes out in pieces. *)
Fixpoint place_envelope (fuel : nat) (data : bytes) : WM unit := fun s =>
  match fuel with
  | O => (Panic, s)
  | S fuel' =>
    if can_fit (frame_encoder s) (zlen data) then set_encoder (add_envelope (frame_encoder s) data) s
    else if has_envelopes (frame_encoder s)
    then wbind write_self_contained_frame (fun _ => place_envelope fuel' data) s
    else write_pieces (length data) data s
  end.

Definition write_request (request : RequestMsg) : WM unit := fun s =>
  match next_stream_id (response_handler_map s) with
  | None => (Panic, s)
  | Some (stream_id, h) =>
    let s := mkWriter (frame_encoder s) (write_half s) h (frame_stream_ids s ++ [stream_id]) in
    match set_stream_id (rq_data request) stream_id with
    | Ok data =>
      let s := mkWriter (frame_encoder s) (write_half s)
                 (add_handler (response_handler_map s) stream_id (rq_handler request)) (frame_stream_ids s) in
      if rq_handshake request then
        wbind (write_bytes data) (fun r =>
          match r with
          | Some error =>
            wbind (respond stream_id (Err (EIo error))) (fun _ =>
            wfail (Err (EGeneral "Write channel failure!")))
          | None => wret tt
          end) s
      else place_envelope 2 data s
    | Err e => (Err e, s)
    | Panic => (Panic, s)
    end
  end.

Definition finish_batch : WM unit := fun s =>
  wbind (if has_envelopes (frame_encoder s) then write_self_contained_frame else wret tt) (fun _ =>
  wbind flush_half (fun r =>
    match r with
    | Some error =>
      wbind (notify_error_handlers (EIo error)) (fun _ =>
      wfail (Err (EGeneral "Write channel failure!")))
    | None => wret tt
    end)) s.

Fixpoint write_batch (requests : list RequestMsg) : WM unit :=
  match requests with
  | [] => finish_batch
  | request :: more => wbind (write_request request) (fun _ => write_batch more)
  end.

(** The outer loop, until the channel is closed.  A batch is not empty. *)
Fixpoint start_writing (batches : list (RequestMsg * list RequestMsg)) : WM unit := fun s =>
  match batches with
  | [] => (Ok tt, s)
  | (request, more) :: batches' =>
    wbind (write_batch (request :: more)) (fun _ => start_writing batches')
      (mkWriter (frame_encoder s) (write_half s) (response_handler_map s) [])
  end.
End Writing.
Arguments Writer {_} _ _.

(** [AsyncTransport::write_envelope]: the request it puts in the channel. *)
Definition envelope_request `{UuidLib} `{Lz4Lib} `{SnapLib} (compression : Compression) (e : Envelope)
    (h : handler) (handshake : bool) : Result RequestMsg :=
  let? data := if handshake then encode_with e NoCompression else encode_with e compression in
  Ok (mkRequestMsg data h handshake).

(** ** What the writer asks of an encoder *)

(** [is_frame fr sc p]: the bytes [fr] are a frame, self-contained or not,
    with payload [p]. *)
Class WriterEncoder (E : Type) `{!FrameEncoder E} (is_frame : bytes -> bool -> bytes -> Prop) : Type := {
  collects : E -> bytes -> Prop;
  built : E -> Prop;
  collects_add : forall e p b, collects e p -> can_fit e (zlen b) = true -> collects (add_envelope e b) (p ++ b);
  collects_has : forall e p, collects e p -> has_envelopes e = negb (bytes_is_empty p);
  collects_finalize : forall e p, collects e p -> p <> [] ->
    built (finalize_self_contained e).1 /\ is_frame (finalize_self_contained e).2 true p;
  (** Where an envelope can be too large, any envelope can be sent in pieces. *)
  collects_pieces : forall e0 (b0 : bytes), collects e0 [] -> can_fit e0 (zlen b0) = false ->
    forall e b, collects e [] -> b <> [] ->
    exists e' n fr, finalize_non_self_contained e b = Ok (e', (n, fr)) /\ built e' /\
      0 < n <= zlen b /\ is_frame fr false (take (Z.to_nat n) b);
  built_reset : forall e, built e -> collects (reset e) [] }.

(** The v5 encoders. *)
#[export] Program Instance v5_WriterEncoder {E} `{!FrameEncoder E} try_decode `{!EncoderLaws E try_decode} :
    WriterEncoder E (Framed try_decode) := {| collects := holds; built := finalized |}.
Next Obligation. intros. by apply holds_add. Qed.
Next Obligation. intros. by apply holds_has. Qed.
Next Obligation. intros. by apply finalize_self_contained_ok. Qed.
Next Obligation.
  intros E FE td L e0 b0 He0 Hf e b He Hb. destruct (finalize_non_self_contained_ok e b) as (e' & n & fr & H1 & H2 & H3 & _ & _ & H4); [done..|].
  by exists e', n, fr.
Qed.
Next Obligation. intros. by apply reset_ok. Qed.

(** The legacy encoder: a frame is one envelope as it is. *)
Definition legacy_frame (fr : bytes) (sc : bool) (p : bytes) : Prop := sc = true /\ fr = p.
#[export] Program Instance legacy_WriterEncoder : WriterEncoder LegacyFrameEncoder legacy_frame := {|
  collects e p := le_buffer e = p; built e := True |}.
Next Obligation. intros [b0] p b Hp Hf. simpl in *. destruct b0; [|done]. by subst. Qed.
Next Obligation. intros [b0] p Hp. simpl in *. by subst. Qed.
Next Obligation. intros [b0] p Hp Hne. by simpl in *. Qed.
Next Obligation. intros [b0] b Hp Hf. simpl in *. by subst. Qed.
Next Obligation. done. Qed.

(** A write half that never fails, and what reached the socket. *)
Class ReliableWrite (W : Type) `{!AsyncWrite W} : Type := {
  written : W -> bytes;
  write_all_ok : forall w b, exists w', write_all w b = (w', None) /\ written w' = written w ++ b;
  flush_ok : forall w, exists w', flush w = (w', None) /\ written w' = written w }.

(** ** What was sent *)

(** A self-contained frame of whole envelopes, or one envelope in pieces. *)
Inductive sent : Type := Together (ds : list bytes) | Split (d : bytes) (pieces : list bytes).
Definition sent_payloads (c : sent) : list (bool * bytes) :=
  match c with Together ds => [(true, concat ds)] | Split _ ps => map (pair false) ps end.
Definition sent_envelopes (c : sent) : list bytes :=
  match c with Together ds => ds | Split d _ => [d] end.
Section WriterProofs.
Context {U : UuidLib} {E : Type} `{!FrameEncoder E} {W : Type} `{!AsyncWrite W}.
Context (is_frame : bytes -> bool -> bytes -> Prop) `{!WriterEncoder E is_frame} `{!ReliableWrite W} `{!HashIter Z}.

(** Only an envelope that an empty encoder refuses is sent in pieces. *)
Definition sent_ok (c : sent) : Prop :=
  match c with
  | Together ds => ds <> []
  | Split d ps => concat ps = d /\ ps <> [] /\ exists e, collects e [] /\ can_fit e (zlen d) = false
  end.

(** The frames written so far, what they carry, and the envelopes collected
    for the next one. *)
Definition wrote (s0 s : Writer E W) (cs : list sent) (pend : list bytes) : Prop :=
  Forall sent_ok cs /\ Forall (fun d => d <> []) pend /\ collects (frame_encoder s) (concat pend) /\
  exists fs, Forall (fun f => is_frame f.1 f.2.1 f.2.2) fs /\ fs.*2 = concat (sent_payloads <$> cs) /\
    written (write_half s) = written (write_half s0) ++ concat fs.*1.

Lemma write_frame_ok frame (s : Writer E W) : exists w',
  write_frame frame s = (Ok tt, mkWriter (frame_encoder s) w' (response_handler_map s) (frame_stream_ids s)) /\
  written w' = written (write_half s) ++ frame.
Proof.
  destruct (write_all_ok (write_half s) frame) as (w' & Hw & Hb). exists w'.
  unfold write_frame, wbind, write_bytes. by rewrite Hw.
Qed.

Lemma concat_pend_nonempty (pend : list bytes) : Forall (fun d => d <> []) pend -> pend <> [] -> concat pend <> [].
Proof. destruct 1 as [|d ds Hd]; [done|]. intros _ Hx. simpl in Hx. by apply app_eq_nil in Hx as [? _]. Qed.

Lemma wrote_has s0 s cs pend : wrote s0 s cs pend ->
  has_envelopes (frame_encoder s) = true <-> pend <> [].
Proof.
  intros (_ & Hp & Hc & _). rewrite (collects_has _ _ Hc). destruct pend as [|d ds]; [by simpl|].
  pose proof (concat_pend_nonempty _ Hp ltac:(done)) as Hne. by destruct (concat (d :: ds)).
Qed.

(** Flushing the frame under construction. *)
Lemma write_self_contained_ok s0 s cs pend : wrote s0 s cs pend -> pend <> [] ->
  exists s', write_self_contained_frame s = (Ok tt, s') /\ wrote s0 s' (cs ++ [Together pend]) [] /\
    response_handler_map s' = response_handler_map s.
Proof.
  intros (Hcs & Hp & Hc & fs & Hfs & Hpay & Hw) Hne.
  destruct (collects_finalize _ _ Hc (concat_pend_nonempty _ Hp Hne)) as [Hb Hf].
  unfold write_self_contained_frame. destruct (finalize_self_contained (frame_encoder s)) as [e fr].
  cbn [fst snd] in *. unfold wbind at 1, set_encoder at 1.
  destruct (write_frame_ok fr (mkWriter e (write_half s) (response_handler_map s) (frame_stream_ids s)))
    as (w' & Hwf & Hw'). unfold wbind. rewrite Hwf. eexists. split; [done|]. split; [|done].
  split; [apply Forall_app; by split; [|constructor]|]. split; [done|]. split; [by apply built_reset|].
  exists (fs ++ [(fr, (true, concat pend))]). split; [apply Forall_app; by split; [|constructor]|].
  rewrite !fmap_app, !concat_app, Hpay. cbn [write_half]. rewrite Hw'. cbn [write_half]. rewrite Hw.
  split; [done|]. cbn. by rewrite app_nil_r, app_assoc.
Qed.

(** Sending an envelope in pieces; every piece takes bytes. *)
Lemma write_pieces_ok e0 (b0 : bytes) fuel : collects e0 [] -> can_fit e0 (zlen b0) = false ->
  forall data (s : Writer E W), (length data <= fuel)%nat -> collects (frame_encoder s) [] ->
  exists s' ps frs, write_pieces fuel data s = (Ok tt, s') /\ concat ps = data /\ (data <> [] -> ps <> []) /\
    Forall2 (fun fr p => is_frame fr false p) frs ps /\
    written (write_half s') = written (write_half s) ++ concat frs /\
    collects (frame_encoder s') [] /\ response_handler_map s' = response_handler_map s.
Proof.
  intros He0 Hb0. induction fuel as [|fuel IH]; intros data s Hl Hc.
  - destruct data; [|simpl in Hl; lia]. exists s, [], []. simpl. rewrite app_nil_r. by repeat split.
  - destruct data as [|x data].
    { exists s, [], []. simpl. rewrite app_nil_r. by repeat split. }
    destruct (collects_pieces e0 b0 He0 Hb0 (frame_encoder s) (x :: data) Hc ltac:(done))
      as (e & n & fr & Hf & Hb & Hn & Hfr). cbn [write_pieces]. rewrite Hf.
    unfold wbind at 1, set_encoder at 1.
    destruct (write_frame_ok fr (mkWriter e (write_half s) (response_handler_map s) (frame_stream_ids s)))
      as (w' & Hwf & Hw'). unfold wbind at 1. rewrite Hwf. unfold wbind at 1, set_encoder at 1.
    cbn [frame_encoder write_half response_handler_map frame_stream_ids] in *.
    set (s1 := mkWriter (reset e) w' (response_handler_map s) (frame_stream_ids s)).
    destruct (IH (drop (Z.to_nat n) (x :: data)) s1) as (s' & ps & frs & H1 & H2 & _ & H4 & H5 & H6 & H7).
    { rewrite length_drop. unfold zlen in Hn. simpl in *. lia. }
    { by apply built_reset. }
    exists s', (take (Z.to_nat n) (x :: data) :: ps), (fr :: frs). split; [exact H1|].
    split; [cbn [concat]; rewrite H2; apply take_drop|]. split; [done|]. split; [by constructor|].
    rewrite H5, H7. subst s1. cbn [write_half response_handler_map concat]. by rewrite Hw', <- app_assoc.
Qed.

Lemma wrote_pieces s0 s cs data ps frs s' : wrote s0 s cs [] ->
  concat ps = data -> ps <> [] -> (exists e, collects e [] /\ can_fit e (zlen data) = false) ->
  Forall2 (fun fr p => is_frame fr false p) frs ps ->
  written (write_half s') = written (write_half s) ++ concat frs -> collects (frame_encoder s') [] ->
  wrote s0 s' (cs ++ [Split data ps]) [].
Proof.
  intros (Hcs & _ & _ & fs & Hfs & Hpay & Hw) Hd Hps Hex Hfr Hw' Hc.
  split; [apply Forall_app; by split; [|constructor]|]. split; [done|]. split; [done|].
  exists (fs ++ zip_with (fun fr p => (fr, (false, p))) frs ps).
  rewrite !fmap_app, !concat_app, Hpay, Hw', Hw. cbn [fmap list_fmap concat sent_payloads]. rewrite app_nil_r.
  assert (Hz : Forall (fun f => is_frame f.1 f.2.1 f.2.2) (zip_with (fun fr p => (fr, (false, p))) frs ps) /\
    (zip_with (fun fr p => (fr, (false, p))) frs ps).*2 = map (pair false) ps /\
    (zip_with (fun fr p => (fr, (false, p))) frs ps).*1 = frs).
  { clear -Hfr. induction Hfr as [|fr p frs ps Hf _ (IH1 & IH2 & IH3)]; [done|].
    cbn [zip_with fmap list_fmap map fst snd]. rewrite IH3. split; [by constructor|]. split; [|done].
    f_equal. exact IH2. }
  destruct Hz as (Hz1 & Hz2 & Hz3). split; [by apply Forall_app|]. split; [by rewrite Hz2|].
  by rewrite Hz3, app_assoc.
Qed.

(** Finding room for an envelope: what was collected before it goes out
    before it or with it. *)
Lemma place_envelope_ok s0 s cs pend data : wrote s0 s cs pend -> data <> [] ->
  exists s' cs' pend', place_envelope 2 data s = (Ok tt, s') /\ wrote s0 s' (cs ++ cs') pend' /\
    concat (map sent_envelopes cs') ++ pend' = pend ++ [data] /\
    response_handler_map s' = response_handler_map s.
Proof.
  intros Hw Hd.
  assert (Hplace : forall fuel s1 cs1, wrote s0 s1 cs1 [] ->
    exists s' cs' pend', place_envelope (S fuel) data s1 = (Ok tt, s') /\ wrote s0 s' (cs1 ++ cs') pend' /\
      concat (map sent_envelopes cs') ++ pend' = [data] /\
      response_handler_map s' = response_handler_map s1).
  { intros fuel s1 cs1 Hw1. cbn [place_envelope].
    destruct (can_fit (frame_encoder s1) (zlen data)) eqn:Hf.
    - exists (set_encoder (add_envelope (frame_encoder s1) data) s1).2, [], [data]. split; [done|].
      rewrite app_nil_r. split; [|done]. destruct Hw1 as (H1 & H2 & H3 & H4).
      split; [done|]. split; [by constructor|]. split; [|done]. cbn. rewrite app_nil_r.
      change data with ([] ++ data). by apply collects_add.
    - assert (Hno : has_envelopes (frame_encoder s1) = false).
      { apply not_true_iff_false. intros Hx. by apply (wrote_has _ _ _ _ Hw1) in Hx. }
      rewrite Hno. pose proof Hw1 as (_ & _ & Hc & _). simpl in Hc.
      destruct (write_pieces_ok _ data (length data) Hc Hf data s1 (Nat.le_refl _) Hc)
        as (s' & ps & frs & H1 & H2 & H3 & H4 & H5 & H6 & H7).
      exists s', [Split data ps], []. split; [done|]. split; [by eapply wrote_pieces; eauto|done]. }
  destruct pend as [|d0 pend0].
  { destruct (Hplace 1%nat s cs Hw) as (s' & cs' & pend' & H1 & H2 & H3 & H4). by exists s', cs', pend'. }
  set (pend := d0 :: pend0) in *. cbn [place_envelope].
  destruct (can_fit (frame_encoder s) (zlen data)) eqn:Hf.
  - exists (set_encoder (add_envelope (frame_encoder s) data) s).2, [], (pend ++ [data]). split; [done|].
    rewrite app_nil_r. split; [|done]. destruct Hw as (H1 & H2 & H3 & H4).
    split; [done|]. split; [apply Forall_app; by split; [|constructor]|]. split; [|done].
    rewrite concat_app. cbn. rewrite app_nil_r. by apply collects_add.
  - rewrite (proj2 (wrote_has _ _ _ _ Hw) ltac:(done)).
    destruct (write_self_contained_ok _ _ _ _ Hw ltac:(done)) as (s1 & H1 & Hw1 & Hh1).
    unfold wbind. rewrite H1.
    destruct (Hplace 0%nat s1 _ Hw1) as (s' & cs' & pend' & H2 & H3 & H4 & H5).
    exists s', (Together pend :: cs'), pend'. split; [done|]. split; [by rewrite <- app_assoc in H3|].
    split; [|by rewrite H5]. cbn [map concat sent_envelopes]. by rewrite <- app_assoc, H4.
Qed.

(** What a request looks like on the wire, and what it does to the map. *)
Definition stamped (data : bytes) (stream_id : Z) : bytes := take 2 data ++ be_bytes 2 stream_id ++ drop 4 data.
Fixpoint stamps (n : Z) (rs : list RequestMsg) : list bytes :=
  match rs with [] => [] | r :: rs' => stamped (rq_data r) (nth_stream_id n) :: stamps (n + 1) rs' end.
Fixpoint request_events (n : Z) (rs : list RequestMsg) : list event :=
  match rs with [] => [] | r :: rs' => Requested (rq_handler r) (nth_stream_id n) :: request_events (n + 1) rs' end.
Definition sendable (r : RequestMsg) : Prop := rq_handshake r = false /\ 4 <= zlen (rq_data r).

Lemma stamps_app n a b : stamps n (a ++ b) = stamps n a ++ stamps (n + zlen a) b.
Proof.
  revert n. induction a as [|r a IH]; intros n; cbn [app stamps]; [by rewrite zlen_nil, Z.add_0_r|].
  rewrite IH, zlen_cons. cbn [app]. do 3 f_equal. lia.
Qed.
Lemma request_events_app n a b : request_events n (a ++ b) = request_events n a ++ request_events (n + zlen a) b.
Proof.
  revert n. induction a as [|r a IH]; intros n; cbn [app request_events]; [by rewrite zlen_nil, Z.add_0_r|].
  rewrite IH, zlen_cons. cbn [app]. do 3 f_equal. lia.
Qed.
Lemma requested_events n rs : requested (request_events n rs) = map rq_handler rs.
Proof. revert n. induction rs as [|r rs IH]; intros n; [done|]. cbn [request_events requested map]. by rewrite IH. Qed.

Lemma write_request_ok s0 s cs pend r n : wrote s0 s cs pend -> counts (response_handler_map s) n -> sendable r ->
  exists s' cs' pend', write_request r s = (Ok tt, s') /\ wrote s0 s' (cs ++ cs') pend' /\
    concat (map sent_envelopes cs') ++ pend' = pend ++ [stamped (rq_data r) (nth_stream_id n)] /\
    step (response_handler_map s) (Requested (rq_handler r) (nth_stream_id n)) (response_handler_map s').
Proof.
  intros Hw Hc [Hh Hl]. destruct (next_stream_id_spec _ _ Hc) as (m1 & Hm & _).
  unfold write_request, set_stream_id. rewrite Hm, Hh.
  rewrite (proj2 (Nat.leb_le 4 (length (rq_data r)))) by (unfold zlen in Hl; lia).
  fold (stamped (rq_data r) (nth_stream_id n)). cbn [frame_encoder write_half response_handler_map frame_stream_ids].
  set (s1 := mkWriter (frame_encoder s) (write_half s) (add_handler m1 (nth_stream_id n) (rq_handler r)) _).
  assert (Hne : stamped (rq_data r) (nth_stream_id n) <> []).
  { unfold stamped. destruct (rq_data r); [rewrite zlen_nil in Hl; lia|done]. }
  destruct (place_envelope_ok s0 s1 cs pend _ Hw Hne) as (s' & cs' & pend' & H1 & H2 & H3 & H4).
  exists s', cs', pend'. split; [exact H1|]. split; [done|]. split; [done|]. rewrite H4. by constructor.
Qed.

Lemma finish_batch_ok s0 s cs pend : wrote s0 s cs pend ->
  exists s' cs', finish_batch s = (Ok tt, s') /\ wrote s0 s' (cs ++ cs') [] /\
    concat (map sent_envelopes cs') = pend /\ response_handler_map s' = response_handler_map s.
Proof.
  intros Hw. unfold finish_batch.
  assert (Hfl : exists s1 cs', (if has_envelopes (frame_encoder s) then write_self_contained_frame else wret tt) s
      = (Ok tt, s1) /\ wrote s0 s1 (cs ++ cs') [] /\ concat (map sent_envelopes cs') = pend /\
      response_handler_map s1 = response_handler_map s).
  { destruct (has_envelopes (frame_encoder s)) eqn:Hh.
    - apply (wrote_has _ _ _ _ Hw) in Hh. destruct (write_self_contained_ok _ _ _ _ Hw Hh) as (s1 & H1 & H2 & H3).
      exists s1, [Together pend]. split; [done|]. split; [done|]. cbn. by rewrite app_nil_r.
    - assert (pend = []) as ->.
      { destruct pend; [done|]. by rewrite (proj2 (wrote_has _ _ _ _ Hw)) in Hh. }
      exists s, []. by rewrite app_nil_r. }
  destruct Hfl as (s1 & cs' & H1 & H2 & H3 & H4). unfold wbind at 1. rewrite H1.
  destruct (flush_ok (write_half s1)) as (w' & Hf & Hw'). unfold wbind, flush_half. rewrite Hf.
  eexists. exists cs'. split; [done|]. split; [|done].
  destruct H2 as (G1 & G2 & G3 & fs & G4 & G5 & G6). split; [done|]. split; [done|]. split; [done|].
  exists fs. split; [done|]. split; [done|]. cbn [write_half]. by rewrite Hw'.
Qed.

Lemma write_batch_ok s0 rs : forall s cs pend n,
  wrote s0 s cs pend -> counts (response_handler_map s) n -> Forall sendable rs ->
  exists s' cs', write_batch rs s = (Ok tt, s') /\ wrote s0 s' (cs ++ cs') [] /\
    concat (map sent_envelopes cs') = pend ++ stamps n rs /\
    run (response_handler_map s) (request_events n rs) (response_handler_map s').
Proof.
  induction rs as [|r rs IH]; intros s cs pend n Hw Hc Hrs; cbn [write_batch stamps request_events].
  - destruct (finish_batch_ok _ _ _ _ Hw) as (s' & cs' & H1 & H2 & H3 & H4).
    exists s', cs'. rewrite app_nil_r, H4. split; [done|]. split; [done|]. split; [done|constructor].
  - apply Forall_cons in Hrs as [Hr Hrs].
    destruct (write_request_ok _ _ _ _ _ _ Hw Hc Hr) as (s1 & cs1 & pend1 & H1 & H2 & H3 & H4).
    unfold wbind. rewrite H1. destruct (step_counts _ _ _ _ H4 Hc) as [Hc1 _].
    destruct (IH s1 _ _ _ H2 Hc1 Hrs) as (s' & cs' & G1 & G2 & G3 & G4).
    exists s', (cs1 ++ cs'). split; [done|]. split; [by rewrite app_assoc|].
    split; [|by econstructor]. rewrite map_app, concat_app, G3, app_assoc, H3. by rewrite <- app_assoc.
Qed.

Definition batch_requests (batches : list (RequestMsg * list RequestMsg)) : list RequestMsg :=
  concat (map (fun b => b.1 :: b.2) batches).

Lemma start_writing_ok s0 batches : forall s cs n,
  wrote s0 s cs [] -> counts (response_handler_map s) n -> Forall sendable (batch_requests batches) ->
  exists s' cs', start_writing batches s = (Ok tt, s') /\ wrote s0 s' (cs ++ cs') [] /\
    concat (map sent_envelopes cs') = stamps n (batch_requests batches) /\
    run (response_handler_map s) (request_events n (batch_requests batches)) (response_handler_map s').
Proof.
  induction batches as [|[r more] batches IH]; intros s cs n Hw Hc Hrs; cbn [start_writing].
  - exists s, []. rewrite app_nil_r. split; [done|]. split; [done|]. split; [done|constructor].
  - unfold batch_requests in *. cbn [map concat fst snd] in Hrs |- *. apply Forall_app in Hrs as [Hr Hrs].
    set (s1 := mkWriter (frame_encoder s) (write_half s) (response_handler_map s) []).
    destruct (write_batch_ok s0 (r :: more) s1 cs [] n Hw Hc Hr) as (s2 & cs2 & H1 & H2 & H3 & H4).
    unfold wbind. rewrite H1.
    destruct (run_assigned _ _ _ _ H4 Hc) as [_ Hc2]. rewrite requested_events in Hc2.
    assert (Hz : zlen (map rq_handler (r :: more)) = zlen (r :: more)) by (unfold zlen; by rewrite length_map).
    rewrite Hz in Hc2. destruct (IH s2 _ _ H2 Hc2 Hrs) as (s' & cs' & G1 & G2 & G3 & G4).
    exists s', (cs2 ++ cs'). split; [done|]. split; [by rewrite app_assoc|].
    rewrite stamps_app, request_events_app. split; [|apply run_app; by exists (response_handler_map s2)].
    rewrite map_app, concat_app, H3, G3. done.
Qed.

End WriterProofs.

(** ** From the requests to the envelopes at the other end *)

Section EndToEnd.
Context {U : UuidLib} {L : Lz4Lib} {SN : SnapLib} {C : Crc32Lib}.
Context {W : Type} `{!AsyncWrite W} `{!ReliableWrite W} `{!HashIter Z}.

Definition with_stream_id (e : Envelope) (sid : Z) : Envelope :=
  mkEnvelope (version e) (direction e) (flags e) (opcode e) sid (body e) (tracing_id e) (warnings e).

(** Overwriting bytes 2 and 3 of an encoding is encoding with that id. *)
Lemma encode_stamped e c bs sid : encode_with e c = Ok bs ->
  encode_with (with_stream_id e sid) c = Ok (stamped bs sid) /\ zlen (stamped bs sid) = zlen bs /\ 4 <= zlen bs.
Proof.
  unfold encode_with. cbn [with_stream_id version direction flags opcode stream_id body].
  change (tracing_bytes (with_stream_id e sid)) with (tracing_bytes e).
  change (warning_bytes (with_stream_id e sid)) with (warning_bytes e).
  change (encode_is_compressed (with_stream_id e sid) c) with (encode_is_compressed e c).
  change (encoded_flags (with_stream_id e sid) c) with (encoded_flags e c).
  assert (Hst : forall a b t, stamped ([a; b] ++ be_bytes 2 (stream_id e) ++ t) sid = [a; b] ++ be_bytes 2 sid ++ t)
    by (intros; unfold stamped; reflexivity).
  assert (Hz : forall a b t, zlen ([a; b] ++ be_bytes 2 (stream_id e) ++ t) = 4 + zlen t).
  { intros. rewrite !zlen_app, zlen_be_bytes. unfold zlen. simpl. lia. }
  assert (Hz' : forall a b t, zlen ([a; b] ++ be_bytes 2 sid ++ t) = 4 + zlen t).
  { intros. rewrite !zlen_app, zlen_be_bytes. unfold zlen. simpl. lia. }
  destruct (tracing_bytes e) as [tr| |]; [|done..]. cbn [obind].
  destruct (encode_is_compressed e c); [|destruct (tr ++ warning_bytes e)];
    try destruct (map_err _ _) as [b| |]; try done; cbn [obind]; rewrite <- !app_assoc;
    intros Hb; match type of Hb with Ok ?x = Ok _ => assert (bs = x) as -> by congruence end;
    rewrite Hst, Hz, Hz'; (split; [done|]); (split; [done|]); match goal with |- 4 <= 4 + zlen ?t =>
      pose proof (zlen_nonneg t); lia end.
Qed.

Lemma encoded_stamped c e bs sid : in_i 16 sid -> encoded c e bs ->
  encoded c (with_stream_id e sid) (stamped bs sid).
Proof.
  intros Hs (Hwf & He & Hl). destruct (encode_stamped e c bs sid He) as (H1 & H2 & _).
  split; [|split; [done|lia]]. destruct Hwf as (G1 & _ & G2). by split; [|split].
Qed.

Lemma nth_stream_id_range n : in_i 16 (nth_stream_id n).
Proof. unfold nth_stream_id, in_i. pose proof (Z.mod_pos_bound (1 + n) (2 ^ 15)). lia. Qed.

(** The envelopes as sent: with the ids of the connection from request [n] on. *)
Fixpoint with_ids (n : Z) (es : list Envelope) : list Envelope :=
  match es with [] => [] | e :: es' => with_stream_id e (nth_stream_id n) :: with_ids (n + 1) es' end.

(** [rs] are the requests [write_envelope] makes of [es]. *)
Definition requests_of (c : Compression) (es : list Envelope) (rs : list RequestMsg) : Prop :=
  Forall2 (fun e r => wf_envelope e /\ envelope_request c e (rq_handler r) false = Ok r /\
                      zlen (rq_data r) < 2 ^ 31 + 9) es rs.

Lemma requests_encoded c es rs n : requests_of c es rs ->
  Forall sendable rs /\ Forall2 (encoded c) (with_ids n es) (stamps n rs).
Proof.
  intros H. revert n. induction H as [|e r es rs (Hwf & Hr & Hl) _ IH]; intros n; [by split; constructor|].
  destruct (IH (n + 1)) as [IH1 IH2]. unfold envelope_request in Hr.
  destruct (encode_with e c) as [bs| |] eqn:He; [|done..]. cbn [obind] in Hr.
  assert (Hd : rq_data r = bs /\ rq_handshake r = false) by (injection Hr as <-; done). destruct Hd as [Hd Hh].
  rewrite Hd in *. destruct (encode_stamped e c bs 0 He) as (_ & _ & H4).
  cbn [with_ids stamps]. rewrite Hd. split; constructor; try done; [split; [done|by rewrite Hd]|].
  by apply encoded_stamped; [apply nth_stream_id_range|].
Qed.

(** Before protocol 5, the requests the driver writes, cut in any
    chunks, are received by the decoder as the envelopes submitted, in order,
    each with the stream id assigned to it. *)
Theorem legacy_requests_delivered c es batches (s : Writer LegacyFrameEncoder W) n :
  le_buffer (frame_encoder s) = [] -> counts (response_handler_map s) n -> written (write_half s) = [] ->
  requests_of c es (batch_requests batches) ->
  exists s', start_writing batches s = (Ok tt, s') /\
    run (response_handler_map s) (request_events n (batch_requests batches)) (response_handler_map s') /\
    forall chunks, concat chunks = written (write_half s') ->
      feed c (mkLegacyDec []) [] chunks
      = Ok (map (fun e => with_encoded_flags e c) (with_ids n es), mkLegacyDec [], []).
Proof.
  intros He Hn Hw Hes. destruct (requests_encoded c es _ n Hes) as [Hs Henc].
  assert (Hws : wrote legacy_frame s s [] []).
  { split; [done|]. split; [done|]. split; [done|]. exists []. cbn. by rewrite app_nil_r. }
  destruct (start_writing_ok legacy_frame s batches s [] n Hws Hn Hs) as (s' & cs & H1 & H2 & H3 & Hrun).
  exists s'. split; [done|]. split; [done|]. intros chunks Hchunks. apply legacy_feed_spec; [apply parses_nil|].
  split; [|done]. cbn [ld_buffer app]. rewrite Hchunks.
  cbn [app] in H2. destruct H2 as (Hok & _ & _ & fs & Hfs & Hpay & ->). rewrite Hw. cbn [app].
  assert (Hb : concat fs.*1 = concat (stamps n (batch_requests batches))).
  { rewrite <- H3. transitivity (concat (fs.*2).*2).
    - f_equal. clear -Hfs. induction Hfs as [|[fr [sc p]] fs [_ Hf] _ IH]; [done|]. cbn in *. by rewrite Hf, IH.
    - rewrite Hpay. clear -Hok. induction Hok as [|x xs Hc _ IH]; [done|].
      rewrite !fmap_cons. cbn [concat map]. rewrite fmap_app, !concat_app, IH. f_equal.
      destruct x as [ds|d ps]; [cbn; by rewrite app_nil_r|].
      destruct Hc as (Hd & _). cbn. rewrite app_nil_r, <- Hd. f_equal. clear. induction ps; [done|]. cbn. by f_equal. }
  rewrite Hb, <- (app_nil_r (concat (stamps _ _))). apply parses_encoded; [done|apply parses_nil].
Qed.

(** Splitting a list along the parts of its image. *)
Lemma Forall2_concat_split {A B} (P : A -> B -> Prop) (ll : list (list B)) : forall l, Forall2 P l (concat ll) ->
  exists lss, concat lss = l /\ Forall2 (fun a b => Forall2 P a b) lss ll.
Proof.
  induction ll as [|b ll IH]; intros l H.
  - apply Forall2_nil_inv_r in H as ->. by exists [].
  - cbn in H. apply Forall2_app_inv_r in H as (a & l' & Ha & Hl & ->).
    apply IH in Hl as (lss & <- & Hlss). exists (a :: lss). split; [done|by constructor].
Qed.

Lemma encode_v5_plain e c : version e = V5 -> encode_with e c = encode_with e NoCompression.
Proof.
  intros Hv. unfold encode_with, encoded_flags, encode_is_compressed. by rewrite Hv.
Qed.

Lemma encoded_v5 c es bss : Forall (fun e => version e = V5) es -> Forall2 (encoded c) es bss ->
  all_encoded es bss.
Proof.
  intros Hv H. induction H as [|e bs es bss (H1 & H2 & H3) _ IH]; [constructor|].
  apply Forall_cons in Hv as [Hv Hvs]. constructor; [|by apply IH]. split; [done|]. split; [|done].
  by rewrite <- (encode_v5_plain e c Hv).
Qed.

Lemma with_ids_version n es : Forall (fun e => version e = V5) es -> Forall (fun e => version e = V5) (with_ids n es).
Proof. intros H. revert n. induction H; intros n; constructor; auto. Qed.

Lemma stamps_fit (P : Z -> Prop) n rs d : Forall sendable rs -> (forall r, In r rs -> P (zlen (rq_data r))) ->
  In d (stamps n rs) -> P (zlen d).
Proof.
  revert n. induction rs as [|r rs IH]; intros n Hs Hp; [done|]. apply Forall_cons in Hs as [[_ Hr] Hs].
  cbn [stamps In]. intros [<-|Hin]; [|by eapply (IH (n + 1)); eauto using in_cons].
  assert (Hz : zlen (stamped (rq_data r) (nth_stream_id n)) = zlen (rq_data r)).
  { unfold stamped, zlen in *. rewrite !length_app, length_take, length_drop, length_be_bytes. lia. }
  rewrite Hz. apply Hp. by left.
Qed.

(** When every envelope fits in an empty frame, none is split, and the
    frames are decoded one by one. *)
Lemma frames_together {E} `{!FrameEncoder E} try_decode `{!EncoderLaws E try_decode} cs :
  Forall (sent_ok (Framed try_decode)) cs ->
  (forall d, In d (concat (map sent_envelopes cs)) -> forall e : E, holds e [] -> can_fit e (zlen d) = true) ->
  exists dss, concat (sent_payloads <$> cs) = map (fun ds => (true, concat ds)) dss /\
    concat (map sent_envelopes cs) = concat dss.
Proof.
  intros Hok. induction Hok as [|x xs Hx _ IH]; intros Hfit; [by exists []|]. cbn [map concat] in Hfit.
  destruct IH as (dss & H1 & H2); [intros d Hd; apply Hfit, in_app_iff; by right|].
  destruct x as [ds|d ps].
  - exists (ds :: dss). rewrite fmap_cons. cbn [map concat sent_payloads sent_envelopes app]. by rewrite H1, H2.
  - exfalso. destruct Hx as (_ & _ & e & He & Hf). rewrite (Hfit d ltac:(by left) e He) in Hf. done.
Qed.

Lemma handle_together dss es d : payload_buffer d = [] -> all_encoded es (concat dss) ->
  handle_frames d [] (map (fun ds => (true, concat ds)) dss) = (Ok (map received es), d).
Proof.
  intros Hd Henc. apply Forall2_concat_split in Henc as (lss & <- & Hl).
  pose proof (Forall2_length _ _ _ Hl) as Hlen.
  assert (Ha : Forall (fun m => all_encoded m.1 m.2) (zip lss dss)) by (clear -Hl; induction Hl; constructor; auto).
  pose proof (handle_self_contained_all d [] (zip lss dss) Hd Ha) as Hh. rewrite fst_zip in Hh by lia.
  rewrite <- (snd_zip lss dss) at 1 by lia. change ((zip lss dss).*2) with (map snd (zip lss dss)).
  rewrite map_map. exact Hh.
Qed.

Lemma v5_written_decoded {E} `{!FrameEncoder E} try_decode `{!EncoderLaws E try_decode}
    c es batches (s : Writer E W) n :
  holds (frame_encoder s) [] -> counts (response_handler_map s) n -> written (write_half s) = [] ->
  Forall (fun e => version e = V5) es -> requests_of c es (batch_requests batches) -> batches <> [] ->
  (forall e r, holds e [] -> In r (batch_requests batches) -> can_fit e (zlen (rq_data r)) = true) ->
  exists s', start_writing batches s = (Ok tt, s') /\
    run (response_handler_map s) (request_events n (batch_requests batches)) (response_handler_map s') /\
    forall chunks, concat chunks = written (write_half s') ->
      feed_generic try_decode GenericFrameDecoder_default [] chunks
      = Ok (map received (with_ids n es), GenericFrameDecoder_default, []).
Proof.
  intros He Hn Hw Hv Hes Hne Hfit. destruct (requests_encoded c es _ n Hes) as [Hs Henc].
  assert (Hws : wrote (Framed try_decode) s s [] []).
  { split; [done|]. split; [done|]. split; [done|]. exists []. cbn. by rewrite app_nil_r. }
  destruct (start_writing_ok (Framed try_decode) s batches s [] n Hws Hn Hs) as (s' & cs & H1 & H2 & H3 & Hrun).
  exists s'. split; [done|]. split; [done|]. intros chunks Hchunks.
  cbn [app] in H2. destruct H2 as (Hok & _ & _ & fs & Hfs & Hpay & Hwr). rewrite Hw in Hwr. cbn [app] in Hwr.
  destruct (frames_together try_decode cs Hok) as (dss & Hp & Hd).
  { rewrite H3. intros d Hin e Hh. revert Hin. apply (stamps_fit (fun z => can_fit e z = true)); [done|].
    intros r Hr. by apply Hfit. }
  rewrite H3 in Hd. rewrite Hp in Hpay. rewrite Hd in Henc.
  apply (encoded_v5 c) in Henc; [|by apply with_ids_version].
  assert (Hpart : partial try_decode []).
  { destruct fs as [|[fr [sc p]] fs].
    - exfalso. destruct dss; [|done]. destruct batches as [|[r more] bs]; [done|]. done.
    - apply Forall_cons in Hfs as [Hf _]. exists fr, sc, p, fr. split; [exact Hf|]. split; [done|]. by destruct Hf. }
  apply (feed_generic_frames try_decode chunks GenericFrameDecoder_default fs [] _ GenericFrameDecoder_default);
    try done; [by rewrite app_nil_r, Hchunks, Hwr|].
  rewrite Hpay. by apply handle_together.
Qed.

(** With protocol 5 and either frame codec, requests that fit in a
    frame, written by the driver and cut in any chunks, are received by the
    decoder of the codec as the envelopes submitted, in order, each with
    the stream id assigned to it; the decoder ends with empty buffers. *)
Theorem v5_requests_delivered {E} `{!FrameEncoder E} try_decode `{!EncoderLaws E try_decode}
    c es batches (s : Writer E W) n :
  holds (frame_encoder s) [] -> counts (response_handler_map s) n -> written (write_half s) = [] ->
  Forall (fun e => version e = V5) es -> requests_of c es (batch_requests batches) -> batches <> [] ->
  (forall e r, holds e [] -> In r (batch_requests batches) -> can_fit e (zlen (rq_data r)) = true) ->
  exists s', start_writing batches s = (Ok tt, s') /\
    run (response_handler_map s) (request_events n (batch_requests batches)) (response_handler_map s') /\
    forall chunks, concat chunks = written (write_half s') ->
      feed_generic try_decode GenericFrameDecoder_default [] chunks
      = Ok (map received (with_ids n es), GenericFrameDecoder_default, []).
Proof. apply v5_written_decoded. Qed.
End EndToEnd.

(** ** Failed writes *)

Section WriteFailures.
Context {U : UuidLib} {E : Type} `{!FrameEncoder E} {W : Type} `{!AsyncWrite W}.

Lemma send_errors_all error ids hs : forall m, NoDup ids ->
  Forall2 (fun sid h => stream_handlers m !! sid = Some h) ids hs ->
  exists m', send_errors m ids error = (Ok tt, m') /\
    fates m' = fates m ++ map (fun h => (h, Sent (Err error))) hs /\
    forall sid, stream_handlers m' !! sid = if bool_decide (sid ∈ ids) then None else stream_handlers m !! sid.
Proof.
  revert hs. induction ids as [|sid ids IH]; intros hs m Hnd Hh.
  - apply Forall2_nil_inv_l in Hh as ->. exists m. split; [done|]. split; [by rewrite app_nil_r|done].
  - apply Forall2_cons_inv_l in Hh as (h & hs' & Hsid & Hh & ->). apply NoDup_cons in Hnd as [Hni Hnd].
    cbn [send_errors]. unfold send_response. rewrite Hsid.
    set (m1 := mkHandlers _ _ _). destruct (IH hs' m1 Hnd) as (m' & H1 & H2 & H3).
    { clear -Hh Hni. induction Hh as [|i h' ids hs H _ IH]; [constructor|]. rewrite not_elem_of_cons in Hni.
      destruct Hni as [Hne Hni]. constructor; [|by apply IH]. subst m1. cbn [stream_handlers].
      by rewrite lookup_delete_ne. }
    exists m'. split; [done|]. split; [rewrite H2; subst m1; cbn; by rewrite <- app_assoc|].
    intros i. rewrite H3. subst m1. cbn [stream_handlers]. destruct (decide (i = sid)) as [->|Hne].
    + rewrite (bool_decide_true (sid ∈ sid :: ids)) by set_solver. rewrite lookup_delete_eq. by case_match.
    + rewrite lookup_delete_ne by done. by rewrite (bool_decide_ext (i ∈ sid :: ids) (i ∈ ids)) by set_solver.
Qed.

(** When writing a frame fails, every request counted with the
    frame and still waiting gets the I/O error, no other handler is
    touched, the list of the frame's ids is emptied and the writer goes
    on. *)
Theorem frame_write_failure_reported (s : Writer E W) frame w k hs :
  write_all (write_half s) frame = (w, Some k) -> NoDup (frame_stream_ids s) ->
  Forall2 (fun sid h => stream_handlers (response_handler_map s) !! sid = Some h) (frame_stream_ids s) hs ->
  exists s', write_frame frame s = (Ok tt, s') /\ frame_stream_ids s' = [] /\
    fates (response_handler_map s') = fates (response_handler_map s)
                                      ++ map (fun h => (h, Sent (Err (EIo k)))) hs /\
    forall sid, stream_handlers (response_handler_map s') !! sid =
      if bool_decide (sid ∈ frame_stream_ids s) then None
      else stream_handlers (response_handler_map s) !! sid.
Proof.
  intros Hw Hnd Hh. destruct (send_errors_all (EIo k) _ _ _ Hnd Hh) as (m' & H1 & H2 & H3).
  unfold write_frame, wbind, write_bytes, notify_error_handlers. rewrite Hw.
  cbn [response_handler_map frame_stream_ids]. rewrite H1. by eexists.
Qed.
End WriteFailures.

(** ** Witnesses *)

Module WriterSamples.
#[local] Existing Instances uuid_bytes stored_lz4 stored_snap crc32_ieee.
#[local] Instance order : HashIter Z := default_iter Z.

(** A socket that keeps what it is given, and one that is closed. *)
Record sink : Type := mkSink { sunk : bytes }.
#[local] Instance sink_write : AsyncWrite sink :=
  {| write_all w b := (mkSink (sunk w ++ b), None); flush w := (w, None) |}.
#[local] Instance sink_reliable : ReliableWrite sink :=
  {| written := sunk;
     write_all_ok w b := ex_intro _ (mkSink (sunk w ++ b)) (conj eq_refl eq_refl);
     flush_ok w := ex_intro _ w (conj eq_refl eq_refl) |}.
Record closed : Type := mkClosed {}.
#[local] Instance closed_write : AsyncWrite closed :=
  {| write_all w b := (w, Some BrokenPipe); flush w := (w, Some BrokenPipe) |}.

Definition opts : Envelope := mkEnvelope V5 Request 0 OpOptions 0 [] None [].
Definition query : Envelope := mkEnvelope V5 Request 0 OpQuery 0 (lit "SELECT") None [].
Definition request (e : Envelope) (h : handler) : RequestMsg :=
  match envelope_request NoCompression e h false with Ok r => r | _ => mkRequestMsg [] h false end.
Definition batches : list (RequestMsg * list RequestMsg) :=
  [(request opts 1, [request query 2]); (request opts 3, [])]%nat.

Lemma requests_ok : requests_of NoCompression [opts; query; opts] (batch_requests batches).
Proof. repeat constructor; by vm_compute. Qed.
Lemma sendable_ok : Forall sendable (batch_requests batches).
Proof. apply (requests_encoded NoCompression [opts; query; opts] _ 0 requests_ok). Qed.

Definition writer5 : Writer UncompressedFrameEncoder sink :=
  mkWriter UncompressedFrameEncoder_default (mkSink []) ResponseHandlerMap_new [].
Definition writer4 : Writer LegacyFrameEncoder sink :=
  mkWriter (mkLegacyEnc []) (mkSink []) ResponseHandlerMap_new [].


Lemma legacy_requests_delivered_witness :
  exists s', start_writing batches writer4 = (Ok tt, s') /\
    run ResponseHandlerMap_new (request_events 0 (batch_requests batches)) (response_handler_map s') /\
    forall chunks, concat chunks = written (write_half s') ->
      feed NoCompression (mkLegacyDec []) [] chunks
      = Ok (map (fun e => with_encoded_flags e NoCompression) (with_ids 0 [opts; query; opts]), mkLegacyDec [], []).
Proof.
  apply (legacy_requests_delivered NoCompression [opts; query; opts] batches writer4 0).
  - reflexivity.
  - exact counts_new.
  - reflexivity.
  - exact requests_ok.
Defined.

Lemma v5_requests_delivered_witness :
  exists s', start_writing batches writer5 = (Ok tt, s') /\
    run ResponseHandlerMap_new (request_events 0 (batch_requests batches)) (response_handler_map s') /\
    forall chunks, concat chunks = written (write_half s') ->
      feed_generic Uncompressed_try_decode_frame GenericFrameDecoder_default [] chunks
      = Ok (map received (with_ids 0 [opts; query; opts]), GenericFrameDecoder_default, []).
Proof.
  apply (v5_requests_delivered Uncompressed_try_decode_frame NoCompression [opts; query; opts] batches writer5 0).
  - exact Uncompressed_default_holds.
  - exact counts_new.
  - reflexivity.
  - repeat constructor.
  - exact requests_ok.
  - discriminate.
  - intros e r (h & Hh & He & _) Hr. cbn [can_fit Uncompressed_FrameEncoder]. rewrite He, app_nil_r.
    change (zlen h) with (Z.of_nat (length h)). rewrite Hh.
    repeat (destruct Hr as [<-|Hr]; [by vm_compute|]). destruct Hr.
Defined.

Definition broken : Writer UncompressedFrameEncoder closed :=
  mkWriter UncompressedFrameEncoder_default (mkClosed)
    (mkHandlers {[5 := 1%nat; 6 := 2%nat]} 7 []) [5].
Lemma frame_write_failure_reported_witness :
  exists s', write_frame [u8 0] broken = (Ok tt, s') /\ frame_stream_ids s' = [] /\
    fates (response_handler_map s') = [] ++ map (fun h => (h, Sent (Err (EIo BrokenPipe)))) [1%nat] /\
    forall sid, stream_handlers (response_handler_map s') !! sid =
      if bool_decide (sid ∈ [5]) then None else ({[5 := 1%nat; 6 := 2%nat]} : gmap Z handler) !! sid.
Proof.
  apply (frame_write_failure_reported broken [u8 0] mkClosed BrokenPipe [1%nat]).
  - reflexivity.
  - repeat constructor; set_solver.
  - repeat constructor.
Defined.
End WriterSamples.
