(* ===== verification/Reader.v ===== *)
(** * The reading side: [start_reading_*] and [start_processing] of [cdrs-tokio/src/transport.rs]

    The reader parses envelopes from the stream, first unframed ones until
    the handshake is over, then frames.  Responses go to the handlers of
    their streams, events to the event channel, and a SetKeyspace result is
    remembered in the keyspace holder ([cluster/keyspace_holder.rs]).  When
    the reader or the writer fails, every waiting handler gets the error. *)

From S2P Require Import Prelude Types Wire Compression Envelope Frame FrameStream Query Events ErrorMsg Results Responses EnvelopeParser Transport.
Local Open Scope Z_scope.
Local Open Scope cdrs_scope.

(** ** [KeyspaceHolder] *)

(** The keyspace and the values sent through the watch channel. *)
Record KeyspaceHolder : Type := mkKeyspaceHolder {
  current_keyspace : option bytes; notifications : list bytes }.
Definition KeyspaceHolder_new : KeyspaceHolder := mkKeyspaceHolder None [].

Definition send_notification (k : KeyspaceHolder) (keyspace : bytes) : KeyspaceHolder :=
  mkKeyspaceHolder (current_keyspace k) (notifications k ++ [keyspace]).
Definition update_current_keyspace (k : KeyspaceHolder) (keyspace : bytes) : KeyspaceHolder :=
  let old_keyspace := current_keyspace k in
  let k := mkKeyspaceHolder (Some keyspace) (notifications k) in
  match old_keyspace with
  | None => send_notification k keyspace
  | Some old_keyspace => if bool_decide (old_keyspace <> keyspace) then send_notification k keyspace else k
  end.
Definition update_current_keyspace_without_notification (k : KeyspaceHolder) (keyspace : bytes) : KeyspaceHolder :=
  mkKeyspaceHolder (Some keyspace) (notifications k).

Section Reading.
Context {U : UuidLib} {L : Lz4Lib} {SN : SnapLib} `{!HashIter Z}.
(** The node, the compression agreed on, and whether somebody listens to events. *)
Context (addr : SocketAddr) (compression : Compression) (event_handler : bool).

Record Reader : Type := mkReader {
  rd_handlers : ResponseHandlerMap;
  keyspace_holder : KeyspaceHolder;
  server_events : list Envelope }.

Definition reply (stream_id : Z) (response : Result Envelope) (s : Reader) : Result unit * Reader :=
  let '(r, m) := send_response (rd_handlers s) stream_id response in
  (r, mkReader m (keyspace_holder s) (server_events s)).

Definition server_event (e : Envelope) (s : Reader) : Reader :=
  if event_handler then mkReader (rd_handlers s) (keyspace_holder s) (server_events s ++ [e]) else s.

(** [&envelope.body[..INT_LEN]] panics on a shorter body. *)
Definition set_keyspace_of (e : Envelope) : Result (option bytes) :=
  if bool_decide (opcode e = OpResult) then
    if (INT_LEN <=? length (body e))%nat then
      let? result_kind := ResultKind_from_bytes (take INT_LEN (body e)) in
      if bool_decide (result_kind = RkSetKeyspace) then
        let? response_body := response_body e in
        match response_set_keyspace response_body with
        | Some set_keyspace => Ok (Some set_keyspace)
        | None => Err (EGeneral "SetKeyspace not found with SetKeyspace opcode!")
        end
      else Ok None
    else Panic
  else Ok None.

Definition handle_envelope (e : Envelope) (s : Reader) : Result unit * Reader :=
  if 0 <=? stream_id e then
    match set_keyspace_of e with
    | Ok k =>
      let s := match k with
               | Some keyspace => mkReader (rd_handlers s) (update_current_keyspace (keyspace_holder s) keyspace)
                                    (server_events s)
               | None => s
               end in
      match convert_envelope_into_result e addr with
      | Panic => (Panic, s)
      | response => reply (stream_id e) response s
      end
    | Err err => (Err err, s)
    | Panic => (Panic, s)
    end
  else if stream_id e =? EVENT_STREAM_ID then (Ok tt, server_event e s)
  else (Ok tt, s).

Fixpoint handle_envelopes (es : list Envelope) (s : Reader) : Result unit * Reader :=
  match es with
  | [] => (Ok tt, s)
  | e :: es' =>
    match handle_envelope e s with
    | (Ok _, s) => handle_envelopes es' s
    | (Err err, s) => (Err err, s)
    | (Panic, s) => (Panic, s)
    end
  end.

(** The loop of [start_reading_normal_frames], over the results of the
    reads; an empty read is the end of the stream.  The loop leaves only by
    an error: [Ok] says that it waits for the next read. *)
Fixpoint start_reading_normal_frames `{!FrameDecoder D} (reads : list (outcome io_kind bytes)) (d : D)
    (buffer : bytes) (s : Reader) : Result unit * Reader :=
  match reads with
  | [] => (Ok tt, s)
  | Err k :: _ => (Err (EIo k), s)
  | Panic :: _ => (Panic, s)
  | Ok [] :: _ => (Err (EIo UnexpectedEof), s)
  | Ok chunk :: reads' =>
    match consume d (buffer ++ chunk) compression with
    | (Ok envelopes, d, buffer) =>
      match handle_envelopes envelopes s with
      | (Ok _, s) => start_reading_normal_frames reads' d buffer s
      | (Err err, s) => (Err err, s)
      | (Panic, s) => (Panic, s)
      end
    | (Err err, _, _) => (Err err, s)
    | (Panic, _, _) => (Panic, s)
    end
  end.

(** The unframed envelopes of the handshake, read from the bytes the stream
    delivers; the result is what follows the one that ends it.  Every
    round reads at least the nine bytes of a header. *)
Fixpoint start_reading_handshake_frames (fuel : nat) (stream : bytes) (s : Reader) : Result bytes * Reader :=
  match fuel with
  | O => (Panic, s)
  | S fuel' =>
    match parse_envelope compression addr stream with
    | Ok (e, rest) =>
      if 0 <=? stream_id e then
        match reply (stream_id e) (Ok e) s with
        | (Ok _, s) =>
          if bool_decide (opcode e = OpAuthenticate) || bool_decide (opcode e = OpReady)
          then (Ok rest, s)
          else start_reading_handshake_frames fuel' rest s
        | (Err err, s) => (Err err, s)
        | (Panic, s) => (Panic, s)
        end
      else if stream_id e =? EVENT_STREAM_ID then start_reading_handshake_frames fuel' rest (server_event e s)
      else start_reading_handshake_frames fuel' rest s
    | Err err => (Err err, s)
    | Panic => (Panic, s)
    end
  end.

(** The end of [start_processing]: the first error of the two loops. *)
Record Processing : Type := mkProcessing {
  is_broken : bool; handlers_after : ResponseHandlerMap; error_sent : option Error }.
Definition finish_processing (error_handler : bool) (error : Error) (m : ResponseHandlerMap) : Processing :=
  mkProcessing true (signal_general_error m error) (if error_handler then Some error else None).

(** ** The reader in terms of the connection's events *)

Definition is_response (e : Envelope) : bool := 0 <=? stream_id e.
Definition is_event (e : Envelope) : bool := negb (0 <=? stream_id e) && (stream_id e =? EVENT_STREAM_ID).
Definition responded (e : Envelope) : event := Responded (stream_id e) (convert_envelope_into_result e addr).

Lemma handle_envelope_step e s r s' : handle_envelope e s = (Ok r, s') ->
  run (rd_handlers s) (if is_response e then [responded e] else []) (rd_handlers s') /\
  server_events s' = server_events s ++ (if event_handler && is_event e then [e] else []) /\
  (is_response e = true -> is_Some (stream_handlers (rd_handlers s) !! stream_id e)).
Proof.
  unfold handle_envelope, is_response, is_event, responded. destruct (0 <=? stream_id e).
  - cbn [negb andb]. rewrite andb_false_r, app_nil_r.
    destruct (set_keyspace_of e) as [k| |]; [|done..]. set (s1 := match k with Some _ => _ | None => s end).
    assert (H1 : rd_handlers s1 = rd_handlers s /\ server_events s1 = server_events s) by (by destruct k).
    destruct H1 as [H1 H2].
    assert (Hr : forall resp, reply (stream_id e) resp s1 = (Ok r, s') ->
      run (rd_handlers s) [Responded (stream_id e) resp] (rd_handlers s') /\ server_events s' = server_events s /\
      (true = true -> is_Some (stream_handlers (rd_handlers s) !! stream_id e))).
    { intros resp. unfold reply. rewrite H1.
      pose proof (step_response (rd_handlers s) (stream_id e) resp) as Hs. revert Hs. unfold send_response.
      destruct (stream_handlers (rd_handlers s) !! stream_id e) as [h|]; [|done].
      intros Hs [= _ <-]. cbn [rd_handlers server_events]. split; [|by rewrite H2].
      econstructor; [exact Hs|constructor]. }
    destruct (convert_envelope_into_result e addr); [apply Hr|apply Hr|done].
  - cbn [negb andb]. unfold server_event. destruct (stream_id e =? EVENT_STREAM_ID); intros [= _ <-];
      destruct event_handler; cbn; rewrite ?app_nil_r; split; try constructor; done.
Qed.

Lemma handle_envelopes_run es : forall s r s', handle_envelopes es s = (Ok r, s') ->
  run (rd_handlers s) (map responded (filter (fun e => is_response e = true) es)) (rd_handlers s') /\
  server_events s' = server_events s ++ (if event_handler then filter (fun e => is_event e = true) es else []).
Proof.
  induction es as [|e es IH]; intros s r s'; cbn [handle_envelopes].
  - intros [= _ <-]. cbn. split; [constructor|]. by destruct event_handler; rewrite app_nil_r.
  - destruct (handle_envelope e s) as [[u| |] s1] eqn:He; [|done..]. intros H.
    apply handle_envelope_step in He as (H1 & H2 & _). apply IH in H as [G1 G2]. rewrite !filter_cons. split.
    + destruct (is_response e); cbn.
      * inversion H1 as [|? ? m1 ? ? Hs Hn]; subst. econstructor; [exact Hs|].
        assert (m1 = rd_handlers s1) as -> by (by inversion Hn). done.
      * assert (rd_handlers s = rd_handlers s1) as -> by (by inversion H1). done.
    + rewrite G2, H2. destruct event_handler; [|by rewrite !app_nil_r]. cbn [andb].
      destruct (is_event e); cbn; by rewrite <- ?app_assoc.
Qed.

(** ** Well-formed responses *)

Definition response_result (e : Envelope) (r : ResponseBody) : Result Envelope :=
  match r with RbError err => Err (EServer err addr) | _ => Ok e end.
Definition keyspace_after (k : KeyspaceHolder) (r : ResponseBody) : KeyspaceHolder :=
  match r with RbResult (ResSetKeyspace ks) => update_current_keyspace k ks | _ => k end.

Context `{!HashIter bytes} `{!HashIter SocketAddr}.

(** An envelope that carries the response [r]. *)
Definition carries (e : Envelope) (r : ResponseBody) : Prop :=
  wf_response (version e) r /\ opcode e = response_opcode r /\ ResponseBody_serialize r = Ok (body e).

Definition result_kind_of (r : ResResultBody) : ResultKind :=
  match r with
  | ResVoid => RkVoid | ResRows _ => RkRows | ResSetKeyspace _ => RkSetKeyspace
  | ResPrepared _ => RkPrepared | ResSchemaChange _ => RkSchemaChange
  end.
Lemma result_bytes_kind r : exists rest, ResResultBody_bytes r = ResultKind_serialize (result_kind_of r) ++ rest.
Proof. destruct r; cbn [ResResultBody_bytes result_kind_of]; [exists []; by rewrite app_nil_r|eauto..]. Qed.
Lemma result_kind_read k rest :
  ResultKind_from_bytes (take INT_LEN (ResultKind_serialize k ++ rest)) = Ok k /\
  (INT_LEN <= length (ResultKind_serialize k ++ rest))%nat.
Proof. split; [by destruct k|]. rewrite length_app. unfold INT_LEN. destruct k; simpl; lia. Qed.

Lemma set_keyspace_carried e r : carries e r ->
  set_keyspace_of e = Ok (match r with RbResult (ResSetKeyspace ks) => Some ks | _ => None end).
Proof.
  intros (Hr & Ho & Hb). pose proof (response_body_envelope e r Hr Ho Hb) as Hrb.
  unfold set_keyspace_of. rewrite Ho. destruct r as [| | | |res| | |]; try done.
  cbn [response_opcode]. rewrite bool_decide_true by done.
  cbn [ResponseBody_serialize wf_response] in *. rewrite (wf_result_serialize _ _ Hr) in Hb.
  assert (body e = ResResultBody_bytes res) as -> by congruence.
  destruct (result_bytes_kind res) as [rest Hk]. rewrite Hk.
  destruct (result_kind_read (result_kind_of res) rest) as [H1 H2].
  rewrite H1, (proj2 (Nat.leb_le _ _) H2). cbn [obind].
  destruct res; try done. cbn [result_kind_of]. rewrite bool_decide_true by done. by rewrite Hrb.
Qed.

Lemma convert_carried e r : carries e r -> convert_envelope_into_result e addr = response_result e r.
Proof.
  intros (Hr & Ho & Hb). pose proof (response_body_envelope e r Hr Ho Hb) as Hrb.
  unfold convert_envelope_into_result. rewrite Ho. destruct r; try done. cbn [response_opcode]. by rewrite Hrb.
Qed.

Definition answered (m : ResponseHandlerMap) (sid : Z) (h : handler) (resp : Result Envelope) : ResponseHandlerMap :=
  mkHandlers (delete sid (stream_handlers m)) (available_stream_id m) (fates m ++ [(h, Sent resp)]).

Lemma handle_carried e r s h : carries e r -> 0 <= stream_id e ->
  stream_handlers (rd_handlers s) !! stream_id e = Some h ->
  handle_envelope e s =
  (Ok tt, mkReader (answered (rd_handlers s) (stream_id e) h (response_result e r))
            (keyspace_after (keyspace_holder s) r) (server_events s)).
Proof.
  intros Hc Hs Hh. unfold handle_envelope. rewrite (proj2 (Z.leb_le _ _) Hs), (set_keyspace_carried e r Hc).
  rewrite (convert_carried e r Hc).
  assert (Hnp : response_result e r <> Panic) by (by destruct r).
  set (s1 := match _ with Some _ => _ | None => s end).
  assert (E : s1 = mkReader (rd_handlers s) (keyspace_after (keyspace_holder s) r) (server_events s)).
  { subst s1. destruct s, r as [| | | |res| | |]; try done. by destruct res. }
  rewrite E. assert (Hrep : reply (stream_id e) (response_result e r)
    (mkReader (rd_handlers s) (keyspace_after (keyspace_holder s) r) (server_events s)) =
    (Ok tt, mkReader (answered (rd_handlers s) (stream_id e) h (response_result e r))
            (keyspace_after (keyspace_holder s) r) (server_events s))).
  { unfold reply, send_response. cbn [rd_handlers]. by rewrite Hh. }
  by destruct (response_result e r).
Qed.

(** Responses to distinct streams, with the handlers waiting for them. *)
Definition expected (m : ResponseHandlerMap) (p : Envelope * ResponseBody * handler) : Prop :=
  carries p.1.1 p.1.2 /\ 0 <= stream_id p.1.1 /\ stream_handlers m !! stream_id p.1.1 = Some p.2.

Lemma handle_all_carried ps : forall s,
  NoDup (map (fun p => stream_id p.1.1) ps) -> Forall (expected (rd_handlers s)) ps ->
  exists m', handle_envelopes (map (fun p => p.1.1) ps) s =
    (Ok tt, mkReader m' (fold_left keyspace_after (map (fun p => p.1.2) ps) (keyspace_holder s)) (server_events s)) /\
    fates m' = fates (rd_handlers s) ++ map (fun p => (p.2, Sent (response_result p.1.1 p.1.2))) ps.
Proof.
  induction ps as [|[[e r] h] ps IH]; intros s Hnd Hps.
  - exists (rd_handlers s). rewrite app_nil_r. by destruct s.
  - apply Forall_cons in Hps as [(Hc & Hsid & Hh) Hps]. cbn [map fst snd] in *.
    apply NoDup_cons in Hnd as [Hni Hnd]. cbn [handle_envelopes]. rewrite (handle_carried e r s h Hc Hsid Hh).
    destruct (IH (mkReader (answered (rd_handlers s) (stream_id e) h (response_result e r))
      (keyspace_after (keyspace_holder s) r) (server_events s)) Hnd) as (m' & H1 & H2).
    { apply Forall_forall. intros q Hq. rewrite Forall_forall in Hps. destruct (Hps q Hq) as (Hc' & Hs' & Hh').
      split; [done|]. split; [done|]. cbn [rd_handlers answered stream_handlers].
      rewrite lookup_delete_ne; [done|]. intros Heq. apply Hni. rewrite Heq.
      change (stream_id q.1.1) with ((fun p : Envelope * ResponseBody * handler => stream_id p.1.1) q).
      by apply list_elem_of_fmap_2. }
    exists m'. rewrite H1. split; [done|]. rewrite H2. cbn [rd_handlers answered fates]. by rewrite <- app_assoc.
Qed.

Lemma handle_envelopes_app es1 : forall es2 s,
  handle_envelopes (es1 ++ es2) s =
  match handle_envelopes es1 s with
  | (Ok _, s) => handle_envelopes es2 s
  | (Err err, s) => (Err err, s)
  | (Panic, s) => (Panic, s)
  end.
Proof.
  induction es1 as [|e es1 IH]; intros es2 s; [done|]. cbn [app handle_envelopes].
  destruct (handle_envelope e s) as [[u| |] s1]; [apply IH|done..].
Qed.

(** The read loop handles, in order, what the decoder gets from the reads. *)
Lemma reading_handles `{!FrameDecoder D} chunks : forall (d : D) buffer s es d' buffer' s',
  Forall (fun c => c <> []) chunks -> feed compression d buffer chunks = Ok (es, d', buffer') ->
  handle_envelopes es s = (Ok tt, s') ->
  start_reading_normal_frames (map Ok chunks) d buffer s = (Ok tt, s').
Proof.
  induction chunks as [|chunk chunks IH]; intros d buffer s es d' buffer' s' Hne Hf Hh; cbn [feed] in Hf.
  - injection Hf as <- <- <-. exact Hh.
  - apply Forall_cons in Hne as [Hc Hne]. cbn [map start_reading_normal_frames].
    destruct chunk as [|x chunk]; [done|].
    destruct (consume d (buffer ++ x :: chunk) compression) as [[[es1| |] d1] b1]; [|done..].
    destruct (feed compression d1 b1 chunks) as [[[es2 d2] b2]| |] eqn:Ef; [|done..].
    cbn [obind] in Hf. injection Hf as <- <- <-. rewrite handle_envelopes_app in Hh.
    destruct (handle_envelopes es1 s) as [[u| |] s1]; [|done..]. by eapply IH.
Qed.


(** ** The handshake *)

Lemma parse_envelope_consumes i e rest : parse_envelope compression addr i = Ok (e, rest) ->
  (length rest < length i)%nat.
Proof.
  unfold parse_envelope. intros H. apply rbind_inv in H as (e' & j & Hp & Hc).
  assert (j = rest) as -> by (unfold rlift in Hc; destruct (convert_envelope_into_result e' addr); congruence).
  unfold parse_raw_envelope in Hp. apply rbind_inv in Hp as (vb & k & Hv & Hp).
  assert (Hk : (length k < length i)%nat).
  { unfold read_exact in Hv. case_match eqn:Hl; [|done]. apply Nat.leb_le in Hl.
    injection Hv as _ <-. rewrite length_drop. lia. }
  enough (Hs : (length rest <= length k)%nat) by lia. revert Hp.
  repeat match goal with
  | |- rbind _ _ _ = Ok _ -> _ => intros Hp; apply rbind_inv in Hp as (? & ? & ?Hr & Hp); revert Hp; cbn zeta
  end.
  match goal with |- context [match ?p with _ => _ end] => destruct p as [[t w] b] end. intros [= _ <-].
  repeat match goal with
  | Hr : read_exact _ _ = Ok _ |- _ => apply shrinks_read_exact in Hr
  | Hr : rlift _ _ = Ok _ |- _ => apply shrinks_lift in Hr
  | Hr : with_capacity _ _ = Ok _ |- _ => apply shrinks_capacity in Hr
  end. lia.
Qed.

(** More rounds than bytes change nothing: the loop ends by itself. *)
Lemma handshake_fuel_enough fuel : forall fuel' stream s,
  (length stream < fuel)%nat -> (length stream < fuel')%nat ->
  start_reading_handshake_frames fuel stream s = start_reading_handshake_frames fuel' stream s.
Proof.
  induction fuel as [|fuel IH]; intros [|fuel'] stream s H1 H2; try lia. cbn [start_reading_handshake_frames].
  destruct (parse_envelope compression addr stream) as [[e rest]| |] eqn:Hp; [|done..].
  apply parse_envelope_consumes in Hp. case_match; [|case_match; apply IH; lia].
  destruct (reply (stream_id e) (Ok e) s) as [[u| |] s1]; [|done..]. case_match; [done|]. apply IH; lia.
Qed.

Definition ends_handshake (e : Envelope) : bool :=
  bool_decide (opcode e = OpAuthenticate) || bool_decide (opcode e = OpReady).

Lemma handshake_step e r bs rest s h fuel :
  encoded compression e bs -> direction e = Response -> expected (rd_handlers s) (e, r, h) ->
  (forall err, r <> RbError err) -> zlen (bs ++ rest) < 2 ^ 63 ->
  start_reading_handshake_frames (S fuel) (bs ++ rest) s =
  let s' := mkReader (answered (rd_handlers s) (stream_id e) h (Ok (with_encoded_flags e compression)))
              (keyspace_holder s) (server_events s) in
  if ends_handshake e then (Ok rest, s') else start_reading_handshake_frames fuel rest s'.
Proof.
  intros (Hwf & He & Hl) Hd ((Hr & Ho & Hb) & Hs & Hh) Hne Hbig. cbn [fst snd] in *.
  cbn [start_reading_handshake_frames].
  pose proof (encode_decode e compression bs rest Hwf He Hl) as Hdec.
  pose proof (parse_raw_from_buffer compression _ _ Hbig Hdec (or_introl Hd)) as Hp.
  unfold parse_envelope. rewrite (rbind_ok _ _ _ _ _ Hp). cbn [envelope envelope_len].
  rewrite drop_app_exact by (unfold zlen; lia).
  assert (Hc : convert_envelope_into_result (with_encoded_flags e compression) addr
               = Ok (with_encoded_flags e compression)).
  { unfold convert_envelope_into_result. change (opcode (with_encoded_flags e compression)) with (opcode e).
    rewrite Ho. destruct r; try done. exfalso. by eapply Hne. }
  unfold rlift. rewrite Hc. change (stream_id (with_encoded_flags e compression)) with (stream_id e).
  rewrite (proj2 (Z.leb_le _ _) Hs). unfold reply, send_response. by rewrite Hh.
Qed.

Definition handshake_response (p : Envelope * ResponseBody * handler) (bs : bytes) : Prop :=
  encoded compression p.1.1 bs /\ direction p.1.1 = Response /\ forall err, p.1.2 <> RbError err.

Lemma encoded_not_empty e bs : encoded compression e bs -> (1 <= length bs)%nat.
Proof.
  intros (_ & He & Hl). destruct (encode_with_inv e _ bs He Hl) as (tr & bb & _ & _ & _ & ->).
  rewrite length_app, length_hdr. lia.
Qed.

Lemma expected_later s e h (q : Envelope * ResponseBody * handler) resp :
  expected (rd_handlers s) q -> stream_id q.1.1 <> stream_id e ->
  expected (answered (rd_handlers s) (stream_id e) h resp) q.
Proof.
  intros (H1 & H2 & H3) Hne. split; [done|]. split; [done|]. cbn [answered stream_handlers].
  by rewrite lookup_delete_ne.
Qed.

Lemma handshake_all ps bss : Forall2 handshake_response ps bss -> forall fuel p bs rest s,
  handshake_response p bs -> ends_handshake p.1.1 = true -> Forall (fun q => ends_handshake q.1.1 = false) ps ->
  NoDup (map (fun q => stream_id q.1.1) (ps ++ [p])) -> Forall (expected (rd_handlers s)) (ps ++ [p]) ->
  zlen (concat bss ++ bs ++ rest) < 2 ^ 63 -> (length ps < fuel)%nat ->
  exists m', start_reading_handshake_frames fuel (concat bss ++ bs ++ rest) s =
    (Ok rest, mkReader m' (keyspace_holder s) (server_events s)) /\
    fates m' = fates (rd_handlers s) ++
      map (fun q => (q.2, Sent (Ok (with_encoded_flags q.1.1 compression)))) (ps ++ [p]).
Proof.
  induction 1 as [|[[e r] h] b ps bss (Hq1 & Hq2 & Hq3) _ IH]; intros fuel p bs rest s Hp Hend Hmid Hnd Hex Hbig Hf;
    (destruct fuel as [|fuel]; [simpl in Hf; lia|]).
  - destruct p as [[e r] h]. destruct Hp as (Hp1 & Hp2 & Hp3). apply Forall_cons in Hex as [Hex _].
    cbn [concat app fst snd] in *. rewrite (handshake_step e r bs rest s h) by done. rewrite Hend.
    eexists. split; [done|]. done.
  - cbn [app map concat] in *. rewrite <- app_assoc in *. apply Forall_cons in Hex as [He Hex].
    apply Forall_cons in Hmid as [Hm Hmid]. apply NoDup_cons in Hnd as [Hni Hnd]. cbn [fst snd] in *.
    rewrite (handshake_step e r b _ s h) by done. cbn zeta. rewrite Hm.
    set (s1 := mkReader _ (keyspace_holder s) (server_events s)).
    destruct (IH fuel p bs rest s1 Hp Hend Hmid Hnd) as (m' & H1 & H2).
    + apply Forall_forall. intros q Hq. rewrite Forall_forall in Hex.
      apply (expected_later s e); [by apply Hex|]. intros Heq. apply Hni. rewrite <- Heq.
      by apply (list_elem_of_fmap_2 (fun q => stream_id q.1.1)).
    + rewrite !zlen_app in *. pose proof (zlen_nonneg b). lia.
    + simpl in Hf. lia.
    + exists m'. rewrite H1. split; [done|]. rewrite H2. subst s1. cbn [rd_handlers answered fates].
      by rewrite <- app_assoc.
Qed.

(** While the connection is set up, each unframed response goes to the
    handler that waits for it, and the READY or AUTHENTICATE response ends
    the loop with everything after it left for the framed phase; the loop
    terminates (its number of rounds is bounded by the bytes received). *)
Theorem handshake_completes ps bss p bs rest s :
  Forall2 handshake_response ps bss -> handshake_response p bs ->
  ends_handshake p.1.1 = true -> Forall (fun q => ends_handshake q.1.1 = false) ps ->
  NoDup (map (fun q => stream_id q.1.1) (ps ++ [p])) -> Forall (expected (rd_handlers s)) (ps ++ [p]) ->
  zlen (concat bss ++ bs ++ rest) < 2 ^ 63 ->
  exists m', (forall fuel, (length (concat bss ++ bs ++ rest) < fuel)%nat ->
      start_reading_handshake_frames fuel (concat bss ++ bs ++ rest) s =
      (Ok rest, mkReader m' (keyspace_holder s) (server_events s))) /\
    fates m' = fates (rd_handlers s) ++
      map (fun q => (q.2, Sent (Ok (with_encoded_flags q.1.1 compression)))) (ps ++ [p]).
Proof.
  intros Hps Hp Hend Hmid Hnd Hex Hbig.
  assert (Hlen : (length ps <= length (concat bss))%nat).
  { clear -Hps. induction Hps as [|q b ps bss (Hq & _) _ IH]; [done|]. apply encoded_not_empty in Hq.
    cbn [length concat]. rewrite length_app. lia. }
  set (stream := concat bss ++ bs ++ rest) in *.
  assert (Hf : (length ps < S (length stream))%nat) by (subst stream; rewrite length_app; lia).
  destruct (handshake_all ps bss Hps (S (length stream)) p bs rest s Hp Hend Hmid Hnd Hex Hbig Hf) as (m' & H1 & H2).
  exists m'. split; [|done]. intros fuel Hfuel. rewrite <- H1. apply handshake_fuel_enough; subst stream; lia.
Qed.

(** Whatever envelopes the decoder delivers, when the reader goes on,
    the handler map has evolved by the responses among them, in order, as
    the interleaving semantics of the connection allows, and the events
    were forwarded in order; an envelope with another negative stream id
    changes nothing. *)
Theorem reader_refines_connection es s s' :
  handle_envelopes es s = (Ok tt, s') ->
  run (rd_handlers s) (map responded (filter (fun e => is_response e = true) es)) (rd_handlers s') /\
  server_events s' = server_events s ++ (if event_handler then filter (fun e => is_event e = true) es else []).
Proof. apply handle_envelopes_run. Qed.

(** When a connection fails, every handler that was waiting gets the
    error, in some order, none is left waiting, and the connection is
    marked broken. *)
Theorem failure_answers_everyone error_handler error m :
  let p := finish_processing error_handler error m in
  is_broken p = true /\ in_flight (handlers_after p) = [] /\
  exists answers, fates (handlers_after p) = fates m ++ answers /\
    answers ≡ₚ map (fun h => (h, Sent (Err error))) (in_flight m).
Proof.
  cbn. split; [done|]. split; [done|]. eexists. split; [done|]. unfold in_flight. rewrite hm_iter_perm.
  change ((map_to_list (stream_handlers m)).*2) with (map snd (map_to_list (stream_handlers m))).
  by rewrite map_map.
Qed.

(** A RESULT envelope for a stream whose body is shorter than the
    four bytes of its kind makes the reader panic: the body is sliced
    before it is parsed. *)
Theorem short_result_panics e s :
  0 <= stream_id e -> opcode e = OpResult -> (length (body e) < INT_LEN)%nat ->
  handle_envelope e s = (Panic, s).
Proof.
  intros Hs Ho Hb. unfold handle_envelope, set_keyspace_of.
  rewrite (proj2 (Z.leb_le _ _) Hs), bool_decide_true by done. by rewrite (proj2 (Nat.leb_gt _ _) Hb).
Qed.
End Reading.

(** ** The keyspace holder *)

Lemma keyspace_updates ks : forall k,
  let k' := fold_left update_current_keyspace ks k in
  (forall x, current_keyspace k = Some x -> last (notifications k) = Some x) ->
  (forall i x y, notifications k !! i = Some x -> notifications k !! S i = Some y -> x <> y) ->
  (current_keyspace k = None -> notifications k = []) ->
  current_keyspace k' = match last ks with Some x => Some x | None => current_keyspace k end /\
  (forall x, current_keyspace k' = Some x -> last (notifications k') = Some x) /\
  (forall i x y, notifications k' !! i = Some x -> notifications k' !! S i = Some y -> x <> y).
Proof.
  induction ks as [|x ks IH]; intros k k' H1 H2 H3; subst k'; [done|]. cbn [fold_left].
  assert (Hlast : last (x :: ks) = match last ks with Some y => Some y | None => Some x end)
    by (rewrite last_cons; by destruct (last ks)).
  assert (Hcur : current_keyspace (update_current_keyspace k x) = Some x)
    by (unfold update_current_keyspace; destruct (current_keyspace k); [case_bool_decide|]; done).
  rewrite Hlast.
  enough (Hn : last (notifications (update_current_keyspace k x)) = Some x /\
    forall i a b, notifications (update_current_keyspace k x) !! i = Some a ->
      notifications (update_current_keyspace k x) !! S i = Some b -> a <> b).
  { destruct Hn as [Hn1 Hn2]. destruct (IH (update_current_keyspace k x)) as (G1 & G2 & G3);
      [intros y; rewrite Hcur; by intros [= <-]|done|by rewrite Hcur|].
    split; [|done]. rewrite G1, Hcur. by destruct (last ks). }
  assert (Hsnoc : (forall y, last (notifications k) = Some y -> y <> x) ->
    forall i a b, (notifications k ++ [x]) !! i = Some a -> (notifications k ++ [x]) !! S i = Some b -> a <> b).
  { intros Hx i a b Ha Hb. destruct (decide (S i < length (notifications k))%nat) as [Hi|Hi].
    - rewrite lookup_app_l in Ha by lia. rewrite lookup_app_l in Hb by lia. by apply (H2 i).
    - pose proof (lookup_lt_Some _ _ _ Hb) as Hlt. rewrite length_app in Hlt. simpl in Hlt.
      rewrite lookup_app_l in Ha by lia. rewrite lookup_app_r in Hb by lia.
      replace (S i - length (notifications k))%nat with O in Hb by lia. injection Hb as <-.
      apply Hx. rewrite last_lookup. by replace (Init.Nat.pred (length (notifications k))) with i by lia. }
  unfold update_current_keyspace. destruct (current_keyspace k) as [old|] eqn:Hk.
  - case_bool_decide as Hne; cbn [send_notification notifications].
    + split; [apply last_snoc|]. apply Hsnoc. intros y. rewrite (H1 old eq_refl). by intros [= <-].
    + subst old. by split; [apply H1|].
  - cbn [send_notification notifications]. split; [apply last_snoc|]. apply Hsnoc. by rewrite (H3 eq_refl).
Qed.

(** After any sequence of keyspace changes, the holder has the
    last one, listeners were last told exactly that one, and they were never
    told the same keyspace twice in a row. *)
Theorem keyspace_notifications_settle ks :
  let k := fold_left update_current_keyspace ks KeyspaceHolder_new in
  current_keyspace k = last ks /\ last (notifications k) = last ks /\
  forall i x y, notifications k !! i = Some x -> notifications k !! S i = Some y -> x <> y.
Proof.
  destruct (keyspace_updates ks KeyspaceHolder_new) as (H1 & H2 & H3); [done..|]. cbn zeta.
  assert (Hc : current_keyspace (fold_left update_current_keyspace ks KeyspaceHolder_new) = last ks)
    by (rewrite H1; by destruct (last ks)).
  split; [done|]. split; [|done]. destruct (last ks) as [x|] eqn:E; [by apply H2|].
  apply last_None in E as ->. done.
Qed.

(** ** Witnesses *)

Module ReaderSamples.
#[local] Existing Instances uuid_bytes stored_lz4 stored_snap.
#[local] Instance order_z : HashIter Z := default_iter Z.
#[local] Instance order : HashIter bytes := default_iter bytes.
#[local] Instance order_addr : HashIter SocketAddr := default_iter SocketAddr.

Definition node : SocketAddr := mkSocketAddr (IpV4 [u8 127; u8 0; u8 0; u8 1]) 9042.
Definition use_ks : ResponseBody := RbResult (ResSetKeyspace (lit "ks")).
Definition fail : ResponseBody := RbError (mkErrorBody (lit "no") EtOverloaded).
Definition body_of (r : ResponseBody) : bytes := match ResponseBody_serialize r with Ok b => b | _ => [] end.
Definition envelope_of (r : ResponseBody) (sid : Z) : Envelope :=
  mkEnvelope V4 Response 0 (response_opcode r) sid (body_of r) None [].
Definition bytes_of (e : Envelope) : bytes := match encode_with e NoCompression with Ok b => b | _ => [] end.

Definition arriving : list (Envelope * ResponseBody * handler) :=
  [(envelope_of use_ks 4, use_ks, 1%nat); (envelope_of fail 3, fail, 2%nat)].
Definition stream : bytes := concat (map (fun p => bytes_of p.1.1) arriving).
Definition waiting : Reader :=
  mkReader (mkHandlers {[3 := 2%nat; 4 := 1%nat; 5 := 3%nat]} 6 []) KeyspaceHolder_new [].

Lemma use_ks_wf : wf_response V4 use_ks.
Proof. apply short_string_ok_wf. reflexivity. Qed.
Lemma fail_wf : wf_response V4 fail.
Proof. split; [apply short_string_ok_wf; reflexivity|done]. Qed.


Lemma reader_refines_connection_witness :
  run (rd_handlers waiting)
    (map (responded node) (filter (fun e => is_response e = true) [envelope_of use_ks 4; envelope_of RbReady (-1)]))
    (rd_handlers (handle_envelopes node true [envelope_of use_ks 4; envelope_of RbReady (-1)] waiting).2) /\
  server_events (handle_envelopes node true [envelope_of use_ks 4; envelope_of RbReady (-1)] waiting).2
  = [] ++ filter (fun e => is_event e = true) [envelope_of use_ks 4; envelope_of RbReady (-1)].
Proof.
  apply (reader_refines_connection node true [envelope_of use_ks 4; envelope_of RbReady (-1)] waiting
    (handle_envelopes node true [envelope_of use_ks 4; envelope_of RbReady (-1)] waiting).2). reflexivity.
Defined.

Lemma short_result_panics_witness :
  handle_envelope node true (mkEnvelope V4 Response 0 OpResult 4 [u8 0] None []) waiting = (Panic, waiting).
Proof.
  apply (short_result_panics node true (mkEnvelope V4 Response 0 OpResult 4 [u8 0] None []) waiting);
    [done|done|]. by vm_compute; repeat constructor.
Defined.

Definition sup : ResponseBody := RbSupported (mkBodyResSupported ∅).
Definition hello : Reader := mkReader (mkHandlers {[1 := 1%nat; 2 := 2%nat]} 3 []) KeyspaceHolder_new [].
Lemma sup_wf : wf_response V4 sup.
Proof. split; [by vm_compute|]. apply map_Forall_empty. Qed.

Lemma handshake_completes_witness :
  exists m', (forall fuel, (length (concat [bytes_of (envelope_of sup 1)] ++ bytes_of (envelope_of RbReady 2) ++ [u8 9]) < fuel)%nat ->
      start_reading_handshake_frames node NoCompression true fuel
        (concat [bytes_of (envelope_of sup 1)] ++ bytes_of (envelope_of RbReady 2) ++ [u8 9]) hello =
      (Ok [u8 9], mkReader m' KeyspaceHolder_new [])) /\
    fates m' = fates (rd_handlers hello) ++
      map (fun q => (q.2, Sent (Ok (with_encoded_flags q.1.1 NoCompression))))
        ([(envelope_of sup 1, sup, 1%nat)] ++ [(envelope_of RbReady 2, RbReady, 2%nat)]).
Proof.
  apply (handshake_completes node NoCompression true [(envelope_of sup 1, sup, 1%nat)] [bytes_of (envelope_of sup 1)]
           (envelope_of RbReady 2, RbReady, 2%nat) (bytes_of (envelope_of RbReady 2)) [u8 9] hello).
  - repeat constructor; by vm_compute.
  - repeat constructor; by vm_compute.
  - by vm_compute.
  - repeat constructor; by vm_compute.
  - repeat constructor; set_solver.
  - repeat constructor; try exact sup_wf; by vm_compute.
  - by vm_compute.
Defined.
End ReaderSamples.
