(* ===== verification/Connection.v ===== *)
(** * A connection as a whole: [AsyncTransport] of [cdrs-tokio/src/transport.rs]

    Requesters put requests in a bounded channel; the writer and the reader are
    polled by one task, share the handlers and end together.  An event is what
    one of them does between two points where it waits: the writer takes one
    request from the channel, or finds it empty and writes the frame out; the
    reader has got an unframed envelope, or the bytes of a read.  A run is any
    sequence of events that the states allow. *)

From S2P Require Import Prelude Types Wire Compression Crc Envelope Frame FrameStream Query Events ErrorMsg Results Responses EnvelopeParser Transport Writer Reader.
Local Open Scope Z_scope.
Local Open Scope cdrs_scope.

Section Connection.
Context {U : UuidLib} {L : Lz4Lib} {SN : SnapLib} {HZ : HashIter Z}.
Context {E : Type} `{!FrameEncoder E} {W : Type} `{!AsyncWrite W} {D : Type} `{!FrameDecoder D}.
(** What [AsyncTransport::new] is called with. *)
Context (addr : SocketAddr) (compression : Compression) (buffer_size : nat) (event_handler error_handler : bool).

(** ** One round of the read loops *)

(** An unframed envelope; [true] when the frames begin. *)
Definition handshake_envelope (e : Envelope) (s : Reader) : Result bool * Reader :=
  if 0 <=? stream_id e then
    match reply (stream_id e) (Ok e) s with
    | (Ok _, s) => (Ok (bool_decide (opcode e = OpAuthenticate) || bool_decide (opcode e = OpReady)), s)
    | (Err err, s) => (Err err, s)
    | (Panic, s) => (Panic, s)
    end
  else if stream_id e =? EVENT_STREAM_ID then (Ok false, server_event event_handler e s)
  else (Ok false, s).

Lemma handshake_round fuel stream s :
  start_reading_handshake_frames addr compression event_handler (S fuel) stream s =
  match parse_envelope compression addr stream with
  | Ok (e, rest) =>
    match handshake_envelope e s with
    | (Ok true, s) => (Ok rest, s)
    | (Ok false, s) => start_reading_handshake_frames addr compression event_handler fuel rest s
    | (Err err, s) => (Err err, s)
    | (Panic, s) => (Panic, s)
    end
  | Err err => (Err err, s)
  | Panic => (Panic, s)
  end.
Proof.
  cbn [start_reading_handshake_frames]. destruct (parse_envelope _ _ _) as [[e rest]| |]; [|done..].
  unfold handshake_envelope. destruct (0 <=? stream_id e); [|by destruct (stream_id e =? EVENT_STREAM_ID)].
  destruct (reply _ _ _) as [[u| |] s1]; [|done..]. by destruct (bool_decide _ || bool_decide _).
Qed.

(** A read; an empty one is the end of the stream. *)
Definition handle_read (r : outcome io_kind bytes) (d : D) (buffer : bytes) (s : Reader) : Result unit * D * bytes * Reader :=
  match r with
  | Err k => (Err (EIo k), d, buffer, s)
  | Panic => (Panic, d, buffer, s)
  | Ok [] => (Err (EIo UnexpectedEof), d, buffer, s)
  | Ok chunk =>
    match consume d (buffer ++ chunk) compression with
    | (Ok envelopes, d, buffer) =>
      let '(r, s) := handle_envelopes addr event_handler envelopes s in (r, d, buffer, s)
    | (Err err, d, buffer) => (Err err, d, buffer, s)
    | (Panic, d, buffer) => (Panic, d, buffer, s)
    end
  end.

Lemma read_round r reads d buffer s :
  start_reading_normal_frames addr compression event_handler (r :: reads) d buffer s =
  let '(r, d, buffer, s) := handle_read r d buffer s in
  match r with
  | Ok _ => start_reading_normal_frames addr compression event_handler reads d buffer s
  | Err err => (Err err, s)
  | Panic => (Panic, s)
  end.
Proof.
  cbn [start_reading_normal_frames]. destruct r as [[|x chunk]| |]; [done| |done..]. unfold handle_read.
  destruct (consume _ _ _) as [[[es| |] d1] b1]; [|done..]. by destruct (handle_envelopes _ _ _ _) as [[] ?].
Qed.

(** ** The state *)

(** The task runs, it has ended with an error, or it has panicked. *)
Inductive status : Type := Running | Ended (error : Error) | Crashed.

(** [cn_writing]: the writer is in its inner loop; [cn_framed]: the buffer of
    the reader, once the frames have begun. *)
Record Connection : Type := mkConnection {
  cn_queue : list RequestMsg;
  cn_encoder : E; cn_write_half : W; cn_stream_ids : list Z; cn_writing : bool;
  cn_decoder : D; cn_framed : option bytes;
  cn_reader : Reader;
  cn_status : status }.
Definition cn_handlers (c : Connection) : ResponseHandlerMap := rd_handlers (cn_reader c).

(** [AsyncTransport::new] with the task it spawns. *)
Definition Connection_new (frame_encoder : E) (write_half : W) (frame_decoder : D) (k : KeyspaceHolder) : Connection :=
  mkConnection [] frame_encoder write_half [] false frame_decoder None (mkReader ResponseHandlerMap_new k []) Running.

Definition with_queue (q : list RequestMsg) (c : Connection) : Connection :=
  mkConnection q (cn_encoder c) (cn_write_half c) (cn_stream_ids c) (cn_writing c) (cn_decoder c) (cn_framed c)
    (cn_reader c) (cn_status c).
Definition with_reader (d : D) (framed : option bytes) (s : Reader) (c : Connection) : Connection :=
  mkConnection (cn_queue c) (cn_encoder c) (cn_write_half c) (cn_stream_ids c) (cn_writing c) d framed s (cn_status c).
Definition with_writer (writing : bool) (s : Writer E W) (c : Connection) : Connection :=
  mkConnection (cn_queue c) (frame_encoder s) (write_half s) (frame_stream_ids s) writing (cn_decoder c) (cn_framed c)
    (mkReader (response_handler_map s) (keyspace_holder (cn_reader c)) (server_events (cn_reader c))) (cn_status c).
Definition with_status (st : status) (m : ResponseHandlerMap) (c : Connection) : Connection :=
  mkConnection (cn_queue c) (cn_encoder c) (cn_write_half c) (cn_stream_ids c) (cn_writing c) (cn_decoder c) (cn_framed c)
    (mkReader m (keyspace_holder (cn_reader c)) (server_events (cn_reader c))) st.
Definition writer_of (ids : list Z) (c : Connection) : Writer E W :=
  mkWriter (cn_encoder c) (cn_write_half c) (cn_handlers c) ids.

(** [try_join!] of the two halves: the first error ends both. *)
Definition try_join {A} (r : Result A) (c : Connection) : Connection :=
  match r with
  | Ok _ => c
  | Err error => with_status (Ended error) (handlers_after (finish_processing error_handler error (cn_handlers c))) c
  | Panic => with_status Crashed (cn_handlers c) c
  end.

(** ** What the outside sees *)

(** [is_broken], and what is sent to the error handler. *)
Definition cn_is_broken (c : Connection) : bool := match cn_status c with Ended _ => true | _ => false end.
Definition cn_error_sent (c : Connection) : option Error :=
  match cn_status c with Ended error => if error_handler then Some error else None | _ => None end.

(** The first half of [write_envelope]: the request is in the channel, is
    refused, or waits for room. *)
Definition write_envelope (e : Envelope) (handshake : bool) (h : handler) (c : Connection) : option (Result Connection) :=
  match envelope_request compression e h handshake with
  | Ok request =>
    match cn_status c with
    | Running => if (length (cn_queue c) <? buffer_size)%nat then Some (Ok (with_queue (cn_queue c ++ [request]) c)) else None
    | _ => Some (Err (EGeneral "Connection closed when writing data!"))
    end
  | Err error => Some (Err error)
  | Panic => Some Panic
  end.
(** Its second half: what the receiver of handler [h] yields; nothing as long as
    the handler is with the task. *)
Definition fate_of (h : handler) (fs : list (handler * fate)) : option fate :=
  match filter (fun f => f.1 = h) fs with f :: _ => Some f.2 | [] => None end.
Definition response_of (h : handler) (c : Connection) : option (Result Envelope) :=
  match fate_of h (fates (cn_handlers c)), cn_status c with
  | Some (Sent r), _ => Some r
  | None, Running => None
  | _, _ => Some (Err (EGeneral "Connection closed while waiting for response!"))
  end.

(** ** Steps *)

Inductive cn_event : Type :=
| ESubmit (e : Envelope) (handshake : bool) (h : handler)
| EReceive | ETryReceive
| EEnvelope (r : Result Envelope)
| ERead (r : outcome io_kind bytes).

(** The writer: its outer loop waits for a request, its inner one takes what is
    there. *)
Definition writes (ids : list Z) (writing : bool) (m : WM (E := E) (W := W) unit) (c : Connection) : Connection :=
  let '(r, s) := m (writer_of ids c) in try_join r (with_writer writing s c).

Definition conn_step (ev : cn_event) (c : Connection) : option Connection :=
  match cn_status c with
  | Running =>
    match ev with
    | ESubmit e handshake h => match write_envelope e handshake h c with Some (Ok c) => Some c | _ => None end
    | EReceive =>
      match cn_writing c, cn_queue c with
      | false, request :: q => Some (writes [] true (write_request request) (with_queue q c))
      | _, _ => None
      end
    | ETryReceive =>
      match cn_writing c, cn_queue c with
      | true, request :: q => Some (writes (cn_stream_ids c) true (write_request request) (with_queue q c))
      | true, [] => Some (writes (cn_stream_ids c) false finish_batch c)
      | false, _ => None
      end
    | EEnvelope r =>
      match cn_framed c with
      | Some _ => None
      | None =>
        match r with
        | Ok e =>
          let '(r, s) := handshake_envelope e (cn_reader c) in
          Some (try_join r (with_reader (cn_decoder c) (match r with Ok true => Some [] | _ => None end) s c))
        | Err error => Some (try_join (A := unit) (Err error) c)
        | Panic => Some (try_join (A := unit) Panic c)
        end
      end
    | ERead r =>
      match cn_framed c with
      | None => None
      | Some buffer =>
        let '(r, d, buffer, s) := handle_read r (cn_decoder c) buffer (cn_reader c) in
        Some (try_join r (with_reader d (Some buffer) s c))
      end
    end
  | _ => None
  end.
Fixpoint conn_run (evs : list cn_event) (c : Connection) : option Connection :=
  match evs with
  | [] => Some c
  | ev :: evs => match conn_step ev c with Some c => conn_run evs c | None => None end
  end.

(** The handlers of the requests, in the order of the channel. *)
Definition submitted (evs : list cn_event) : list handler :=
  concat (map (fun ev => match ev with ESubmit _ _ h => [h] | _ => [] end) evs).
Lemma submitted_app evs1 evs2 : submitted (evs1 ++ evs2) = submitted evs1 ++ submitted evs2.
Proof. unfold submitted. by rewrite map_app, concat_app. Qed.

(** ** The handlers evolve as the multiplexer allows *)

(** From one map to another by steps of [Transport], with these requests and
    successful responses only under the stream ids they carry. *)
Definition evolves (hs : list handler) (m m' : ResponseHandlerMap) : Prop :=
  exists es, run m es m' /\ requested es = hs /\ Forall own_stream es.

Lemma requested_app es1 es2 : requested (es1 ++ es2) = requested es1 ++ requested es2.
Proof. induction es1 as [|[] es1 IH]; simpl; by rewrite ?IH. Qed.
Lemma evolves_refl m : evolves [] m m.
Proof. exists []. by split_and!; [constructor|..]. Qed.
Lemma evolves_trans hs1 hs2 m1 m2 m3 : evolves hs1 m1 m2 -> evolves hs2 m2 m3 -> evolves (hs1 ++ hs2) m1 m3.
Proof.
  intros (es1 & H1 & <- & Ho1) (es2 & H2 & <- & Ho2). exists (es1 ++ es2).
  split_and!; [apply run_app; eauto|apply requested_app|by apply Forall_app].
Qed.
Lemma evolves_one m e m' : step m e m' -> own_stream e -> evolves (requested [e]) m m'.
Proof. intros H Ho. exists [e]. split_and!; [|done|by constructor]. econstructor; [exact H|constructor]. Qed.
Lemma evolves_respond m sid r : own_stream (Responded sid r) -> evolves [] m (send_response m sid r).2.
Proof. exact (evolves_one _ _ _ (step_response m sid r)). Qed.

(** A part of the writer that takes no request. *)
Definition quiet {A} (m : WM (E := E) (W := W) A) : Prop := forall s,
  evolves [] (response_handler_map s) (response_handler_map (m s).2).

Lemma quiet_ret {A} (a : A) : quiet (wret a).
Proof. intros s. apply evolves_refl. Qed.
Lemma quiet_fail {A} (r : Result A) : quiet (wfail r).
Proof. intros s. apply evolves_refl. Qed.
Lemma quiet_bind {A B} (m : WM A) (f : A -> WM B) : quiet m -> (forall a, quiet (f a)) -> quiet (wbind m f).
Proof.
  intros Hm Hf s. unfold wbind. specialize (Hm s). destruct (m s) as [[a|e|] s1]; [|done..].
  exact (evolves_trans [] [] _ _ _ Hm (Hf a s1)).
Qed.
Lemma quiet_state {A} (f : Writer E W -> WM A) : (forall s, quiet (f s)) -> quiet (fun s => f s s).
Proof. intros H s. apply H. Qed.
Lemma quiet_encoder e : quiet (set_encoder e).
Proof. intros s. apply evolves_refl. Qed.
Lemma quiet_bytes b : quiet (write_bytes b).
Proof. intros s. unfold write_bytes. destruct (write_all _ _). apply evolves_refl. Qed.
Lemma quiet_flush : quiet flush_half.
Proof. intros s. unfold flush_half. destruct (flush _). apply evolves_refl. Qed.
Lemma quiet_respond sid e : quiet (respond sid (Err e)).
Proof.
  intros s. unfold respond. pose proof (evolves_respond (response_handler_map s) sid (Err e) I) as H.
  by destruct (send_response _ _ _).
Qed.
Lemma send_errors_evolves ids e m : evolves [] m (send_errors m ids e).2.
Proof.
  revert m. induction ids as [|sid ids IH]; intros m; [apply evolves_refl|]. cbn [send_errors].
  pose proof (evolves_respond m sid (Err e) I) as H. destruct (send_response _ _ _) as [[u|err|] m1]; [|done..].
  exact (evolves_trans [] [] _ _ _ H (IH m1)).
Qed.
Lemma quiet_notify e : quiet (notify_error_handlers e).
Proof.
  intros s. unfold notify_error_handlers. pose proof (send_errors_evolves (frame_stream_ids s) e (response_handler_map s)) as H.
  by destruct (send_errors _ _ _).
Qed.
#[local] Hint Resolve quiet_ret quiet_fail quiet_encoder quiet_bytes quiet_flush quiet_respond quiet_notify : core.

Lemma quiet_frame frame : quiet (write_frame frame).
Proof. apply quiet_bind; [done|]. intros [k|]; auto. Qed.
Lemma quiet_self_contained : quiet write_self_contained_frame.
Proof.
  intros s. unfold write_self_contained_frame. destruct (finalize_self_contained _) as [e frame].
  apply quiet_bind; [done|]. intros _. apply quiet_bind; [apply quiet_frame|]. intros _.
  apply (quiet_state (fun s => set_encoder (reset (frame_encoder s)))). auto.
Qed.
Lemma quiet_pieces fuel data : quiet (write_pieces fuel data).
Proof.
  revert data. induction fuel as [|fuel IH]; intros [|x data] s; try apply evolves_refl. cbn [write_pieces].
  destruct (finalize_non_self_contained _ _) as [[e [n frame]]| |]; [|apply evolves_refl..].
  apply quiet_bind; [done|]. intros _. apply quiet_bind; [apply quiet_frame|]. intros _.
  apply (quiet_state (fun s => wbind (set_encoder (reset (frame_encoder s))) _)). intros s1. apply quiet_bind; auto.
Qed.
Lemma quiet_place fuel data : quiet (place_envelope fuel data).
Proof.
  revert data. induction fuel as [|fuel IH]; intros data s; [apply evolves_refl|]. cbn [place_envelope].
  destruct (can_fit _ _); [apply evolves_refl|]. destruct (has_envelopes _); [|apply quiet_pieces].
  apply quiet_bind; [apply quiet_self_contained|auto].
Qed.
Lemma quiet_finish : quiet finish_batch.
Proof.
  intros s. unfold finish_batch. apply quiet_bind; [destruct (has_envelopes _); [apply quiet_self_contained|auto]|].
  intros _. apply quiet_bind; [auto|]. intros [k|]; [apply quiet_bind|]; auto.
Qed.

(** A request is registered whatever becomes of its bytes. *)
Lemma write_request_evolves r s n : counts (response_handler_map s) n -> 4 <= zlen (rq_data r) ->
  evolves [rq_handler r] (response_handler_map s) (response_handler_map (write_request r s).2).
Proof.
  intros Hc Hl. destruct (next_stream_id_spec _ _ Hc) as (m1 & Hm & _). unfold write_request, set_stream_id. rewrite Hm.
  rewrite (proj2 (Nat.leb_le 4 (length (rq_data r)))) by (unfold zlen in Hl; lia).
  cbn [frame_encoder write_half response_handler_map frame_stream_ids].
  apply (evolves_trans [rq_handler r] [] _ (add_handler m1 (nth_stream_id n) (rq_handler r))).
  - exact (evolves_one _ _ _ (step_request _ _ _ _ Hm) I).
  - destruct (rq_handshake r).
    + match goal with |- evolves _ _ (response_handler_map (wbind ?m ?f ?s1).2) => apply (quiet_bind m f) with (s := s1) end; [auto|].
      intros [k|]; [apply quiet_bind|]; auto.
    + match goal with |- evolves _ _ (response_handler_map (place_envelope _ _ ?s1).2) => apply (quiet_place 2 _ s1) end.
Qed.

(** The reader answers. *)
Lemma reply_evolves sid r s : own_stream (Responded sid r) -> evolves [] (rd_handlers s) (rd_handlers (reply sid r s).2).
Proof. intros Ho. unfold reply. pose proof (evolves_respond (rd_handlers s) sid r Ho) as H. by destruct (send_response _ _ _). Qed.
Lemma server_event_evolves e s : evolves [] (rd_handlers s) (rd_handlers (server_event event_handler e s)).
Proof. unfold server_event. destruct event_handler; apply evolves_refl. Qed.
Lemma handshake_evolves e s : evolves [] (rd_handlers s) (rd_handlers (handshake_envelope e s).2).
Proof.
  unfold handshake_envelope. destruct (0 <=? stream_id e).
  - pose proof (reply_evolves (stream_id e) (Ok e) s eq_refl) as H. by destruct (reply _ _ _) as [[u| |] s1].
  - destruct (stream_id e =? EVENT_STREAM_ID); [apply server_event_evolves|apply evolves_refl].
Qed.
Lemma convert_envelope_ok e e' : convert_envelope_into_result e addr = Ok e' -> e' = e.
Proof.
  unfold convert_envelope_into_result. destruct (opcode e); try congruence.
  destruct (response_body e) as [[]| |]; cbn [obind]; congruence.
Qed.
Lemma handle_envelope_evolves e s : evolves [] (rd_handlers s) (rd_handlers (handle_envelope addr event_handler e s).2).
Proof.
  unfold handle_envelope. destruct (0 <=? stream_id e).
  - destruct (set_keyspace_of e) as [k| |]; [|apply evolves_refl..].
    set (s1 := match k with Some _ => _ | None => s end). assert (rd_handlers s1 = rd_handlers s) as <- by (by destruct k).
    destruct (convert_envelope_into_result e addr) as [e'|err|] eqn:Hc; [|by apply reply_evolves|apply evolves_refl].
    apply reply_evolves. cbn [own_stream]. by rewrite (convert_envelope_ok _ _ Hc).
  - destruct (stream_id e =? EVENT_STREAM_ID); [apply server_event_evolves|apply evolves_refl].
Qed.
Lemma handle_envelopes_evolves es s : evolves [] (rd_handlers s) (rd_handlers (handle_envelopes addr event_handler es s).2).
Proof.
  revert s. induction es as [|e es IH]; intros s; [apply evolves_refl|]. cbn [handle_envelopes].
  pose proof (handle_envelope_evolves e s) as H. destruct (handle_envelope _ _ _ _) as [[u| |] s1]; [|done..].
  exact (evolves_trans [] [] _ _ _ H (IH s1)).
Qed.
Lemma handle_read_evolves r d buffer s : evolves [] (rd_handlers s) (rd_handlers (handle_read r d buffer s).2).
Proof.
  unfold handle_read. destruct r as [[|x chunk]| |]; try apply evolves_refl.
  destruct (consume _ _ _) as [[[es| |] d1] b1]; try apply evolves_refl.
  pose proof (handle_envelopes_evolves es s) as H. by destruct (handle_envelopes _ _ _ _).
Qed.

(** ** The invariant *)

(** The requests taken from the channel are those the multiplexer has seen; an
    error that ended the task was its last event. *)
Record conn_inv (hs : list handler) (c : Connection) : Prop := {
  ci_map : exists es, requested es ++ map rq_handler (cn_queue c) = hs /\ Forall own_stream es /\
    run ResponseHandlerMap_new (es ++ match cn_status c with Ended error => [Failed error] | _ => [] end) (cn_handlers c);
  ci_data : Forall (fun r => 4 <= zlen (rq_data r)) (cn_queue c) }.

Lemma envelope_request_data e h handshake r : envelope_request compression e h handshake = Ok r ->
  4 <= zlen (rq_data r) /\ rq_handler r = h.
Proof.
  unfold envelope_request. destruct (if handshake then _ else _) as [bs| |] eqn:He; [|done..]. cbn [obind].
  intros [= <-]. split; [|done]. cbn [rq_data].
  destruct handshake; by apply (encode_stamped _ _ _ 0) in He as (_ & _ & ?).
Qed.

(** A running state from its parts. *)
Lemma running_inv hs es c : cn_status c = Running -> requested es ++ map rq_handler (cn_queue c) = hs ->
  Forall own_stream es -> run ResponseHandlerMap_new es (cn_handlers c) ->
  Forall (fun r => 4 <= zlen (rq_data r)) (cn_queue c) -> conn_inv hs c.
Proof. intros Hs Hq Ho Hr Hd. split; [|done]. exists es. by rewrite Hs, app_nil_r. Qed.

Lemma try_join_inv {A} (r : Result A) hs c : cn_status c = Running -> conn_inv hs c -> conn_inv hs (try_join r c).
Proof.
  intros Hs [(es & Hq & Ho & Hr) Hd]. rewrite Hs, app_nil_r in Hr. destruct r as [x|error|]; simpl.
  - by apply (running_inv hs es).
  - split; [|done]. exists es. split; [done|]. split; [done|]. cbn [with_status cn_status]. apply run_app.
    eexists. split; [exact Hr|]. econstructor; [apply step_fail|constructor].
  - split; [|done]. exists es. by rewrite app_nil_r.
Qed.

(** What a part of the task does, in a running state. *)
Lemma evolved_inv hs taken c c' : cn_status c = Running -> conn_inv hs c -> cn_status c' = Running ->
  map rq_handler (cn_queue c) = taken ++ map rq_handler (cn_queue c') -> (exists q, cn_queue c = q ++ cn_queue c') ->
  evolves taken (cn_handlers c) (cn_handlers c') -> conn_inv hs c'.
Proof.
  intros Hs [(es & Hq & Ho & Hr) Hd] Hs' Hq' (q & Hsuf) (es' & Hr' & <- & Ho'). rewrite Hs, app_nil_r in Hr.
  apply (running_inv hs (es ++ es')); [done| | | |].
  - rewrite requested_app, <- app_assoc, <- Hq'. done.
  - by apply Forall_app.
  - apply run_app. eauto.
  - rewrite Hsuf in Hd. by apply Forall_app in Hd as [_ Hd].
Qed.

Lemma inv_counts hs c : cn_status c = Running -> conn_inv hs c -> exists n, counts (cn_handlers c) n.
Proof.
  intros Hs [(es & _ & _ & Hr) _]. rewrite Hs, app_nil_r in Hr. destruct (run_assigned _ _ _ 0 Hr counts_new) as [_ H]. eauto.
Qed.

Lemma writes_status ids writing m (c : Connection) : cn_status c = Running ->
  exists s, (m (writer_of ids c)).2 = s /\ writes ids writing m c = try_join (m (writer_of ids c)).1 (with_writer writing s c).
Proof. intros Hs. exists (m (writer_of ids c)).2. split; [done|]. unfold writes. by destruct (m (writer_of ids c)). Qed.

Lemma step_inv ev hs c c' : conn_inv hs c -> conn_step ev c = Some c' -> conn_inv (hs ++ submitted [ev]) c'.
Proof.
  intros Hinv. unfold conn_step. destruct (cn_status c) eqn:Hs; [|done..].
  assert (Htake : forall ids q request, cn_queue c = request :: q ->
    conn_inv hs (writes ids true (write_request request) (with_queue q c))).
  { intros ids q request Hq. destruct (writes_status ids true (write_request request) (with_queue q c) Hs) as (s & Hm & ->).
    apply try_join_inv; [done|]. destruct (inv_counts hs c Hs Hinv) as [n Hn].
    apply (evolved_inv hs [rq_handler request] c); try done; [by simpl; rewrite Hq|by exists [request]|].
    subst s. apply (write_request_evolves request (writer_of ids (with_queue q c)) n); [done|].
    pose proof (ci_data _ _ Hinv) as Hd. rewrite Hq in Hd. by apply Forall_cons in Hd as [Hd _]. }
  destruct ev as [e handshake h| | |r|r]; cbn [submitted map concat]; rewrite ?app_nil_r.
  - unfold write_envelope. destruct (envelope_request _ _ _ _) as [request| |] eqn:He; [|done..]. rewrite Hs.
    destruct (length (cn_queue c) <? buffer_size)%nat; [|done]. intros [= <-].
    apply envelope_request_data in He as [Hl <-]. destruct Hinv as [(es & Hq & Ho & Hr) Hd]. rewrite Hs, app_nil_r in Hr.
    apply (running_inv _ es); [done| |done|done|].
    + cbn [with_queue cn_queue]. by rewrite map_app, app_assoc, Hq.
    + apply Forall_app. split; [done|]. by constructor.
  - destruct (cn_writing c); [done|]. destruct (cn_queue c) as [|request q] eqn:Hq; [done|]. intros [= <-]. by apply Htake.
  - destruct (cn_writing c); [|done]. destruct (cn_queue c) as [|request q] eqn:Hq; intros [= <-]; [|by apply Htake].
    destruct (writes_status (cn_stream_ids c) false finish_batch c Hs) as (s & Hm & ->). apply try_join_inv; [done|].
    apply (evolved_inv hs [] c); try done; [by exists []|]. subst s. apply (quiet_finish (writer_of (cn_stream_ids c) c)).
  - destruct (cn_framed c); [done|]. destruct r as [e|error|].
    + pose proof (handshake_evolves e (cn_reader c)) as H. destruct (handshake_envelope e (cn_reader c)) as [r s].
      intros [= <-]. apply try_join_inv; [done|]. apply (evolved_inv hs [] c); try done. by exists [].
    + intros [= <-]. exact (try_join_inv (A := unit) (Err error) hs c Hs Hinv).
    + intros [= <-]. exact (try_join_inv (A := unit) Panic hs c Hs Hinv).
  - destruct (cn_framed c) as [buffer|]; [|done].
    pose proof (handle_read_evolves r (cn_decoder c) buffer (cn_reader c)) as H.
    destruct (handle_read r (cn_decoder c) buffer (cn_reader c)) as [[[r1 d1] b1] s1].
    intros [= <-]. apply try_join_inv; [done|]. apply (evolved_inv hs [] c); try done. by exists [].
Qed.

Lemma run_inv evs hs c c' : conn_inv hs c -> conn_run evs c = Some c' -> conn_inv (hs ++ submitted evs) c'.
Proof.
  revert hs c. induction evs as [|ev evs IH]; intros hs c Hi; cbn [conn_run]; [intros [= <-]; by rewrite app_nil_r|].
  destruct (conn_step ev c) as [c1|] eqn:Hs; [|done]. intros H. apply (step_inv ev hs c c1 Hi) in Hs.
  specialize (IH _ _ Hs H). rewrite <- app_assoc in IH. by rewrite <- (submitted_app [ev]) in IH.
Qed.

(** ** What a connection promises *)

Lemma fate_of_none h fs : fate_of h fs = None <-> h ∉ fs.*1.
Proof.
  unfold fate_of. induction fs as [|[k f] fs IH]; [by split; [set_solver|]|]. rewrite filter_cons. cbn [fst].
  rewrite fmap_cons, not_elem_of_cons. destruct (decide (k = h)) as [->|Hne]; [by split; [|intros [? _]]|].
  rewrite IH. naive_solver.
Qed.
Lemma fate_of_some h fs f : fate_of h fs = Some f -> (h, f) ∈ fs.
Proof.
  unfold fate_of. destruct (filter _ fs) as [|[k g] l] eqn:Hf; [done|]. intros [= <-].
  assert (Hin : (k, g) ∈ filter (fun x : handler * fate => x.1 = h) fs) by (rewrite Hf; by left).
  apply list_elem_of_filter in Hin as [Hk Hin]. simpl in Hk. by subst.
Qed.

Lemma failed_run m error m' : run m [Failed error] m' -> m' = signal_general_error m error.
Proof.
  intros H. inversion H as [|? ? m1 ? ? Hs Hn]; subst. inversion Hn; subst. by inversion Hs.
Qed.

Section Runs.
Context (frame_encoder : E) (write_half : W) (frame_decoder : D) (k : KeyspaceHolder).
Abbreviation new := (Connection_new frame_encoder write_half frame_decoder k).

Lemma new_inv : conn_inv [] new.
Proof. by apply (running_inv [] []); [..|constructor|constructor]. Qed.

Lemma reached_inv evs c : conn_run evs new = Some c -> conn_inv (submitted evs) c.
Proof. exact (run_inv evs [] new c new_inv). Qed.

(** Where the handlers of the requests are. *)
Lemma reached_handlers evs c : conn_run evs new = Some c ->
  submitted evs ≡ₚ map rq_handler (cn_queue c) ++ in_flight (cn_handlers c) ++ (fates (cn_handlers c)).*1.
Proof.
  intros H%reached_inv. destruct H as [(es & <- & _ & Hr) _]. apply run_conserves in Hr.
  change (in_flight ResponseHandlerMap_new) with (@nil handler) in Hr. cbn [ResponseHandlerMap_new fates] in Hr.
  rewrite requested_app in Hr.
  assert (E0 : requested match cn_status c with Ended error => [Failed error] | _ => [] end = []) by (by destruct (cn_status c)).
  rewrite E0, !app_nil_r in Hr. rewrite Hr. apply Permutation_app_comm.
Qed.

(** An envelope that answers a request carries the stream id that was given to
    it, its place in the order of the requests. *)
Lemma answers_own_stream evs c h e : conn_run evs new = Some c -> (h, Sent (Ok e)) ∈ fates (cn_handlers c) ->
  exists k, submitted evs !! k = Some h /\ stream_id e = nth_stream_id (Z.of_nat k).
Proof.
  intros H%reached_inv Hin. destruct H as [(es & Hq & Ho & Hr) _].
  assert (Ho' : Forall own_stream (es ++ match cn_status c with Ended error => [Failed error] | _ => [] end)).
  { apply Forall_app. split; [done|]. destruct (cn_status c); by repeat constructor. }
  destruct (oi_answered _ _ (run_own_ids _ _ _ [] Hr Ho' new_own_ids) _ _ Hin) as (i & Hk & He).
  exists i. split; [|done]. rewrite <- Hq. apply lookup_app_l_Some. cbn [app] in Hk. rewrite requested_app in Hk.
  by destruct (cn_status c); rewrite app_nil_r in Hk.
Qed.

(** C3: However the writer, the reader and the requesters interleave, and
    whatever the socket and the server do, the handlers of a connection go
    through a run of the multiplexer: requests are registered in the order in
    which they were put in the channel, the [k]-th with the [k]-th stream id, a
    response is sent under no other stream id than the one it carries, and an error that ends the connection is the last event. *)
Theorem connection_refines_multiplexer evs c : conn_run evs new = Some c ->
  exists es, requested es ++ map rq_handler (cn_queue c) = submitted evs /\
    assigned es = map (fun k => nth_stream_id (Z.of_nat k)) (seq 0 (length (requested es))) /\
    Forall own_stream es /\
    run ResponseHandlerMap_new (es ++ match cn_status c with Ended error => [Failed error] | _ => [] end) (cn_handlers c).
Proof.
  intros H%reached_inv. destruct H as [(es & Hq & Ho & Hr) _]. exists es. split_and!; [done| |done|done].
  apply run_app in Hr as (m & Hr & _). by destruct (run_assigned _ _ _ 0 Hr counts_new) as [-> _].
Qed.

End Runs.

(** A panic of the task, for example by a RESULT envelope shorter than its kind,
    leaves the connection looking healthy: it is not marked broken and the error
    handler hears nothing, but every request is refused from then on. *)
Theorem panic_looks_healthy c buffer chunk e es d b :
  cn_status c = Running -> cn_framed c = Some buffer -> chunk <> [] ->
  consume (cn_decoder c) (buffer ++ chunk) compression = (Ok (e :: es), d, b) ->
  0 <= stream_id e -> opcode e = OpResult -> (length (body e) < INT_LEN)%nat ->
  exists c', conn_step (ERead (Ok chunk)) c = Some c' /\ cn_status c' = Crashed /\ cn_is_broken c' = false /\
    cn_error_sent c' = None /\
    (forall ev, conn_step ev c' = None) /\
    (forall e handshake h, match write_envelope e handshake h c' with Some (Ok _) | None => False | _ => True end).
Proof.
  intros Hs Hf Hne Hc Hsid Ho Hb. exists (try_join (A := unit) Panic (with_reader d (Some b) (cn_reader c) c)). split.
  - unfold conn_step. rewrite Hs, Hf. destruct chunk as [|x chunk]; [done|]. unfold handle_read. rewrite Hc.
    cbn [handle_envelopes]. assert (Hp : handle_envelope addr event_handler e (cn_reader c) = (Panic, cn_reader c)).
    { unfold handle_envelope, set_keyspace_of.
      rewrite (proj2 (Z.leb_le _ _) Hsid), bool_decide_true by done. by rewrite (proj2 (Nat.leb_gt _ _) Hb). }
    rewrite Hp. reflexivity.
  - split_and!; try done. intros e' handshake h. unfold write_envelope. by destruct (envelope_request _ _ _ _).
Qed.
End Connection.

(** ** Requests and their answers, over the wire *)

(** The decoders of protocol 5 wrap the generic one. *)
Class FramedDecoder `{UuidLib} `{Lz4Lib} `{SnapLib} (D : Type) `{!FrameDecoder D} (try_decode : bytes -> frame_result) : Type := {
  wraps : GenericFrameDecoder -> D;
  consume_wraps : forall d data c, consume (wraps d) data c =
    let '(r, inner, data) := Generic_consume try_decode d data in (r, wraps inner, data) }.
#[export] Instance Lz4_FramedDecoder `{UuidLib, Lz4Lib, SnapLib, Crc32Lib} : FramedDecoder Lz4FrameDecoder Lz4_try_decode_frame :=
  {| wraps := mkLz4Dec; consume_wraps d data c := eq_refl |}.
#[export] Instance Uncompressed_FramedDecoder `{UuidLib, Lz4Lib, SnapLib, Crc32Lib} :
    FramedDecoder UncompressedFrameDecoder Uncompressed_try_decode_frame :=
  {| wraps := mkUncompressedDec; consume_wraps d data c := eq_refl |}.

Section Exchange.
Context {U : UuidLib} {L : Lz4Lib} {SN : SnapLib} {C : Crc32Lib} {HZ : HashIter Z}.
Context {W : Type} `{!AsyncWrite W} `{!ReliableWrite W}.

Lemma feed_wraps `{!FrameDecoder D} try_decode `{!FramedDecoder D try_decode} c chunks : forall d buffer,
  feed c (wraps d) buffer chunks =
  omap (fun r => let '(es, d, buffer) := r in (es, wraps d, buffer)) (feed_generic try_decode d buffer chunks).
Proof.
  induction chunks as [|chunk chunks IH]; intros d buffer; [done|]. cbn [feed feed_generic]. rewrite consume_wraps.
  destruct (Generic_consume try_decode d (buffer ++ chunk)) as [[[es| |] d1] b1]; [|done..]. rewrite IH.
  by destruct (feed_generic try_decode d1 b1 chunks) as [[[es2 d2] b2]| |].
Qed.

(** Requests with distinct ids are all waiting, each under its id. *)
Lemma requests_waiting rs : forall n m m', run m (request_events n rs) m' -> counts m n -> zlen rs <= 2 ^ 15 ->
  (forall j, 0 <= j < zlen rs -> stream_handlers m !! nth_stream_id (n + j) = None) ->
  fates m' = fates m /\
  (forall i r, rs !! i = Some r -> stream_handlers m' !! nth_stream_id (n + Z.of_nat i) = Some (rq_handler r)) /\
  (forall sid, (forall j, 0 <= j < zlen rs -> sid <> nth_stream_id (n + j)) -> stream_handlers m' !! sid = stream_handlers m !! sid).
Proof.
  induction rs as [|r rs IH]; intros n m m' Hr Hc Hl Hfree; cbn [request_events] in Hr.
  { inversion Hr; subst. done. }
  inversion Hr as [|? ? m1 ? ? Hs Hr1]; subst. rewrite zlen_cons in Hl, Hfree. pose proof (zlen_nonneg rs).
  destruct (step_counts _ _ _ _ Hs Hc) as [Hc1 _]. inversion Hs as [? ? ? m0 Hm| |]; subst.
  destruct (next_stream_id_spec _ _ Hc) as (m0' & Hm' & _ & Hh0 & Hf0). rewrite Hm in Hm'. injection Hm' as <-.
  assert (Hnew : stream_handlers m0 !! nth_stream_id n = None).
  { rewrite Hh0. rewrite <- (Z.add_0_r n). apply Hfree. lia. }
  assert (Hids : forall j, 0 <= j < zlen rs -> nth_stream_id n <> nth_stream_id (n + 1 + j)).
  { intros j Hj Heq. apply nth_stream_id_inj in Heq; lia. }
  destruct (IH (n + 1) _ m' Hr1 Hc1) as (H1 & H2 & H3); [lia| |].
  { intros j Hj. cbn [add_handler stream_handlers]. rewrite lookup_insert_ne by (by apply Hids).
    rewrite Hh0, <- Z.add_assoc. apply Hfree. lia. }
  split_and!.
  - rewrite H1. cbn [add_handler fates]. by rewrite Hnew, app_nil_r.
  - intros [|i] r' Hi; [injection Hi as <-|].
    + rewrite Z.add_0_r, H3 by exact Hids. apply lookup_insert_eq.
    + replace (n + Z.of_nat (S i)) with (n + 1 + Z.of_nat i) by lia. by apply H2.
  - intros sid Hsid. rewrite zlen_cons in Hsid. rewrite H3.
    + cbn [add_handler stream_handlers]. rewrite lookup_insert_ne, Hh0; [done|].
      intros <-. apply (Hsid 0); [lia|]. by rewrite Z.add_0_r.
    + intros j Hj. rewrite <- Z.add_assoc. apply Hsid. lia.
Qed.

Context `{!HashIter bytes} `{!HashIter SocketAddr}.
Context {E : Type} `{!FrameEncoder E} {D : Type} `{!FrameDecoder D}.
Context (try_decode : bytes -> frame_result) `{!EncoderLaws E try_decode} `{!FramedDecoder D try_decode}.
Context (addr : SocketAddr) (c : Compression) (event_handler : bool).

(** The answer to the request of index [an_index], an envelope with its content. *)
Record answer : Type := mkAnswer { an_index : nat; an_envelope : Envelope; an_body : ResponseBody }.
(** The server answers requests registered from the [n]-th on, each at most
    once, in any order, in frames of whole envelopes. *)
Record answers (n : Z) (count : nat) (ps : list answer) (fs : list (bytes * (bool * bytes))) : Prop := {
  as_once : NoDup (map an_index ps);
  as_own : Forall (fun p => (an_index p < count)%nat /\ carries (an_envelope p) (an_body p) /\
                            stream_id (an_envelope p) = nth_stream_id (n + Z.of_nat (an_index p))) ps;
  as_frames : fs <> [] /\ Forall (framed try_decode) fs;
  as_payloads : exists dss, fs.*2 = map (fun ds => (true, concat ds)) dss /\ all_encoded (map an_envelope ps) (concat dss) }.

Lemma answers_decoded n count ps fs chunks : answers n count ps fs -> concat chunks = concat fs.*1 ->
  feed_generic try_decode GenericFrameDecoder_default [] chunks
  = Ok (map received (map an_envelope ps), GenericFrameDecoder_default, []).
Proof.
  intros [_ _ [Hne Hfs] (dss & Hpay & Henc)] Hch.
  assert (Hpart : partial try_decode []).
  { destruct fs as [|[fr [sc p]] fs]; [done|]. apply Forall_cons in Hfs as [Hf _].
    exists fr, sc, p, fr. split; [exact Hf|]. split; [done|]. by destruct Hf. }
  apply (feed_generic_frames try_decode chunks GenericFrameDecoder_default fs [] _ GenericFrameDecoder_default); try done.
  - by rewrite app_nil_r.
  - rewrite Hpay. by apply handle_together.
Qed.

(** The answers are for streams that wait. *)
Lemma answers_expected n rs ps fs m : answers n (length rs) ps fs -> zlen rs <= 2 ^ 15 ->
  (forall i r, rs !! i = Some r -> stream_handlers m !! nth_stream_id (n + Z.of_nat i) = Some (rq_handler r)) ->
  exists hs, Forall2 (fun p h => rq_handler <$> rs !! an_index p = Some h) ps hs /\
    NoDup (map (fun p => stream_id p.1.1) (zip (zip (map (fun p => received (an_envelope p)) ps) (map an_body ps)) hs)) /\
    Forall (expected m) (zip (zip (map (fun p => received (an_envelope p)) ps) (map an_body ps)) hs).
Proof.
  intros [Honce Hown _ _] Hl Hm. clear -Honce Hown Hl Hm. induction Hown as [|p ps (Hi & Hc & Hid) Hown IH].
  - exists []. split; [constructor|]. split; constructor.
  - apply NoDup_cons in Honce as [Hni Honce]. destruct (IH Honce) as (hs & H1 & H2 & H3).
    destruct (lookup_lt_is_Some_2 rs (an_index p) Hi) as [r Hr]. exists (rq_handler r :: hs).
    split; [constructor; [by rewrite Hr|done]|]. split.
    + cbn [map zip zip_with fst]. apply NoDup_cons. split; [|done]. intros (q & Hq & Hin)%list_elem_of_fmap.
      assert (Hex : exists p', p' ∈ ps /\ stream_id q.1.1 = stream_id (an_envelope p')).
      { clear -Hin H1. revert Hin. induction H1 as [|p' h ps hs _ _ IH]; cbn; [by intros ?%elem_of_nil|].
        intros [->|Hin]%elem_of_cons; [exists p'; split; [by left|done]|].
        destruct (IH Hin) as (p'' & ? & ?). exists p''. split; [by right|done]. }
      destruct Hex as (p' & Hp' & Heq). rewrite Heq in Hq. rewrite Forall_forall in Hown.
      destruct (Hown p' Hp') as (Hi' & _ & Hid'). change (stream_id (received (an_envelope p))) with (stream_id (an_envelope p)) in Hq.
      rewrite Hid, Hid' in Hq. apply nth_stream_id_inj in Hq; [|unfold zlen in Hl; lia].
      apply Hni. assert (an_index p = an_index p') as -> by lia. by apply list_elem_of_fmap_2.
    + cbn [map zip zip_with]. constructor; [|done]. split; [exact Hc|]. cbn [fst snd].
      change (stream_id (received (an_envelope p))) with (stream_id (an_envelope p)). rewrite Hid. split; [|by apply Hm].
      unfold nth_stream_id. apply Z.mod_pos_bound. lia.
Qed.

(** What the handlers of the answered requests got. *)
Definition got_answers (rs : list RequestMsg) (ps : list answer) (fs : list (handler * fate)) : Prop :=
  Forall2 (fun p f => exists r, rs !! an_index p = Some r /\
    f = (rq_handler r, Sent (response_result addr (received (an_envelope p)) (an_body p)))) ps fs.

Lemma got_zip rs ps hs : Forall2 (fun p h => rq_handler <$> rs !! an_index p = Some h) ps hs ->
  got_answers rs ps (map (fun p => (p.2, Sent (response_result addr p.1.1 p.1.2)))
    (zip (zip (map (fun p => received (an_envelope p)) ps) (map an_body ps)) hs)).
Proof.
  induction 1 as [|p h ps hs Hp _ IH]; [constructor|]. constructor; [|exact IH].
  destruct (rs !! an_index p) as [r|]; [|done]. injection Hp as <-. by exists r.
Qed.

End Exchange.

(** ** Witnesses *)

Module ConnectionSamples.
#[local] Existing Instances uuid_bytes stored_lz4 stored_snap crc32_ieee WriterSamples.order WriterSamples.sink_write
  WriterSamples.sink_reliable ReaderSamples.order ReaderSamples.order_addr.
Import WriterSamples ReaderSamples.

(** The third request is answered first, the first with an error, the second not yet. *)
Definition response (r : ResponseBody) (sid : Z) : Envelope :=
  mkEnvelope V5 Response 0 (response_opcode r) sid (body_of r) None [].
Definition given : list answer := [mkAnswer 2 (response use_ks 3) use_ks; mkAnswer 0 (response fail 1) fail].
Definition payload : bytes := bytes_of (response use_ks 3) ++ bytes_of (response fail 1).
Definition reply_frames : list (bytes * (bool * bytes)) := [(u_frame true payload, (true, payload))].

Lemma given_answers : answers Uncompressed_try_decode_frame 0 3 given reply_frames.
Proof.
  split.
  - by apply (bool_decide_unpack _); vm_compute.
  - apply Forall_cons_2; [|apply Forall_cons_2; [|by constructor]]; (split; [simpl; lia|split; [|done]]).
    + split; [|done]. apply short_string_ok_wf. reflexivity.
    + split; [|done]. split; [|done]. apply short_string_ok_wf. reflexivity.
  - split; [done|]. apply Forall_cons_2; [apply u_frame_framed; by vm_compute|constructor].
  - exists [[bytes_of (response use_ks 3); bytes_of (response fail 1)]]. split; [by vm_compute|].
    repeat constructor; by vm_compute.
Qed.


(** A handshake, two requests of which one is answered, and the end of the stream. *)
Definition start : Connection (E := UncompressedFrameEncoder) (W := sink) (D := UncompressedFrameDecoder) :=
  Connection_new UncompressedFrameEncoder_default (mkSink []) (mkUncompressedDec GenericFrameDecoder_default) KeyspaceHolder_new.
Definition conversation : list cn_event :=
  [ESubmit opts true 1%nat; EReceive; ETryReceive; EEnvelope (Ok (response RbReady 1));
   ESubmit query false 2%nat; EReceive; ESubmit opts false 3%nat; ETryReceive; ETryReceive;
   ERead (Ok (u_frame true (bytes_of (response use_ks 3))));
   ESubmit opts false 4%nat; ERead (Ok [])].
Definition final : Connection :=
  match conn_run node NoCompression 10 true true conversation start with Some c => c | None => start end.
Lemma final_reached : conn_run node NoCompression 10 true true conversation start = Some final.
Proof. vm_compute. reflexivity. Qed.

Lemma final_fates : fates (cn_handlers final) =
  [(1%nat, Sent (Ok (response RbReady 1))); (3%nat, Sent (Ok (response use_ks 3))); (2%nat, Sent (Err (EIo UnexpectedEof)))].
Proof. by vm_compute. Qed.

Lemma connection_refines_multiplexer_witness :
  exists es, requested es ++ [4%nat] = [1; 2; 3; 4]%nat /\
    run ResponseHandlerMap_new (es ++ [Failed (EIo UnexpectedEof)]) (cn_handlers final).
Proof.
  destruct (connection_refines_multiplexer node NoCompression 10 true true _ _ _ _ _ _ final_reached) as (es & H1 & _ & _ & H3).
  exists es. split; [exact H1|exact H3].
Defined.


(** A server that answers with three bytes. *)
Definition framed_start : Connection (E := UncompressedFrameEncoder) (W := sink) (D := UncompressedFrameDecoder) :=
  with_reader (mkUncompressedDec GenericFrameDecoder_default) (Some []) (cn_reader start) start.
Definition short : Envelope := mkEnvelope V5 Response 0 OpResult 1 [u8 0; u8 0; u8 0] None [].
Definition short_chunk : bytes := u_frame true (bytes_of short).
Lemma panic_looks_healthy_witness :
  exists c', conn_step node NoCompression 10 true true (ERead (Ok short_chunk)) framed_start = Some c' /\
    cn_status c' = Crashed /\ cn_is_broken c' = false.
Proof.
  destruct (panic_looks_healthy node NoCompression 10 true true framed_start [] short_chunk short [] (mkUncompressedDec GenericFrameDecoder_default) [])
    as (c' & H1 & H2 & H3 & _); [reflexivity|reflexivity|by vm_compute|by vm_compute|done|reflexivity|simpl; unfold INT_LEN; lia|].
  exists c'. split; [exact H1|]. split; [exact H2|exact H3].
Defined.
End ConnectionSamples.
