(* ===== verification/Retry.v ===== *)
(** * Retries, reconnections, speculation: [cdrs-tokio/src/retry], [cluster/send_envelope.rs],
      [speculative_execution.rs]

    A retry session decides what to do after an error; [send_envelope] walks
    the query plan with it.  The nodes and the network are an environment
    with a state of its own; every write made is recorded. *)

From S2P Require Import Prelude Types Wire Compression Envelope ErrorMsg.
Local Open Scope Z_scope.
Local Open Scope cdrs_scope.

(** ** Retry policies *)

Inductive RetryDecision : Type := RetrySameNode | RetryNextNode | DontRetry.
#[export] Instance RetryDecision_eq_dec : EqDecision RetryDecision.
Proof. solve_decision. Defined.

Record QueryInfo : Type := mkQueryInfo { qi_error : Error; qi_is_idempotent : bool }.

(** [trait RetrySession] *)
Class RetrySession (S : Type) : Type := decide_retry : S -> QueryInfo -> RetryDecision * S.

Record FallthroughRetrySession : Type := mkFallthrough {}.
#[export] Instance Fallthrough_session : RetrySession FallthroughRetrySession := fun s _ => (DontRetry, s).

Record DefaultRetrySession : Type := mkDefaultSession {
  was_unavailable_retry : bool; was_read_timeout_retry : bool; was_write_timeout_retry : bool }.
Definition DefaultRetrySession_default : DefaultRetrySession := mkDefaultSession false false false.

(** [trait RetryPolicy] and the two policies *)
Class RetryPolicy (P S : Type) : Type := new_session : P -> S.
Record FallthroughRetryPolicy : Type := mkFallthroughPolicy {}.
Record DefaultRetryPolicy : Type := mkDefaultPolicy {}.
#[export] Instance Fallthrough_policy : RetryPolicy FallthroughRetryPolicy FallthroughRetrySession := fun _ => mkFallthrough.
#[export] Instance Default_policy : RetryPolicy DefaultRetryPolicy DefaultRetrySession := fun _ => DefaultRetrySession_default.

Definition if_idempotent (q : QueryInfo) : RetryDecision :=
  if qi_is_idempotent q then RetryNextNode else DontRetry.

Definition Default_decide (s : DefaultRetrySession) (q : QueryInfo) : RetryDecision * DefaultRetrySession :=
  match qi_error q with
  | EIo _ | EGeneral _ => (if_idempotent q, s)
  | EServer body _ =>
    match eb_ty body with
    | EtOverloaded | EtServer | EtTruncate => (if_idempotent q, s)
    | EtUnavailable _ =>
      if negb (was_unavailable_retry s)
      then (RetryNextNode, mkDefaultSession true (was_read_timeout_retry s) (was_write_timeout_retry s))
      else (DontRetry, s)
    | EtReadTimeout error =>
      if negb (was_read_timeout_retry s) && (rte_block_for error <=? rte_received error)
         && ReadTimeout_replica_has_responded error
      then (RetrySameNode, mkDefaultSession (was_unavailable_retry s) true (was_write_timeout_retry s))
      else (DontRetry, s)
    | EtWriteTimeout error =>
      if negb (was_write_timeout_retry s) && qi_is_idempotent q
         && bool_decide (wte_write_type error = WtBatchLog)
      then (RetrySameNode, mkDefaultSession (was_unavailable_retry s) (was_read_timeout_retry s) true)
      else (DontRetry, s)
    | EtIsBootstrapping => (RetryNextNode, s)
    | _ => (DontRetry, s)
    end
  | _ => (DontRetry, s)
  end.
#[export] Instance Default_session : RetrySession DefaultRetrySession := Default_decide.

(** ** [send_envelope] *)

Section SendEnvelope.
Context {U : UuidLib} {N : Type} {W : Type} {S : Type} `{!RetrySession S}.
(** Getting a connection to a node and writing the envelope to it. *)
Context (persistent_connection : N -> W -> Result unit * W) (write_envelope : N -> W -> Result Envelope * W).

(** The environment, the session and the writes made so far. *)
Record SendState : Type := mkSend { world : W; session : S; writes : list (N * Result Envelope) }.

(** What the loop over the same node ends with. *)
Inductive node_outcome : Type :=
| Return (r : Result Envelope)
| NextNode (saved : option Error).

(** [loop] on one node; [None] when the bound on rounds is reached. *)
Fixpoint try_node (fuel : nat) (is_idempotent : bool) (n : N) (s : SendState) : option (node_outcome * SendState) :=
  match fuel with
  | O => None
  | Datatypes.S fuel' =>
    let '(transport, w) := persistent_connection n (world s) in
    match transport with
    | Ok _ =>
      let '(r, w) := write_envelope n w in
      match r with
      | Ok e => Some (Return (Ok e), mkSend w (session s) (writes s ++ [(n, r)]))
      | Err error =>
        let '(decision, session') := decide_retry (session s) (mkQueryInfo error is_idempotent) in
        let s := mkSend w session' (writes s ++ [(n, r)]) in
        match decision with
        | RetrySameNode => try_node fuel' is_idempotent n s
        | RetryNextNode => Some (NextNode None, s)
        | DontRetry => Some (Return (Err error), s)
        end
      | Panic => Some (Return Panic, mkSend w (session s) (writes s ++ [(n, r)]))
      end
    | Err error => Some (NextNode (Some error), mkSend w (session s) (writes s))
    | Panic => Some (Return Panic, mkSend w (session s) (writes s))
    end
  end.

(** The loop over the plan; [result] is the last connection error. *)
Fixpoint send_loop (fuel : nat) (is_idempotent : bool) (query_plan : list N) (result : option Error) (s : SendState)
  : option (option (Result Envelope) * SendState) :=
  match query_plan with
  | [] => Some (option_map Err result, s)
  | n :: plan =>
    match try_node fuel is_idempotent n s with
    | Some (Return r, s) => Some (Some r, s)
    | Some (NextNode (Some error), s) => send_loop fuel is_idempotent plan (Some error) s
    | Some (NextNode None, s) => send_loop fuel is_idempotent plan result s
    | None => None
    end
  end.

Definition send_envelope (fuel : nat) (query_plan : list N) (is_idempotent : bool) (session : S) (w : W)
  : option (option (Result Envelope) * SendState) :=
  send_loop fuel is_idempotent query_plan None (mkSend w session []).
End SendEnvelope.
Arguments SendState : clear implicits.
Arguments SendState {_} _ _ _.

(** ** [speculative_execution.rs] *)

Record ConstantSpeculativeExecutionPolicy : Type := mkConstantSpeculative {
  max_executions : Z; speculative_delay : Z }.
Definition execution_interval (p : ConstantSpeculativeExecutionPolicy) (running_executions : Z) : option Z :=
  if running_executions <? max_executions p then Some (speculative_delay p) else None.

(** ** [retry/reconnection_policy.rs]

    A [Duration] is its number of nanoseconds; the operations used here are
    exact on it up to [DURATION_MAX]. *)

Definition DURATION_MAX : Z := (2 ^ 64 - 1) * 1000000000 + 999999999.
Definition from_secs (s : Z) : Z := s * 1000000000.
Definition saturating_mul (d k : Z) : Z := Z.min (d * k) DURATION_MAX.
Definition DEFAULT_BASE_DELAY : Z := from_secs 1.
Definition DEFAULT_MAX_DELAY : Z := from_secs 60.

(** [1u32.checked_shl(n).unwrap_or(u32::MAX)] *)
Definition shl_or_max (n : Z) : Z := if n <? 32 then 2 ^ n else 2 ^ 32 - 1.

(** [Ord::clamp], which asserts that the bounds are ordered. *)
Definition clamp (d lo hi : Z) : Result Z := if lo <=? hi then Ok (Z.max lo (Z.min d hi)) else Panic.

(** [trait ReconnectionSchedule]; the first argument is the random number
    drawn, which only one schedule uses. *)
Class ReconnectionSchedule (S : Type) : Type := next_delay : Z -> S -> Result (option Z) * S.

Record ConstantReconnectionSchedule : Type := mkConstantSchedule { constant_delay : Z }.
#[export] Instance Constant_schedule : ReconnectionSchedule ConstantReconnectionSchedule :=
  fun _ s => (Ok (Some (constant_delay s)), s).

Record NeverReconnectionSchedule : Type := mkNeverSchedule {}.
#[export] Instance Never_schedule : ReconnectionSchedule NeverReconnectionSchedule := fun _ s => (Ok None, s).

Record ExponentialReconnectionSchedule : Type := mkExponential {
  base_delay : Z; max_delay : Z; max_attempts : Z; attempt : Z }.
Definition Exponential_new (base max attempts : Z) : ExponentialReconnectionSchedule := mkExponential base max attempts 0.

Definition Exponential_next_delay (jitter : Z) (s : ExponentialReconnectionSchedule)
  : Result (option Z) * ExponentialReconnectionSchedule :=
  if attempt s =? max_attempts s then (Ok (Some (max_delay s)), s)
  else
    let s := mkExponential (base_delay s) (max_delay s) (max_attempts s) (attempt s + 1) in
    let delay := Z.min (saturating_mul (base_delay s) (shl_or_max (attempt s mod 2 ^ 32))) (max_delay s) in
    (let? d := clamp (saturating_mul (delay / 100) jitter) (base_delay s) (max_delay s) in Ok (Some d), s).
#[export] Instance Exponential_schedule : ReconnectionSchedule ExponentialReconnectionSchedule :=
  Exponential_next_delay.

(** [trait ReconnectionPolicy] and the three policies *)
Class ReconnectionPolicy (P S : Type) : Type := new_node_schedule : P -> S.
Record ConstantReconnectionPolicy : Type := mkConstantPolicy { constant_base_delay : Z }.
Record NeverReconnectionPolicy : Type := mkNeverPolicy {}.
Record ExponentialReconnectionPolicy : Type := mkExponentialPolicy {
  policy_base_delay : Z; policy_max_delay : Z; policy_max_attempts : Z }.
#[export] Instance Constant_policy : ReconnectionPolicy ConstantReconnectionPolicy ConstantReconnectionSchedule :=
  fun p => mkConstantSchedule (constant_base_delay p).
#[export] Instance Never_policy : ReconnectionPolicy NeverReconnectionPolicy NeverReconnectionSchedule :=
  fun _ => mkNeverSchedule.
#[export] Instance Exponential_policy : ReconnectionPolicy ExponentialReconnectionPolicy ExponentialReconnectionSchedule :=
  fun p => Exponential_new (policy_base_delay p) (policy_max_delay p) (policy_max_attempts p).
Definition ConstantReconnectionPolicy_default : ConstantReconnectionPolicy := mkConstantPolicy DEFAULT_BASE_DELAY.
Definition ExponentialReconnectionPolicy_default : ExponentialReconnectionPolicy :=
  let base := DEFAULT_BASE_DELAY / 1000000 in
  let ceil := if Z.land base (base - 1) =? 0 then 0 else 1 in
  let leading_zeros := 63 - Z.log2 ((2 ^ 63 - 1) / base) in
  mkExponentialPolicy DEFAULT_BASE_DELAY DEFAULT_MAX_DELAY (64 - leading_zeros - ceil).
Definition Exponential_default : ExponentialReconnectionSchedule :=
  new_node_schedule ExponentialReconnectionPolicy_default.

(** The delays of successive calls, one per random number. *)
Fixpoint next_delays {S} `{!ReconnectionSchedule S} (jitters : list Z) (s : S) : list (Result (option Z)) * S :=
  match jitters with
  | [] => ([], s)
  | j :: js => let '(d, s) := next_delay j s in let '(ds, s) := next_delays js s in (d :: ds, s)
  end.

(** ** What the default policy may resend *)

(** The errors after which a request may be sent again: when the request is
    idempotent, or when the error says that it was not executed or only read. *)
Definition retriable (is_idempotent : bool) (e : Error) : bool :=
  match e with
  | EIo _ | EGeneral _ => is_idempotent
  | EServer body _ =>
    match eb_ty body with
    | EtOverloaded | EtServer | EtTruncate => is_idempotent
    | EtUnavailable _ | EtIsBootstrapping => true
    | EtReadTimeout e => (rte_block_for e <=? rte_received e) && ReadTimeout_replica_has_responded e
    | EtWriteTimeout e => is_idempotent && bool_decide (wte_write_type e = WtBatchLog)
    | _ => false
    end
  | _ => false
  end.

(** How often the session may still choose the same node. *)
Definition same_node_budget (s : DefaultRetrySession) : nat :=
  (if was_read_timeout_retry s then 0 else 1) + (if was_write_timeout_retry s then 0 else 1).

Lemma Default_decide_spec s q d s' :
  Default_decide s q = (d, s') ->
  match d with
  | DontRetry => s' = s
  | RetryNextNode => retriable (qi_is_idempotent q) (qi_error q) = true /\ same_node_budget s' = same_node_budget s
  | RetrySameNode => retriable (qi_is_idempotent q) (qi_error q) = true /\ same_node_budget s = S (same_node_budget s')
  end.
Proof.
  destruct s as [[] [] []], q as [e []]; unfold Default_decide, if_idempotent, retriable, same_node_budget; simpl;
    intros; repeat (case_match; simplify_eq/=; try done);
    repeat match goal with H : _ && _ = _ |- _ => apply andb_prop in H as [? ?] end; simpl in *; try done;
    try (split; [apply andb_true_intro|]; done).
Qed.

(** ** The retry loop with the default policy *)

Section DefaultRetries.
Context {U : UuidLib} {N : Type} {W : Type}.
Context (persistent_connection : N -> W -> Result unit * W) (write_envelope : N -> W -> Result Envelope * W).
Local Abbreviation State := (SendState N W DefaultRetrySession).

Definition resent (is_idempotent : bool) (p : N * Result Envelope) : Prop :=
  exists e, p.2 = Err e /\ retriable is_idempotent e = true.

(** The result against the writes made: the last write's answer, or what went
    wrong when connecting, or nothing; all other writes ended in errors after
    which resending is allowed. *)
Inductive accounted (is_idempotent : bool) (ws : list (N * Result Envelope)) : option (Result Envelope) -> Prop :=
| answered ws' n r : ws = ws' ++ [(n, r)] -> Forall (resent is_idempotent) ws' -> accounted is_idempotent ws (Some r)
| unreachable n w e : (persistent_connection n w).1 = Err e -> Forall (resent is_idempotent) ws ->
    accounted is_idempotent ws (Some (Err e))
| connect_panic n w : (persistent_connection n w).1 = Panic -> Forall (resent is_idempotent) ws ->
    accounted is_idempotent ws (Some Panic)
| exhausted : Forall (resent is_idempotent) ws -> accounted is_idempotent ws None.

Lemma accounted_after idem ws1 ws2 r :
  Forall (resent idem) ws1 -> accounted idem ws2 r -> accounted idem (ws1 ++ ws2) r.
Proof.
  intros H1 H2. destruct H2 as [ws' n r -> Hf|n w e He Hf|n w He Hf|Hf].
  - apply (answered _ _ (ws1 ++ ws') n); [by rewrite app_assoc|by apply Forall_app].
  - apply (unreachable _ _ n w); [done|by apply Forall_app].
  - apply (connect_panic _ _ n w); [done|by apply Forall_app].
  - apply exhausted. by apply Forall_app.
Qed.

Lemma try_node_bounded idem n : forall fuel (s : State),
  (same_node_budget (session s) < fuel)%nat ->
  exists out (s' : State) ws, try_node persistent_connection write_envelope fuel idem n s = Some (out, s') /\
    writes s' = writes s ++ ws /\ ws.*1 = replicate (length ws) n /\
    (length ws + same_node_budget (session s') <= 1 + same_node_budget (session s) /\
     same_node_budget (session s') <= same_node_budget (session s))%nat /\
    match out with
    | Return r => accounted idem ws (Some r)
    | NextNode None => Forall (resent idem) ws
    | NextNode (Some e) => (exists n w, (persistent_connection n w).1 = Err e) /\ Forall (resent idem) ws
    end.
Proof.
  induction fuel as [|fuel IH]; intros s Hb; [lia|]. simpl.
  destruct (persistent_connection n (world s)) as [t w1] eqn:Ec.
  assert (Ht : (persistent_connection n (world s)).1 = t) by by rewrite Ec.
  destruct t as [[]|e|].
  2:{ eexists _, _, []. rewrite app_nil_r. repeat split; simpl; [lia|lia|by eauto|done]. }
  2:{ eexists _, _, []. rewrite app_nil_r. repeat split; simpl; [lia|lia|]. by eapply connect_panic. }
  destruct (write_envelope n w1) as [[e|e|] w2].
  1,3: eexists _, _, [_]; repeat split; simpl; [lia|lia|]; by apply (answered _ _ [] n).
  destruct (decide_retry (session s) _) as [d s1] eqn:Ed. apply Default_decide_spec in Ed. simpl in Ed.
  destruct d.
  - destruct Ed as [Hr He].
    destruct (IH (mkSend w2 s1 (writes s ++ [(n, Err e)]))) as (out & s' & ws & -> & Hw & Hn & [Hl Hb1] & Ho); [simpl; lia|].
    eexists _, _, ((n, Err e) :: ws). simpl in *. rewrite Hw, <- app_assoc. repeat split; [by f_equal|lia|lia|].
    assert (Hf : Forall (resent idem) [(n, Err e)]) by (constructor; [by eexists|done]).
    destruct out as [r|[e'|]]; [by apply (accounted_after _ [_])| |by apply (Forall_app_2 _ [_])].
    destruct Ho. split; [done|by apply (Forall_app_2 _ [_])].
  - destruct Ed as [Hr He]. eexists _, _, [_]. repeat split; simpl; [lia|lia|]. constructor; [by eexists|done].
  - subst. eexists _, _, [_]. repeat split; simpl; [lia|lia|]. by apply (answered _ _ [] n).
Qed.

Lemma send_loop_bounded idem fuel : forall plan result (s : State),
  (same_node_budget (session s) < fuel)%nat ->
  (forall e, result = Some e -> exists n w, (persistent_connection n w).1 = Err e) ->
  exists r (s' : State) ws counts, send_loop persistent_connection write_envelope fuel idem plan result s = Some (r, s') /\
    writes s' = writes s ++ ws /\ ws.*1 = concat (zip_with replicate counts plan) /\
    (length ws + same_node_budget (session s') <= length plan + same_node_budget (session s))%nat /\ accounted idem ws r.
Proof.
  induction plan as [|n plan IH]; intros result s Hb Hres; simpl.
  { exists (option_map Err result), s, [], []. rewrite app_nil_r. repeat split; [simpl; lia|].
    destruct result as [e|]; [|by apply exhausted].
    destruct (Hres e) as (n & w & Hc); [done|]. by eapply unreachable. }
  destruct (try_node_bounded idem n fuel s Hb) as (out & s1 & ws1 & -> & Hw & Hn & [Hl Hb1] & Ho).
  destruct out as [r|o].
  { eexists _, _, ws1, [length ws1]. split; [done|]. simpl. rewrite app_nil_r. repeat split; [done..|lia|done]. }
  assert (Hf : Forall (resent idem) ws1) by (destruct o; [apply Ho|done]).
  destruct (IH (match o with Some e => Some e | None => result end) s1) as (r & s2 & ws2 & cs & Hr & Hw2 & Hn2 & Hl2 & Ha).
  { lia. }
  { destruct o as [e|]; [|done]. intros e' [= <-]. apply Ho. }
  exists r, s2, (ws1 ++ ws2), (length ws1 :: cs).
  split; [by destruct o|]. rewrite Hw2, Hw, app_assoc. simpl. rewrite fmap_app, Hn, Hn2, length_app.
  repeat split; [lia|]. by apply accounted_after.
Qed.

(** C11: with the default policy a request ends, in any environment: each
    node of the plan is tried in order with at most two writes more than
    nodes; the answer is that of the last write (or the last failure to
    connect, or none), and every write before it ended in an error after
    which the policy may resend such a request: for one that is not
    idempotent, only errors that say it was not executed or only read. *)
Theorem default_retries_bounded (more : nat) (query_plan : list N) (is_idempotent : bool) (w : W) :
  exists r st counts,
    send_envelope persistent_connection write_envelope (3 + more) query_plan is_idempotent DefaultRetrySession_default w
      = Some (r, st) /\
    (writes st).*1 = concat (zip_with replicate counts query_plan) /\
    (length (writes st) <= length query_plan + 2)%nat /\
    accounted is_idempotent (writes st) r.
Proof.
  destruct (send_loop_bounded is_idempotent (3 + more) query_plan None (mkSend w DefaultRetrySession_default []))
    as (r & s & ws & counts & Hs & Hw & Hn & Hl & Ha); [cbn; lia|done|].
  cbn in Hw, Hl. subst ws. exists r, s, counts. repeat split; [exact Hs|done|lia|done].
Qed.
End DefaultRetries.

(** A plan whose nodes all accept the connection and fail the write with
    an error that lets an idempotent request go to the next node leaves no
    result, although nodes were present and one error per node was seen. *)
Theorem exhausted_plan_loses_errors {U : UuidLib} {N : Type} (e : Error) (query_plan : list N) :
  match e with EIo _ | EGeneral _ => true | _ => false end = true ->
  exists st, send_envelope (fun _ w => (Ok (), w)) (fun _ w => (Err e, w)) 1 query_plan true
      DefaultRetrySession_default () = Some (None, st) /\
    writes st = (fun n => (n, Err e)) <$> query_plan.
Proof.
  intros He. unfold send_envelope.
  enough (H : forall ws, exists st, send_loop (fun _ w => (Ok (), w)) (fun _ w => (Err e, w)) 1 true query_plan None
      (mkSend () DefaultRetrySession_default ws) = Some (None, st) /\
      writes st = ws ++ ((fun n => (n, Err e)) <$> query_plan)) by apply (H []).
  induction query_plan as [|n plan IH]; intros ws; simpl; [by exists (mkSend () DefaultRetrySession_default ws); rewrite app_nil_r|].
  destruct (IH (ws ++ [(n, Err e)])) as (st & Hs & Hw).
  exists st. split; [by destruct e|]. by rewrite Hw, <- app_assoc.
Qed.

(** ** Delays *)

Definition valid_jitter (j : Z) : Prop := 85 <= j < 116.

(** The delay before jitter of the [k]-th attempt. *)
Definition nominal_delay (base max k : Z) : Z := Z.min (saturating_mul base (shl_or_max (k mod 2 ^ 32))) max.

(** What the [k]-th call (from 1) of a schedule may return. *)
Definition delay_ok (base max attempts k : Z) (r : Result (option Z)) : Prop :=
  exists d, r = Ok (Some d) /\ base <= d <= max /\
    (attempts < k -> d = max) /\
    (k <= attempts -> d <= Z.max base (nominal_delay base max k * 115 / 100) /\
                      Z.min max (nominal_delay base max k / 100 * 85) <= d).

Lemma Exponential_next_ok base max attempts k jitter :
  0 <= base <= max -> max <= DURATION_MAX -> 0 <= k -> valid_jitter jitter ->
  exists k', (Exponential_next_delay jitter (mkExponential base max attempts (Z.min attempts k))).2
      = mkExponential base max attempts k' /\ k' = Z.min attempts (k + 1) /\
    delay_ok base max attempts (k + 1) (Exponential_next_delay jitter (mkExponential base max attempts (Z.min attempts k))).1.
Proof.
  unfold valid_jitter. intros Hb Hm Hk Hj. unfold Exponential_next_delay. simpl.
  destruct (Z.eqb_spec (Z.min attempts k) attempts) as [E|E]; simpl.
  - exists (Z.min attempts k). split; [done|]. split; [lia|]. exists max. repeat split; try lia.
  - assert (Ek : Z.min attempts k = k) by lia. rewrite Ek.
    exists (k + 1). split; [done|]. split; [lia|]. fold (nominal_delay base max (k + 1)).
    unfold clamp, delay_ok. destruct (Z.leb_spec base max); [|lia]. simpl.
    set (nd := nominal_delay base max (k + 1)).
    assert (Hnd : 0 <= nd <= max).
    { unfold nd, nominal_delay, saturating_mul, shl_or_max. unfold DURATION_MAX in *.
      case_match; [|lia]. pose proof (Z.pow_nonneg 2 ((k + 1) mod 2 ^ 32)). nia. }
    assert (0 <= nd / 100) by (apply Z.div_pos; lia).
    assert (nd / 100 * jitter <= nd * 115 / 100).
    { transitivity (nd / 100 * 115); [nia|]. rewrite (Z.mul_comm nd). apply Z.div_le_lower_bound; [lia|].
      pose proof (Z.mul_div_le nd 100). lia. }
    assert (nd / 100 * 85 <= nd / 100 * jitter) by nia.
    unfold saturating_mul. eexists. split; [done|]. repeat split; try lia.
Qed.

Lemma next_delays_ok base max attempts : 0 <= base <= max -> max <= DURATION_MAX ->
  forall jitters k, 0 <= k -> Forall valid_jitter jitters -> forall i r,
  (next_delays jitters (mkExponential base max attempts (Z.min attempts k))).1 !! i = Some r ->
  delay_ok base max attempts (k + 1 + Z.of_nat i) r.
Proof.
  intros Hb Hm. induction jitters as [|j js IH]; intros k Hk Hf i r Hi; [done|].
  apply Forall_cons in Hf as [Hj Hf]. simpl in Hi.
  change (next_delay j ?s) with (Exponential_next_delay j s) in Hi.
  destruct (Exponential_next_ok base max attempts k j) as (k' & E2 & -> & Hd); [done..|].
  destruct (Exponential_next_delay _ _) as [d s1]. simpl in E2, Hd. subst s1.
  specialize (IH (k + 1)). destruct (next_delays js _) as [ds s2]. simpl in *.
  destruct i as [|i]; simpl in Hi.
  - injection Hi as <-. by replace (k + 1 + Z.of_nat 0) with (k + 1) by lia.
  - replace (k + 1 + Z.of_nat (S i)) with (k + 1 + 1 + Z.of_nat i) by lia. apply IH; [lia|done..].
Qed.

(** The exponential schedule never panics when its base delay does not
    exceed its maximum: each delay is between the two and within 15% of the
    doubled base (up to rounding and those limits), and once the attempts are
    used up it is the maximum. *)
Theorem exponential_delays_bounded (base max attempts : Z) (jitters : list Z) (i : nat) (r : Result (option Z)) :
  0 <= base <= max -> max <= DURATION_MAX -> 0 <= attempts -> Forall valid_jitter jitters ->
  (next_delays jitters (Exponential_new base max attempts)).1 !! i = Some r ->
  delay_ok base max attempts (1 + Z.of_nat i) r.
Proof.
  intros Hb Hm Ha Hf Hi. apply (next_delays_ok base max attempts Hb Hm jitters 0); [done..|].
  by replace (Z.min attempts 0) with 0 by lia.
Qed.

Lemma exponential_panics jitter base max attempts :
  max < base -> 0 < attempts -> (next_delay jitter (Exponential_new base max attempts)).1 = Panic.
Proof.
  intros. unfold next_delay, Exponential_schedule, Exponential_next_delay, clamp. cbn [attempt max_attempts Exponential_new].
  destruct (Z.eqb_spec 0 attempts); [lia|]. cbn. by destruct (Z.leb_spec base max); [lia|].
Qed.

Module RetrySamples.

Lemma exhausted_plan_witness : exists st,
  send_envelope (U := uuid_bytes) (fun _ w => (Ok (), w)) (fun _ w => (Err (EGeneral "down"%string), w)) 1 [1; 2]
    true DefaultRetrySession_default () = Some (None, st) /\
  writes st = [(1, Err (EGeneral "down"%string)); (2, Err (EGeneral "down"%string))].
Proof. apply (exhausted_plan_loses_errors (U := uuid_bytes) (EGeneral "down"%string) [1; 2]). reflexivity. Defined.

Example default_max_attempts : max_attempts Exponential_default = 53.
Proof. reflexivity. Qed.

Lemma exponential_delays_witness :
  (next_delays [85; 115; 100] Exponential_default).1 =
    [Ok (Some (from_secs 17 / 10)); Ok (Some (from_secs 46 / 10)); Ok (Some (from_secs 8))] /\
  delay_ok DEFAULT_BASE_DELAY DEFAULT_MAX_DELAY 53 2 (Ok (Some (from_secs 46 / 10))).
Proof.
  split; [vm_compute; reflexivity|].
  apply (exponential_delays_bounded DEFAULT_BASE_DELAY DEFAULT_MAX_DELAY 53 [85; 115; 100] 1).
  - vm_compute; split; discriminate.
  - vm_compute; discriminate.
  - lia.
  - repeat constructor; unfold valid_jitter; lia.
  - vm_compute. reflexivity.
Defined.
End RetrySamples.
