(* ===== verification/Token.v ===== *)
(** * Murmur3 tokens: [token.rs]

    The partitioner hash that places a row on the ring.  The source computes
    with wrapping signed 64-bit integers; [murmur3_x64_128] is the published
    hash on unsigned ones, and the two agree where Cassandra's variant does
    (it extends the sign of the bytes after the last block). *)

From S2P Require Import Prelude Types.
Local Open Scope Z_scope.

(** ** [Wrapping<i64>] *)

Definition wmul (a b : Z) : Z := swrap 64 (a * b).
Definition wadd (a b : Z) : Z := swrap 64 (a + b).
Definition wshl (a n : Z) : Z := swrap 64 (Z.shiftl a n).
(** [(a as u64 >> n) as i64] *)
Definition lshr (a n : Z) : Z := swrap 64 (Z.shiftr (wrap 64 a) n).

Definition C1 : Z := swrap 64 0x87c37b91114253d5.
Definition C2 : Z := swrap 64 0x4cf5ad432745937f.

Definition rotl64 (v n : Z) : Z := Z.lor (wshl v n) (lshr v (64 - n)).

Definition fmix (k : Z) : Z :=
  let k := Z.lxor k (lshr k 33) in
  let k := wmul k (swrap 64 0xff51afd7ed558ccd) in
  let k := Z.lxor k (lshr k 33) in
  let k := wmul k (swrap 64 0xc4ceb9fe1a85ec53) in
  Z.lxor k (lshr k 33).

(** [get_i64_le] on a slice with eight bytes left. *)
Definition get_i64_le (bs : bytes) : Z := swrap 64 (le_uint (take 8 bs)).

Definition mix_k1 (k1 : Z) : Z := wmul (rotl64 (wmul k1 C1) 31) C2.
Definition mix_k2 (k2 : Z) : Z := wmul (rotl64 (wmul k2 C2) 33) C1.

(** One round of the loop over whole blocks. *)
Definition block_round (h : Z * Z) (routing_key : bytes) : Z * Z :=
  let '(h1, h2) := h in
  let k1 := get_i64_le routing_key in
  let k2 := get_i64_le (drop 8 routing_key) in
  let h1 := Z.lxor h1 (mix_k1 k1) in
  let h1 := rotl64 h1 27 in
  let h1 := wadd h1 h2 in
  let h1 := wadd (wmul h1 5) 0x52dce729 in
  let h2 := Z.lxor h2 (mix_k2 k2) in
  let h2 := rotl64 h2 31 in
  let h2 := wadd h2 h1 in
  let h2 := wadd (wmul h2 5) 0x38495ab5 in
  (h1, h2).

(** [while routing_key.len() >= 16]; [None] when the bound is reached. *)
Fixpoint blocks (fuel : nat) (h : Z * Z) (routing_key : bytes) : option (Z * Z * bytes) :=
  match fuel with
  | O => None
  | S fuel' =>
    if (16 <=? length routing_key)%nat then blocks fuel' (block_round h routing_key) (drop 16 routing_key)
    else Some (h, routing_key)
  end.

(** [for i in (from..to).rev() { k ^= Wrapping(routing_key[i] as i8 as i64) << ((i - from) * 8) }] *)
Definition tail_word (routing_key : bytes) (from to : nat) : Z :=
  fold_left (fun k i => Z.lxor k (wshl (swrap 8 (b2z (nth i routing_key Byte.x00))) (Z.of_nat (i - from) * 8)))
    (rev (seq from (to - from))) 0.

Record Murmur3Token : Type := mkToken { token_value : Z }.
#[export] Instance Murmur3Token_eq_dec : EqDecision Murmur3Token.
Proof. solve_decision. Defined.

(** What follows the loop. *)
Definition finish_token (len : nat) (h : Z * Z) (routing_key : bytes) : Z :=
  let '(h1, h2) := h in
  let h2 := if (8 <? length routing_key)%nat
            then Z.lxor h2 (mix_k2 (tail_word routing_key 8 (length routing_key))) else h2 in
  let h1 := match routing_key with
            | [] => h1
            | _ => Z.lxor h1 (mix_k1 (tail_word routing_key 0 (Nat.min 8 (length routing_key))))
            end in
  let h1 := Z.lxor h1 (swrap 64 (Z.of_nat len)) in
  let h2 := Z.lxor h2 (swrap 64 (Z.of_nat len)) in
  let h1 := wadd h1 h2 in
  let h2 := wadd h2 h1 in
  let h1 := fmix h1 in
  let h2 := fmix h2 in
  wadd h1 h2.

Definition generate (routing_key : bytes) : option Murmur3Token :=
  match blocks (S (length routing_key)) (0, 0) routing_key with
  | Some (h, rest) => Some (mkToken (finish_token (length routing_key) h rest))
  | None => None
  end.

(** The values of the source's test. *)
Example token_testvalues :
  map generate [lit "testvalue"; lit "testvalue123"; lit "example_key"; lit "château"] =
  map (fun t => Some (mkToken t)) [5965290492934326460; 1518494936189046133; -7813763279771224608; 9114062196463836094].
Proof. vm_compute. reflexivity. Qed.

(** ** The published hash, on unsigned integers *)

Definition umul (a b : Z) : Z := wrap 64 (a * b).
Definition uadd (a b : Z) : Z := wrap 64 (a + b).
Definition urotl (v n : Z) : Z := Z.lor (wrap 64 (Z.shiftl v n)) (Z.shiftr v (64 - n)).
Definition ufmix (k : Z) : Z :=
  let k := Z.lxor k (Z.shiftr k 33) in
  let k := umul k 0xff51afd7ed558ccd in
  let k := Z.lxor k (Z.shiftr k 33) in
  let k := umul k 0xc4ceb9fe1a85ec53 in
  Z.lxor k (Z.shiftr k 33).
Definition umix1 (k : Z) : Z := umul (urotl (umul k 0x87c37b91114253d5) 31) 0x4cf5ad432745937f.
Definition umix2 (k : Z) : Z := umul (urotl (umul k 0x4cf5ad432745937f) 33) 0x87c37b91114253d5.

(** The eight bytes at an offset (fewer at the end), least significant first. *)
Definition word_at (key : bytes) (off : nat) : Z := le_uint (take 8 (drop off key)).

Definition uround (key : bytes) (h : Z * Z) (i : nat) : Z * Z :=
  let h1 := uadd (umul (uadd (urotl (Z.lxor h.1 (umix1 (word_at key (16 * i)))) 27) h.2) 5) 0x52dce729 in
  let h2 := uadd (umul (uadd (urotl (Z.lxor h.2 (umix2 (word_at key (16 * i + 8)))) 31) h1) 5) 0x38495ab5 in
  (h1, h2).

(** The first half of MurmurHash3 x64 128 with seed 0. *)
Definition murmur3_x64_128 (key : bytes) : Z :=
  let n := (length key / 16)%nat in
  let h := fold_left (uround key) (seq 0 n) (0, 0) in
  let h2 := Z.lxor (Z.lxor h.2 (umix2 (word_at key (16 * n + 8)))) (wrap 64 (Z.of_nat (length key))) in
  let h1 := Z.lxor (Z.lxor h.1 (umix1 (word_at key (16 * n)))) (wrap 64 (Z.of_nat (length key))) in
  let h1 := uadd h1 h2 in
  uadd (ufmix h1) (ufmix (uadd h2 h1)).

(** ** Reading signed words unsigned is a homomorphism *)

Lemma wrap_swrap w z : 0 < w -> wrap w (swrap w z) = wrap w z.
Proof.
  intros Hw. unfold swrap, wrap. rewrite Zminus_mod_idemp_l. f_equal. lia.
Qed.

Lemma wrap_land w z : 0 <= w -> wrap w z = Z.land z (Z.ones w).
Proof. intros. unfold wrap. by rewrite Z.land_ones. Qed.

Lemma wrap_wrap w z : wrap w (wrap w z) = wrap w z.
Proof. unfold wrap. apply Zmod_mod. Qed.

Lemma wrap_lxor w a b : 0 <= w -> wrap w (Z.lxor a b) = Z.lxor (wrap w a) (wrap w b).
Proof.
  intros. rewrite !wrap_land by done. apply Z.bits_inj'. intros n Hn.
  rewrite !Z.land_spec, !Z.lxor_spec, !Z.land_spec. by destruct (Z.testbit a n), (Z.testbit b n), (Z.testbit (Z.ones w) n).
Qed.

Lemma wrap_lor w a b : 0 <= w -> wrap w (Z.lor a b) = Z.lor (wrap w a) (wrap w b).
Proof. intros. rewrite !wrap_land by done. apply Z.land_lor_distr_l. Qed.

Lemma wrap_shiftl w a n : 0 <= n -> wrap w (Z.shiftl (wrap w a) n) = wrap w (Z.shiftl a n).
Proof. intros. unfold wrap. rewrite !Z.shiftl_mul_pow2 by done. apply Zmult_mod_idemp_l. Qed.

Lemma shiftr_range w a n : 0 <= w -> 0 <= n -> in_u w a -> in_u w (Z.shiftr a n).
Proof.
  intros Hw Hn [H0 H]. split; [by apply Z.shiftr_nonneg|]. rewrite Z.shiftr_div_pow2 by done.
  apply Z.le_lt_trans with a; [|done]. apply Z.div_le_upper_bound; [by apply pow2_pos|].
  pose proof (pow2_pos n Hn). nia.
Qed.

Lemma wrap_wmul a b : wrap 64 (wmul a b) = umul (wrap 64 a) (wrap 64 b).
Proof. unfold wmul, umul. rewrite wrap_swrap by done. unfold wrap. apply Zmult_mod. Qed.
Lemma wrap_wadd a b : wrap 64 (wadd a b) = uadd (wrap 64 a) (wrap 64 b).
Proof. unfold wadd, uadd. rewrite wrap_swrap by done. unfold wrap. apply Zplus_mod. Qed.
Lemma wrap_lshr a n : 0 <= n -> wrap 64 (lshr a n) = Z.shiftr (wrap 64 a) n.
Proof.
  intros. unfold lshr. rewrite wrap_swrap by done. apply wrap_small, shiftr_range; [done..|]. by apply wrap_range.
Qed.
Lemma wrap_rotl64 v n : 0 <= n <= 64 -> wrap 64 (rotl64 v n) = urotl (wrap 64 v) n.
Proof.
  intros. unfold rotl64, urotl, wshl. rewrite wrap_lor, wrap_swrap, wrap_lshr, wrap_shiftl by lia. done.
Qed.

Create Rewrite HintDb cdrs_token.
#[export] Hint Rewrite wrap_wmul wrap_wadd (fun a b => wrap_lxor 64 a b ltac:(lia)) : cdrs_token.
#[export] Hint Rewrite wrap_lshr wrap_rotl64 using lia : cdrs_token.

Lemma wrap_fmix k : wrap 64 (fmix k) = ufmix (wrap 64 k).
Proof. unfold fmix, ufmix. by autorewrite with cdrs_token. Qed.
Lemma wrap_mix_k1 k : wrap 64 (mix_k1 k) = umix1 (wrap 64 k).
Proof. unfold mix_k1, umix1. by autorewrite with cdrs_token. Qed.
Lemma wrap_mix_k2 k : wrap 64 (mix_k2 k) = umix2 (wrap 64 k).
Proof. unfold mix_k2, umix2. by autorewrite with cdrs_token. Qed.
#[export] Hint Rewrite wrap_fmix wrap_mix_k1 wrap_mix_k2 : cdrs_token.

Definition wrap2 (h : Z * Z) : Z * Z := (wrap 64 h.1, wrap 64 h.2).

Lemma le_uint_in_u n bs : (length bs <= n)%nat -> in_u (8 * Z.of_nat n) (le_uint bs).
Proof.
  intros Hn. pose proof (le_uint_le_bytes (length bs) (le_uint bs)) as H. rewrite le_bytes_le_uint in H.
  rewrite H. destruct (Z.mod_pos_bound (le_uint bs) (2 ^ (8 * Z.of_nat (length bs)))) as [H0 H1]; [by apply pow2_pos; lia|].
  split; [done|]. apply Z.lt_le_trans with (1 := H1), Z.pow_le_mono_r; lia.
Qed.

Lemma word_at_in_u key off : in_u 64 (word_at key off).
Proof. apply (le_uint_in_u 8). rewrite length_take. lia. Qed.

Lemma wrap_get_i64_le key off : wrap 64 (get_i64_le (drop off key)) = word_at key off.
Proof. unfold get_i64_le. rewrite wrap_swrap by done. apply wrap_small, word_at_in_u. Qed.

Lemma block_round_spec key h i : wrap2 (block_round h (drop (16 * i) key)) = uround key (wrap2 h) i.
Proof.
  destruct h as [h1 h2]. unfold block_round, wrap2, uround. cbn [fst snd]. rewrite drop_drop.
  autorewrite with cdrs_token. by rewrite !wrap_get_i64_le.
Qed.

Lemma blocks_spec key : let n := (length key / 16)%nat in
  forall fuel i h, (i <= n)%nat -> (n - i < fuel)%nat ->
  exists h', blocks fuel h (drop (16 * i) key) = Some (h', drop (16 * n) key) /\
    wrap2 h' = fold_left (uround key) (seq i (n - i)) (wrap2 h).
Proof.
  intros n. assert (Hn : (16 * n <= length key < 16 * n + 16)%nat).
  { pose proof (Nat.div_mod_eq (length key) 16). pose proof (Nat.mod_upper_bound (length key) 16). subst n. lia. }
  induction fuel as [|fuel IH]; intros i h Hi Hf; [lia|]. cbn [blocks]. rewrite length_drop.
  destruct (Nat.leb_spec 16 (length key - 16 * i)) as [H|H].
  - destruct (IH (S i) (block_round h (drop (16 * i) key))) as (h' & E & Hh); [lia..|].
    exists h'. rewrite drop_drop. replace (16 * i + 16)%nat with (16 * S i)%nat by lia. split; [done|].
    rewrite Hh, block_round_spec. replace (n - i)%nat with (S (n - S i)) by lia. done.
  - assert (i = n) as -> by lia. exists h. by rewrite Nat.sub_diag.
Qed.

(** ** Sign extension does not show on ASCII bytes *)

Definition ascii_byte (b : byte) : Prop := b2z b < 128.

Lemma tail_fold key from : Forall ascii_byte key -> forall n j, (j + n <= 8)%nat -> (from + j + n <= length key)%nat ->
  fold_right (fun i k => Z.lxor k (wshl (swrap 8 (b2z (nth i key Byte.x00))) (Z.of_nat (i - from) * 8))) 0 (seq (from + j) n)
  = Z.shiftl (le_uint (take n (drop (from + j) key))) (Z.of_nat j * 8).
Proof.
  intros Ha. induction n as [|n IH]; intros j Hj Hl; simpl; [by rewrite Z.shiftl_0_l|].
  destruct (drop (from + j) key) as [|b r] eqn:Ed; [apply (f_equal length) in Ed; rewrite length_drop in Ed; simpl in Ed; lia|].
  assert (Eb : key !! (from + j)%nat = Some b).
  { rewrite <- (Nat.add_0_r (from + j)), <- lookup_drop, Ed. done. }
  rewrite (nth_lookup_Some _ _ _ _ Eb). replace (S (from + j)) with (from + S j)%nat by lia. rewrite IH by lia.
  replace (from + j - from)%nat with j by lia.
  replace (drop (from + S j) key) with r.
  2:{ replace (from + S j)%nat with (from + j + 1)%nat by lia. by rewrite <- drop_drop, Ed. }
  assert (Hb : 0 <= b2z b < 128) by (split; [apply b2z_range|exact (Forall_lookup_1 _ _ _ _ Ha Eb)]).
  rewrite swrap_small by (unfold in_i; lia). unfold wshl.
  assert (Hp : 2 ^ (Z.of_nat j * 8) <= 2 ^ 56) by (apply Z.pow_le_mono_r; lia).
  pose proof (pow2_pos (Z.of_nat j * 8) ltac:(lia)).
  rewrite swrap_small; [|done|unfold in_i; rewrite Z.shiftl_mul_pow2 by lia; nia].
  cbn [take le_uint]. replace (Z.of_nat (S j) * 8) with (8 + Z.of_nat j * 8) by lia.
  rewrite <- Z.shiftl_shiftl, <- Z.shiftl_lxor, (Z.shiftl_mul_pow2 (le_uint _) 8) by lia.
  rewrite lxor_disjoint by lia. f_equal. lia.
Qed.

Lemma tail_word_ascii key from to : Forall ascii_byte key -> (from <= to <= length key)%nat -> (to <= from + 8)%nat ->
  tail_word key from to = le_uint (take (to - from) (drop from key)).
Proof.
  intros Ha Hft Hto. unfold tail_word.
  pose proof (tail_fold key from Ha (to - from) 0 ltac:(lia) ltac:(lia)) as H.
  rewrite Nat.add_0_r, Z.shiftl_0_r in H. rewrite <- H, <- fold_left_rev_right, rev_involutive. done.
Qed.

Lemma finish_token_spec key h : let n := (length key / 16)%nat in
  Forall ascii_byte (drop (16 * n) key) ->
  wrap2 h = fold_left (uround key) (seq 0 n) (0, 0) ->
  wrap 64 (finish_token (length key) h (drop (16 * n) key)) = murmur3_x64_128 key.
Proof.
  intros n Ha Hh. unfold murmur3_x64_128. fold n. rewrite <- Hh. destruct h as [h1 h2]. unfold wrap2. cbn [fst snd].
  set (tail := drop (16 * n) key) in *.
  assert (Ht : (length tail < 16)%nat).
  { unfold tail. rewrite length_drop. pose proof (Nat.div_mod_eq (length key) 16).
    pose proof (Nat.mod_upper_bound (length key) 16). subst n. lia. }
  assert (E1 : wrap 64 match tail with [] => h1 | _ => Z.lxor h1 (mix_k1 (tail_word tail 0 (Nat.min 8 (length tail)))) end
               = Z.lxor (wrap 64 h1) (umix1 (word_at key (16 * n)))).
  { destruct tail as [|b r] eqn:Et.
    - unfold word_at. fold tail. rewrite Et. by rewrite Z.lxor_0_r.
    - rewrite <- Et in *. clear Et. autorewrite with cdrs_token. do 2 f_equal.
      rewrite tail_word_ascii by (done || lia). rewrite Nat.sub_0_r, drop_0. unfold word_at. fold tail.
      rewrite <- take_take, (take_ge tail) by done. apply (wrap_small 64), word_at_in_u. }
  assert (E2 : wrap 64 (if (8 <? length tail)%nat then Z.lxor h2 (mix_k2 (tail_word tail 8 (length tail))) else h2)
               = Z.lxor (wrap 64 h2) (umix2 (word_at key (16 * n + 8)))).
  { unfold word_at. rewrite <- drop_drop. fold tail. destruct (Nat.ltb_spec 8 (length tail)).
    - autorewrite with cdrs_token. do 2 f_equal. rewrite tail_word_ascii by (done || lia).
      rewrite !take_ge by (rewrite length_drop; lia). apply (wrap_small 64).
      apply (le_uint_in_u 8). rewrite length_drop. lia.
    - rewrite (drop_ge tail) by lia. by rewrite Z.lxor_0_r. }
  unfold finish_token. autorewrite with cdrs_token. rewrite !wrap_swrap by done. by rewrite E1, E2.
Qed.

(** C37: hashing a routing key terminates with a token of 64 bits, and when
    the bytes after the last block of sixteen are ASCII the token is the
    first half of the published 128-bit Murmur3 hash, read signed. *)
Theorem token_is_murmur3 (routing_key : bytes) :
  exists t, generate routing_key = Some (mkToken t) /\ in_i 64 t /\
    (Forall ascii_byte (drop (16 * (length routing_key / 16)) routing_key) -> t = swrap 64 (murmur3_x64_128 routing_key)).
Proof.
  destruct (blocks_spec routing_key (S (length routing_key)) 0 (0, 0)) as (h & E & Hh); [lia| |].
  { pose proof (Nat.Div0.div_le_upper_bound (length routing_key) 16 (length routing_key)). lia. }
  rewrite Nat.mul_0_r, drop_0 in E. rewrite Nat.sub_0_r in Hh. unfold generate. rewrite E.
  set (t := finish_token _ _ _). exists t.
  assert (Ht : in_i 64 t) by (unfold t, finish_token; destruct h; by apply swrap_range).
  split; [done|]. split; [done|]. intros Ha.
  rewrite <- (finish_token_spec routing_key h Ha Hh), swrap_wrap by done. symmetry. by apply swrap_small.
Qed.
