(* ===== verification/Topology.v ===== *)
(** * The cluster as the driver sees it: [cdrs-tokio/src/cluster/topology], [cluster/token_map.rs]

    Nodes are shared: the node map and the token ring hold the same [Arc]s
    and a node's state is an atomic cell behind them.  A [Node] here has the
    address of its cell and a [Heap] has the cells; marking a node changes
    what every holder of it sees.  Connection pools are left out. *)

From stdpp Require Import sorting.
From S2P Require Import Prelude Types Wire Token.
Local Open Scope Z_scope.

(** ** Library interfaces *)

#[export] Instance Uuid_countable `{U : UuidLib} : Countable Uuid :=
  inj_countable Uuid_into_bytes Uuid_from_slice Uuid_round_trip.

(** A comparison that [sort_unstable_by] accepts. *)
Definition total_order {A} (cmp : A -> A -> comparison) : Prop :=
  (forall a b, cmp a b <> Gt \/ cmp b a <> Gt) /\
  (forall a b c, cmp a b <> Gt -> cmp b c <> Gt -> cmp a c <> Gt).

(** [slice::sort_unstable_by]: a sorted permutation, equal elements in any order. *)
Class UnstableSort : Type := {
  sort_unstable : forall {A}, (A -> A -> comparison) -> list A -> list A;
  sort_unstable_perm : forall A cmp (l : list A), sort_unstable cmp l ≡ₚ l;
  sort_unstable_sorted : forall A cmp (l : list A), total_order cmp ->
    StronglySorted (fun a b => cmp a b <> Gt) (sort_unstable cmp l) }.

Definition not_gt {A} (cmp : A -> A -> comparison) (a b : A) : Prop := cmp a b <> Gt.
#[export] Instance not_gt_dec {A} (cmp : A -> A -> comparison) : RelDecision (not_gt cmp).
Proof. intros a b. unfold not_gt. destruct (cmp a b); [left|left|right]; congruence. Defined.

(** One such sort: merge sort. *)
Program Definition merge_unstable : UnstableSort := {|
  sort_unstable A cmp l := merge_sort (not_gt cmp) l |}.
Next Obligation. intros. apply merge_sort_Permutation. Qed.
Next Obligation.
  intros A cmp l [Ht Htr].
  assert (Transitive (not_gt cmp)) by exact Htr. assert (Total (not_gt cmp)) by exact Ht.
  apply (StronglySorted_merge_sort (not_gt cmp)).
Qed.

(** [Ord] on strings: lexicographic on their bytes. *)
Fixpoint bytes_compare (a b : bytes) : comparison :=
  match a, b with
  | [], [] => Eq
  | [], _ => Lt
  | _, [] => Gt
  | x :: a', y :: b' => match b2z x ?= b2z y with Eq => bytes_compare a' b' | c => c end
  end.

(** [itertools::unique_by]: the first element for every key. *)
Definition unique_by {A K} `{EqDecision K} (key : A -> K) : list A -> list A :=
  fix go (l : list A) : list A :=
    match l with
    | [] => []
    | x :: l' => x :: filter (fun y => key y <> key x) (go l')
    end.

(** [itertools::chunk_by]: maximal runs of equal keys. *)
Fixpoint chunk_by {A K} `{EqDecision K} (key : A -> K) (l : list A) : list (K * list A) :=
  match l with
  | [] => []
  | x :: l' =>
    match chunk_by key l' with
    | (k, g) :: gs => if decide (key x = k) then (k, x :: g) :: gs else (key x, [x]) :: (k, g) :: gs
    | [] => [(key x, [x])]
    end
  end.

(** ** Order, runs and distinct keys *)

Lemma bytes_compare_eq a : forall b, bytes_compare a b = Eq <-> a = b.
Proof.
  induction a as [|x a IH]; intros [|y b]; simpl; try done.
  destruct (Z.compare_spec (b2z x) (b2z y)) as [H|H|H].
  - rewrite IH. split; [intros ->|by intros [= _ ->]]. f_equal. rewrite <- (u8_b2z x), <- (u8_b2z y). by rewrite H.
  - split; [done|]. intros [= -> ->]. lia.
  - split; [done|]. intros [= -> ->]. lia.
Qed.

Lemma bytes_compare_opp a : forall b, bytes_compare b a = CompOpp (bytes_compare a b).
Proof.
  induction a as [|x a IH]; intros [|y b]; simpl; try done.
  rewrite (Z.compare_antisym (b2z x) (b2z y)). by destruct (b2z x ?= b2z y); simpl.
Qed.

Lemma bytes_compare_trans a : forall b c,
  bytes_compare a b <> Gt -> bytes_compare b c <> Gt -> bytes_compare a c <> Gt.
Proof.
  induction a as [|x a IH]; intros [|y b] [|z c]; simpl; try done.
  destruct (Z.compare_spec (b2z x) (b2z y)), (Z.compare_spec (b2z y) (b2z z)), (Z.compare_spec (b2z x) (b2z z));
    try done; try lia. apply IH.
Qed.

Lemma bytes_compare_order {A} (key : A -> bytes) : total_order (fun a b => bytes_compare (key a) (key b)).
Proof.
  split; [|intros a b c; apply bytes_compare_trans].
  intros a b. rewrite (bytes_compare_opp (key a) (key b)). destruct (bytes_compare (key a) (key b)); simpl; auto.
Qed.

Lemma bytes_compare_antisym a b : bytes_compare a b <> Gt -> bytes_compare b a <> Gt -> a = b.
Proof.
  intros H1 H2. apply bytes_compare_eq. rewrite bytes_compare_opp in H2. by destruct (bytes_compare a b).
Qed.

Section Keys.
Context {A K : Type} `{Countable K} (key : A -> K).

Lemma elem_of_unique_by x l : x ∈ unique_by key l -> x ∈ l.
Proof.
  induction l as [|y l IH]; [done|]. simpl. rewrite !elem_of_cons, list_elem_of_filter. intros [->|[_ ?]]; auto.
Qed.

Lemma unique_by_keys l k : k ∈ key <$> unique_by key l <-> k ∈ key <$> l.
Proof.
  split.
  - intros (x & -> & Hx)%list_elem_of_fmap. apply list_elem_of_fmap_2. by apply elem_of_unique_by.
  - induction l as [|y l IH]; [done|]. simpl. rewrite !elem_of_cons. intros [->|Hk]; [by left|].
    destruct (decide (k = key y)) as [->|Hn]; [by left|right].
    apply IH in Hk. apply list_elem_of_fmap in Hk as (x & -> & Hx). apply list_elem_of_fmap_2. by apply list_elem_of_filter.
Qed.

Lemma unique_by_nodup l : NoDup (key <$> unique_by key l).
Proof.
  induction l as [|y l IH]; simpl; [constructor|]. constructor.
  - intros (x & E & Hx)%list_elem_of_fmap. apply list_elem_of_filter in Hx as [Hx _]. by rewrite E in Hx.
  - eapply sublist_NoDup; [exact IH|]. apply fmap_sublist, sublist_filter.
Qed.

Lemma unique_by_length l : length (unique_by key l) = size (list_to_set (C := gset K) (key <$> l)).
Proof.
  rewrite <- (length_fmap key), <- (size_list_to_set (C := gset K)) by apply unique_by_nodup. f_equal.
  apply set_eq. intros k. rewrite !elem_of_list_to_set. apply unique_by_keys.
Qed.

Lemma chunk_by_head x l : exists g gs, chunk_by key (x :: l) = (key x, g) :: gs.
Proof. simpl. destruct (chunk_by key l) as [|[k g] gs]; [eauto|]. destruct (decide _) as [->|]; eauto. Qed.

Lemma chunk_by_cons x l : chunk_by key (x :: l) =
  match chunk_by key l with
  | (k, g) :: gs => if decide (key x = k) then (k, x :: g) :: gs else (key x, [x]) :: (k, g) :: gs
  | [] => [(key x, [x])]
  end.
Proof. done. Qed.

(** On a list whose equal keys are adjacent, the runs are the fibres of the key. *)
Inductive grouped : list A -> Prop :=
| grouped_nil : grouped []
| grouped_one x : grouped [x]
| grouped_same x y l : key x = key y -> grouped (y :: l) -> grouped (x :: y :: l)
| grouped_new x y l : key x ∉ key <$> (y :: l) -> grouped (y :: l) -> grouped (x :: y :: l).

Lemma filter_key_none k l : k ∉ key <$> l -> filter (fun x => key x = k) l = [].
Proof.
  induction l as [|y l IH]; [done|]. simpl. rewrite not_elem_of_cons. intros [Hy Hl].
  rewrite filter_cons_False by congruence. auto.
Qed.

Lemma chunk_by_grouped l : grouped l ->
  NoDup (chunk_by key l).*1 /\
  (forall k, k ∈ (chunk_by key l).*1 <-> k ∈ key <$> l) /\
  (forall k g, (k, g) ∈ chunk_by key l -> g = filter (fun x => key x = k) l).
Proof.
  induction 1 as [|x|x y l E Hg (IH1 & IH2 & IH3)|x y l Hn Hg (IH1 & IH2 & IH3)].
  - repeat split; [constructor|done..|intros k g; by rewrite elem_of_nil].
  - simpl. repeat split; [apply NoDup_singleton|done..|]. intros k g Hk%list_elem_of_singleton. simplify_eq.
    by rewrite filter_cons_True.
  - destruct (chunk_by_head y l) as (g0 & gs & Ec).
    rewrite (chunk_by_cons x), Ec in *. rewrite decide_True by done. simpl in IH1. split; [done|]. split.
    + intros k. specialize (IH2 k). simpl in *. rewrite !elem_of_cons in *. rewrite E. tauto.
    + intros k g Hk. apply elem_of_cons in Hk as [Hk|Hk].
      * simplify_eq. rewrite filter_cons_True by done. f_equal. apply IH3. by left.
      * rewrite filter_cons_False; [apply IH3; by right|]. rewrite E. intros <-.
        apply NoDup_cons in IH1 as [Hx _]. apply Hx. by apply (list_elem_of_fmap_2 fst) in Hk.
  - destruct (chunk_by_head y l) as (g0 & gs & Ec).
    rewrite (chunk_by_cons x), Ec in *. rewrite decide_False by (intros E; apply Hn; rewrite E; by left). split.
    + cbn [fmap list_fmap fst]. constructor; [|exact IH1].
      intros Hx. apply Hn. apply IH2. exact Hx.
    + split.
      * intros k. specialize (IH2 k). simpl in *. rewrite !elem_of_cons in *. tauto.
      * intros k g Hk. apply elem_of_cons in Hk as [Hk|Hk].
        -- simplify_eq. rewrite filter_cons_True by done. by rewrite filter_key_none.
        -- rewrite filter_cons_False; [by apply IH3|]. intros <-. apply Hn, IH2. by apply (list_elem_of_fmap_2 fst) in Hk.
Qed.
End Keys.

Lemma sorted_grouped {A} (key : A -> bytes) l :
  StronglySorted (fun a b => bytes_compare (key a) (key b) <> Gt) l -> grouped key l.
Proof.
  induction 1 as [|x l Hs IH Hf]; [constructor|]. destruct l as [|y l]; [constructor|].
  destruct (decide (key x = key y)) as [E|E]; [by constructor|]. apply grouped_new; [|done].
  intros (z & Ez & Hz)%list_elem_of_fmap. apply E.
  apply bytes_compare_antisym; [by inversion Hf|]. rewrite Ez. apply elem_of_cons in Hz as [->|Hz].
  - rewrite (proj2 (bytes_compare_eq _ _) eq_refl). done.
  - inversion Hs as [|? ? _ Hfy]; subst. rewrite Forall_forall in Hfy. by apply Hfy.
Qed.

(** ** [NodeDistance], [NodeState], [NodeInfo], [Node] *)

Inductive NodeDistance : Type := NdLocal | NdRemote.
#[export] Instance NodeDistance_eq_dec : EqDecision NodeDistance.
Proof. solve_decision. Defined.

Inductive NodeState : Type := NsUnknown | NsUp | NsDown | NsForcedDown.
#[export] Instance NodeState_eq_dec : EqDecision NodeState.
Proof. solve_decision. Defined.

(** The state cells. *)
Record Heap : Type := mkHeap { next_cell : positive; cells : gmap positive NodeState }.
Definition new_heap : Heap := mkHeap 1 ∅.
Definition alloc (s : NodeState) (h : Heap) : positive * Heap :=
  (next_cell h, mkHeap (next_cell h + 1) (<[next_cell h := s]> (cells h))).

Section Topology.
Context {U : UuidLib}.

Record NodeInfo : Type := mkNodeInfo {
  ni_host_id : Uuid; ni_broadcast_rpc_address : SocketAddr; ni_broadcast_address : option SocketAddr;
  ni_datacenter : bytes; ni_tokens : list Murmur3Token; ni_rack : bytes }.

Record Node : Type := mkNode {
  broadcast_rpc_address : SocketAddr; broadcast_address : option SocketAddr;
  distance : option NodeDistance; state_cell : positive; host_id : option Uuid;
  tokens : list Murmur3Token; rack : bytes; datacenter : bytes }.
#[export] Instance Node_eq_dec : EqDecision Node.
Proof. solve_decision. Defined.

(** [Node::new], [new_with_state] and [with_state] *)
Definition Node_new_with_state rpc addr host dist st toks rk dc (h : Heap) : Node * Heap :=
  let '(c, h) := alloc st h in (mkNode rpc addr dist c host toks rk dc, h).
Definition Node_new rpc addr host dist toks rk dc (h : Heap) : Node * Heap :=
  let '(c, h) := alloc NsUnknown h in (mkNode rpc addr dist c host toks rk dc, h).
Definition Node_with_state rpc addr host st toks rk dc (h : Heap) : Node * Heap :=
  let '(c, h) := alloc st h in (mkNode rpc addr None c host toks rk dc, h).

(** [state.load], [state.store] *)
Definition state (n : Node) (h : Heap) : NodeState := default NsUnknown (cells h !! state_cell n).
Definition store_state (n : Node) (s : NodeState) (h : Heap) : Heap :=
  mkHeap (next_cell h) (<[state_cell n := s]> (cells h)).
Definition force_down (n : Node) : Heap -> Heap := store_state n NsForcedDown.
Definition mark_down (n : Node) : Heap -> Heap := store_state n NsDown.
Definition mark_up (n : Node) : Heap -> Heap := store_state n NsUp.

Definition is_local (n : Node) : bool := bool_decide (distance n = Some NdLocal).
Definition is_remote (n : Node) : bool := bool_decide (distance n = Some NdRemote).
Definition is_ignored (n : Node) (h : Heap) : bool :=
  bool_decide (distance n = None) || negb (bool_decide (state n h = NsUp)).

Definition clone_with_node_info (n : Node) (i : NodeInfo) (h : Heap) : Node * Heap :=
  let address_changed :=
    match broadcast_address n with
    | Some address => negb (bool_decide (address = ni_broadcast_rpc_address i))
    | None => false
    end in
  let new_node_state := state n h in
  let new_node_state := if address_changed then NsUnknown else new_node_state in
  let new_node_state := if bool_decide (new_node_state = NsDown) then NsUp else new_node_state in
  let '(c, h) := alloc new_node_state h in
  (mkNode (ni_broadcast_rpc_address i) (ni_broadcast_address i) (if address_changed then None else distance n) c
     (Some (ni_host_id i)) (ni_tokens i) (ni_rack i) (ni_datacenter i), h).

Definition clone_as_contact_point (n : Node) (i : NodeInfo) (h : Heap) : Node * Heap :=
  let '(c, h) := alloc (state n h) h in
  (mkNode (broadcast_rpc_address n) (ni_broadcast_address i) (distance n) c
     (Some (ni_host_id i)) (ni_tokens i) (ni_rack i) (ni_datacenter i), h).

Definition clone_with_node_info_and_state (n : Node) (i : NodeInfo) (s : NodeState) (h : Heap) : Node * Heap :=
  let '(c, h) := alloc s h in
  (mkNode (ni_broadcast_rpc_address i) (ni_broadcast_address i) None c
     (Some (ni_host_id i)) (ni_tokens i) (ni_rack i) (ni_datacenter i), h).

Definition clone_with_node_state (n : Node) (s : NodeState) (h : Heap) : Node * Heap :=
  let '(c, h) := alloc s h in
  (mkNode (broadcast_rpc_address n) (broadcast_address n) (distance n) c (host_id n) (tokens n) (rack n) (datacenter n), h).

Abbreviation NodeMap := (gmap Uuid Node).
Context {HU : HashIter Uuid}.

(** ** [TokenMap]: a [BTreeMap], iterated by increasing token *)

Record TokenMap : Type := mkTokenMap { token_ring : gmap Z Node }.

Definition token_le (a b : Z * Node) : Prop := a.1 <= b.1.
#[export] Instance token_le_dec : RelDecision token_le.
Proof. intros a b. unfold token_le. apply _. Defined.
(** [token_ring.iter()] *)
Definition ring_iter (m : TokenMap) : list (Z * Node) := merge_sort token_le (map_to_list (token_ring m)).

Definition TokenMap_default : TokenMap := mkTokenMap ∅.
Definition TokenMap_new (nodes : NodeMap) : TokenMap :=
  mkTokenMap (hm_collect (concat (map (fun kn => map (fun t => (token_value t, kn.2)) (tokens kn.2)) (hm_iter nodes)))).

(** [range(token..)] followed by the whole ring *)
Definition ring_from (m : TokenMap) (token : Murmur3Token) : list (Z * Node) :=
  filter (fun e => token_value token <= e.1) (ring_iter m) ++ ring_iter m.
Definition nodes_for_token_capped (m : TokenMap) (token : Murmur3Token) (replica_count : nat) : list Node :=
  (take replica_count (ring_from m token)).*2.
Definition nodes_for_token (m : TokenMap) (token : Murmur3Token) : list Node :=
  (take (size (token_ring m)) (ring_from m token)).*2.

Definition TokenMap_clone_with_node (m : TokenMap) (n : Node) : TokenMap :=
  mkTokenMap (foldl (fun r t => <[token_value t := n]> r) (token_ring m) (tokens n)).
Definition TokenMap_clone_without_node (m : TokenMap) (rpc : SocketAddr) : TokenMap :=
  mkTokenMap (list_to_map (filter (fun e => broadcast_rpc_address e.2 <> rpc) (ring_iter m))).

(** ** [ClusterMetadata] *)

Inductive ReplicationStrategy : Type :=
| SimpleStrategy (replication_factor : nat)
| NetworkTopologyStrategy (datacenter_replication_factor : gmap bytes nat)
| OtherStrategy.
Record KeyspaceMetadata : Type := mkKeyspaceMetadata { replication_strategy : ReplicationStrategy }.
Record DatacenterMetadata : Type := mkDatacenterMetadata { rack_count : nat }.

Record ClusterMetadata : Type := mkClusterMetadata {
  nodes : NodeMap; token_map : TokenMap;
  keyspaces : gmap bytes KeyspaceMetadata; datacenters : gmap bytes DatacenterMetadata }.

Context {US : UnstableSort}.

Definition build_datacenter_info (ns : NodeMap) : gmap bytes DatacenterMetadata :=
  hm_collect (map (fun g => (g.1, mkDatacenterMetadata (length (unique_by rack g.2))))
    (chunk_by datacenter
      (sort_unstable (fun a b => bytes_compare (datacenter a) (datacenter b)) (hm_iter ns).*2))).

Definition ClusterMetadata_new (ns : NodeMap) (ks : gmap bytes KeyspaceMetadata) : ClusterMetadata :=
  mkClusterMetadata ns (TokenMap_new ns) ks (build_datacenter_info ns).
Definition ClusterMetadata_default : ClusterMetadata := mkClusterMetadata ∅ TokenMap_default ∅ ∅.

Definition clone_with_keyspace (c : ClusterMetadata) (name : bytes) (k : KeyspaceMetadata) : ClusterMetadata :=
  mkClusterMetadata (nodes c) (token_map c) (<[name := k]> (keyspaces c)) (datacenters c).
Definition clone_without_keyspace (c : ClusterMetadata) (name : bytes) : ClusterMetadata :=
  mkClusterMetadata (nodes c) (token_map c) (delete name (keyspaces c)) (datacenters c).

(** The node must have a host id: [expect]. *)
Definition clone_with_node (c : ClusterMetadata) (n : Node) : Result ClusterMetadata :=
  let tm := TokenMap_clone_with_node (token_map c) n in
  match host_id n with
  | None => Panic
  | Some id =>
    let ns := <[id := n]> (nodes c) in
    Ok (mkClusterMetadata ns tm (keyspaces c) (build_datacenter_info ns))
  end.

Definition clone_without_node (c : ClusterMetadata) (rpc : SocketAddr) : ClusterMetadata :=
  ClusterMetadata_new
    (hm_collect (filter (fun kn => broadcast_rpc_address kn.2 <> rpc) (hm_iter (nodes c)))) (keyspaces c).

Definition keyspace (c : ClusterMetadata) (name : bytes) : option KeyspaceMetadata := keyspaces c !! name.
Definition get_datacenter (c : ClusterMetadata) (name : bytes) : option DatacenterMetadata := datacenters c !! name.

Definition unignored_nodes (c : ClusterMetadata) (h : Heap) : list Node :=
  filter (fun n => is_ignored n h = false) (hm_iter (nodes c)).*2.
Definition unignored_local_nodes (c : ClusterMetadata) (h : Heap) : list Node :=
  filter (fun n => is_ignored n h || negb (is_local n) = false) (hm_iter (nodes c)).*2.
Definition unignored_remote_nodes_capped (c : ClusterMetadata) (h : Heap) (max_count : nat) : list Node :=
  take max_count (filter (fun n => is_ignored n h || negb (is_remote n) = false) (hm_iter (nodes c)).*2).

Definition has_nodes (c : ClusterMetadata) : bool := negb (bool_decide (nodes c = ∅)).
Definition has_node_by_rpc_address (c : ClusterMetadata) (rpc : SocketAddr) : bool :=
  existsb (fun kn => bool_decide (broadcast_rpc_address kn.2 = rpc)) (hm_iter (nodes c)).
Definition find_node_by_rpc_address (c : ClusterMetadata) (rpc : SocketAddr) : option Node :=
  snd <$> find (fun kn => bool_decide (broadcast_rpc_address kn.2 = rpc)) (hm_iter (nodes c)).
Definition find_node_by_host_id (c : ClusterMetadata) (id : Uuid) : option Node := nodes c !! id.

(** ** [load_balancing/node_distance_evaluator.rs], [cluster/metadata_builder.rs] *)

(** [trait NodeDistanceEvaluator] *)
Class NodeDistanceEvaluator (E : Type) : Type := compute_distance : E -> NodeInfo -> option NodeDistance.

Record AllLocalNodeDistanceEvaluator : Type := mkAllLocal {}.
#[export] Instance AllLocal_evaluator : NodeDistanceEvaluator AllLocalNodeDistanceEvaluator := fun _ _ => Some NdLocal.

Record TopologyAwareNodeDistanceEvaluator : Type := mkTopologyAwareEvaluator { local_dc : bytes }.
#[export] Instance TopologyAware_evaluator : NodeDistanceEvaluator TopologyAwareNodeDistanceEvaluator := fun e i =>
  Some (if bool_decide (ni_datacenter i = local_dc e) then NdLocal else NdRemote).

Context {E : Type} `{!NodeDistanceEvaluator E}.

(** One round of the loop of [build_initial_metadata]. *)
Definition initial_node (contact_points : list Node) (evaluator : E) (s : NodeMap * Heap) (i : NodeInfo) : NodeMap * Heap :=
  let '(ns, h) := s in
  match ns !! ni_host_id i with
  | Some _ => (ns, h)
  | None =>
    let '(n, h) :=
      match find (fun p => bool_decide (broadcast_rpc_address p = ni_broadcast_rpc_address i)) contact_points with
      | Some contact_point => clone_as_contact_point contact_point i h
      | None => Node_new_with_state (ni_broadcast_rpc_address i) (ni_broadcast_address i) (Some (ni_host_id i))
                  (compute_distance evaluator i) NsUnknown (ni_tokens i) (ni_rack i) (ni_datacenter i) h
      end in
    (<[ni_host_id i := n]> ns, h)
  end.
Definition build_initial_metadata (node_infos : list NodeInfo) (ks : gmap bytes KeyspaceMetadata)
    (contact_points : list Node) (evaluator : E) (h : Heap) : ClusterMetadata * Heap :=
  let '(ns, h) := foldl (initial_node contact_points evaluator) (∅, h) node_infos in
  (ClusterMetadata_new ns ks, h).

(** One round of the loop of [refresh_metadata]; the hosts seen are those added. *)
Definition refresh_node (old_nodes : NodeMap) (evaluator : E)
    (s : gset Uuid * NodeMap * Heap) (i : NodeInfo) : gset Uuid * NodeMap * Heap :=
  let '(seen_hosts, added_or_updated, h) := s in
  if decide (ni_host_id i ∈ seen_hosts) then s
  else
    let '(n, h) :=
      match old_nodes !! ni_host_id i with
      | Some old_node => clone_with_node_info old_node i h
      | None => Node_new (ni_broadcast_rpc_address i) (ni_broadcast_address i) (Some (ni_host_id i))
                  (compute_distance evaluator i) (ni_tokens i) (ni_rack i) (ni_datacenter i) h
      end in
    ({[ni_host_id i]} ∪ seen_hosts, <[ni_host_id i := n]> added_or_updated, h).
Definition refresh_metadata (node_infos : list NodeInfo) (old_metadata : ClusterMetadata) (evaluator : E) (h : Heap)
  : ClusterMetadata * Heap :=
  let '(_, ns, h) := foldl (refresh_node (nodes old_metadata) evaluator) (∅, ∅, h) node_infos in
  (ClusterMetadata_new ns (keyspaces old_metadata), h).

Definition add_new_node (i : NodeInfo) (old_metadata : ClusterMetadata) (s : NodeState) (h : Heap)
  : Result ClusterMetadata * Heap :=
  let '(n, h) :=
    match find_node_by_host_id old_metadata (ni_host_id i) with
    | Some old_node =>
      if bool_decide (broadcast_rpc_address old_node = ni_broadcast_rpc_address i)
      then clone_with_node_state old_node s h
      else clone_with_node_info_and_state old_node i s h
    | None => Node_with_state (ni_broadcast_rpc_address i) (ni_broadcast_address i) (Some (ni_host_id i)) s
                (ni_tokens i) (ni_rack i) (ni_datacenter i) h
    end in
  (clone_with_node old_metadata n, h).

(** ** Walking the ring *)

Lemma ring_iter_elem m t n : (t, n) ∈ ring_iter m <-> token_ring m !! t = Some n.
Proof. unfold ring_iter. rewrite merge_sort_Permutation. apply elem_of_map_to_list. Qed.

Lemma ring_iter_keys m : NoDup (ring_iter m).*1.
Proof. unfold ring_iter. rewrite merge_sort_Permutation. apply NoDup_fst_map_to_list. Qed.

Lemma ring_iter_length m : length (ring_iter m) = size (token_ring m).
Proof. unfold ring_iter. rewrite merge_sort_Permutation. apply length_map_to_list. Qed.

Definition token_lt (a b : Z * Node) : Prop := a.1 < b.1.

Lemma ring_iter_sorted m : StronglySorted token_lt (ring_iter m).
Proof.
  assert (Transitive token_le) by (intros a b c; unfold token_le; lia).
  assert (Total token_le) by (intros a b; unfold token_le; lia).
  pose proof (ring_iter_keys m) as Hn. unfold ring_iter in *.
  pose proof (StronglySorted_merge_sort token_le (map_to_list (token_ring m))) as Hs.
  induction Hs as [|a l Hs IH Hf]; constructor; simpl in Hn; apply NoDup_cons in Hn as [Ha Hn]; [by apply IH|].
  rewrite Forall_forall in *. intros b Hb. specialize (Hf b Hb). unfold token_le, token_lt in *.
  assert (a.1 <> b.1); [|lia]. intros E1. apply Ha. rewrite E1. by apply list_elem_of_fmap_2.
Qed.

(** A sorted ring splits at any token. *)
Lemma ring_split (l : list (Z * Node)) t : StronglySorted token_lt l ->
  l = filter (fun e => e.1 < t) l ++ filter (fun e => t <= e.1) l.
Proof.
  induction 1 as [|a l Hs IH Hf]; [done|]. destruct (decide (t <= a.1)) as [Ha|Ha].
  - rewrite filter_cons_False by lia. rewrite (filter_cons_True (fun e => t <= e.1)) by done.
    assert (Hall : Forall (fun e => t <= e.1) l).
    { eapply Forall_impl; [exact Hf|]. unfold token_lt. intros; lia. }
    assert (Hnone : filter (fun e : Z * Node => e.1 < t) l = []).
    { clear - Hall. induction Hall; [done|]. by rewrite filter_cons_False by lia. }
    rewrite Hnone. simpl. f_equal. rewrite IH at 1. by rewrite Hnone.
  - rewrite filter_cons_True by lia. rewrite (filter_cons_False (fun e => t <= e.1)) by lia.
    simpl. by f_equal.
Qed.

(** Walking the ring from a token visits every entry once, first those at
    or after the token in increasing order and then those before it, and the
    capped walk is a prefix of it. *)
Theorem token_ring_walk (m : TokenMap) (token : Murmur3Token) :
  exists before after, ring_iter m = before ++ after /\
    StronglySorted token_lt (ring_iter m) /\
    (forall t n, (t, n) ∈ ring_iter m <-> token_ring m !! t = Some n) /\
    Forall (fun e => e.1 < token_value token) before /\ Forall (fun e => token_value token <= e.1) after /\
    nodes_for_token m token = (after ++ before).*2 /\
    (forall count, (count <= size (token_ring m))%nat ->
      nodes_for_token_capped m token count = take count (after ++ before).*2).
Proof.
  set (t := token_value token).
  exists (filter (fun e => e.1 < t) (ring_iter m)), (filter (fun e => t <= e.1) (ring_iter m)).
  pose proof (ring_split (ring_iter m) t (ring_iter_sorted m)) as Hs.
  split; [done|]. split; [apply ring_iter_sorted|]. split; [apply ring_iter_elem|].
  split; [apply Forall_forall; intros e He; by apply list_elem_of_filter in He as [? _]|].
  split; [apply Forall_forall; intros e He; by apply list_elem_of_filter in He as [? _]|].
  assert (Hc : forall count, (count <= size (token_ring m))%nat -> nodes_for_token_capped m token count =
      take count (filter (fun e => t <= e.1) (ring_iter m) ++ filter (fun e => e.1 < t) (ring_iter m)).*2).
  { intros count Hle. unfold nodes_for_token_capped, ring_from. fold t.
    rewrite <- ring_iter_length in Hle. rewrite Hs in Hle at 1. rewrite length_app in Hle.
    rewrite Hs at 2. rewrite app_assoc, take_app_le by (rewrite length_app; lia). by rewrite fmap_take. }
  split; [|exact Hc]. unfold nodes_for_token. specialize (Hc (size (token_ring m)) ltac:(lia)).
  unfold nodes_for_token_capped in Hc. rewrite Hc. apply take_ge. rewrite length_fmap, length_app.
  rewrite <- ring_iter_length. rewrite Hs at 3. rewrite length_app. lia.
Qed.

(** ** Datacenters *)

(** The racks of a datacenter. *)
Definition racks_of (ns : NodeMap) (dc : bytes) : gset bytes :=
  list_to_set (rack <$> filter (fun n => datacenter n = dc) (map_to_list ns).*2).

Lemma elem_of_values (ns : NodeMap) n : n ∈ (hm_iter ns).*2 <-> exists id, ns !! id = Some n.
Proof.
  rewrite hm_iter_perm. rewrite list_elem_of_fmap. split.
  - intros ([id n'] & -> & Hin). exists id. by apply elem_of_map_to_list.
  - intros [id Hid]. exists (id, n). split; [done|]. by apply elem_of_map_to_list.
Qed.

(** The datacenters recorded are those of the nodes, each with the number
    of its distinct racks. *)
Theorem datacenters_counted (ns : NodeMap) (dc : bytes) :
  build_datacenter_info ns !! dc =
    if decide (racks_of ns dc = ∅) then None else Some (mkDatacenterMetadata (size (racks_of ns dc))).
Proof.
  unfold build_datacenter_info. set (l := sort_unstable _ _).
  assert (Hp : l ≡ₚ (map_to_list ns).*2).
  { unfold l. rewrite sort_unstable_perm. by rewrite hm_iter_perm. }
  destruct (chunk_by_grouped datacenter l) as (Hnd & Hk & Hg).
  { apply sorted_grouped. apply sort_unstable_sorted, bytes_compare_order. }
  assert (Hr : racks_of ns dc = list_to_set (rack <$> filter (fun n => datacenter n = dc) l)).
  { unfold racks_of. apply set_eq. intros r. rewrite !elem_of_list_to_set. by rewrite Hp. }
  assert (Hf : forall cs : list (bytes * list Node),
      (map (fun g => (g.1, mkDatacenterMetadata (length (unique_by rack g.2)))) cs).*1 = cs.*1).
  { intros cs. induction cs as [|c cs IH]; [done|]. simpl. f_equal. exact IH. }
  rewrite hm_collect_nodup by by rewrite Hf. rewrite Hr. destruct (decide _) as [Hd|Hd].
  - apply not_elem_of_list_to_map_1. rewrite Hf, Hk. intros (n & -> & Hn)%list_elem_of_fmap.
    apply (not_elem_of_empty (C := gset bytes) (rack n)). rewrite <- Hd, elem_of_list_to_set.
    apply list_elem_of_fmap_2. by apply list_elem_of_filter.
  - apply set_choose_L in Hd as [r Hin]. rewrite elem_of_list_to_set in Hin.
    apply list_elem_of_fmap in Hin as (n & _ & Hn). apply list_elem_of_filter in Hn as [<- Hn].
    assert (Hc : datacenter n ∈ (chunk_by datacenter l).*1) by (apply Hk; by apply list_elem_of_fmap_2).
    apply list_elem_of_fmap in Hc as ([k g] & E1 & Hin). simpl in E1. subst k.
    apply elem_of_list_to_map_1; [by rewrite Hf|]. pose proof (Hg _ _ Hin) as ->.
    rewrite <- unique_by_length. apply list_elem_of_fmap. eexists. split; [|exact Hin]. done.
Qed.

(** ** The metadata invariant *)

(** Nodes are kept under their host ids; the ring holds nodes of the map under
    their own tokens and misses none of their tokens; the datacenters are
    those of the nodes. *)
Record consistent (c : ClusterMetadata) : Prop := {
  hosts_ok : forall id n, nodes c !! id = Some n -> host_id n = Some id;
  ring_ok : forall t n, token_ring (token_map c) !! t = Some n -> mkToken t ∈ tokens n /\ exists id, nodes c !! id = Some n;
  ring_full : forall id n t, nodes c !! id = Some n -> t ∈ tokens n -> is_Some (token_ring (token_map c) !! token_value t);
  datacenters_ok : datacenters c = build_datacenter_info (nodes c) }.

Lemma hm_collect_elem {K V} `{Countable K} (l : list (K * V)) k v : hm_collect l !! k = Some v -> (k, v) ∈ l.
Proof.
  unfold hm_collect. induction l as [|[k' v'] l IH] using rev_ind; simpl; [by rewrite lookup_empty|].
  rewrite foldl_app, elem_of_app, list_elem_of_singleton. simpl.
  rewrite lookup_insert_Some. intros [[-> ->]|[_ Hl]]; auto.
Qed.

Lemma hm_collect_dom {K V} `{Countable K} (l : list (K * V)) k : k ∈ l.*1 -> is_Some (hm_collect l !! k).
Proof.
  unfold hm_collect. enough (Hg : forall m : gmap K V, k ∈ l.*1 \/ is_Some (m !! k) ->
    is_Some (foldl (fun m kv => <[kv.1 := kv.2]> m) m l !! k)) by (intros; apply Hg; auto).
  induction l as [|[k' v'] l IH]; simpl; intros m Hk; [destruct Hk as [Hk|Hk]; [by apply elem_of_nil in Hk|done]|].
  apply IH. rewrite elem_of_cons in Hk. rewrite lookup_insert_is_Some. destruct (decide (k' = k)); intuition.
Qed.

Lemma elem_of_ring_entries (ns : NodeMap) t n :
  (t, n) ∈ concat (map (fun kn => map (fun t => (token_value t, kn.2)) (tokens kn.2)) (hm_iter ns)) <->
  mkToken t ∈ tokens n /\ exists id, ns !! id = Some n.
Proof.
  rewrite list_elem_of_In, in_concat. setoid_rewrite in_map_iff. split.
  - intros (l & ([id n'] & <- & Hin) & Hl). apply in_map_iff in Hl as ([t'] & [= -> ->] & Ht). simpl in *.
    apply list_elem_of_In in Ht, Hin. split; [done|]. exists id.
    rewrite hm_iter_perm in Hin. by apply elem_of_map_to_list in Hin.
  - intros [Ht [id Hid]]. eexists. split; [exists (id, n); split; [done|]|].
    + apply list_elem_of_In. rewrite hm_iter_perm. by apply elem_of_map_to_list.
    + apply in_map_iff. exists (mkToken t). split; [done|]. by apply list_elem_of_In.
Qed.

Lemma new_consistent ns ks : (forall id n, ns !! id = Some n -> host_id n = Some id) ->
  consistent (ClusterMetadata_new ns ks).
Proof.
  intros Hh. split; simpl; [done| | |done].
  - intros t n Ht. apply hm_collect_elem in Ht. by apply elem_of_ring_entries.
  - intros id n [t] Hid Ht. apply hm_collect_dom. apply list_elem_of_fmap. exists (t, n). split; [done|].
    apply elem_of_ring_entries. eauto.
Qed.

Lemma default_consistent : consistent ClusterMetadata_default.
Proof.
  split; simpl; [intros id n; by rewrite lookup_empty|intros t n; by rewrite lookup_empty|
    intros id n t; by rewrite lookup_empty|].
  apply map_eq. intros dc. rewrite datacenters_counted, lookup_empty, decide_True; [done|].
  unfold racks_of. by rewrite map_to_list_empty.
Qed.

Lemma keyspaces_consistent c ks : consistent c ->
  consistent (mkClusterMetadata (nodes c) (token_map c) ks (datacenters c)).
Proof. intros [H1 H2 H3 H4]. by split. Qed.

Lemma without_node_lookup c rpc id n : nodes (clone_without_node c rpc) !! id = Some n <->
  nodes c !! id = Some n /\ broadcast_rpc_address n <> rpc.
Proof.
  simpl. set (l := filter _ _).
  assert (Hnd : NoDup l.*1).
  { eapply sublist_NoDup; [|apply fmap_sublist, sublist_filter]. rewrite hm_iter_perm. apply NoDup_fst_map_to_list. }
  rewrite hm_collect_nodup by done. rewrite <- elem_of_list_to_map by done. unfold l.
  rewrite list_elem_of_filter, hm_iter_perm, elem_of_map_to_list. simpl. tauto.
Qed.

Lemma without_node_consistent c rpc : consistent c -> consistent (clone_without_node c rpc).
Proof.
  intros Hc. apply new_consistent. intros id n Hn. apply (without_node_lookup c rpc id n) in Hn as [Hn _].
  by apply (hosts_ok c Hc).
Qed.

Lemma ring_insert_lookup (n : Node) ts : forall (r : gmap Z Node) t,
  foldl (fun r t => <[token_value t := n]> r) r ts !! t = if decide (mkToken t ∈ ts) then Some n else r !! t.
Proof.
  induction ts as [|[v] ts IH]; intros r t; simpl; [done|]. rewrite IH.
  destruct (decide (mkToken t ∈ ts)) as [H|H].
  - rewrite decide_True; [done|]. by right.
  - destruct (decide (v = t)) as [->|Hv].
    + rewrite lookup_insert_eq, decide_True; [done|]. by left.
    + rewrite lookup_insert_ne by done. rewrite decide_False; [done|]. rewrite elem_of_cons. intros [[= ->]|?]; done.
Qed.

(** A node can be added or replaced unless the one it replaces had further tokens. *)
Lemma with_node_consistent c n c' : consistent c -> clone_with_node c n = Ok c' ->
  (forall id old, host_id n = Some id -> nodes c !! id = Some old -> tokens old ⊆ tokens n) ->
  consistent c'.
Proof.
  intros [H1 H2 H3 H4] Hc Hold. unfold clone_with_node in Hc. destruct (host_id n) as [id|] eqn:Hid; [|done].
  injection Hc as <-. split; simpl; [| | |done].
  - intros id' m. rewrite lookup_insert_Some. intros [[-> ->]|[_ Hm]]; auto.
  - intros t m. rewrite ring_insert_lookup. destruct (decide _) as [Ht|Ht].
    + intros [= ->]. split; [done|]. exists id. by rewrite lookup_insert_eq.
    + intros Hm. destruct (H2 _ _ Hm) as [Htm [id' Hid']]. split; [done|]. exists id'.
      rewrite lookup_insert_ne; [done|]. intros <-. apply Ht. by apply (Hold id m).
  - intros id' m t. rewrite ring_insert_lookup. rewrite lookup_insert_Some. destruct t as [t]. simpl.
    destruct (decide _) as [Ht|Ht]; [eauto|]. intros [[-> ->]|[_ Hm]]; [done|]. apply (H3 _ _ (mkToken t) Hm).
Qed.

Definition hosts_keyed (ns : NodeMap) : Prop := forall id n, ns !! id = Some n -> host_id n = Some id.

Lemma hosts_keyed_insert ns id n : hosts_keyed ns -> host_id n = Some id -> hosts_keyed (<[id := n]> ns).
Proof. intros Hk Hn id' n'. rewrite lookup_insert_Some. intros [[-> ->]|[_ Hl]]; auto. Qed.

Lemma initial_nodes_keyed points ev infos : forall ns h, hosts_keyed ns ->
  hosts_keyed (foldl (initial_node points ev) (ns, h) infos).1.
Proof.
  induction infos as [|i infos IH]; intros ns h Hk; [done|]. cbn [foldl]. unfold initial_node at 2.
  destruct (ns !! ni_host_id i); [by apply IH|]. destruct (find _ points); apply IH; by apply hosts_keyed_insert.
Qed.

Lemma initial_consistent infos ks points ev h : consistent (build_initial_metadata infos ks points ev h).1.
Proof.
  unfold build_initial_metadata. pose proof (initial_nodes_keyed points ev infos ∅ h) as Hk.
  destruct (foldl _ _ infos) as [ns h']. apply new_consistent, Hk. intros id n. by rewrite lookup_empty.
Qed.

Lemma refresh_nodes_keyed olds ev infos : forall seen ns h, hosts_keyed ns ->
  hosts_keyed (foldl (refresh_node olds ev) (seen, ns, h) infos).1.2.
Proof.
  induction infos as [|i infos IH]; intros seen ns h Hk; [done|]. cbn [foldl]. unfold refresh_node at 2.
  destruct (decide _); [by apply IH|]. destruct (olds !! ni_host_id i); apply IH; by apply hosts_keyed_insert.
Qed.

Lemma refresh_consistent infos c ev h : consistent (refresh_metadata infos c ev h).1.
Proof.
  unfold refresh_metadata. pose proof (refresh_nodes_keyed (nodes c) ev infos ∅ ∅ h) as Hk.
  destruct (foldl _ _ infos) as [[seen ns] h']. apply new_consistent, Hk. intros id n. by rewrite lookup_empty.
Qed.

Lemma with_node_ok c n id : consistent c -> host_id n = Some id ->
  (forall old, nodes c !! id = Some old -> tokens old ⊆ tokens n) ->
  exists c', clone_with_node c n = Ok c' /\ consistent c'.
Proof.
  intros Hc Hn Ht. assert (Hok : exists c', clone_with_node c n = Ok c') by (unfold clone_with_node; rewrite Hn; eauto).
  destruct Hok as [c' Hok]. exists c'. split; [done|]. eapply with_node_consistent; [done..|].
  rewrite Hn. intros id' old [= <-]. apply Ht.
Qed.

(** Adding a node never panics; the new node is known under its host id. *)
Lemma add_new_node_ok i c s h : consistent c ->
  (forall old, nodes c !! ni_host_id i = Some old -> broadcast_rpc_address old <> ni_broadcast_rpc_address i ->
     tokens old ⊆ ni_tokens i) ->
  exists c', (add_new_node i c s h).1 = Ok c' /\ consistent c'.
Proof.
  intros Hc Ht.
  unfold add_new_node, find_node_by_host_id, clone_with_node_state, clone_with_node_info_and_state, Node_with_state, alloc.
  destruct (nodes c !! ni_host_id i) as [old|] eqn:Eo.
  - destruct (bool_decide_reflect (broadcast_rpc_address old = ni_broadcast_rpc_address i)) as [E1|E1]; cbn [fst].
    + apply (with_node_ok _ _ (ni_host_id i)); [done|exact (hosts_ok c Hc _ _ Eo)|]. rewrite Eo. by intros ? [= <-].
    + apply (with_node_ok _ _ (ni_host_id i)); [done..|]. rewrite Eo. intros ? [= <-]. by apply Ht.
  - apply (with_node_ok _ _ (ni_host_id i)); [done..|]. by rewrite Eo.
Qed.

(** Replacing a node by one that lost a token leaves the old node on the
    ring under that token, although it is no longer in the node map. *)
Theorem lost_token_stays (c c' : ClusterMetadata) (n old : Node) (id : Uuid) (t : Murmur3Token) :
  host_id n = Some id -> token_ring (token_map c) !! token_value t = Some old ->
  t ∉ tokens n -> clone_with_node c n = Ok c' ->
  nodes c' !! id = Some n /\ token_ring (token_map c') !! token_value t = Some old /\
  In old (nodes_for_token (token_map c') t).
Proof.
  intros Hid Hold Ht Hc. unfold clone_with_node in Hc. rewrite Hid in Hc. injection Hc as <-. simpl.
  split; [by rewrite lookup_insert_eq|].
  assert (Hr : token_ring (TokenMap_clone_with_node (token_map c) n) !! token_value t = Some old).
  { simpl. rewrite ring_insert_lookup, decide_False; [done|]. by destruct t. }
  split; [done|]. destruct (token_ring_walk (TokenMap_clone_with_node (token_map c) n) t)
    as (before & after & Hs & _ & He & _ & _ & Hn & _).
  rewrite Hn. apply list_elem_of_In, (list_elem_of_fmap_2 snd _ (token_value t, old)).
  apply He in Hr. rewrite Hs in Hr. apply elem_of_app in Hr as [H|H]; apply elem_of_app; auto.
Qed.
End Topology.
