(* ===== verification/Manager.v ===== *)
(** * Keeping the cluster metadata up to date: [cdrs-tokio/src/cluster/cluster_metadata_manager.rs]

    The manager owns the current [ClusterMetadata] and replaces it when the
    server sends an event and when the control connection is established
    again.  What the queries to the system tables return, and whether a node
    has open connections, is given as [Answers]. *)

From S2P Require Import Prelude Types Wire Token Events Topology.
Local Open Scope Z_scope.

Section Manager.
Context {U : UuidLib} {HU : HashIter Uuid} {US : UnstableSort} {E : Type} `{!NodeDistanceEvaluator E}.

(** The outcomes of [find_new_node_info], [is_any_connection_up] and of the
    query of a keyspace followed by [build_keyspace]. *)
Record Answers : Type := mkAnswers {
  find_new_node_info : SocketAddr -> Result (option NodeInfo);
  is_any_connection_up : Node -> bool;
  find_keyspace : bytes -> Result (option (bytes * KeyspaceMetadata)) }.

Record ClusterMetadataManager : Type := mkManager {
  metadata : ClusterMetadata; contact_points : list Node; did_initial_refresh : bool;
  node_distance_evaluator : E }.
Definition Manager_new (points : list Node) (ev : E) : ClusterMetadataManager :=
  mkManager ClusterMetadata_default points false ev.

(** [self.metadata.store] *)
Definition store (c : ClusterMetadata) (m : ClusterMetadataManager) : ClusterMetadataManager :=
  mkManager c (contact_points m) (did_initial_refresh m) (node_distance_evaluator m).

(** A computed metadata is stored; a panic ends the task. *)
Definition store_result (r : Result ClusterMetadata * Heap) (m : ClusterMetadataManager)
  : Result ClusterMetadataManager * Heap :=
  (omap (fun c => store c m) r.1, r.2).

Definition Manager_add_new_node (a : Answers) (rpc : SocketAddr) (s : NodeState)
    (m : ClusterMetadataManager) (h : Heap) : Result ClusterMetadataManager * Heap :=
  match find_new_node_info a rpc with
  | Ok (Some new_node_info) => store_result (add_new_node new_node_info (metadata m) s h) m
  | Ok None | Err _ => (Ok m, h)
  | Panic => (Panic, h)
  end.

Definition process_topology_event (a : Answers) (e : TopologyChange)
    (m : ClusterMetadataManager) (h : Heap) : Result ClusterMetadataManager * Heap :=
  match tc_change_type e with
  | NewNode =>
    if has_node_by_rpc_address (metadata m) (tc_addr e) then (Ok m, h)
    else Manager_add_new_node a (tc_addr e) NsUnknown m h
  | RemovedNode =>
    if has_node_by_rpc_address (metadata m) (tc_addr e)
    then (Ok (store (clone_without_node (metadata m) (tc_addr e)) m), h)
    else (Ok m, h)
  end.

Definition process_status_event (a : Answers) (e : StatusChange)
    (m : ClusterMetadataManager) (h : Heap) : Result ClusterMetadataManager * Heap :=
  match sc_change_type e, find_node_by_rpc_address (metadata m) (sc_addr e) with
  | Up, Some node =>
    if bool_decide (state node h = NsUp) then (Ok m, h)
    else let '(node, h) := clone_with_node_state node NsUp h in
         store_result (clone_with_node (metadata m) node, h) m
  | Up, None => Manager_add_new_node a (sc_addr e) NsUp m h
  | Down, Some node =>
    if bool_decide (state node h = NsDown) || bool_decide (state node h = NsForcedDown) then (Ok m, h)
    else if is_any_connection_up a node then (Ok m, h)
    else let '(node, h) := clone_with_node_state node NsDown h in
         store_result (clone_with_node (metadata m) node, h) m
  | Down, None => (Ok m, h)
  end.

Definition remove_keyspace (name : bytes) (m : ClusterMetadataManager) : ClusterMetadataManager :=
  store (clone_without_keyspace (metadata m) name) m.

(** [refresh_keyspace] with [try_refresh_keyspace]: an error is logged. *)
Definition refresh_keyspace (a : Answers) (name : bytes) (m : ClusterMetadataManager) : Result ClusterMetadataManager :=
  match find_keyspace a name with
  | Ok (Some (keyspace_name, k)) => Ok (store (clone_with_keyspace (metadata m) keyspace_name k) m)
  | Ok None => Ok (remove_keyspace name m)
  | Err _ => Ok m
  | Panic => Panic
  end.

Definition process_schema_event (a : Answers) (e : SchemaChange)
    (m : ClusterMetadataManager) (h : Heap) : Result ClusterMetadataManager * Heap :=
  match sch_options e with
  | OKeyspace name =>
    match sch_change_type e with
    | Created | Updated => (refresh_keyspace a name m, h)
    | Dropped => (Ok (remove_keyspace name m), h)
    end
  | _ => (Ok m, h)
  end.

Definition process_event (a : Answers) (e : ServerEvent)
    (m : ClusterMetadataManager) (h : Heap) : Result ClusterMetadataManager * Heap :=
  match e with
  | EvTopologyChange e => process_topology_event a e m h
  | EvStatusChange e => process_status_event a e m h
  | EvSchemaChange e => process_schema_event a e m h
  end.

(** [refresh_metadata] with what [refresh_node_infos] and [refresh_keyspaces] returned. *)
Definition Manager_refresh_metadata (full_refresh : bool) (infos : list NodeInfo) (ks : gmap bytes KeyspaceMetadata)
    (m : ClusterMetadataManager) (h : Heap) : ClusterMetadataManager * Heap :=
  let '(c, h) :=
    if negb (did_initial_refresh m) || full_refresh
    then build_initial_metadata infos ks (contact_points m) (node_distance_evaluator m) h
    else Topology.refresh_metadata infos (metadata m) (node_distance_evaluator m) h in
  (mkManager c (contact_points m) true (node_distance_evaluator m), h).

(** ** What the manager does over time *)

(** The answers the driver counts on: the system tables do not make a query
    panic, and a node that moved to another address kept its tokens. *)
Record honest (a : Answers) (m : ClusterMetadataManager) : Prop := {
  node_answers : forall rpc, find_new_node_info a rpc <> Panic;
  keyspace_answers : forall name, find_keyspace a name <> Panic;
  tokens_kept : forall rpc i old, find_new_node_info a rpc = Ok (Some i) ->
    nodes (metadata m) !! ni_host_id i = Some old -> broadcast_rpc_address old <> ni_broadcast_rpc_address i ->
    tokens old ⊆ ni_tokens i }.

(** Events, refreshes and changes of a node's state by its connection pool
    happen in any order. *)
Inductive step : ClusterMetadataManager * Heap -> ClusterMetadataManager * Heap -> Prop :=
| step_event a e m h m' h' : honest a m -> process_event a e m h = (Ok m', h') -> step (m, h) (m', h')
| step_refresh full infos ks m h : step (m, h) (Manager_refresh_metadata full infos ks m h)
| step_state n s m h : step (m, h) (m, store_state n s h).

Lemma add_ok a rpc s m h : consistent (metadata m) -> honest a m ->
  exists m' h', Manager_add_new_node a rpc s m h = (Ok m', h') /\ consistent (metadata m').
Proof.
  intros Hc Ha. unfold Manager_add_new_node. pose proof (node_answers _ _ Ha rpc) as Hp.
  destruct (find_new_node_info a rpc) as [[i|]|e|] eqn:Ei; [|by eauto..|done].
  destruct (add_new_node_ok i (metadata m) s h Hc) as (c' & E1 & Hc'); [intros old; by apply (tokens_kept _ _ Ha rpc)|].
  unfold store_result. rewrite E1. simpl. eauto.
Qed.

Lemma find_by_address_known c rpc n : find_node_by_rpc_address c rpc = Some n ->
  broadcast_rpc_address n = rpc /\ exists id, nodes c !! id = Some n.
Proof.
  unfold find_node_by_rpc_address. destruct (find _ _) as [[id n']|] eqn:Ef; [|done]. intros [= <-].
  apply find_some in Ef as [Hin Hb]. apply bool_decide_eq_true in Hb. split; [done|]. exists id.
  apply list_elem_of_In in Hin. rewrite hm_iter_perm in Hin. by apply elem_of_map_to_list in Hin.
Qed.

Lemma state_change_ok m n s h : consistent (metadata m) -> (exists id, nodes (metadata m) !! id = Some n) ->
  exists m' h', (let '(n, h) := clone_with_node_state n s h in store_result (clone_with_node (metadata m) n, h) m)
    = (Ok m', h') /\ consistent (metadata m').
Proof.
  intros Hc [id Hn]. unfold clone_with_node_state, alloc, store_result. cbn [fst snd].
  edestruct (with_node_ok (metadata m)) as (c' & -> & Hc'); [done|exact (hosts_ok _ Hc _ _ Hn)| |simpl; eauto].
  intros old. rewrite Hn. by intros [= <-].
Qed.

Lemma event_ok a e m h : consistent (metadata m) -> honest a m ->
  exists m' h', process_event a e m h = (Ok m', h') /\ consistent (metadata m').
Proof.
  intros Hc Ha. destruct e as [[[] addr]|[[] addr]|[ct tg op]]; simpl.
  - unfold process_topology_event. simpl. case_match; [by eauto|]. by apply add_ok.
  - unfold process_topology_event. simpl. case_match; [|by eauto].
    eexists _, _. split; [done|]. by apply without_node_consistent.
  - unfold process_status_event. cbn [sc_change_type sc_addr].
    destruct (find_node_by_rpc_address _ _) as [n|] eqn:En; [|by apply add_ok].
    apply find_by_address_known in En as [_ En]. case_match; [by eauto|]. by apply state_change_ok.
  - unfold process_status_event. cbn [sc_change_type sc_addr].
    destruct (find_node_by_rpc_address _ _) as [n|] eqn:En; [|by eauto].
    apply find_by_address_known in En as [_ En]. case_match; [by eauto|]. case_match; [by eauto|]. by apply state_change_ok.
  - unfold process_schema_event. cbn [sch_options sch_change_type]. destruct op as [name| |]; [|by eauto..].
    assert (Hk : exists m', refresh_keyspace a name m = Ok m' /\ consistent (metadata m')).
    { unfold refresh_keyspace. pose proof (keyspace_answers _ _ Ha name).
      destruct (find_keyspace a name) as [[[kn k]|]|er|]; [| | |done]; eexists; (split; [done|]); try done;
        by apply keyspaces_consistent. }
    destruct Hk as (m' & Hk & Hc'). destruct ct; rewrite ?Hk; [by eauto..|].
    eexists _, _. split; [done|]. by apply keyspaces_consistent.
Qed.


(** ** Nodes without a distance *)

Definition no_distance (id : Uuid) (ns : gmap Uuid Node) : Prop := forall n, ns !! id = Some n -> distance n = None.

Lemma no_distance_ignored id c h n : no_distance id (nodes c) -> nodes c !! id = Some n ->
  is_ignored n h = true /\ n ∉ unignored_nodes c h.
Proof.
  intros Hd Hn. assert (Hi : is_ignored n h = true) by (unfold is_ignored; by rewrite (Hd n Hn)).
  split; [done|]. unfold unignored_nodes. rewrite list_elem_of_filter, Hi. by intros [? _].
Qed.

Lemma no_distance_insert id id' n ns : no_distance id ns -> (id' = id -> distance n = None) ->
  no_distance id (<[id' := n]> ns).
Proof. intros Hd Hn n'. rewrite lookup_insert_Some. intros [[-> ->]|[_ Hl]]; auto. Qed.

Lemma no_distance_with_node id c n c' : clone_with_node c n = Ok c' -> no_distance id (nodes c) ->
  (host_id n = Some id -> distance n = None) -> no_distance id (nodes c').
Proof.
  unfold clone_with_node. intros Hc Hd Hn. destruct (host_id n) as [id'|]; [|done]. injection Hc as <-.
  apply no_distance_insert; [done|]. intros ->. auto.
Qed.

(** Changing the state of a known node keeps its distance. *)
Lemma no_distance_clone id id' c n : consistent c -> no_distance id (nodes c) -> nodes c !! id' = Some n ->
  host_id n = Some id -> distance n = None.
Proof. intros Hc Hd Hn Hi. rewrite (hosts_ok c Hc _ _ Hn) in Hi. injection Hi as ->. by apply Hd. Qed.

Lemma store_result_ok r h m m' h' : store_result (r, h) m = (Ok m', h') ->
  exists c', r = Ok c' /\ m' = store c' m.
Proof. unfold store_result. destruct r; simpl; intros H; simplify_eq. eauto. Qed.

Lemma no_distance_add id a rpc s m h m' h' : consistent (metadata m) -> no_distance id (nodes (metadata m)) ->
  Manager_add_new_node a rpc s m h = (Ok m', h') -> no_distance id (nodes (metadata m')).
Proof.
  intros Hc Hd. unfold Manager_add_new_node. destruct (find_new_node_info a rpc) as [[i|]|e|]; [|by intros [= <- <-]..|done].
  unfold add_new_node, find_node_by_host_id, clone_with_node_state, clone_with_node_info_and_state,
    Node_with_state, alloc.
  destruct (nodes (metadata m) !! ni_host_id i) as [old|] eqn:Eo; [destruct (bool_decide _)|];
    intros (c' & Ec & ->)%store_result_ok; apply (no_distance_with_node _ _ _ _ Ec); try done.
  exact (no_distance_clone id (ni_host_id i) (metadata m) old Hc Hd Eo).
Qed.

Lemma no_distance_event id a e m h m' h' : consistent (metadata m) -> no_distance id (nodes (metadata m)) ->
  process_event a e m h = (Ok m', h') -> no_distance id (nodes (metadata m')).
Proof.
  intros Hc Hd. destruct e as [[[] addr]|[[] addr]|[ct tg op]]; simpl;
    unfold process_topology_event, process_status_event, process_schema_event;
    cbn [tc_change_type tc_addr sc_change_type sc_addr sch_options sch_change_type].
  - case_match; [by intros [= <- <-]|by apply no_distance_add].
  - case_match; intros [= <- <-]; [|done]. intros n (Hn & _)%without_node_lookup. auto.
  - destruct (find_node_by_rpc_address _ _) as [n|] eqn:En; [|by apply no_distance_add]. case_match; [by intros [= <- <-]|].
    unfold clone_with_node_state, alloc. intros (c' & Ec & ->)%store_result_ok. apply (no_distance_with_node _ _ _ _ Ec); [done|].
    apply find_by_address_known in En as [_ [id' En]]. exact (no_distance_clone id id' (metadata m) n Hc Hd En).
  - destruct (find_node_by_rpc_address _ _) as [n|] eqn:En; [|by intros [= <- <-]]. case_match; [by intros [= <- <-]|].
    case_match; [by intros [= <- <-]|].
    unfold clone_with_node_state, alloc. intros (c' & Ec & ->)%store_result_ok. apply (no_distance_with_node _ _ _ _ Ec); [done|].
    apply find_by_address_known in En as [_ [id' En]]. exact (no_distance_clone id id' (metadata m) n Hc Hd En).
  - destruct op as [name| |]; [|by intros [= <- <-]..].
    assert (Hk : forall m2, refresh_keyspace a name m = Ok m2 -> no_distance id (nodes (metadata m2))).
    { intros m2. unfold refresh_keyspace. destruct (find_keyspace a name) as [[[kn k]|]|er|]; intros [= <-]; done. }
    destruct ct; intros [= Hm <-]; [by apply Hk..|]. by subst.
Qed.

Lemma clone_info_no_distance n i h : distance n = None -> distance (clone_with_node_info n i h).1 = None.
Proof. intros Hn. unfold clone_with_node_info, alloc. simpl. by case_match. Qed.

Lemma refresh_nodes_no_distance id olds old ev infos : olds !! id = Some old -> distance old = None ->
  forall seen ns h, no_distance id ns -> no_distance id (foldl (refresh_node olds ev) (seen, ns, h) infos).1.2.
Proof.
  intros Ho Hd. induction infos as [|i infos IH]; intros seen ns h Hn; [done|]. cbn [foldl]. unfold refresh_node at 2.
  destruct (decide _); [by apply IH|]. destruct (olds !! ni_host_id i) as [old'|] eqn:Eo.
  - pose proof (clone_info_no_distance old' i h) as Hcl. destruct (clone_with_node_info old' i h) as [n1 h1].
    apply IH, no_distance_insert; [done|]. intros E1. rewrite E1 in Eo. apply Hcl. by simplify_eq.
  - apply IH, no_distance_insert; [done|]. intros E1. rewrite E1 in Eo. by simplify_eq.
Qed.

(** Steps other than a full refresh, during which host [id] stays known. *)
Inductive quiet_step (id : Uuid) : ClusterMetadataManager * Heap -> ClusterMetadataManager * Heap -> Prop :=
| quiet_event a e m h m' h' : honest a m -> process_event a e m h = (Ok m', h') ->
    is_Some (nodes (metadata m') !! id) -> quiet_step id (m, h) (m', h')
| quiet_refresh infos ks m h : did_initial_refresh m = true ->
    is_Some (nodes (metadata (Manager_refresh_metadata false infos ks m h).1) !! id) ->
    quiet_step id (m, h) (Manager_refresh_metadata false infos ks m h)
| quiet_state n s m h : quiet_step id (m, h) (m, store_state n s h).

Lemma quiet_no_distance id s s' : rtc (quiet_step id) s s' -> consistent (metadata s.1) ->
  is_Some (nodes (metadata s.1) !! id) -> no_distance id (nodes (metadata s.1)) -> no_distance id (nodes (metadata s'.1)).
Proof.
  intros Hr. induction Hr as [s|s1 s2 s3 Hs _ IH]; [done|]. intros Hc Hk Hd. apply IH; clear IH;
    destruct Hs as [a e m h m' h' Ha Hp Hk'|infos ks m h Hi Hk'|n s m h]; simpl in *; try done.
  - destruct (event_ok a e m h Hc Ha) as (m2 & h2 & Hp2 & Hc2). by rewrite Hp in Hp2; injection Hp2 as <- <-.
  - unfold Manager_refresh_metadata. rewrite Hi. simpl.
    pose proof (refresh_consistent infos (metadata m) (node_distance_evaluator m) h) as Hc1.
    destruct (Topology.refresh_metadata _ _ _ _). exact Hc1.
  - by eapply no_distance_event.
  - destruct Hk as [old Ho]. unfold Manager_refresh_metadata, Topology.refresh_metadata. rewrite Hi. simpl.
    pose proof (refresh_nodes_no_distance id (nodes (metadata m)) old (node_distance_evaluator m) infos Ho (Hd _ Ho) ∅ ∅ h) as Hn.
    destruct (foldl _ _ infos) as [[seen ns] h1]. simpl in *. apply Hn. intros n. by rewrite lookup_empty.
Qed.

(** A node that joins the cluster while the driver runs (announced by an
    event) has no distance and never gets one: as long as it stays known and
    no full refresh happens, no load balancing strategy is offered it,
    whatever its state. *)
Theorem joined_node_never_used (a : Answers) (e : ServerEvent) (m m1 m2 : ClusterMetadataManager) (h h1 h2 : Heap) (id : Uuid) (n : Node) :
  consistent (metadata m) -> honest a m -> nodes (metadata m) !! id = None ->
  process_event a e m h = (Ok m1, h1) -> is_Some (nodes (metadata m1) !! id) ->
  rtc (quiet_step id) (m1, h1) (m2, h2) -> nodes (metadata m2) !! id = Some n ->
  forall h', is_ignored n h' = true /\ n ∉ unignored_nodes (metadata m2) h'.
Proof.
  intros Hc Ha Hno Hp Hk Hr Hn h'. apply (no_distance_ignored id); [|done].
  apply (quiet_no_distance id _ _ Hr); [|done|]; simpl.
  - destruct (event_ok a e m h Hc Ha) as (m3 & h3 & Hp2 & Hc2). by rewrite Hp in Hp2; injection Hp2 as <- <-.
  - eapply no_distance_event; [done| |done]. intros n'. by rewrite Hno.
Qed.

(** ** Refreshing *)

(** What [clone_with_node_info] takes for a change of address. *)
Definition address_changed (old : Node) (i : NodeInfo) : bool :=
  match broadcast_address old with
  | Some address => negb (bool_decide (address = ni_broadcast_rpc_address i))
  | None => false
  end.

(** The node that a refresh makes of a report. *)
Definition refreshed (ev : E) (old : option Node) (i : NodeInfo) (n : Node) : Prop :=
  host_id n = Some (ni_host_id i) /\ broadcast_rpc_address n = ni_broadcast_rpc_address i /\
  broadcast_address n = ni_broadcast_address i /\ tokens n = ni_tokens i /\
  rack n = ni_rack i /\ datacenter n = ni_datacenter i /\
  distance n = match old with
               | Some old => if address_changed old i then None else distance old
               | None => compute_distance ev i
               end.

Lemma refresh_node_new olds ev seen ns h i : ni_host_id i ∉ seen ->
  exists n h', refresh_node olds ev (seen, ns, h) i = ({[ni_host_id i]} ∪ seen, <[ni_host_id i := n]> ns, h') /\
    refreshed ev (olds !! ni_host_id i) i n.
Proof.
  intros Hs. unfold refresh_node. rewrite decide_False by done.
  destruct (olds !! ni_host_id i) as [old|]; simpl; eexists _, _; (split; [done|]); unfold refreshed; simpl; auto 10.
Qed.

Lemma refresh_fold_seen olds ev id infos : forall seen ns h, id ∈ seen \/ id ∉ ni_host_id <$> infos ->
  (foldl (refresh_node olds ev) (seen, ns, h) infos).1.2 !! id = ns !! id.
Proof.
  induction infos as [|i infos IH]; intros seen ns h Hs; [done|]. cbn [foldl].
  destruct (decide (ni_host_id i ∈ seen)) as [Hi|Hi].
  - unfold refresh_node at 2. rewrite decide_True by done. apply IH. destruct Hs as [Hs|Hs]; [by left|].
    right. simpl in Hs. by apply not_elem_of_cons in Hs as [_ Hs].
  - destruct (refresh_node_new olds ev seen ns h i Hi) as (n & h' & -> & _).
    assert (Hid : id <> ni_host_id i).
    { intros ->. destruct Hs as [Hs|Hs]; [done|]. apply Hs. by left. }
    rewrite IH, lookup_insert_ne by (done || (destruct Hs as [Hs|Hs]; [left; set_solver|right;
      simpl in Hs; by apply not_elem_of_cons in Hs as [_ Hs]])). done.
Qed.

Lemma refresh_fold_unseen olds ev id l : forall seen ns h, id ∉ seen -> id ∉ ni_host_id <$> l ->
  id ∉ (foldl (refresh_node olds ev) (seen, ns, h) l).1.1.
Proof.
  induction l as [|j l IH]; intros seen ns h0 Hs Hl; [done|]. cbn [foldl]. simpl in Hl.
  apply not_elem_of_cons in Hl as [Hj Hl]. destruct (decide (ni_host_id j ∈ seen)) as [Hd|Hd].
  - unfold refresh_node at 2. rewrite decide_True by done. by apply IH.
  - destruct (refresh_node_new olds ev seen ns h0 j Hd) as (n & h' & -> & _). apply IH; [|done].
    apply not_elem_of_union. split; [by apply not_elem_of_singleton|done].
Qed.

Lemma first_report id infos : id ∈ ni_host_id <$> infos ->
  exists l1 i l2, infos = l1 ++ i :: l2 /\ ni_host_id i = id /\ id ∉ ni_host_id <$> l1.
Proof.
  induction infos as [|i infos IH]; simpl; [by rewrite elem_of_nil|]. rewrite elem_of_cons. intros Hid.
  destruct (decide (ni_host_id i = id)) as [Ei|Ei].
  - exists [], i, infos. repeat split; [done|]. apply not_elem_of_nil.
  - destruct IH as (l1 & j & l2 & -> & Hj & Hl1); [by destruct Hid|]. exists (i :: l1), j, l2.
    repeat split; [done|]. simpl. apply not_elem_of_cons. auto.
Qed.

(** After a refresh the known hosts are exactly the reported ones, each
    with the data of its first report; a new host gets its distance from the
    evaluator, and a known one keeps its own unless its address is taken to
    have changed. *)
Theorem refresh_tracks_reports (infos : list NodeInfo) (c : ClusterMetadata) (ev : E) (h : Heap) (id : Uuid) :
  (nodes (Topology.refresh_metadata infos c ev h).1 !! id = None <-> id ∉ ni_host_id <$> infos) /\
  (forall l1 i l2, infos = l1 ++ i :: l2 -> ni_host_id i = id -> id ∉ ni_host_id <$> l1 ->
    exists n, nodes (Topology.refresh_metadata infos c ev h).1 !! id = Some n /\ refreshed ev (nodes c !! id) i n).
Proof.
  set (olds := nodes c).
  assert (Hr : nodes (Topology.refresh_metadata infos c ev h).1 = (foldl (refresh_node olds ev) (∅, ∅, h) infos).1.2).
  { unfold Topology.refresh_metadata. fold olds. by destruct (foldl _ _ infos) as [[seen ns] h1]. }
  rewrite Hr.
  assert (H2 : forall l1 i l2, infos = l1 ++ i :: l2 -> ni_host_id i = id -> id ∉ ni_host_id <$> l1 ->
    exists n, (foldl (refresh_node olds ev) (∅, ∅, h) infos).1.2 !! id = Some n /\ refreshed ev (olds !! id) i n).
  { intros l1 i l2 -> Hi Hl1. rewrite foldl_app. cbn [foldl].
    pose proof (refresh_fold_unseen olds ev id l1 ∅ ∅ h (not_elem_of_empty _) Hl1) as Hseen.
    destruct (foldl _ _ l1) as [[seen ns] h1]. simpl in Hseen.
    destruct (refresh_node_new olds ev seen ns h1 i) as (n & h2 & -> & Hn); [by rewrite Hi|].
    rewrite Hi in *. exists n. split; [|done]. rewrite refresh_fold_seen by (left; set_solver). by rewrite lookup_insert_eq. }
  split; [|exact H2]. split.
  - intros Hnone (l1 & i & l2 & El & Hi & Hl1)%first_report. destruct (H2 _ _ _ El Hi Hl1) as (n & Hn & _). congruence.
  - intros Hn. rewrite refresh_fold_seen by by right. apply lookup_empty.
Qed.

(** A refresh that reports a known node exactly as it was, but whose
    broadcast address is not its RPC address (as when the two use different
    ports), forgets the node's distance, so no strategy is offered it
    afterwards. *)
Theorem refresh_forgets_unchanged_node (infos l1 l2 : list NodeInfo) (i : NodeInfo) (ks : gmap bytes KeyspaceMetadata)
    (m : ClusterMetadataManager) (h : Heap) (old : Node) (address : SocketAddr) :
  did_initial_refresh m = true -> nodes (metadata m) !! ni_host_id i = Some old ->
  infos = l1 ++ i :: l2 -> ni_host_id i ∉ ni_host_id <$> l1 ->
  broadcast_rpc_address old = ni_broadcast_rpc_address i -> broadcast_address old = ni_broadcast_address i ->
  ni_broadcast_address i = Some address -> address <> ni_broadcast_rpc_address i ->
  exists n, nodes (metadata (Manager_refresh_metadata false infos ks m h).1) !! ni_host_id i = Some n /\
    forall h', is_ignored n h' = true /\ n ∉ unignored_nodes (metadata (Manager_refresh_metadata false infos ks m h).1) h'.
Proof.
  intros Hi Ho El Hl1 Hrpc Hb Ha Hne.
  destruct (refresh_tracks_reports infos (metadata m) (node_distance_evaluator m) h (ni_host_id i)) as [_ Hr].
  destruct (Hr l1 i l2 El eq_refl Hl1) as (n & Hn & Href).
  assert (Hd : distance n = None).
  { destruct Href as (_ & _ & _ & _ & _ & _ & ->). rewrite Ho. unfold address_changed. rewrite Hb, Ha.
    by rewrite bool_decide_false. }
  assert (Em : metadata (Manager_refresh_metadata false infos ks m h).1
               = (Topology.refresh_metadata infos (metadata m) (node_distance_evaluator m) h).1).
  { unfold Manager_refresh_metadata. rewrite Hi. simpl. by destruct (Topology.refresh_metadata _ _ _ _). }
  rewrite Em. exists n. split; [done|]. intros h'. apply (no_distance_ignored (ni_host_id i)); [|done].
  intros n'. rewrite Hn. by intros [= <-].
Qed.
End Manager.

Module ManagerSamples.
#[local] Existing Instance uuid_bytes.
#[local] Existing Instance merge_unstable.
#[local] Instance order : HashIter Uuid := default_iter Uuid.

Definition host (k : Z) : Uuid := dexist (repeat (u8 k) 16) eq_refl.
Definition rpc (k : Z) : SocketAddr := mkSocketAddr (IpV4 (map u8 [10; 0; 0; k])) 9042.
Definition storage (k : Z) : SocketAddr := mkSocketAddr (IpV4 (map u8 [10; 0; 0; k])) 7000.
Definition info (k : Z) (ts : list Z) : NodeInfo :=
  mkNodeInfo (host k) (rpc k) (Some (storage k)) (lit "dc1") (map mkToken ts) (lit "r1").
Definition ks : gmap bytes KeyspaceMetadata := ∅.

Definition answers : Answers := mkAnswers (fun a => if decide (a = rpc 2) then Ok (Some (info 2 [5])) else Ok None)
  (fun _ => false) (fun _ => Ok None).

(** A first refresh, then the event that a second node joined, then the event
    that it is up and another refresh. *)
Definition s0 := (Manager_new [] mkAllLocal, new_heap).
Definition s1 := Manager_refresh_metadata false [info 1 [0; 10]] ks s0.1 s0.2.
Definition State : Type := ClusterMetadataManager (E := AllLocalNodeDistanceEvaluator) * Heap.
Definition after_event (e : ServerEvent) (s : State) : State :=
  match process_event answers e s.1 s.2 with
  | (Ok m, h) => (m, h)
  | (_, h) => (s.1, h)
  end.
Definition joined : ServerEvent := EvTopologyChange (mkTopologyChange NewNode (rpc 2)).
Definition is_up : ServerEvent := EvStatusChange (mkStatusChange Up (rpc 2)).
Definition s2 := after_event joined s1.
Definition s3 := after_event is_up s2.
Definition s4 := Manager_refresh_metadata false [info 1 [0; 10]; info 2 [5]] ks s3.1 s3.2.
Definition node_of (k : Z) (s : State) : Node :=
  default (mkNode (rpc k) None None 1 None [] [] []) (nodes (metadata s.1) !! host k).

(** Checks that evaluate to a boolean. *)
Definition is_ok {A B} (r : outcome A B) : bool := match r with Ok _ => true | _ => false end.
Definition knows (k : Z) (s : State) : bool := match nodes (metadata s.1) !! host k with Some _ => true | None => false end.

Lemma after_event_ok e s : is_ok (process_event answers e s.1 s.2).1 = true ->
  process_event answers e s.1 s.2 = (Ok (after_event e s).1, (after_event e s).2).
Proof. unfold after_event. by destruct (process_event answers e s.1 s.2) as [[m| |] h]. Qed.
Lemma knows_node k s : knows k s = true -> nodes (metadata s.1) !! host k = Some (node_of k s).
Proof. unfold knows, node_of. by destruct (nodes _ !! _). Qed.
Lemma knows_some k s : knows k s = true -> is_Some (nodes (metadata s.1) !! host k).
Proof. intros H. rewrite (knows_node _ _ H). eauto. Qed.
Lemma knows_none k s : knows k s = false -> nodes (metadata s.1) !! host k = None.
Proof. unfold knows. by destruct (nodes _ !! _). Qed.

Lemma answers_honest (s : State) :
  bool_decide (broadcast_rpc_address (node_of 2 s) = rpc 2) = true -> honest answers s.1.
Proof.
  intros Hm%bool_decide_eq_true. split; cbn [find_new_node_info find_keyspace answers].
  - intros a. by destruct (decide _).
  - done.
  - intros a i old. destruct (decide _); [|done]. intros [= <-] Ho Hne. destruct Hne.
    unfold node_of in Hm. change (ni_host_id (info 2 [5])) with (host 2) in Ho. by rewrite Ho in Hm.
Qed.

Lemma joined_node_witness : is_ignored (node_of 2 s4) (mark_up (node_of 2 s4) s4.2) = true /\
  node_of 2 s4 ∉ unignored_nodes (metadata s4.1) (mark_up (node_of 2 s4) s4.2).
Proof.
  apply (joined_node_never_used answers joined s1.1 s2.1 s4.1 s1.2 s2.2 s4.2 (host 2)).
  - exact (initial_consistent [info 1 [0; 10]] ks [] mkAllLocal new_heap).
  - apply answers_honest. vm_compute. reflexivity.
  - apply knows_none. vm_compute. reflexivity.
  - apply (after_event_ok joined s1). vm_compute. reflexivity.
  - apply (knows_some 2 s2). vm_compute. reflexivity.
  - apply (rtc_l _ _ (s3.1, s3.2)).
    { apply (quiet_event _ answers is_up).
      - apply answers_honest. vm_compute. reflexivity.
      - apply (after_event_ok is_up s2). vm_compute. reflexivity.
      - apply (knows_some 2 s3). vm_compute. reflexivity. }
    apply rtc_once. apply (quiet_refresh (host 2) [info 1 [0; 10]; info 2 [5]] ks s3.1 s3.2).
    + vm_compute. reflexivity.
    + apply (knows_some 2 s4). vm_compute. reflexivity.
  - apply knows_node. vm_compute. reflexivity.
Defined.

Lemma refresh_forgets_witness :
  is_ignored (node_of 1 s1) (mark_up (node_of 1 s1) s1.2) = false /\
  exists n, nodes (metadata (Manager_refresh_metadata false [info 1 [0; 10]] ks s1.1 s1.2).1) !! host 1 = Some n /\
    forall h', is_ignored n h' = true /\
      n ∉ unignored_nodes (metadata (Manager_refresh_metadata false [info 1 [0; 10]] ks s1.1 s1.2).1) h'.
Proof.
  split; [vm_compute; reflexivity|].
  apply (refresh_forgets_unchanged_node [info 1 [0; 10]] [] [] (info 1 [0; 10]) ks s1.1 s1.2 (node_of 1 s1) (storage 1)).
  - vm_compute. reflexivity.
  - apply (knows_node 1 s1). vm_compute. reflexivity.
  - reflexivity.
  - apply not_elem_of_nil.
  - vm_compute. reflexivity.
  - vm_compute. reflexivity.
  - reflexivity.
  - vm_compute. discriminate.
Defined.


(** A node whose token moved away. *)
Definition moved : Node := mkNode (rpc 1) None None 7 (Some (host 1)) [mkToken 0] [] [].
Definition c_moved : ClusterMetadata :=
  match clone_with_node (metadata s1.1) moved with Ok c => c | _ => metadata s1.1 end.
Lemma lost_token_witness :
  nodes c_moved !! host 1 = Some moved /\
  token_ring (token_map c_moved) !! 10 = Some (node_of 1 s1) /\
  In (node_of 1 s1) (nodes_for_token (token_map c_moved) (mkToken 10)).
Proof.
  apply (lost_token_stays (metadata s1.1) c_moved moved (node_of 1 s1) (host 1) (mkToken 10)).
  - reflexivity.
  - vm_compute. reflexivity.
  - intros H. apply list_elem_of_singleton in H. discriminate H.
  - reflexivity.
Defined.
End ManagerSamples.
