(* ===== verification/LoadBalancing.v ===== *)
(** * Query plans: [cdrs-tokio/src/load_balancing]

    A strategy turns the cluster metadata into the list of nodes a request is
    tried on, in order.  Shuffling is a parameter, with the random number
    drawn as an argument; the atomic round-robin counter is part of the
    strategy's state. *)

From stdpp Require Import sorting.
From S2P Require Import Prelude Types Wire Query Token Topology.
Local Open Scope Z_scope.

(** [rand]: [SliceRandom::shuffle] permutes. *)
Class Shuffle : Type := {
  shuffle : forall {A}, Z -> list A -> list A;
  shuffle_perm : forall A r (l : list A), shuffle r l ≡ₚ l }.

(** [slice::rotate_left] within bounds *)
Definition rotate_left {A} (k : nat) (l : list A) : list A := drop k l ++ take k l.

(** One shuffle: rotate by the number drawn. *)
Program Definition rotating_shuffle : Shuffle := {|
  shuffle A r l := rotate_left (Z.to_nat r mod length l) l |}.
Next Obligation. intros A r l. unfold rotate_left. by rewrite Permutation_app_comm, take_drop. Qed.

Section LoadBalancing.
Context {U : UuidLib} {HU : HashIter Uuid} {US : UnstableSort} {SH : Shuffle}.

Record Request : Type := mkRequest {
  req_keyspace : option bytes; req_token : option Murmur3Token; req_routing_key : option bytes;
  req_consistency : option Consistency }.

(** [trait LoadBalancingStrategy]; [draws] are the random numbers drawn. *)
Class LoadBalancingStrategy (S : Type) : Type :=
  query_plan : S -> (Z * Z) -> option Request -> ClusterMetadata -> Heap -> list Node * S.

(** [prev_idx.fetch_add(1) % nodes.len()], then the rotation *)
Definition round_robin (prev_idx : Z) (ns : list Node) : list Node * Z :=
  match ns with
  | [] => (ns, prev_idx)
  | _ => (rotate_left (Z.to_nat prev_idx mod length ns) ns, wrap 64 (prev_idx + 1))
  end.

Record RandomLoadBalancingStrategy : Type := mkRandom {}.
#[export] Instance Random_strategy : LoadBalancingStrategy RandomLoadBalancingStrategy := fun s draws _ c h =>
  (shuffle draws.1 (unignored_nodes c h), s).

Record RoundRobinLoadBalancingStrategy : Type := mkRoundRobin { rr_prev_idx : Z }.
#[export] Instance RoundRobin_strategy : LoadBalancingStrategy RoundRobinLoadBalancingStrategy := fun s _ _ c h =>
  let '(plan, i) := round_robin (rr_prev_idx s) (unignored_nodes c h) in (plan, mkRoundRobin i).

Record InitializingWrapper (S : Type) : Type := mkInitializing { inner : S; contact_points_query_plan : list Node }.
Arguments mkInitializing {S} _ _.
Arguments inner {S} _.
Arguments contact_points_query_plan {S} _.
#[export] Instance Initializing_strategy {S} `{!LoadBalancingStrategy S} : LoadBalancingStrategy (InitializingWrapper S) :=
  fun s draws request c h =>
  if has_nodes c
  then let '(plan, i) := query_plan (inner s) draws request c h in (plan, mkInitializing i (contact_points_query_plan s))
  else (contact_points_query_plan s, s).

(** ** [topology_aware.rs] *)

Record TopologyAwareLoadBalancingStrategy : Type := mkTopologyAware {
  max_nodes_per_remote_dc : option nat; allow_dc_failover_for_local_cl : bool; prev_idx : Z }.
Definition TopologyAware_new (max_nodes : option nat) (allow : bool) : TopologyAwareLoadBalancingStrategy :=
  mkTopologyAware max_nodes allow 0.
Definition set_prev_idx (i : Z) (s : TopologyAwareLoadBalancingStrategy) : TopologyAwareLoadBalancingStrategy :=
  mkTopologyAware (max_nodes_per_remote_dc s) (allow_dc_failover_for_local_cl s) i.

Definition round_robin_unignored_nodes (s : TopologyAwareLoadBalancingStrategy) (c : ClusterMetadata) (h : Heap)
  : list Node * TopologyAwareLoadBalancingStrategy :=
  let '(plan, i) := round_robin (prev_idx s) (unignored_nodes c h) in (plan, set_prev_idx i s).
Definition round_robin_unignored_local_nodes (s : TopologyAwareLoadBalancingStrategy) (c : ClusterMetadata) (h : Heap)
  : list Node * TopologyAwareLoadBalancingStrategy :=
  let '(plan, i) := round_robin (prev_idx s) (unignored_local_nodes c h) in (plan, set_prev_idx i s).

Definition simple_strategy_replicas (s : TopologyAwareLoadBalancingStrategy) (draw : Z) (token : Murmur3Token)
    (replica_count : nat) (c : ClusterMetadata) (h : Heap) : list Node * TopologyAwareLoadBalancingStrategy :=
  let replicas := filter (fun n => is_ignored n h = false) (nodes_for_token_capped (token_map c) token replica_count) in
  let replicas := shuffle draw replicas in
  let '(others, s) := round_robin_unignored_nodes s c h in
  (unique_by broadcast_rpc_address (replicas ++ others), s).

(** The loop that picks the replicas: what is still wanted per datacenter, how
    many more nodes of a rack already used it may take, and what was taken. *)
Record Selection : Type := mkSelection {
  datacenter_replication_factor : gmap bytes nat; same_rack_replicas : gmap bytes nat;
  used_dc_racks : gset (bytes * bytes); selected : list Node }.

Definition select_replica (replica : Node) (rf : nat) (s : Selection) : Selection :=
  let dc := datacenter replica in
  let taken := <[dc := (rf - 1)%nat]> (datacenter_replication_factor s) in
  if decide ((dc, rack replica) ∈ used_dc_racks s) then
    match same_rack_replicas s !! dc with
    | Some k => if (0 <? k)%nat
                then mkSelection taken (<[dc := (k - 1)%nat]> (same_rack_replicas s)) (used_dc_racks s) (selected s ++ [replica])
                else s
    | None => s
    end
  else mkSelection taken (same_rack_replicas s) ({[(dc, rack replica)]} ∪ used_dc_racks s) (selected s ++ [replica]).

Fixpoint select_replicas (desired_replica_count : nat) (replicas : list Node) (s : Selection) : Selection :=
  match replicas with
  | [] => s
  | replica :: rest =>
    match datacenter_replication_factor s !! datacenter replica with
    | None | Some O => select_replicas desired_replica_count rest s
    | Some rf =>
      let s := select_replica replica rf s in
      if (length (selected s) =? desired_replica_count)%nat then s else select_replicas desired_replica_count rest s
    end
  end.

(** [values().sum()] in a [usize] *)
Definition sum_values (m : gmap bytes nat) : nat := sum_list (map_to_list m).*2.
Definition desired_count (m : gmap bytes nat) : nat := Z.to_nat (wrap 64 (Z.of_nat (sum_values m))).

Definition initial_selection (factors : gmap bytes nat) (c : ClusterMetadata) : Selection :=
  mkSelection factors
    (map_imap (fun dc rf => Some (rf - match get_datacenter c dc with Some d => rack_count d | None => 0 end)%nat) factors) ∅ [].

(** The comparison given to [sort_unstable_by]: local nodes first. *)
Definition local_first (a b : Node) : comparison :=
  if decide (distance a = distance b) then Eq
  else if decide (distance a = Some NdLocal) then Lt
  else if decide (distance b = Some NdLocal) then Gt
  else Eq.

(** [position(is_remote).unwrap_or(0)] *)
Fixpoint position (f : Node -> bool) (l : list Node) : option nat :=
  match l with
  | [] => None
  | n :: l => if f n then Some O else S <$> position f l
  end.
Definition shuffle_local (draw : Z) (result : list Node) : list Node :=
  let local_count := default 0%nat (position is_remote result) in
  if (0 <? local_count)%nat then shuffle draw (take local_count result) ++ drop local_count result else result.

(** The replicas at the front of the plan. *)
Definition network_replicas (draw : Z) (token : Murmur3Token) (factors : gmap bytes nat) (c : ClusterMetadata) (h : Heap)
  : list Node :=
  let replicas := nodes_for_token (token_map c) token in
  let result := selected (select_replicas (desired_count factors) replicas (initial_selection factors c)) in
  let result := sort_unstable local_first result in
  let result := filter (fun n => is_ignored n h = false) result in
  shuffle_local draw result.

Definition network_topology_strategy_replicas (s : TopologyAwareLoadBalancingStrategy) (draws : Z * Z)
    (token : Murmur3Token) (factors : gmap bytes nat) (consistency : option Consistency)
    (c : ClusterMetadata) (h : Heap) : list Node * TopologyAwareLoadBalancingStrategy :=
  let result := network_replicas draws.1 token factors c h in
  let '(others, s) := round_robin_unignored_local_nodes s c h in
  let replicas := result ++ others in
  match max_nodes_per_remote_dc s with
  | Some max_nodes =>
    if match consistency with
       | Some cl => negb (allow_dc_failover_for_local_cl s) && is_dc_local cl
       | None => false
       end
    then (replicas, s)
    else (unique_by broadcast_rpc_address
            (replicas ++ shuffle draws.2 (unignored_remote_nodes_capped c h max_nodes)), s)
  | None => (unique_by broadcast_rpc_address replicas, s)
  end.

Definition replicas_for_keyspace s draws token (k : KeyspaceMetadata) consistency c h :=
  match replication_strategy k with
  | SimpleStrategy replication_factor => simple_strategy_replicas s draws.1 token replication_factor c h
  | NetworkTopologyStrategy factors => network_topology_strategy_replicas s draws token factors consistency c h
  | OtherStrategy => simple_strategy_replicas s draws.1 token 1 c h
  end.

Definition replicas_for_token s draws token (ks : option bytes) consistency c h :=
  match (name ← ks; keyspace c name) with
  | Some k => replicas_for_keyspace s draws token k consistency c h
  | None => round_robin_unignored_local_nodes s c h
  end.

Definition replicas_for_request s draws (request : Request) c h :=
  let token := match req_token request with
               | Some t => Some t
               | None => key ← req_routing_key request; generate key
               end in
  match token with
  | Some token => replicas_for_token s draws token (req_keyspace request) (req_consistency request) c h
  | None => round_robin_unignored_local_nodes s c h
  end.

#[export] Instance TopologyAware_strategy : LoadBalancingStrategy TopologyAwareLoadBalancingStrategy :=
  fun s draws request c h =>
  match request with
  | Some request => replicas_for_request s draws request c h
  | None => round_robin_unignored_local_nodes s c h
  end.

(** ** Rotations *)

Lemma rotate_left_perm {A} k (l : list A) : rotate_left k l ≡ₚ l.
Proof. unfold rotate_left. by rewrite Permutation_app_comm, take_drop. Qed.

Lemma round_robin_perm i ns : (round_robin i ns).1 ≡ₚ ns.
Proof. destruct ns; [done|]. apply rotate_left_perm. Qed.

Lemma rotate_left_lookup {A} (l : list A) k j : (k < length l)%nat -> (j < length l)%nat ->
  rotate_left k l !! j = l !! ((k + j) mod length l)%nat.
Proof.
  intros Hk Hj. unfold rotate_left. destruct (Nat.lt_ge_cases (k + j) (length l)) as [H|H].
  - rewrite lookup_app_l by (rewrite length_drop; lia). rewrite lookup_drop, Nat.mod_small by lia. done.
  - rewrite lookup_app_r by (rewrite length_drop; lia). rewrite length_drop, lookup_take_lt by lia.
    f_equal. replace (k + j)%nat with (j - (length l - k) + 1 * length l)%nat by lia.
    rewrite Nat.Div0.mod_add. symmetry. apply Nat.mod_small. lia.
Qed.

(** The plans of successive requests, while the cluster does not change. *)
Fixpoint round_robin_plans (k : nat) (s : RoundRobinLoadBalancingStrategy) (c : ClusterMetadata) (h : Heap) : list (list Node) :=
  match k with
  | O => []
  | S k' => let '(plan, s) := query_plan s (0, 0) None c h in plan :: round_robin_plans k' s c h
  end.

Lemma round_robin_plans_lookup c h k : forall i j, 0 <= i -> i + Z.of_nat k <= 2 ^ 64 -> (j < k)%nat ->
  unignored_nodes c h <> [] ->
  round_robin_plans k (mkRoundRobin i) c h !! j =
    Some (rotate_left (Z.to_nat (i + Z.of_nat j) mod length (unignored_nodes c h)) (unignored_nodes c h)).
Proof.
  induction k as [|k IH]; intros i j Hi Hk Hj Hne; [lia|]. simpl. unfold query_plan at 1, RoundRobin_strategy at 1.
  unfold round_robin. cbn [rr_prev_idx]. destruct (unignored_nodes c h) as [|n ns] eqn:Eu; [done|]. rewrite <- Eu in *.
  destruct j as [|j]; simpl; [by rewrite Z.add_0_r|].
  destruct (Z.eq_dec (i + 1) (2 ^ 64)) as [E1|E1]; [lia|].
  rewrite wrap_small by (unfold in_u; lia). rewrite IH by (done || lia). do 3 f_equal. lia.
Qed.

(** Over as many consecutive requests as there are usable nodes, the
    round-robin strategy puts every usable node first exactly once, and each
    plan holds all of them. *)
Theorem round_robin_fair (c : ClusterMetadata) (h : Heap) (i : Z) :
  0 <= i -> i + Z.of_nat (length (unignored_nodes c h)) <= 2 ^ 64 ->
  let plans := round_robin_plans (length (unignored_nodes c h)) (mkRoundRobin i) c h in
  Forall (fun plan => plan ≡ₚ unignored_nodes c h) plans /\ head <$> plans ≡ₚ Some <$> unignored_nodes c h.
Proof.
  intros Hi Hn. set (ns := unignored_nodes c h) in *. cbv zeta.
  destruct (decide (ns = [])) as [En|En]; [by rewrite En|].
  assert (Hl : (0 < length ns)%nat) by (destruct ns; [done|simpl; lia]).
  pose proof (round_robin_plans_lookup c h (length ns) i) as Hp. fold ns in Hp.
  assert (Hlen : forall k s, length (round_robin_plans k s c h) = k).
  { induction k as [|k IH]; intros s; [done|]. simpl. destruct (query_plan _ _ _ _ _). simpl. by rewrite IH. }
  split.
  - apply Forall_lookup. intros j plan Hj. pose proof (lookup_lt_Some _ _ _ Hj) as Hlt. rewrite Hlen in Hlt.
    rewrite Hp in Hj by done. injection Hj as <-. apply rotate_left_perm.
  - assert (E : head <$> round_robin_plans (length ns) (mkRoundRobin i) c h
               = Some <$> rotate_left (Z.to_nat i mod length ns) ns); [|by rewrite E, rotate_left_perm].
    apply list_eq. intros j. rewrite !list_lookup_fmap.
    assert (Hm : (Z.to_nat i mod length ns < length ns)%nat) by (apply Nat.mod_upper_bound; lia).
    destruct (Nat.lt_ge_cases j (length ns)) as [Hj|Hj].
    + rewrite Hp, rotate_left_lookup by done. simpl.
      assert (Hk : (Z.to_nat (i + Z.of_nat j) mod length ns < length ns)%nat) by (apply Nat.mod_upper_bound; lia).
      rewrite head_lookup, (rotate_left_lookup _ _ 0) by done. rewrite Nat.add_0_r, Nat.Div0.mod_mod.
      rewrite Nat.Div0.add_mod_idemp_l. rewrite Z2Nat.inj_add, Nat2Z.id by lia.
      destruct (lookup_lt_is_Some_2 ns ((Z.to_nat i + j) mod length ns)) as [x ->]; [apply Nat.mod_upper_bound; lia|done].
    + rewrite !lookup_ge_None_2; [done| |by rewrite Hlen].
      unfold rotate_left. rewrite length_app, length_drop, length_take. lia.
Qed.

(** ** Choosing replicas *)

Definition in_dc (dc : bytes) (l : list Node) : list Node := filter (fun n => datacenter n = dc) l.
Definition racks_in (dc : bytes) (l : list Node) : gset bytes := list_to_set (rack <$> in_dc dc l).

Lemma in_dc_snoc dc l n : in_dc dc (l ++ [n]) = in_dc dc l ++ (if decide (datacenter n = dc) then [n] else []).
Proof. unfold in_dc. by rewrite filter_app. Qed.

Lemma racks_in_snoc dc l n :
  racks_in dc (l ++ [n]) = racks_in dc l ∪ (if decide (datacenter n = dc) then {[rack n]} else ∅).
Proof.
  unfold racks_in. rewrite in_dc_snoc, fmap_app, list_to_set_app_L.
  case_decide; simpl; [by rewrite (right_id_L ∅ (∪))|done].
Qed.

Lemma sum_values_lookup (m : gmap bytes nat) k v : m !! k = Some v -> sum_values m = (v + sum_values (delete k m))%nat.
Proof.
  intros Hk. unfold sum_values. rewrite <- (insert_delete_id m k v Hk) at 1.
  rewrite map_to_list_insert by apply lookup_delete_eq. done.
Qed.

Lemma sum_values_insert (m : gmap bytes nat) k v v' : m !! k = Some v ->
  (sum_values (<[k := v']> m) + v = sum_values m + v')%nat.
Proof.
  intros Hk. rewrite (sum_values_lookup m k v Hk), (sum_values_lookup (<[k := v']> m) k v') by apply lookup_insert_eq.
  rewrite delete_insert_eq. lia.
Qed.

Section Selecting.
Context (factors allowances : gmap bytes nat).

(** After the nodes of [walked]. *)
Record selecting (walked : list Node) (s : Selection) : Prop := {
  sel_factor : forall dc rf, factors !! dc = Some rf -> exists r,
    datacenter_replication_factor s !! dc = Some r /\ (length (in_dc dc (selected s)) + r = rf)%nat;
  sel_outside : forall dc, factors !! dc = None ->
    datacenter_replication_factor s !! dc = None /\ in_dc dc (selected s) = [];
  sel_used : forall dc rk, (dc, rk) ∈ used_dc_racks s <-> rk ∈ racks_in dc (selected s);
  sel_same_rack : forall dc k0, allowances !! dc = Some k0 -> exists k, same_rack_replicas s !! dc = Some k /\
    (length (in_dc dc (selected s)) + k = size (racks_in dc (selected s)) + k0)%nat;
  sel_walk : sublist (selected s) walked;
  sel_covered : forall n r, n ∈ walked -> datacenter_replication_factor s !! datacenter n = Some r ->
    r = 0%nat \/ rack n ∈ racks_in (datacenter n) (selected s);
  sel_sum : (sum_values (datacenter_replication_factor s) + length (selected s) = sum_values factors)%nat }.

Lemma selecting_skip walked s n : selecting walked s ->
  (forall r, datacenter_replication_factor s !! datacenter n = Some r ->
     r = 0%nat \/ rack n ∈ racks_in (datacenter n) (selected s)) ->
  selecting (walked ++ [n]) s.
Proof.
  intros [H1 H2 H3 H4 H5 H6 H7] Hn. split; try done.
  - by apply sublist_inserts_r.
  - intros n' r. rewrite elem_of_app, list_elem_of_singleton. intros [Hn'| ->]; [by apply H6|by apply Hn].
Qed.

(** A node is taken: its datacenter wants one less, and either its rack is new
    or one of the allowance is used up. *)
Lemma selecting_take walked s n r same used : selecting walked s ->
  datacenter_replication_factor s !! datacenter n = Some (S r) ->
  (forall dc rk, (dc, rk) ∈ used <-> (dc, rk) ∈ used_dc_racks s \/ (dc, rk) = (datacenter n, rack n)) ->
  (if decide ((datacenter n, rack n) ∈ used_dc_racks s)
   then exists k, same_rack_replicas s !! datacenter n = Some (S k) /\ same = <[datacenter n := k]> (same_rack_replicas s)
   else same = same_rack_replicas s) ->
  selecting (walked ++ [n])
    (mkSelection (<[datacenter n := r]> (datacenter_replication_factor s)) same used (selected s ++ [n])).
Proof.
  intros [H1 H2 H3 H4 H5 H6 H7] Hr Hused Hsame. split; simpl.
  - intros dc rf Hdc. destruct (H1 dc rf Hdc) as (r' & Hr' & Hl). rewrite in_dc_snoc, length_app.
    destruct (decide (datacenter n = dc)) as [Hd|Hd]; [subst dc|].
    + rewrite lookup_insert_eq. exists r. split; [done|]. simplify_eq. simpl. lia.
    + rewrite lookup_insert_ne by done. exists r'. split; [done|]. simpl. lia.
  - intros dc Hdc. destruct (H2 dc Hdc) as [Hn Hi]. rewrite in_dc_snoc, Hi.
    rewrite decide_False by (intros <-; congruence). rewrite lookup_insert_ne by (intros <-; congruence). done.
  - intros dc rk. rewrite Hused, H3, racks_in_snoc, elem_of_union.
    destruct (decide (datacenter n = dc)) as [Hd|Hd].
    + rewrite elem_of_singleton. subst dc. split; intros [?|Hx]; auto; [right; congruence|right; by subst].
    + split; [intros [?|[= ??]]; [by left|congruence]|intros [?|?%not_elem_of_empty]; [by left|done]].
  - intros dc k0 Hk0. destruct (H4 dc k0 Hk0) as (k & Hk & Hl). rewrite in_dc_snoc, racks_in_snoc, length_app.
    destruct (decide (datacenter n = dc)) as [Hd|Hd]; simpl.
    + subst dc. destruct (decide _) as [Hu|Hu].
      * destruct Hsame as (k' & Hk' & ->). rewrite lookup_insert_eq. exists k'. split; [done|].
        apply H3 in Hu. rewrite union_comm_L, subseteq_union_1_L by by apply singleton_subseteq_l.
        simplify_eq. lia.
      * rewrite Hsame. exists k. split; [done|]. rewrite size_union, size_singleton; [lia|].
        intros x Hx Hx2. apply elem_of_singleton in Hx2 as ->. by apply H3 in Hx.
    + exists k. rewrite (right_id_L ∅ (∪)). split; [|lia].
      destruct (decide _); [destruct Hsame as (k' & _ & ->); by rewrite lookup_insert_ne|by rewrite Hsame].
  - by apply sublist_app.
  - intros n' r' Hn' Hr'. rewrite racks_in_snoc, elem_of_union.
    destruct (decide (datacenter n = datacenter n')) as [Hd|Hd].
    + rewrite <- Hd, lookup_insert_eq in Hr'. injection Hr' as <-.
      apply elem_of_app in Hn' as [Hn'| ->%list_elem_of_singleton]; [|right; right; by apply elem_of_singleton].
      destruct (H6 n' (S r) Hn') as [?|?]; [by rewrite <- Hd|done|]. right. left. congruence.
    + rewrite lookup_insert_ne in Hr' by done.
      apply elem_of_app in Hn' as [Hn'| ->%list_elem_of_singleton]; [|done]. destruct (H6 n' r' Hn' Hr'); auto.
  - rewrite length_app. simpl. pose proof (sum_values_insert _ _ _ r Hr). lia.
Qed.

Lemma selecting_step walked s n r : selecting walked s ->
  (forall dc rf, factors !! dc = Some rf -> is_Some (allowances !! dc)) ->
  datacenter_replication_factor s !! datacenter n = Some (S r) ->
  selecting (walked ++ [n]) (select_replica n (S r) s).
Proof.
  intros Hs Ha Hr. unfold select_replica. replace (S r - 1)%nat with r by lia.
  destruct (decide _) as [Hu|Hu].
  - assert (Hk : exists k, same_rack_replicas s !! datacenter n = Some k).
    { destruct (factors !! datacenter n) as [rf|] eqn:Ef; [|destruct (sel_outside _ _ Hs _ Ef); congruence].
      destruct (Ha _ _ Ef) as [k0 Hk0]. destruct (sel_same_rack _ _ Hs _ _ Hk0) as (k & Hk & _). eauto. }
    destruct Hk as [k Hk]. rewrite Hk. destruct k as [|k]; simpl.
    + apply selecting_skip; [done|]. intros r' _. right. by apply (sel_used _ _ Hs).
    + rewrite Nat.sub_0_r. apply selecting_take; [done..| |].
      * intros dc rk. split; [by left|]. intros [?|Eq]; [done|by rewrite Eq].
      * rewrite decide_True by done. eauto.
  - apply selecting_take; [done..| |by rewrite decide_False].
    intros dc rk. rewrite elem_of_union, elem_of_singleton. tauto.
Qed.

Lemma sum_values_zero (m : gmap bytes nat) k r : sum_values m = 0%nat -> m !! k = Some r -> r = 0%nat.
Proof. intros Hz Hk. rewrite (sum_values_lookup m k r Hk) in Hz. lia. Qed.

Lemma select_replicas_ok rest : (forall dc rf, factors !! dc = Some rf -> is_Some (allowances !! dc)) ->
  forall walked s, selecting walked s -> selecting (walked ++ rest) (select_replicas (sum_values factors) rest s).
Proof.
  intros Ha. induction rest as [|n rest IH]; intros walked s Hs; simpl; [by rewrite app_nil_r|].
  rewrite (cons_middle n), app_assoc.
  assert (Hskip : datacenter_replication_factor s !! datacenter n = None \/
                  datacenter_replication_factor s !! datacenter n = Some 0%nat -> selecting (walked ++ [n]) s).
  { intros Hn. apply selecting_skip; [done|]. intros r Hr. left. destruct Hn; congruence. }
  destruct (datacenter_replication_factor s !! datacenter n) as [[|r]|] eqn:Er; [apply IH; auto| |apply IH; auto].
  pose proof (selecting_step walked s n r Hs Ha Er) as Hs'.
  destruct (Nat.eqb_spec (length (selected (select_replica n (S r) s))) (sum_values factors)) as [Hl|Hl]; [|by apply IH].
  clear IH Hskip. set (s' := select_replica n (S r) s) in *. pose proof (sel_sum _ _ Hs') as Hsum.
  destruct Hs' as [H1 H2 H3 H4 H5 H6 H7]. split; try done.
  - by apply sublist_inserts_r.
  - intros n' r' _ Hr'. left. eapply sum_values_zero; [|exact Hr']. lia.
Qed.
End Selecting.

Lemma initial_selecting factors c :
  selecting factors (same_rack_replicas (initial_selection factors c)) [] (initial_selection factors c).
Proof.
  split; simpl; try done.
  - intros dc rf Hdc. exists rf. done.
  - intros dc k0 Hk. exists k0. done.
  - intros n r Hn. by apply not_elem_of_nil in Hn.
Qed.

(** The nodes taken as replicas of a token. *)
Definition replicas_of (factors : gmap bytes nat) (token : Murmur3Token) (c : ClusterMetadata) : list Node :=
  selected (select_replicas (desired_count factors) (nodes_for_token (token_map c) token) (initial_selection factors c)).

(** C18: the replicas chosen for a token come in ring order from the
    datacenters the keyspace names, never more than the replication factor of
    each; a rack is used again only as often as the factor exceeds the number
    of racks, and a datacenter gets fewer replicas than its factor only when
    all its racks on the ring have one. *)
Theorem replicas_rack_aware (factors : gmap bytes nat) (token : Murmur3Token) (c : ClusterMetadata) (dc : bytes) :
  Z.of_nat (sum_values factors) < 2 ^ 64 ->
  let chosen := replicas_of factors token c in
  sublist chosen (nodes_for_token (token_map c) token) /\
  match factors !! dc with
  | None => in_dc dc chosen = []
  | Some rf =>
    let racks := match get_datacenter c dc with Some d => rack_count d | None => 0%nat end in
    (length (in_dc dc chosen) <= rf)%nat /\
    (length (in_dc dc chosen) <= size (racks_in dc chosen) + (rf - racks))%nat /\
    (length (in_dc dc chosen) = rf \/
     forall n, n ∈ nodes_for_token (token_map c) token -> datacenter n = dc -> rack n ∈ racks_in dc chosen)
  end.
Proof.
  intros Hsum chosen. unfold chosen, replicas_of.
  assert (Ed : desired_count factors = sum_values factors).
  { unfold desired_count. rewrite wrap_small by (unfold in_u; lia). apply Nat2Z.id. }
  rewrite Ed. set (walk := nodes_for_token (token_map c) token).
  set (allow := same_rack_replicas (initial_selection factors c)).
  assert (Ha : forall dc rf, factors !! dc = Some rf ->
      allow !! dc = Some (rf - match get_datacenter c dc with Some d => rack_count d | None => 0 end)%nat).
  { intros dc' rf Hf. unfold allow. simpl. by rewrite map_lookup_imap, Hf. }
  pose proof (select_replicas_ok factors allow walk ltac:(intros dc' rf Hf; rewrite (Ha _ _ Hf); eauto) []
    (initial_selection factors c) (initial_selecting factors c)) as Hs. rewrite app_nil_l in Hs.
  split; [apply (sel_walk _ _ _ _ Hs)|]. destruct (factors !! dc) as [rf|] eqn:Ef; [|by apply (sel_outside _ _ _ _ Hs)].
  destruct (sel_factor _ _ _ _ Hs dc rf Ef) as (r & Hr & Hlen).
  destruct (sel_same_rack _ _ _ _ Hs dc _ (Ha dc rf Ef)) as (k & _ & Hk). cbv zeta.
  split; [lia|]. split; [lia|].
  destruct (decide (r = 0%nat)) as [->|Hr0]; [left; lia|right]. intros n Hn <-.
  by destruct (sel_covered _ _ _ _ Hs n r Hn Hr).
Qed.

(** ** The shape of a plan *)

Lemma local_first_order : total_order local_first.
Proof.
  split; unfold local_first.
  - intros a b. repeat case_decide; auto; congruence.
  - intros a b c. repeat case_decide; congruence.
Qed.

Lemma local_first_gt a b : is_remote a = true -> is_local b = true -> local_first a b = Gt.
Proof.
  unfold is_remote, is_local, local_first. intros Ha%bool_decide_eq_true Hb%bool_decide_eq_true.
  rewrite Ha, Hb. by repeat case_decide.
Qed.

Lemma usable_distance n h : is_ignored n h = false -> is_local n = negb (is_remote n).
Proof.
  unfold is_ignored, is_local, is_remote. intros [Hd _]%orb_false_iff. apply bool_decide_eq_false in Hd.
  by destruct (distance n) as [[]|].
Qed.

(** Usable nodes sorted by distance are local nodes, then remote ones; the
    shuffle stays among the first. *)
Lemma shuffle_local_shape draw h l : StronglySorted (fun a b => local_first a b <> Gt) l ->
  Forall (fun n => is_ignored n h = false) l ->
  exists ls rs, shuffle_local draw l = ls ++ rs /\ ls ++ rs ≡ₚ l /\
    Forall (fun n => is_local n = true) ls /\ Forall (fun n => is_remote n = true) rs.
Proof.
  intros Hs Hu. unfold shuffle_local.
  assert (Hsplit : match position is_remote l with
    | None => Forall (fun n => is_local n = true) l
    | Some k => Forall (fun n => is_local n = true) (take k l) /\ Forall (fun n => is_remote n = true) (drop k l)
    end).
  { induction Hs as [|n l Hs IH Hf]; simpl; [done|]. apply Forall_cons in Hu as [Hn Hu]. specialize (IH Hu).
    pose proof (usable_distance n h Hn) as Hd. destruct (is_remote n) eqn:Er; simpl.
    - split; [done|]. constructor; [done|]. rewrite Forall_forall in *. intros m Hm.
      pose proof (usable_distance m h (Hu m Hm)) as Hdm. destruct (is_remote m) eqn:Em; [done|].
      by destruct (Hf m Hm); apply local_first_gt.
    - destruct (position is_remote l); simpl; [destruct IH; split; [constructor|]; done|by constructor]. }
  destruct (position is_remote l) as [k|]; simpl.
  - destruct Hsplit as [Hl Hr]. destruct (Nat.ltb_spec 0 k) as [Hk|Hk].
    + exists (shuffle draw (take k l)), (drop k l). split; [done|].
      split; [by rewrite shuffle_perm, take_drop|]. split; [by rewrite shuffle_perm|done].
    + exists [], l. replace k with 0%nat in Hr by lia. by rewrite drop_0 in Hr.
  - exists l, []. by rewrite app_nil_r.
Qed.

Lemma StronglySorted_filter {A} (R : A -> A -> Prop) (P : A -> Prop) `{!forall x, Decision (P x)} l :
  StronglySorted R l -> StronglySorted R (filter P l).
Proof.
  induction 1 as [|x l Hs IH Hf]; [constructor|]. destruct (decide (P x)).
  - rewrite filter_cons_True by done. constructor; [done|]. rewrite Forall_forall in *.
    intros y [_ Hy]%list_elem_of_filter. auto.
  - by rewrite filter_cons_False.
Qed.

Definition usable (h : Heap) (l : list Node) : list Node := filter (fun n => is_ignored n h = false) l.

Lemma network_replicas_shape draw token factors c h :
  exists ls rs, network_replicas draw token factors c h = ls ++ rs /\
    ls ++ rs ≡ₚ usable h (replicas_of factors token c) /\
    Forall (fun n => is_local n = true) ls /\ Forall (fun n => is_remote n = true) rs.
Proof.
  unfold network_replicas. fold (replicas_of factors token c).
  destruct (shuffle_local_shape draw h (usable h (sort_unstable local_first (replicas_of factors token c))))
    as (ls & rs & E & Hp & Hl & Hr).
  - apply StronglySorted_filter, sort_unstable_sorted, local_first_order.
  - apply Forall_forall. by intros n [Hn _]%list_elem_of_filter.
  - exists ls, rs. repeat split; [done| |done|done]. rewrite Hp. unfold usable. by rewrite sort_unstable_perm.
Qed.

(** Whether a plan is confined to the local datacenter by its consistency. *)
Definition local_only (s : TopologyAwareLoadBalancingStrategy) (consistency : option Consistency) : bool :=
  match max_nodes_per_remote_dc s, consistency with
  | Some _, Some cl => negb (allow_dc_failover_for_local_cl s) && is_dc_local cl
  | _, _ => false
  end.
Definition remote_fallback (s : TopologyAwareLoadBalancingStrategy) (c : ClusterMetadata) (h : Heap) : list Node :=
  match max_nodes_per_remote_dc s with Some k => unignored_remote_nodes_capped c h k | None => [] end.

Lemma network_plan_shape (s : TopologyAwareLoadBalancingStrategy) (draws : Z * Z) (token : Murmur3Token)
    (factors : gmap bytes nat) (cl : option Consistency) (c : ClusterMetadata) (h : Heap) :
  exists ls rs others remotes,
    ls ++ rs ≡ₚ usable h (replicas_of factors token c) /\
    Forall (fun n => is_local n = true) ls /\ Forall (fun n => is_remote n = true) rs /\
    others ≡ₚ unignored_local_nodes c h /\ remotes ≡ₚ remote_fallback s c h /\
    (network_topology_strategy_replicas s draws token factors cl c h).1 =
      if local_only s cl then ls ++ rs ++ others
      else unique_by broadcast_rpc_address (ls ++ rs ++ others ++ remotes).
Proof.
  destruct (network_replicas_shape draws.1 token factors c h) as (ls & rs & E & Hp & Hl & Hr).
  unfold network_topology_strategy_replicas, round_robin_unignored_local_nodes, local_only, remote_fallback. rewrite E.
  pose proof (round_robin_perm (prev_idx s) (unignored_local_nodes c h)) as Ho.
  destruct (round_robin (prev_idx s) (unignored_local_nodes c h)) as [others i]. cbn [fst] in Ho. simpl.
  destruct (max_nodes_per_remote_dc s) as [k|].
  - exists ls, rs, others, (shuffle draws.2 (unignored_remote_nodes_capped c h k)).
    repeat split; [done..|by rewrite shuffle_perm|]. rewrite !app_assoc. by destruct cl as [cl|]; [destruct (_ && _)|].
  - exists ls, rs, others, []. repeat split; [done..|]. by rewrite app_nil_r, app_assoc.
Qed.

Lemma unignored_local_usable c h n : n ∈ unignored_local_nodes c h -> is_ignored n h = false.
Proof. intros [Hi _]%list_elem_of_filter. by apply orb_false_iff in Hi as [Hi _]. Qed.
Lemma remote_fallback_usable s c h n : n ∈ remote_fallback s c h -> is_ignored n h = false.
Proof.
  unfold remote_fallback. destruct (max_nodes_per_remote_dc s) as [k|]; [|by intros ?%elem_of_nil].
  unfold unignored_remote_nodes_capped. intros Hn%subseteq_take.
  apply list_elem_of_filter in Hn as [Hi _]. by apply orb_false_iff in Hi as [Hi _].
Qed.

(** What every plan promises: usable nodes only, every usable local node reached. *)
Record serves (c : ClusterMetadata) (h : Heap) (plan : list Node) : Prop := {
  serves_usable : Forall (fun n => is_ignored n h = false) plan;
  serves_local : forall n, n ∈ unignored_local_nodes c h -> broadcast_rpc_address n ∈ broadcast_rpc_address <$> plan }.

Lemma serves_unique c h l : serves c h l -> serves c h (unique_by broadcast_rpc_address l).
Proof.
  intros [H1 H2]. split.
  - rewrite Forall_forall in *. intros n Hn%elem_of_unique_by. auto.
  - intros n Hn. apply unique_by_keys. auto.
Qed.

Lemma serves_app c h l1 l2 : Forall (fun n => is_ignored n h = false) l1 -> serves c h l2 -> serves c h (l1 ++ l2).
Proof.
  intros H [H1 H2]. split; [by apply Forall_app|]. intros n Hn. rewrite fmap_app. apply elem_of_app. auto.
Qed.

Lemma serves_all c h l : (forall n, n ∈ l -> is_ignored n h = false) ->
  (forall n, n ∈ unignored_local_nodes c h -> n ∈ l) -> serves c h l.
Proof.
  intros H1 H2. split; [by apply Forall_forall|]. intros n Hn. apply list_elem_of_fmap_2. auto.
Qed.

Lemma network_plan_serves s draws token factors cl c h :
  serves c h (network_topology_strategy_replicas s draws token factors cl c h).1.
Proof.
  destruct (network_plan_shape s draws token factors cl c h) as (ls & rs & others & remotes & Hp & _ & _ & Ho & Hm & ->).
  assert (Hls : Forall (fun n => is_ignored n h = false) (ls ++ rs)).
  { rewrite Hp. apply Forall_forall. by intros n [? _]%list_elem_of_filter. }
  assert (Hos : serves c h others).
  { apply serves_all; intros n; rewrite Ho; [apply unignored_local_usable|done]. }
  destruct (local_only s cl); [|apply serves_unique]; rewrite app_assoc; apply serves_app; try done.
  apply serves_all; intros n; rewrite elem_of_app, Ho; [|auto]. rewrite Hm.
  intros [?|?]; [by eapply unignored_local_usable|by eapply remote_fallback_usable].
Qed.

(** C17: a plan for a network topology keyspace has the usable local replicas
    first, then the usable remote replicas, then all usable local nodes, then
    the remote nodes allowed as a fallback, repeated addresses dropped (for a
    local consistency level without failover the remote nodes are left out
    and repetitions are kept).  So it offers only usable nodes and reaches
    every usable local one. *)
Theorem network_plan_order (s : TopologyAwareLoadBalancingStrategy) (draws : Z * Z) (token : Murmur3Token)
    (factors : gmap bytes nat) (cl : option Consistency) (c : ClusterMetadata) (h : Heap) :
  let plan := (network_topology_strategy_replicas s draws token factors cl c h).1 in
  (exists ls rs others remotes,
    ls ++ rs ≡ₚ usable h (replicas_of factors token c) /\
    Forall (fun n => is_local n = true) ls /\ Forall (fun n => is_remote n = true) rs /\
    others ≡ₚ unignored_local_nodes c h /\ remotes ≡ₚ remote_fallback s c h /\
    plan = if local_only s cl then ls ++ rs ++ others
           else unique_by broadcast_rpc_address (ls ++ rs ++ others ++ remotes)) /\
  serves c h plan /\
  (local_only s cl = false -> NoDup (broadcast_rpc_address <$> plan)).
Proof.
  intros plan.
  destruct (network_plan_shape s draws token factors cl c h) as (ls & rs & others & remotes & Hp & Hl & Hr & Ho & Hm & E).
  split; [exists ls, rs, others, remotes; auto 10|]. split; [apply network_plan_serves|].
  unfold plan. rewrite E. intros ->. apply unique_by_nodup.
Qed.

(** Under a local consistency level without failover, a usable local
    replica that is in the node map comes up twice in the plan. *)
Theorem local_only_plan_repeats (s : TopologyAwareLoadBalancingStrategy) (draws : Z * Z) (token : Murmur3Token)
    (factors : gmap bytes nat) (cl : option Consistency) (c : ClusterMetadata) (h : Heap) (n : Node) :
  local_only s cl = true -> n ∈ replicas_of factors token c -> n ∈ unignored_local_nodes c h ->
  exists i j : nat, (i < j)%nat /\
    (network_topology_strategy_replicas s draws token factors cl c h).1 !! i = Some n /\
    (network_topology_strategy_replicas s draws token factors cl c h).1 !! j = Some n.
Proof.
  intros Hlo Hn Hun.
  destruct (network_plan_shape s draws token factors cl c h) as (ls & rs & others & remotes & Hp & _ & _ & Ho & _ & ->).
  rewrite Hlo, app_assoc.
  assert (H1 : n ∈ ls ++ rs).
  { rewrite Hp. unfold usable. apply list_elem_of_filter. split; [|done]. by eapply unignored_local_usable. }
  assert (H2 : n ∈ others) by by rewrite Ho.
  apply list_elem_of_lookup in H1 as [i Hi]. apply list_elem_of_lookup in H2 as [j Hj].
  exists i, (length (ls ++ rs) + j)%nat. pose proof (lookup_lt_Some _ _ _ Hi). split; [lia|].
  split; [by rewrite lookup_app_l|]. rewrite lookup_app_r by lia. by replace (length (ls ++ rs) + j - length (ls ++ rs))%nat with j by lia.
Qed.

Lemma unignored_usable c h n : n ∈ unignored_nodes c h -> is_ignored n h = false.
Proof. by intros [? _]%list_elem_of_filter. Qed.
Lemma unignored_local_unignored c h n : n ∈ unignored_local_nodes c h -> n ∈ unignored_nodes c h.
Proof.
  intros Hn. pose proof (unignored_local_usable _ _ _ Hn). apply list_elem_of_filter in Hn as [_ Hn].
  by apply list_elem_of_filter.
Qed.

Lemma round_robin_serves c h i : serves c h (round_robin i (unignored_nodes c h)).1.
Proof.
  apply serves_all; intros n; rewrite round_robin_perm; [apply unignored_usable|apply unignored_local_unignored].
Qed.
Lemma round_robin_local_serves s c h : serves c h (round_robin_unignored_local_nodes s c h).1.
Proof.
  unfold round_robin_unignored_local_nodes. pose proof (round_robin_perm (prev_idx s) (unignored_local_nodes c h)) as Hp.
  destruct (round_robin _ _) as [plan i]. simpl in *. apply serves_all; intros n; rewrite Hp; [apply unignored_local_usable|done].
Qed.
Lemma simple_plan_serves s draw token k c h : serves c h (simple_strategy_replicas s draw token k c h).1.
Proof.
  unfold simple_strategy_replicas, round_robin_unignored_nodes. pose proof (round_robin_serves c h (prev_idx s)) as Hr.
  destruct (round_robin _ _) as [plan i]. simpl in *. apply serves_unique, serves_app; [|done].
  rewrite shuffle_perm. apply Forall_forall. by intros n [? _]%list_elem_of_filter.
Qed.

(** The contract between the strategies and the sessions that use them. *)
Class ServingStrategy (S : Type) `{!LoadBalancingStrategy S} : Prop :=
  plan_serves : forall s draws request c h, serves c h (query_plan s draws request c h).1.

#[export] Instance Random_serving : ServingStrategy RandomLoadBalancingStrategy.
Proof.
  intros s draws r c h. apply serves_all; intros n; simpl; rewrite shuffle_perm;
    [apply unignored_usable|apply unignored_local_unignored].
Qed.
#[export] Instance RoundRobin_serving : ServingStrategy RoundRobinLoadBalancingStrategy.
Proof.
  intros s draws r c h. unfold query_plan, RoundRobin_strategy. pose proof (round_robin_serves c h (rr_prev_idx s)).
  by destruct (round_robin _ _).
Qed.
#[export] Instance TopologyAware_serving : ServingStrategy TopologyAwareLoadBalancingStrategy.
Proof.
  intros s draws r c h. unfold query_plan, TopologyAware_strategy.
  destruct r as [r|]; [|apply round_robin_local_serves]. unfold replicas_for_request.
  destruct (match req_token r with Some t => _ | None => _ end) as [token|]; [|apply round_robin_local_serves].
  unfold replicas_for_token. destruct (name ← req_keyspace r; keyspace c name) as [k|]; [|apply round_robin_local_serves].
  unfold replicas_for_keyspace.
  destruct (replication_strategy k); [apply simple_plan_serves|apply network_plan_serves|apply simple_plan_serves].
Qed.

End LoadBalancing.
Arguments mkInitializing {U S} _ _.
Arguments inner {U S} _.
Arguments contact_points_query_plan {U S} _.

Module LoadBalancingSamples.
#[local] Existing Instance uuid_bytes.
#[local] Existing Instance merge_unstable.
#[local] Existing Instance rotating_shuffle.
#[local] Instance order : HashIter Uuid := default_iter Uuid.

(** Two usable nodes in the local datacenter, one of them owner of token 5. *)
Definition host (k : Z) : Uuid := dexist (repeat (u8 k) 16) eq_refl.
Definition rpc (k : Z) : SocketAddr := mkSocketAddr (IpV4 (map u8 [10; 0; 0; k])) 9042.
Definition node (k : Z) (rk : string) (ts : list Z) : Node :=
  mkNode (rpc k) None (Some NdLocal) (Z.to_pos k) (Some (host k)) (map mkToken ts) (lit rk) (lit "dc1").
Definition n1 := node 1 "r1" [5].
Definition n2 := node 2 "r2" [50].
Definition heap : Heap := mark_up n2 (mark_up n1 (mkHeap 3 ∅)).
Definition cluster : ClusterMetadata := ClusterMetadata_new (<[host 1 := n1]> (<[host 2 := n2]> ∅)) ∅.
Definition factors : gmap bytes nat := {[lit "dc1" := 1%nat]}.

Lemma round_robin_witness :
  Forall (fun plan => plan ≡ₚ unignored_nodes cluster heap)
    (round_robin_plans (length (unignored_nodes cluster heap)) (mkRoundRobin 7) cluster heap) /\
  head <$> round_robin_plans (length (unignored_nodes cluster heap)) (mkRoundRobin 7) cluster heap
    ≡ₚ Some <$> unignored_nodes cluster heap.
Proof. apply (round_robin_fair cluster heap 7); vm_compute; discriminate. Defined.

Lemma rack_aware_witness : replicas_of factors (mkToken 20) cluster = [n2] /\
  sublist (replicas_of factors (mkToken 20) cluster) (nodes_for_token (token_map cluster) (mkToken 20)).
Proof.
  split; [vm_compute; reflexivity|]. apply (replicas_rack_aware factors (mkToken 20) cluster (lit "dc1")).
  vm_compute. reflexivity.
Defined.

Definition strategy : TopologyAwareLoadBalancingStrategy := TopologyAware_new (Some 1%nat) false.
Lemma repeats_witness : exists i j : nat, (i < j)%nat /\
  (network_topology_strategy_replicas strategy (0, 0) (mkToken 20) factors (Some LocalQuorum) cluster heap).1 !! i = Some n2 /\
  (network_topology_strategy_replicas strategy (0, 0) (mkToken 20) factors (Some LocalQuorum) cluster heap).1 !! j = Some n2.
Proof.
  apply (local_only_plan_repeats strategy (0, 0) (mkToken 20) factors (Some LocalQuorum) cluster heap n2).
  - reflexivity.
  - apply (bool_decide_eq_true_1 (n2 ∈ replicas_of factors (mkToken 20) cluster)). vm_compute. reflexivity.
  - apply (bool_decide_eq_true_1 (n2 ∈ unignored_local_nodes cluster heap)). vm_compute. reflexivity.
Defined.

Definition wrapped : InitializingWrapper TopologyAwareLoadBalancingStrategy := mkInitializing strategy [].
Definition wrapped_plan : list Node :=
  (query_plan (S := InitializingWrapper TopologyAwareLoadBalancingStrategy) wrapped (0, 0) None cluster heap).1.
End LoadBalancingSamples.
