(* ===== verification/Scalars.v ===== *)
(** * Column values: scalars

    [types/data_serialization_types.rs], [types/value.rs] (the [Bytes]
    conversions), [types/decimal.rs], [types/duration.rs], [types/blob.rs]:
    how a Rust value becomes the bytes of a query value and how the bytes of
    a column become a Rust value again.  The [num-bigint], [integer-encoding],
    [chrono] and [time] crates are classes carrying their documented laws,
    each with one instance.  Floating-point numbers are their bit patterns:
    the code only moves them through [to_be_bytes] and [from_be_bytes]. *)

From S2P Require Import Prelude Types Wire Envelope Query.
Local Open Scope Z_scope.
Local Open Scope cdrs_scope.

(** ** Text: [String::from_utf8_lossy] *)

(** U+FFFD, which replaces every maximal ill-formed subsequence. *)
Definition replacement : bytes := [u8 0xEF; u8 0xBF; u8 0xBD].

(** The second byte a three- or four-byte sequence may have. *)
Definition second3 (b c1 : byte) : bool :=
  if b2z b =? 0xE0 then between 0xA0 0xBF c1
  else if b2z b =? 0xED then between 0x80 0x9F c1 else cont c1.
Definition second4 (b c1 : byte) : bool :=
  if b2z b =? 0xF0 then between 0x90 0xBF c1
  else if b2z b =? 0xF4 then between 0x80 0x8F c1 else cont c1.

Fixpoint from_utf8_lossy (l : bytes) : bytes :=
  match l with
  | [] => []
  | b :: t =>
    if b2z b <? 0x80 then b :: from_utf8_lossy t
    else if between 0xC2 0xDF b then
      match t with
      | c1 :: t1 => if cont c1 then b :: c1 :: from_utf8_lossy t1 else replacement ++ from_utf8_lossy t
      | [] => replacement
      end
    else if between 0xE0 0xEF b then
      match t with
      | c1 :: t1 =>
        if second3 b c1 then
          match t1 with
          | c2 :: t2 =>
            if cont c2 then b :: c1 :: c2 :: from_utf8_lossy t2 else replacement ++ from_utf8_lossy t1
          | [] => replacement
          end
        else replacement ++ from_utf8_lossy t
      | [] => replacement
      end
    else if between 0xF0 0xF4 b then
      match t with
      | c1 :: t1 =>
        if second4 b c1 then
          match t1 with
          | c2 :: t2 =>
            if cont c2 then
              match t2 with
              | c3 :: t3 =>
                if cont c3 then b :: c1 :: c2 :: c3 :: from_utf8_lossy t3
                else replacement ++ from_utf8_lossy t2
              | [] => replacement
              end
            else replacement ++ from_utf8_lossy t1
          | [] => replacement
          end
        else replacement ++ from_utf8_lossy t
      | [] => replacement
      end
    else replacement ++ from_utf8_lossy t
  end.

(** ** Crates *)

(** [num_bigint::BigInt] is an integer; its big-endian two's-complement
    bytes read back as the same integer. *)
Class BigIntLib : Type := {
  to_signed_bytes_be : Z -> bytes;
  from_signed_bytes_be : bytes -> Z;
  signed_bytes_round_trip : forall z, from_signed_bytes_be (to_signed_bytes_be z) = z }.

(** [integer_encoding::VarInt] for [i32] and [i64] (width [w]):
    [decode_var] returns the value and the number of bytes it took. *)
Class VarIntLib : Type := {
  encoded : Z -> bytes;
  decode_var : Z -> bytes -> option (Z * nat);
  decode_encoded : forall w z rest, w = 32 \/ w = 64 -> in_i w z ->
    decode_var w (encoded z ++ rest) = Some (z, length (encoded z));
  decode_var_bound : forall w b z n, w = 32 \/ w = 64 -> decode_var w b = Some (z, n) ->
    (n <= length b)%nat /\ in_i w z }.

(** [VarInt::required_space]: the size of the encoding. *)
Definition required_space `{VarIntLib} (z : Z) : nat := length (encoded z).
(** [VarInt::encode_var(self, dst)]: the encoding at the start of [dst], which must hold it. *)
Definition encode_var `{VarIntLib} (z : Z) (dst : bytes) : Result bytes :=
  if (required_space z <=? length dst)%nat then Ok (encoded z ++ drop (required_space z) dst) else Panic.

(** [chrono]: [DateTime::from_timestamp] refuses a nanosecond part of two
    seconds or more and seconds outside of about 262,000 years. *)
Class ChronoLib : Type := {
  DateTime : Type;
  NaiveDateTime : Type;
  naive_utc : DateTime -> NaiveDateTime;
  and_utc : NaiveDateTime -> DateTime;
  from_timestamp : Z -> Z -> option DateTime;
  timestamp_millis : DateTime -> Z;
  and_utc_naive : forall d, and_utc (naive_utc d) = d;
  from_timestamp_invalid : forall s n, 2000000000 <= n -> from_timestamp s n = None;
  from_timestamp_valid : forall s n, Z.abs s <= 8000000000000 -> 0 <= n < 1000000000 ->
    is_Some (from_timestamp s n);
  from_timestamp_millis : forall s n d, 0 <= n < 1000000000 -> from_timestamp s n = Some d ->
    timestamp_millis d = s * 1000 + n / 1000000 }.

(** [time]: the epoch plus a [Duration] of seconds and nanoseconds; the
    addition panics ([None]) when the year leaves -9999..9999. *)
Class TimeLib : Type := {
  PrimitiveDateTime : Type;
  epoch_add : Z -> Z -> option PrimitiveDateTime;
  unix_timestamp : PrimitiveDateTime -> Z;
  nanosecond : PrimitiveDateTime -> Z;
  epoch_add_valid : forall s n, -300000000000 <= s <= 250000000000 -> Z.abs n < 1000000000 ->
    is_Some (epoch_add s n);
  epoch_add_nanos : forall s n d, epoch_add s n = Some d ->
    unix_timestamp d * 1000000000 + nanosecond d = s * 1000000000 + n;
  nanosecond_range : forall d, 0 <= nanosecond d < 1000000000 }.

(** ** [Decimal] and [Duration] *)

Record Decimal : Type := mkDecimal { unscaled : Z; scale : Z }.
#[export] Instance Decimal_eq_dec : EqDecision Decimal.
Proof. solve_decision. Defined.

Definition Decimal_new (u s : Z) : Decimal := mkDecimal u s.
(** [10i64.pow(scale as u32)], wrapping, then the truncating division of
    [BigInt], which panics on zero. *)
Definition as_plain (d : Decimal) : Result Z :=
  let divisor := swrap 64 (10 ^ wrap 32 (scale d)) in
  if divisor =? 0 then Panic else Ok (Z.quot (unscaled d) divisor).
Definition Decimal_from_int (i : Z) : Decimal := mkDecimal i 0.
Definition Decimal_serialize `{BigIntLib} (d : Decimal) : bytes :=
  i32_serialize (scale d) ++ to_signed_bytes_be (unscaled d).

Record Duration : Type := mkDuration { months : Z; days : Z; nanoseconds : Z }.
#[export] Instance Duration_eq_dec : EqDecision Duration.
Proof. solve_decision. Defined.

Inductive DurationCreationError : Type :=
| MixedPositiveAndNegative (months days nanoseconds : Z).

Definition Duration_new (m d n : Z) : outcome DurationCreationError Duration :=
  if ((m <? 0) || (d <? 0) || (n <? 0)) && ((0 <? m) || (0 <? d) || (0 <? n))
  then Err (MixedPositiveAndNegative m d n)
  else Ok (mkDuration m d n).

(** Three encodings written one after the other into a zeroed buffer. *)
Definition Duration_serialize `{VarIntLib} (d : Duration) : Result bytes :=
  let month_space := required_space (months d) in
  let day_space := required_space (days d) in
  let buffer := replicate (month_space + day_space + required_space (nanoseconds d)) (u8 0) in
  let? buffer := encode_var (months d) buffer in
  let? tail := encode_var (days d) (drop month_space buffer) in
  let buffer := take month_space buffer ++ tail in
  let? tail := encode_var (nanoseconds d) (drop (month_space + day_space) buffer) in
  Ok (take (month_space + day_space) buffer ++ tail).

(** ** Rust values to bytes: [impl From<T> for Bytes] *)

Definition Bytes_from_str (s : bytes) : bytes := s.
Definition Bytes_from_i8 (v : Z) : bytes := [u8 v].
Definition Bytes_from_i16 (v : Z) : bytes := to_short v.
Definition Bytes_from_i32 (v : Z) : bytes := to_int v.
Definition Bytes_from_i64 (v : Z) : bytes := to_bigint v.
Definition Bytes_from_u8 (v : byte) : bytes := [v].
Definition Bytes_from_u16 (v : Z) : bytes := to_u_short v.
Definition Bytes_from_u32 (v : Z) : bytes := to_u_int v.
Definition Bytes_from_u64 (v : Z) : bytes := to_u_big v.
Definition Bytes_from_bool (v : bool) : bytes := if v then [u8 1] else [u8 0].
Definition Bytes_from_uuid `{UuidLib} (v : Uuid) : bytes := Uuid_into_bytes v.
Definition Bytes_from_ip (v : IpAddr) : bytes := match v with IpV4 o => o | IpV6 o => o end.
Definition to_float (f : Z) : bytes := be_bytes 4 f.
Definition to_float_big (f : Z) : bytes := be_bytes 8 f.
Definition Bytes_from_f32 (f : Z) : bytes := to_float f.
Definition Bytes_from_f64 (f : Z) : bytes := to_float_big f.
Definition Bytes_from_primitive_date_time `{TimeLib} (v : PrimitiveDateTime) : bytes :=
  to_bigint (swrap 64 (swrap 64 (unix_timestamp v * 1000) + Z.quot (nanosecond v) 1000000)).
Definition Bytes_from_blob (v : bytes) : bytes := v.
Definition Bytes_from_decimal `{BigIntLib} (v : Decimal) : bytes := Decimal_serialize v.
Definition Bytes_from_date_time `{ChronoLib} (v : DateTime) : bytes := Bytes_from_i64 (timestamp_millis v).
Definition Bytes_from_naive_date_time `{ChronoLib} (v : NaiveDateTime) : bytes :=
  Bytes_from_i64 (timestamp_millis (and_utc v)).
Definition Bytes_from_duration `{VarIntLib} (v : Duration) : Result bytes := Duration_serialize v.
Definition Bytes_from_bigint `{BigIntLib} (v : Z) : bytes := to_signed_bytes_be v.

(** Collections: the number of items and each item as a [Value]. *)
Definition Bytes_from_vec {T} (into : T -> bytes) (vec : list T) : bytes :=
  i32_serialize (as_i32 (zlen vec)) ++ concat (map (fun v => Value_serialize (VSome (into v))) vec).
Definition Bytes_from_entries {K V} (intok : K -> bytes) (intov : V -> bytes) (entries : list (K * V)) : bytes :=
  i32_serialize (as_i32 (zlen entries)) ++
  concat (map (fun e => Value_serialize (VSome (intok e.1)) ++ Value_serialize (VSome (intov e.2))) entries).
(** [From<HashMap<K, V>>]: the entries in the map's iteration order. *)
Definition Bytes_from_hash_map {K V} `{HashIter K} (intok : K -> bytes) (intov : V -> bytes) (m : gmap K V) : bytes :=
  Bytes_from_entries intok intov (hm_iter m).

(** ** Bytes to Rust values: [data_serialization_types.rs] *)

Definition FALSE_BYTE : Z := 0.

Definition decode_custom (b : bytes) : Result bytes := Ok (from_utf8_lossy b).
Definition decode_ascii (b : bytes) : Result bytes := Ok (from_utf8_lossy b).
Definition decode_varchar (b : bytes) : Result bytes := Ok (from_utf8_lossy b).
Definition decode_text (b : bytes) : Result bytes := Ok (from_utf8_lossy b).
Definition decode_bigint (b : bytes) : Result Z := try_i64_from_bytes b.
Definition decode_blob (b : bytes) : Result bytes := Ok b.
Definition decode_boolean (b : bytes) : Result bool :=
  match b with
  | [] => Err (EIo UnexpectedEof)
  | b0 :: _ => Ok (negb (b2z b0 =? FALSE_BYTE))
  end.
Definition decode_int (b : bytes) : Result Z := try_i32_from_bytes b.
Definition decode_date (b : bytes) : Result Z := try_i32_from_bytes b.
Definition decode_varint `{BigIntLib} (b : bytes) : Result Z := Ok (from_signed_bytes_be b).
(** [split_at(INT_LEN)] panics on fewer bytes. *)
Definition decode_decimal `{BigIntLib} (b : bytes) : Result Decimal :=
  if (length b <? INT_LEN)%nat then Panic
  else
    let? s := try_i32_from_bytes (take INT_LEN b) in
    let? u := decode_varint (drop INT_LEN b) in
    Ok (Decimal_new u s).
Definition try_f32_from_bytes (b : bytes) : Result Z := omap be_uint (convert_to_array 4 b).
Definition try_f64_from_bytes (b : bytes) : Result Z := omap be_uint (convert_to_array 8 b).
Definition decode_double (b : bytes) : Result Z := try_f64_from_bytes b.
Definition decode_float (b : bytes) : Result Z := try_f32_from_bytes b.
Definition decode_timestamp (b : bytes) : Result Z := try_i64_from_bytes b.
Definition decode_smallint (b : bytes) : Result Z := try_i16_from_bytes b.
(** [bytes[0] as i8] panics on an empty slice. *)
Definition decode_tinyint (b : bytes) : Result Z :=
  match b with [] => Panic | b0 :: _ => Ok (swrap 8 (b2z b0)) end.
Definition decode_time (b : bytes) : Result Z := try_i64_from_bytes b.
(** [decode_timeuuid] with its error converted. *)
Definition timeuuid_value `{UuidLib} (b : bytes) : Result Uuid :=
  match decode_timeuuid b with Some u => Ok u | None => Err EUuidParse end.

(** [ok_or_else(|| io::Error::from(InvalidData))] *)
Definition or_invalid {A} (o : option A) : Result A :=
  match o with Some a => Ok a | None => Err (EIo InvalidData) end.
(** [&bytes[n..]] *)
Definition slice_from (n : nat) (b : bytes) : Result bytes :=
  if (n <=? length b)%nat then Ok (drop n b) else Panic.
Definition decode_duration `{VarIntLib} (b : bytes) : Result Duration :=
  let? m := or_invalid (decode_var 32 b) in
  let? b1 := slice_from m.2 b in
  let? d := or_invalid (decode_var 32 b1) in
  let? b2 := slice_from (m.2 + d.2) b in
  let? n := or_invalid (decode_var 64 b2) in
  map_err (fun _ => EIo InvalidData) (Duration_new m.1 d.1 n.1).

(** A cursor over the whole value; what is left unread is ignored, and every
    error becomes [InvalidData]. *)
Definition run_invalid {A} (r : R A) (b : bytes) : Result A :=
  map_err (fun _ => EIo InvalidData) (omap fst (r b)).

Definition decode_list (b : bytes) : Result (list CBytes) :=
  run_invalid (let* l := CInt_from_cursor in
               let* _ := with_capacity (as_usize l) in
               read_n (times l) CBytes_from_cursor) b.
Definition decode_set (b : bytes) : Result (list CBytes) := decode_list b.
Definition decode_map (b : bytes) : Result (list (CBytes * CBytes)) :=
  run_invalid (let* l := CInt_from_cursor in
               let* _ := with_capacity (as_usize l) in
               read_n (times l) (rpair CBytes_from_cursor CBytes_from_cursor)) b.
Definition decode_tuple (b : bytes) (l : nat) : Result (list CBytes) :=
  run_invalid (read_n l CBytes_from_cursor) b.

(** [Vec::<CBytes>::with_capacity(count)] of 24-byte items; then one slice
    [bytes[i..i + 4]] per component, which panics past the end. *)
Fixpoint float_slices (count : nat) (b : bytes) : Result (list CBytes) :=
  match count with
  | O => Ok []
  | S n =>
    if (length b <? 4)%nat then Panic
    else let? rest := float_slices n (drop 4 b) in Ok (CBytes_new (take 4 b) :: rest)
  end.
Definition decode_float_vector (b : bytes) (count : Z) : Result (list CBytes) :=
  if 2 ^ 63 <=? count * 24 then Panic else float_slices (Z.to_nat count) b.

(** [read_exact] leaves the position unspecified when it fails: [after_eof]
    is what is left to read then, some suffix of what there was. *)
Class FailedRead : Type := {
  after_eof : bytes -> bytes;
  after_eof_suffix : forall i, after_eof i `suffix_of` i }.

(** The fields of a user type: one that is cut short, or missing, is null. *)
Definition udt_field `{FailedRead} : R CBytes := fun i =>
  match CBytes_from_cursor i with
  | Err (EIo UnexpectedEof) =>
    Ok (CBytes_new_null, after_eof (if (length i <? INT_LEN)%nat then i else drop INT_LEN i))
  | r => r
  end.
Definition decode_udt `{FailedRead} (b : bytes) (l : nat) : Result (list CBytes) :=
  run_invalid (read_n l udt_field) b.

(** ** Text *)

Ltac lossy_step :=
  repeat match goal with
  | |- context [match ?l with [] => _ | _ :: _ => _ end] => is_var l; destruct l
  | |- context [if ?b then _ else _] => destruct b eqn:?
  end.

Lemma utf8_valid_replacement l : utf8_valid (replacement ++ l) = utf8_valid l.
Proof. done. Qed.

Lemma lossy_length_ind (P : bytes -> Prop) :
  (forall l, (forall l', (length l' < length l)%nat -> P l') -> P l) -> forall l, P l.
Proof. intros H. apply (induction_ltof1 _ (@length byte)). exact H. Qed.

(** Every decoded text is a Rust [String]. *)
Lemma from_utf8_lossy_valid l : utf8_valid (from_utf8_lossy l) = true.
Proof.
  induction l as [l IH] using lossy_length_ind.
  assert (IHr : forall l', (length l' < length l)%nat -> utf8_valid (replacement ++ from_utf8_lossy l') = true)
    by (intros; rewrite utf8_valid_replacement; auto).
  destruct l as [|b t]; [done|]. cbn [from_utf8_lossy]. unfold second3, second4 in *.
  lossy_step; try (apply IHr; simpl; lia); try done; cbn [utf8_valid];
    repeat match goal with H : _ = _ |- _ => rewrite H end; cbn [andb]; apply IH; simpl; lia.
Qed.

(** A text that is already UTF-8 is unchanged. *)
Lemma from_utf8_lossy_id l : wf_string l -> from_utf8_lossy l = l.
Proof.
  unfold wf_string. induction l as [l IH] using lossy_length_ind. intros Hv.
  destruct l as [|b t]; [done|]. cbn [from_utf8_lossy]. cbn [utf8_valid] in Hv. unfold second3, second4.
  lossy_step; try done;
    repeat match goal with
    | H : context [match ?l with [] => _ | _ :: _ => _ end] |- _ => is_var l; destruct l; try done
    end;
    repeat match goal with
    | H : ?x = ?b, H' : context [?x] |- _ => rewrite H in H'
    | H : (_ && _)%bool = true |- _ => apply andb_prop in H as [? ?]
    end; try done; repeat (f_equal; []); apply IH; simpl; (lia || done).
Qed.

(** ** Crates that satisfy the laws *)

Definition byte_width (z : Z) : nat :=
  Z.to_nat ((Z.log2 (if z <? 0 then - z - 1 else z) + 1) / 8 + 1).

Lemma byte_width_fits z : in_i (8 * Z.of_nat (byte_width z)) z /\ (0 < byte_width z)%nat.
Proof.
  unfold byte_width, in_i. set (a := if z <? 0 then - z - 1 else z).
  assert (Ha : 0 <= a /\ (a = z \/ a = - z - 1)) by (subst a; destruct (Z.ltb_spec z 0); lia).
  assert (Hb : a < 2 ^ (Z.log2 a + 1)).
  { destruct (Z.eq_dec a 0) as [->|]; [by vm_compute|]. pose proof (Z.log2_spec a ltac:(lia)). lia. }
  pose proof (Z.log2_nonneg a) as Hl. set (L := Z.log2 a + 1) in *.
  pose proof (Z.div_mod L 8 ltac:(lia)). pose proof (Z.mod_pos_bound L 8 ltac:(lia)).
  rewrite Z2Nat.id by lia.
  assert (2 ^ L <= 2 ^ (8 * (L / 8 + 1) - 1)) by (apply Z.pow_le_mono_r; lia). lia.
Qed.

Definition twos_complement (b : bytes) : Z :=
  match b with [] => 0 | _ => swrap (8 * zlen b) (be_uint b) end.

(** The shortest two's complement. *)
Program Definition bigint_twos_complement : BigIntLib := {|
  to_signed_bytes_be z := be_bytes (byte_width z) z;
  from_signed_bytes_be := twos_complement |}.
Next Obligation.
  intros z. cbv beta. destruct (byte_width_fits z) as [Hz Hw]. unfold twos_complement.
  destruct (be_bytes (byte_width z) z) as [|b0 bs] eqn:E.
  { apply (f_equal length) in E. rewrite length_be_bytes in E. simpl in E. lia. }
  rewrite <- E, zlen_be_bytes. rewrite (sint_be_bytes _ (8 * Z.of_nat (byte_width z))); [done|lia|lia|done].
Qed.

(** Base 128, least significant group first, of the zig-zag code. *)
Definition zigzag (z : Z) : Z := if z <? 0 then - 2 * z - 1 else 2 * z.
Definition unzigzag (u : Z) : Z := if Z.odd u then - (u + 1) / 2 else u / 2.
Fixpoint groups (fuel : nat) (u : Z) : bytes :=
  match fuel with
  | O => []
  | S f => if u <? 128 then [u8 u] else u8 (u mod 128 + 128) :: groups f (u / 128)
  end.
Fixpoint ungroup (b : bytes) : option (Z * nat) :=
  match b with
  | [] => None
  | x :: t =>
    if b2z x <? 128 then Some (b2z x, 1%nat)
    else match ungroup t with Some (u, n) => Some (b2z x - 128 + 128 * u, S n) | None => None end
  end.

Lemma unzigzag_zigzag z : unzigzag (zigzag z) = z.
Proof.
  unfold zigzag, unzigzag. destruct (Z.ltb_spec z 0).
  - replace (-2 * z - 1) with (1 + 2 * (- z - 1)) by lia. rewrite Z.odd_add_mul_2. cbn [Z.odd].
    replace (- (1 + 2 * (- z - 1) + 1)) with (z * 2) by lia. by rewrite Z.div_mul.
  - rewrite Z.odd_mul. cbn [Z.odd andb]. rewrite Z.mul_comm. by rewrite Z.div_mul.
Qed.

Lemma ungroup_groups fuel u rest : 0 <= u < 128 ^ Z.of_nat fuel -> (0 < fuel)%nat ->
  ungroup (groups fuel u ++ rest) = Some (u, length (groups fuel u)).
Proof.
  revert u. induction fuel as [|f IH]; intros u Hu Hf; [lia|]. cbn [groups].
  destruct (Z.ltb_spec u 128) as [H|H].
  - cbn [app ungroup length]. rewrite b2z_u8, Z.mod_small by lia. by rewrite (proj2 (Z.ltb_lt _ _)).
  - pose proof (Z.mod_pos_bound u 128 ltac:(lia)). pose proof (Z.div_mod u 128 ltac:(lia)).
    cbn [app ungroup length]. rewrite b2z_u8, Z.mod_small by lia.
    rewrite (proj2 (Z.ltb_ge _ _)) by lia.
    destruct f as [|f].
    { change (128 ^ Z.of_nat 1) with 128 in Hu. lia. }
    rewrite IH; [|split; [apply Z.div_pos; lia|]|lia].
    + f_equal. f_equal. lia.
    + apply Z.div_lt_upper_bound; [lia|].
      replace (Z.of_nat (S (S f))) with (1 + Z.of_nat (S f)) in Hu by lia.
      rewrite Z.pow_add_r in Hu by lia. lia.
Qed.

Lemma ungroup_bound b u n : ungroup b = Some (u, n) -> (n <= length b)%nat.
Proof.
  revert u n. induction b as [|x t IH]; intros u n H; [done|]. cbn [ungroup] in H.
  destruct (b2z x <? 128); [by simplify_eq; simpl; lia|].
  destruct (ungroup t) as [[u' n']|] eqn:E; [|done]. specialize (IH _ _ eq_refl).
  simplify_eq. simpl. lia.
Qed.

Definition decode_zigzag (w : Z) (b : bytes) : option (Z * nat) :=
  match ungroup b with Some (u, n) => Some (swrap w (unzigzag u), n) | None => None end.

Program Definition varint_zigzag : VarIntLib := {|
  encoded z := groups 10 (zigzag z);
  decode_var := decode_zigzag |}.
Next Obligation.
  intros w z rest Hw Hz. unfold decode_zigzag. rewrite ungroup_groups; [|split|lia].
  - rewrite unzigzag_zigzag, swrap_small; [done|lia|done].
  - unfold zigzag. destruct (Z.ltb_spec z 0); lia.
  - assert (in_i 64 z) as [H1 H2] by (destruct Hw as [-> | ->]; unfold in_i in *; lia).
    change (128 ^ Z.of_nat 10) with (2 ^ 70). unfold zigzag. destruct (Z.ltb_spec z 0); lia.
Qed.
Next Obligation.
  intros w b z n Hw H. unfold decode_zigzag in H. destruct (ungroup b) as [[u k]|] eqn:E; [|done].
  simplify_eq. split; [by eapply ungroup_bound|]. apply swrap_range. lia.
Qed.

(** A point in time as seconds and nanoseconds since the epoch. *)
Program Definition chrono_pairs : ChronoLib := {|
  DateTime := Z * Z; NaiveDateTime := Z * Z; naive_utc d := d; and_utc d := d;
  from_timestamp s n :=
    if (Z.abs s <=? 8000000000000) && (n <? 1000000000) then Some (s, n) else None;
  timestamp_millis d := d.1 * 1000 + d.2 / 1000000 |}.
Next Obligation. done. Qed.
Next Obligation. intros s n H. cbv beta. by rewrite (proj2 (Z.ltb_ge n _)), andb_false_r by lia. Qed.
Next Obligation.
  intros s n H H'. cbv beta. rewrite (proj2 (Z.leb_le _ _)), (proj2 (Z.ltb_lt _ _)) by lia. by eexists.
Qed.
Next Obligation. intros s n d H H'. cbv beta in H'. case_match; by simplify_eq. Qed.

Program Definition time_nanos : TimeLib := {|
  PrimitiveDateTime := Z;
  epoch_add s n := if (-377705116800 <=? s) && (s <? 253402300799) then Some (s * 1000000000 + n) else None;
  unix_timestamp d := d / 1000000000; nanosecond d := d mod 1000000000 |}.
Next Obligation.
  intros s n H H'. cbv beta. rewrite (proj2 (Z.leb_le _ _)), (proj2 (Z.ltb_lt _ _)) by lia. by eexists.
Qed.
Next Obligation.
  intros s n d H. cbv beta in H. case_match; simplify_eq.
  pose proof (Z.div_mod (s * 1000000000 + n) 1000000000 ltac:(lia)). lia.
Qed.
Next Obligation. intros d. by apply Z.mod_pos_bound. Qed.

(** The two standard libraries seen: the position is kept, or moved to the end. *)
Program Definition eof_keeps : FailedRead := {| after_eof i := i |}.
Next Obligation. intros i. by exists []. Qed.
Program Definition eof_ends : FailedRead := {| after_eof i := [] |}.
Next Obligation. intros i. exists i. by rewrite app_nil_r. Qed.

(** ** Scalars read back *)

(** [dec] gives back the value [into] turned into bytes. *)
Class Decodes {T} (dec : bytes -> Result T) (into : T -> bytes) (wf : T -> Prop) : Prop :=
  decodes : forall v, wf v -> dec (into v) = Ok v.

Lemma convert_to_array_be n z : convert_to_array n (be_bytes n z) = Ok (be_bytes n z).
Proof. unfold convert_to_array. by rewrite bool_decide_true by apply length_be_bytes. Qed.

#[export] Instance i64_decodes : Decodes try_i64_from_bytes Bytes_from_i64 (in_i 64).
Proof.
  intros v Hv. unfold try_i64_from_bytes, Bytes_from_i64, to_bigint. rewrite convert_to_array_be. simpl.
  by rewrite (sint_be_bytes 8).
Qed.
#[export] Instance i32_decodes : Decodes try_i32_from_bytes Bytes_from_i32 (in_i 32).
Proof.
  intros v Hv. unfold try_i32_from_bytes, Bytes_from_i32, to_int. rewrite convert_to_array_be. simpl.
  by rewrite (sint_be_bytes 4).
Qed.
#[export] Instance i16_decodes : Decodes try_i16_from_bytes Bytes_from_i16 (in_i 16).
Proof.
  intros v Hv. unfold try_i16_from_bytes, Bytes_from_i16, to_short. rewrite convert_to_array_be. simpl.
  by rewrite (sint_be_bytes 2).
Qed.
#[export] Instance i8_decodes : Decodes decode_tinyint Bytes_from_i8 (in_i 8).
Proof.
  intros v Hv. unfold decode_tinyint, Bytes_from_i8. rewrite b2z_u8.
  change (v mod 256) with (wrap 8 v). by rewrite swrap_wrap, swrap_small.
Qed.
#[export] Instance f64_decodes : Decodes decode_double Bytes_from_f64 (in_u 64).
Proof.
  intros v Hv. unfold decode_double, try_f64_from_bytes, Bytes_from_f64, to_float_big.
  rewrite convert_to_array_be. simpl. by rewrite (uint_be_bytes 8 64).
Qed.
#[export] Instance f32_decodes : Decodes decode_float Bytes_from_f32 (in_u 32).
Proof.
  intros v Hv. unfold decode_float, try_f32_from_bytes, Bytes_from_f32, to_float.
  rewrite convert_to_array_be. simpl. by rewrite (uint_be_bytes 4 32).
Qed.
#[export] Instance bool_decodes : Decodes decode_boolean Bytes_from_bool (fun _ => True).
Proof. by intros []. Qed.
#[export] Instance string_decodes : Decodes decode_varchar Bytes_from_str wf_string.
Proof. intros v Hv. unfold decode_varchar. by rewrite from_utf8_lossy_id. Qed.
#[export] Instance blob_decodes : Decodes decode_blob Bytes_from_blob (fun _ => True).
Proof. by intros v _. Qed.
#[export] Instance uuid_decodes `{UuidLib} : Decodes timeuuid_value Bytes_from_uuid (fun _ => True).
Proof. intros v _. unfold timeuuid_value, decode_timeuuid, Bytes_from_uuid. by rewrite Uuid_round_trip. Qed.
#[export] Instance ip_decodes : Decodes decode_inet Bytes_from_ip wf_ip.
Proof.
  intros [o|o] Ho; simpl in *; unfold decode_inet; [by rewrite bool_decide_true|].
  rewrite bool_decide_false by lia. by rewrite bool_decide_true.
Qed.
#[export] Instance bigint_decodes `{BigIntLib} : Decodes decode_varint Bytes_from_bigint (fun _ => True).
Proof. intros v _. unfold decode_varint, Bytes_from_bigint. by rewrite signed_bytes_round_trip. Qed.
#[export] Instance decimal_decodes `{BigIntLib} :
  Decodes decode_decimal Bytes_from_decimal (fun d => in_i 32 (scale d)).
Proof.
  intros [u s] Hs. unfold decode_decimal, Bytes_from_decimal, Decimal_serialize. cbn [scale unscaled] in *.
  assert (Hl : length (i32_serialize s) = INT_LEN) by apply length_be_bytes.
  rewrite (proj2 (Nat.ltb_ge _ _)) by (rewrite length_app; lia).
  rewrite take_app_exact, drop_app_exact by done.
  change (i32_serialize s) with (Bytes_from_i32 s). rewrite (decodes (dec := try_i32_from_bytes) s Hs). simpl.
  unfold decode_varint. by rewrite signed_bytes_round_trip.
Qed.

(** ** Durations *)

(** All parts have one sign, and fit their fields. *)
Definition one_sign (m d n : Z) : Prop := (0 <= m /\ 0 <= d /\ 0 <= n) \/ (m <= 0 /\ d <= 0 /\ n <= 0).
Definition wf_duration (d : Duration) : Prop :=
  one_sign (months d) (days d) (nanoseconds d) /\
  in_i 32 (months d) /\ in_i 32 (days d) /\ in_i 64 (nanoseconds d).

Lemma Duration_new_ok m d n r : Duration_new m d n = Ok r <-> one_sign m d n /\ r = mkDuration m d n.
Proof.
  unfold Duration_new, one_sign.
  destruct (Z.ltb_spec m 0), (Z.ltb_spec d 0), (Z.ltb_spec n 0), (Z.ltb_spec 0 m), (Z.ltb_spec 0 d),
    (Z.ltb_spec 0 n); simpl; split; intros Hr; simplify_eq; try (exfalso; lia); try (split; [lia|done]);
    destruct Hr as [? ->]; done || (exfalso; lia).
Qed.

Lemma encode_var_zeros `{VarIntLib} z k x :
  encode_var z (replicate (required_space z + k) x) = Ok (encoded z ++ replicate k x).
Proof.
  unfold encode_var. rewrite length_replicate, (proj2 (Nat.leb_le _ _)) by lia.
  rewrite drop_replicate. do 3 f_equal. lia.
Qed.

Lemma Duration_serialize_ok `{VarIntLib} d :
  Duration_serialize d = Ok (encoded (months d) ++ encoded (days d) ++ encoded (nanoseconds d)).
Proof.
  unfold Duration_serialize. cbv zeta. rewrite <- Nat.add_assoc, encode_var_zeros. cbn [obind].
  rewrite (drop_app_exact (required_space _)), (take_app_exact (required_space _)) by done.
  rewrite encode_var_zeros. cbn [obind]. rewrite app_assoc.
  rewrite (drop_app_exact (required_space _ + _)), (take_app_exact (required_space _ + _))
    by apply length_app.
  rewrite <- (Nat.add_0_r (required_space (nanoseconds d))), encode_var_zeros. cbn [obind replicate].
  by rewrite app_nil_r, <- app_assoc.
Qed.

Lemma duration_decodes `{VarIntLib} d b : wf_duration d -> Bytes_from_duration d = Ok b -> decode_duration b = Ok d.
Proof.
  intros (Hs & Hm & Hd & Hn). unfold Bytes_from_duration. rewrite Duration_serialize_ok.
  intros E; simplify_eq. unfold decode_duration. rewrite decode_encoded by auto. cbn [or_invalid obind fst snd].
  unfold slice_from. rewrite !length_app, (proj2 (Nat.leb_le _ _)) by lia. cbn [obind].
  rewrite drop_app_length, decode_encoded by auto. cbn [or_invalid obind fst snd].
  rewrite (proj2 (Nat.leb_le _ _)) by lia. cbn [obind].
  rewrite <- drop_drop, !drop_app_length.
  rewrite <- (app_nil_r (encoded (nanoseconds d))), decode_encoded by auto. cbn [or_invalid obind fst snd].
  destruct d as [m dd n]. cbn [months days nanoseconds] in *.
  by rewrite (proj2 (Duration_new_ok m dd n _) (conj Hs eq_refl)).
Qed.

(** ** Collections read back *)

Definition short_bytes {T} (into : T -> bytes) (v : T) : Prop := zlen (into v) < 2 ^ 31.
Definition item_bytes {T} (into : T -> bytes) (v : T) : CBytes := CBytes_new (into v).

Lemma Value_serialize_cbytes b : Value_serialize (VSome b) = CBytes_serialize (CBytes_new b).
Proof. done. Qed.

(** A counted sequence of items, each the serialization of one [RoundTrip] type. *)
Lemma counted_items {A} (dec : R A) enc wf (l : list A) `{!RoundTrip dec enc wf} :
  zlen l < 2 ^ 31 -> Forall wf l ->
  run_invalid (let* n := CInt_from_cursor in
               let* _ := with_capacity (as_usize n) in
               read_n (times n) dec) (i32_serialize (as_i32 (zlen l)) ++ concat (map enc l)) = Ok l.
Proof.
  intros Hn Hl. pose proof (zlen_nonneg l). unfold run_invalid.
  rewrite <- (app_nil_r (concat _)). rt_step. rewrite as_i32_small by lia.
  rewrite (rbind_ok _ _ _ _ _ (with_capacity_ok (zlen l) _ ltac:(zsolve) ltac:(lia))).
  rewrite times_zlen.
  by rewrite (round_trip (RoundTrip := read_n_round_trip dec enc wf (length l)) l [] (conj eq_refl Hl)).
Qed.

Lemma decode_list_vec {T} (into : T -> bytes) vs : zlen vs < 2 ^ 31 -> Forall (short_bytes into) vs ->
  decode_list (Bytes_from_vec into vs) = Ok (map (item_bytes into) vs).
Proof.
  intros Hn Hv. unfold decode_list, Bytes_from_vec.
  replace (zlen vs) with (zlen (map (item_bytes into) vs)) by (unfold zlen; by rewrite length_map).
  rewrite (map_ext _ (fun v => CBytes_serialize (item_bytes into v))) by done.
  rewrite <- (map_map (item_bytes into) CBytes_serialize).
  apply (counted_items CBytes_from_cursor CBytes_serialize wf_cbytes); 
    [apply _|unfold zlen; rewrite length_map; exact Hn|].
  apply Forall_map. eapply Forall_impl; [exact Hv|]. done.
Qed.

Lemma decode_map_entries {K V} (intok : K -> bytes) (intov : V -> bytes) es :
  zlen es < 2 ^ 31 -> Forall (fun e => short_bytes intok e.1 /\ short_bytes intov e.2) es ->
  decode_map (Bytes_from_entries intok intov es)
    = Ok (map (fun e => (item_bytes intok e.1, item_bytes intov e.2)) es).
Proof.
  intros Hn Hv. unfold decode_map, Bytes_from_entries.
  set (f := fun e : K * V => (item_bytes intok e.1, item_bytes intov e.2)).
  replace (zlen es) with (zlen (map f es)) by (unfold zlen; by rewrite length_map).
  rewrite (map_ext _ (fun e => CBytes_serialize (f e).1 ++ CBytes_serialize (f e).2)) by done.
  rewrite <- (map_map f (fun p => CBytes_serialize p.1 ++ CBytes_serialize p.2)).
  apply (counted_items (rpair CBytes_from_cursor CBytes_from_cursor)
           (fun p => CBytes_serialize p.1 ++ CBytes_serialize p.2) (fun p => wf_cbytes p.1 /\ wf_cbytes p.2));
    [apply _|unfold zlen; rewrite length_map; exact Hn|].
  apply Forall_map. eapply Forall_impl; [exact Hv|]. done.
Qed.

(** ** User types and tuples *)

Lemma after_eof_nil `{FailedRead} : after_eof [] = [].
Proof. destruct (after_eof_suffix []) as [k Hk]. symmetry in Hk. by apply app_eq_nil in Hk as [_ ->]. Qed.

#[export] Instance udt_field_round_trip `{FailedRead} : RoundTrip udt_field CBytes_serialize wf_cbytes.
Proof. intros c rest Hc. unfold udt_field. by rewrite (round_trip c rest Hc). Qed.

Lemma udt_field_nil `{FailedRead} : udt_field [] = Ok (CBytes_new_null, []).
Proof. unfold udt_field. simpl. by rewrite after_eof_nil. Qed.

Lemma read_udt_nil `{FailedRead} n : read_n n udt_field [] = Ok (replicate n CBytes_new_null, []).
Proof.
  induction n as [|n IH]; [done|]. cbn [read_n].
  by rewrite (rbind_ok _ _ _ _ _ udt_field_nil), (rbind_ok _ _ _ _ _ IH).
Qed.

Lemma read_n_add {A} (r : R A) n m i l j :
  read_n n r i = Ok (l, j) -> read_n (n + m) r i = rbind (read_n m r) (fun l' => rret (l ++ l')) j.
Proof.
  revert i l j. induction n as [|n IH]; intros i l j H.
  - cbn in H. unfold rret in H. simplify_eq. cbn [Nat.add app].
    unfold rbind, rret. by destruct (read_n m r j) as [[? ?]| |].
  - cbn [Nat.add read_n] in *. unfold rbind in H at 1. destruct (r i) as [[x i']| |] eqn:E; try done.
    rewrite (rbind_ok _ _ _ _ _ E). unfold rbind, rret in H.
    destruct (read_n n r i') as [[xs i'']| |] eqn:E'; simplify_eq.
    unfold rbind at 1. rewrite (IH _ _ _ E'). unfold rbind, rret.
    by destruct (read_n m r j) as [[? ?]| |].
Qed.

Lemma read_cells (dec : R CBytes) `{!RoundTrip dec CBytes_serialize wf_cbytes} fields : Forall wf_cbytes fields ->
  read_n (length fields) dec (concat (map CBytes_serialize fields)) = Ok (fields, []).
Proof.
  intros Hf. rewrite <- (app_nil_r (concat _)).
  exact (round_trip (RoundTrip := read_n_round_trip dec _ _ (length fields)) fields [] (conj eq_refl Hf)).
Qed.

Lemma decode_udt_missing `{FailedRead} fields missing : Forall wf_cbytes fields ->
  decode_udt (concat (map CBytes_serialize fields)) (length fields + missing)
    = Ok (fields ++ replicate missing CBytes_new_null).
Proof.
  intros Hf. unfold decode_udt, run_invalid.
  by rewrite (read_n_add _ _ _ _ _ _ (read_cells udt_field fields Hf)), (rbind_ok _ _ _ _ _ (read_udt_nil _)).
Qed.

Lemma decode_tuple_cells fields : Forall wf_cbytes fields ->
  decode_tuple (concat (map CBytes_serialize fields)) (length fields) = Ok fields.
Proof. intros Hf. unfold decode_tuple, run_invalid. by rewrite (read_cells CBytes_from_cursor fields Hf). Qed.

(** A user-type value written before its last fields were added is read
    with nulls for them, whatever the reader does with the cursor after a
    failed read; a tuple that lacks items is an error. *)
Theorem udt_missing_fields_null `{FailedRead} (fields : list CBytes) (l : nat) :
  Forall wf_cbytes fields -> (length fields <= l)%nat ->
  let value := concat (map CBytes_serialize fields) in
  decode_udt value l = Ok (fields ++ replicate (l - length fields) CBytes_new_null) /\
  decode_tuple value (length fields) = Ok fields /\
  ((length fields < l)%nat -> decode_tuple value l = Err (EIo InvalidData)).
Proof.
  intros Hf Hl value. subst value.
  assert (El : l = (length fields + (l - length fields))%nat) by lia.
  set (missing := (l - length fields)%nat) in *. rewrite El.
  split; [by apply decode_udt_missing|split; [by apply decode_tuple_cells|]]. intros Hlt.
  unfold decode_tuple, run_invalid.
  rewrite (read_n_add _ _ _ _ _ _ (read_cells CBytes_from_cursor fields Hf)). destruct missing; [lia|done].
Qed.

Lemma udt_missing_fields_null_witness :
  let fields := [CBytes_new [u8 7]; CBytes_new_null] in
  let value := concat (map CBytes_serialize fields) in
  @decode_udt eof_keeps value 3 = Ok (fields ++ [CBytes_new_null]) /\
  decode_tuple value 2 = Ok fields /\
  ((2 < 3)%nat -> decode_tuple value 3 = Err (EIo InvalidData)).
Proof.
  apply (@udt_missing_fields_null eof_keeps [CBytes_new [u8 7]; CBytes_new_null] 3);
    [repeat constructor|simpl; lia].
Defined.

(** ** Decimals *)

Lemma pow10_wraps e : 64 <= e -> swrap 64 (10 ^ e) = 0.
Proof.
  intros He. unfold swrap. replace (10 ^ e) with (5 ^ e * 2 ^ (e - 64) * 2 ^ 64).
  - rewrite Z.add_comm, Z.mod_add by lia. by vm_compute.
  - rewrite <- Z.mul_assoc, <- Z.pow_add_r by lia. replace (e - 64 + 64) with e by lia.
    by rewrite <- Z.pow_mul_l.
Qed.

(** The plain value of a decimal is the truncated quotient by the power
    of ten while the scale is between 0 and 18; a negative scale, or one from
    64 on, divides by zero. *)
Theorem decimal_as_plain d :
  in_i 32 (scale d) ->
  (0 <= scale d <= 18 -> as_plain d = Ok (Z.quot (unscaled d) (10 ^ scale d))) /\
  (scale d < 0 \/ 64 <= scale d -> as_plain d = Panic).
Proof.
  intros Hs. unfold as_plain. split; intros Hr.
  - rewrite (wrap_small 32) by zsolve.
    assert (0 < 10 ^ scale d <= 10 ^ 18) by (split; [apply Z.pow_pos_nonneg|apply Z.pow_le_mono_r]; lia).
    rewrite swrap_small by (unfold in_i; lia). by rewrite (proj2 (Z.eqb_neq _ _)) by lia.
  - rewrite pow10_wraps; [done|]. unfold wrap, in_i in *. destruct Hr as [Hr|Hr].
    + replace (scale d) with (scale d + 2 ^ 32 + (-1) * 2 ^ 32) by lia.
      rewrite Z.mod_add, Z.mod_small by lia. lia.
    + rewrite Z.mod_small by lia. lia.
Qed.

Lemma decimal_as_plain_witness :
  as_plain (mkDecimal 12399 2) = Ok 123 /\ as_plain (mkDecimal 12399 (-2)) = Panic.
Proof.
  split.
  - rewrite (proj1 (decimal_as_plain (mkDecimal 12399 2) ltac:(simpl; unfold in_i; lia)) ltac:(simpl; lia)).
    by vm_compute.
  - apply (proj2 (decimal_as_plain (mkDecimal 12399 (-2)) ltac:(simpl; unfold in_i; lia))). simpl. lia.
Defined.

(** ** Malformed values *)

Definition panic_free {A} (r : R A) : Prop := forall i, r i <> Panic.

Lemma panic_free_bind {A B} (m : R A) (f : A -> R B) :
  panic_free m -> (forall a, panic_free (f a)) -> panic_free (rbind m f).
Proof. intros Hm Hf i. unfold rbind. specialize (Hm i). destruct (m i) as [[a j]| |]; [apply Hf|done..]. Qed.

Lemma panic_free_read_n {A} (r : R A) n : panic_free r -> panic_free (read_n n r).
Proof.
  intros Hr. induction n as [|n IH]; [by intros i|]. cbn [read_n].
  apply panic_free_bind; [done|]. intros a. apply panic_free_bind; [done|]. by intros l i.
Qed.

Lemma panic_free_read_exact n : panic_free (read_exact n).
Proof. intros i. unfold read_exact. by case_match. Qed.

Lemma panic_free_cbytes : panic_free CBytes_from_cursor.
Proof.
  unfold CBytes_from_cursor, CInt_from_cursor, rmap, cursor_next_value.
  repeat (apply panic_free_bind; [apply panic_free_read_exact || (apply panic_free_bind; [apply panic_free_read_exact|by intros ? ?])|]; intros ?).
  case_match; [by intros i|]. apply panic_free_bind; [apply panic_free_read_exact|by intros ? ?].
Qed.

Lemma panic_free_cbytes_pair : panic_free (rpair CBytes_from_cursor CBytes_from_cursor).
Proof.
  unfold rpair. repeat (apply panic_free_bind; [apply panic_free_cbytes|]; intros ?). by intros i.
Qed.
#[export] Hint Resolve panic_free_cbytes panic_free_cbytes_pair : cdrs_wf.

(** The length field of a collection, when there is one, is negative. *)
Definition negative_count (b : bytes) : Prop :=
  (4 <= length b)%nat /\ swrap 32 (be_uint (take 4 b)) < 0.

Lemma run_invalid_panic {A} (r : R A) b : run_invalid r b = Panic <-> r b = Panic.
Proof. unfold run_invalid. by destruct (r b) as [[]| |]. Qed.

Lemma counted_panic {A} (dec : R A) b : panic_free dec ->
  run_invalid (let* n := CInt_from_cursor in
               let* _ := with_capacity (as_usize n) in
               read_n (times n) dec) b = Panic <-> negative_count b.
Proof.
  intros Hd. rewrite run_invalid_panic. unfold negative_count, CInt_from_cursor, INT_LEN. rewrite rbind_assoc.
  unfold read_exact at 1. unfold rbind at 1.
  destruct (Nat.leb_spec 4 (length b)) as [H|H]; [|by split; [|lia]].
  rewrite rbind_ret. set (n := swrap 32 _). assert (Hn : in_i 32 n) by (by apply swrap_range).
  destruct (Z.ltb_spec n 0) as [H0|H0].
  - unfold rbind. by rewrite with_capacity_neg.
  - rewrite (rbind_ok _ _ _ _ _ (with_capacity_ok n _ Hn H0)). split; [|lia].
    intros E. by destruct (panic_free_read_n dec (times n) Hd _ E).
Qed.

Lemma float_slices_panic n b : float_slices n b = Panic <-> (length b < 4 * n)%nat.
Proof.
  revert b. induction n as [|n IH]; intros b; cbn [float_slices]; [split; [done|lia]|].
  destruct (Nat.ltb_spec (length b) 4) as [H|H]; [split; [lia|done]|].
  specialize (IH (drop 4 b)). rewrite length_drop in IH.
  destruct (float_slices n (drop 4 b)) eqn:E; simpl; split; intros Hp; try done; try lia.
  - assert (Hc : Ok (E := Error) a = Panic) by (apply IH; lia). done.
  - assert (Hc : Err (A := list CBytes) e = Panic) by (apply IH; lia). done.
  - assert (length b - 4 < 4 * n)%nat by by apply IH. lia.
Qed.

Lemma decode_duration_safe `{VarIntLib} b : decode_duration b <> Panic.
Proof.
  unfold decode_duration, slice_from. destruct (decode_var 32 b) as [[m k]|] eqn:E1; [|done].
  destruct (decode_var_bound 32 b m k ltac:(auto) E1) as [Hk _]. cbn [or_invalid obind fst snd].
  rewrite (proj2 (Nat.leb_le _ _)) by done. cbn [obind].
  destruct (decode_var 32 (drop k b)) as [[d j]|] eqn:E2; [|done].
  destruct (decode_var_bound 32 _ d j ltac:(auto) E2) as [Hj _]. rewrite length_drop in Hj.
  cbn [or_invalid obind fst snd]. rewrite (proj2 (Nat.leb_le _ _)) by lia. cbn [obind].
  destruct (decode_var 64 _) as [[n l]|]; [|done]. cbn [or_invalid obind fst snd].
  unfold Duration_new. by case_match.
Qed.

(** C36: which values make the reader panic instead of returning an error: an
    empty [tinyint], a [decimal] of fewer than four bytes, a list, set or map
    with a negative length field, a vector shorter than its declared
    dimension.  A [duration] and a tuple never do. *)
Theorem malformed_values_panic `{BigIntLib} `{VarIntLib} (b : bytes) (count : Z) (l : nat) :
  (decode_tinyint b = Panic <-> b = []) /\
  (decode_decimal b = Panic <-> (length b < 4)%nat) /\
  (decode_list b = Panic <-> negative_count b) /\
  (decode_map b = Panic <-> negative_count b) /\
  (0 <= count < 2 ^ 58 -> decode_float_vector b count = Panic <-> zlen b < 4 * count) /\
  decode_duration b <> Panic /\ decode_tuple b l <> Panic.
Proof.
  split_and!.
  - by destruct b.
  - unfold decode_decimal, INT_LEN. destruct (Nat.ltb_spec (length b) 4) as [Hb|Hb]; [done|].
    split; [|lia]. unfold try_i32_from_bytes, convert_to_array.
    rewrite bool_decide_true by (rewrite length_take; lia). done.
  - apply counted_panic, panic_free_cbytes.
  - apply counted_panic, panic_free_cbytes_pair.
  - intros Hc. unfold decode_float_vector. rewrite (proj2 (Z.leb_gt _ _)) by lia.
    rewrite float_slices_panic. unfold zlen. lia.
  - apply decode_duration_safe.
  - unfold decode_tuple. rewrite run_invalid_panic. apply panic_free_read_n, panic_free_cbytes.
Qed.

Lemma malformed_values_panic_witness :
  decode_tinyint [] = Panic /\ @decode_decimal bigint_twos_complement [u8 1] = Panic /\
  decode_list (be_bytes 4 (-1)) = Panic.
Proof.
  pose proof (fun b => @malformed_values_panic bigint_twos_complement varint_zigzag b 0 0) as Hm.
  split; [|split].
  - by apply (Hm []).
  - apply (Hm [u8 1]). simpl. lia.
  - apply (Hm (be_bytes 4 (-1))). split; by vm_compute.
Defined.
