(* ===== verification/Floats.v ===== *)
(** * Floats into decimals

    The conversions [From<f32>] and [From<f64>] for [Decimal] and [From] of a
    [Decimal] for [BigInt] of [types/decimal.rs].  The conversion of a float
    multiplies by growing powers of ten until the product is an integer up to
    the machine epsilon; it computes in floats, so floats have their IEEE 754
    meaning here: [spec_float] of the Standard Library, whose operations round
    to nearest even, decoded from the bit patterns the rest of the
    development carries.  The [float_eq] crate is a class with the one law its
    documentation gives. *)

From Stdlib Require Import SpecFloat.
From S2P Require Import Prelude Types Wire Envelope Query Scalars.
Local Open Scope Z_scope.
Local Open Scope cdrs_scope.

(** ** The two formats *)

Inductive FloatTy : Type := F32 | F64.

(** Significand bits, the hidden one included; exponent of the infinities. *)
Definition fprec (t : FloatTy) : Z := match t with F32 => 24 | F64 => 53 end.
Definition femax (t : FloatTy) : Z := match t with F32 => 128 | F64 => 1024 end.
Definition fwidth (t : FloatTy) : Z := match t with F32 => 32 | F64 => 64 end.

(** [from_bits] of the standard library: sign, exponent field, fraction. *)
Definition float_from_bits (t : FloatTy) (bits : Z) : spec_float :=
  let s := Z.testbit bits (fwidth t - 1) in
  let fraction := bits mod 2 ^ (fprec t - 1) in
  let field := Z.shiftr bits (fprec t - 1) mod 2 ^ (fwidth t - fprec t) in
  let least := emin (fprec t) (femax t) in
  if field =? 0 then
    match fraction with Z.pos m => S754_finite s m least | _ => S754_zero s end
  else if field =? 2 ^ (fwidth t - fprec t) - 1 then
    if fraction =? 0 then S754_infinity s else S754_nan
  else S754_finite s (Z.to_pos (fraction + 2 ^ (fprec t - 1))) (field - 1 + least).

(** [f32::EPSILON] and [f64::EPSILON]: [2 ^ (1 - prec)]. *)
Definition EPSILON (t : FloatTy) : spec_float :=
  S754_finite false (Z.to_pos (2 ^ (fprec t - 1))) (2 * (1 - fprec t)).

(** [z as f32], [z as f64]. *)
Definition float_of_int (t : FloatTy) (z : Z) : spec_float :=
  binary_normalize (fprec t) (femax t) z 0 false.

(** The integer part of a significand and an exponent, towards zero. *)
Definition int_part (m : positive) (e : Z) : Z := Z.shiftl (Z.pos m) e.

(** [f.trunc()]. *)
Definition trunc (t : FloatTy) (f : spec_float) : spec_float :=
  match f with
  | S754_finite s m e =>
    if 0 <=? e then f
    else match int_part m e with
         | Z.pos k => binary_round (fprec t) (femax t) s k 0
         | _ => S754_zero s
         end
  | _ => f
  end.

(** [f as i64] saturates, and takes a NaN to zero. *)
Definition saturate (z : Z) : Z := Z.max (- 2 ^ 63) (Z.min (2 ^ 63 - 1) z).
Definition as_i64 (f : spec_float) : Z :=
  match f with
  | S754_zero _ | S754_nan => 0
  | S754_infinity s => if s then - 2 ^ 63 else 2 ^ 63 - 1
  | S754_finite s m e => saturate (cond_Zopp s (int_part m e))
  end.

Definition float_mul (t : FloatTy) (f g : spec_float) : spec_float := SFmul (fprec t) (femax t) f g.
Definition float_abs_diff (t : FloatTy) (f g : spec_float) : spec_float :=
  SFabs (SFsub (fprec t) (femax t) f g).

(** ** The crate [float_eq]

    [float_eq!(a, b, abs <= tol)]: the two are equal, or their absolute
    difference is at most the tolerance. *)
Class FloatEqLib := {
  eq_abs : FloatTy -> spec_float -> spec_float -> spec_float -> bool;
  eq_abs_spec : forall t a b tol,
    eq_abs t a b tol = SFeqb a b || SFleb (float_abs_diff t a b) tol }.

#[export] Instance float_eq_documented : FloatEqLib :=
  {| eq_abs := fun t a b tol => SFeqb a b || SFleb (float_abs_diff t a b) tol;
     eq_abs_spec := fun _ _ _ _ => eq_refl |}.

(** ** The conversions *)

(** [10i64.pow(scale)], wrapping. *)
Definition pow10_i64 (scale : Z) : Z := swrap 64 (10 ^ scale).

(** [f * (10i64.pow(scale) as f32)], the same in [f64]. *)
Definition scaled (t : FloatTy) (f : spec_float) (scale : Z) : spec_float :=
  float_mul t f (float_of_int t (pow10_i64 scale)).

(** One turn of the loop: the decimal it returns, if it returns. *)
Definition try_scale `{FloatEqLib} (t : FloatTy) (f : spec_float) (scale : Z) : option Decimal :=
  let unscaled := scaled t f scale in
  if eq_abs t unscaled (trunc t unscaled) (EPSILON t)
  then Some (Decimal_new (as_i64 unscaled) (swrap 32 scale))
  else None.

(** The loop; [scale] is a [u32]. *)
Fixpoint scale_loop `{FloatEqLib} (fuel : nat) (t : FloatTy) (f : spec_float) (scale : Z) : option Decimal :=
  match fuel with
  | O => None
  | S fuel =>
    match try_scale t f scale with
    | Some d => Some d
    | None => scale_loop fuel t f (wrap 32 (scale + 1))
    end
  end.

Definition Decimal_from_f32 `{FloatEqLib} (fuel : nat) (bits : Z) : option Decimal :=
  scale_loop fuel F32 (float_from_bits F32 bits) 0.
Definition Decimal_from_f64 `{FloatEqLib} (fuel : nat) (bits : Z) : option Decimal :=
  scale_loop fuel F64 (float_from_bits F64 bits) 0.

(** [From<Decimal> for BigInt]. *)
Definition BigInt_from_decimal (value : Decimal) : Result Z := as_plain value.

(** The conversion of either type, with the turns the loop may take: the
    sixty-four scales before the one at which the multiplier is zero, and
    that one. *)
Definition Decimal_from_float `{FloatEqLib} (t : FloatTy) : nat -> Z -> option Decimal :=
  match t with F32 => Decimal_from_f32 | F64 => Decimal_from_f64 end.
Definition LOOP_FUEL : nat := 65.

(** ** Exact rounding

    A value that has a canonical significand and exponent is rounded to them,
    however many zero bits its significand is written with. *)

Lemma digits2_pos_double n m : digits2_pos (Pos.iter xO m n) = (digits2_pos m + n)%positive.
Proof.
  induction n as [|n IH] using Pos.peano_ind; [simpl; lia|].
  rewrite Pos.iter_succ. simpl. rewrite IH. lia.
Qed.

Lemma iter_double n m : Z.pos (Pos.iter xO m n) = Z.pos m * 2 ^ Z.pos n.
Proof.
  induction n as [|n IH] using Pos.peano_ind; [simpl; lia|].
  rewrite Pos.iter_succ, Pos2Z.inj_succ, Z.pow_succ_r by lia. rewrite Pos2Z.inj_xO, IH. lia.
Qed.

Lemma iter_pos_iter {A} (f : A -> A) n x : SpecFloat.iter_pos f n x = Pos.iter f x n.
Proof.
  revert x. induction n as [n IH|n IH|]; intros x; simpl; rewrite ?IH; [|done..].
  by rewrite !Pos.iter_swap.
Qed.

(** Shifting right what was shifted left loses no bit. *)
Lemma shr_exact n m :
  SpecFloat.iter_pos shr_1 n (Build_shr_record (Z.pos (Pos.iter xO m n)) false false) =
  Build_shr_record (Z.pos m) false false.
Proof.
  rewrite iter_pos_iter. induction n as [|n IH] using Pos.peano_ind; [done|].
  rewrite (Pos.iter_succ_r _ _ shr_1), Pos.iter_succ. exact IH.
Qed.

(** [m] with [k] zero bits appended. *)
Definition padded (m : positive) (k : Z) : positive :=
  match k with Z.pos n => Pos.iter xO m n | _ => m end.

Lemma padded_value m k : 0 <= k -> Z.pos (padded m k) = Z.pos m * 2 ^ k.
Proof. destruct k as [|n|n]; intros ?; simpl padded; [lia|apply iter_double|lia]. Qed.

Lemma padded_digits m k : 0 <= k -> Z.pos (digits2_pos (padded m k)) = Z.pos (digits2_pos m) + k.
Proof. destruct k as [|n|n]; intros ?; simpl padded; [lia|rewrite digits2_pos_double; lia|lia]. Qed.

Lemma padded_eq m m' k : 0 <= k -> Z.pos m' = Z.pos m * 2 ^ k -> m' = padded m k.
Proof. intros Hk Hm. pose proof (padded_value m k Hk). lia. Qed.

Section Exact.
Context (prec emax : Z).

Lemma bounded_canonical m e : bounded prec emax m e = true ->
  fexp prec emax (Z.pos (digits2_pos m) + e) = e /\ e <= emax - prec.
Proof.
  unfold bounded, canonical_mantissa. intros [H1 H2]%andb_prop.
  split; [by apply Z.eqb_eq|by apply Z.leb_le].
Qed.

Lemma shr_fexp_exact m e k : bounded prec emax m e = true -> 0 <= k ->
  shr_fexp prec emax (Z.pos (padded m k)) (e - k) loc_Exact = (Build_shr_record (Z.pos m) false false, e).
Proof.
  intros [Hc _]%bounded_canonical Hk. unfold shr_fexp. simpl Zdigits2.
  rewrite padded_digits by done.
  replace (Z.pos (digits2_pos m) + k + (e - k)) with (Z.pos (digits2_pos m) + e) by lia.
  rewrite Hc. replace (e - (e - k)) with k by lia.
  destruct k as [|n|n]; [|..|lia].
  - simpl. f_equal. lia.
  - cbn [shr shr_record_of_loc padded]. rewrite shr_exact. f_equal. lia.
Qed.

Lemma binary_round_aux_exact s m e k : bounded prec emax m e = true -> 0 <= k ->
  binary_round_aux prec emax s (Z.pos (padded m k)) (e - k) loc_Exact = S754_finite s m e.
Proof.
  intros Hb Hk. unfold binary_round_aux. rewrite (shr_fexp_exact m e k) by done.
  cbn [shr_m loc_of_shr_record round_nearest_even].
  pose proof (shr_fexp_exact m e 0 Hb ltac:(lia)) as H0. cbn [padded] in H0.
  replace (e - 0) with e in H0 by lia. rewrite H0. cbn [shr_m].
  destruct (bounded_canonical m e Hb) as [_ He]. by rewrite (proj2 (Z.leb_le _ _) He).
Qed.

(** An integer whose canonical form is known rounds to it. *)
Lemma binary_round_exact s n m j : bounded prec emax m (- j) = true -> 0 <= j ->
  m = padded n j -> binary_round prec emax s n 0 = S754_finite s m (- j).
Proof.
  intros Hb Hj ->. unfold binary_round.
  destruct (bounded_canonical _ _ Hb) as [Hc _].
  rewrite padded_digits in Hc by done.
  replace (Z.pos (digits2_pos n) + j + - j) with (Z.pos (digits2_pos n) + 0) in Hc by lia.
  rewrite Hc. unfold shl_align. rewrite Z.sub_0_r.
  pose proof (binary_round_aux_exact s _ _ 0 Hb ltac:(lia)) as H. cbn [padded] in H.
  rewrite Z.sub_0_r in H. destruct j as [|k|k]; [done|done|lia].
Qed.
End Exact.

(** ** The values the formats have *)

Definition valid (t : FloatTy) (f : spec_float) : Prop := valid_binary (fprec t) (femax t) f = true.

Lemma digits2_pos_bounds m : 2 ^ (Z.pos (digits2_pos m) - 1) <= Z.pos m < 2 ^ Z.pos (digits2_pos m).
Proof.
  induction m as [m IH|m IH|]; cbn [digits2_pos]; [| |simpl; lia].
  all: set (d := Z.pos (digits2_pos m)) in IH; rewrite Pos2Z.inj_succ; fold d.
  all: assert (1 <= d) by (unfold d; lia).
  all: rewrite (Z.pow_succ_r 2 d), Z.sub_1_r, Z.pred_succ by lia.
  all: assert (2 ^ d = 2 * 2 ^ (d - 1)) by (rewrite <- Z.pow_succ_r by lia; f_equal; lia); lia.
Qed.

Lemma digits2_pos_unique m d : 2 ^ (d - 1) <= Z.pos m < 2 ^ d -> Z.pos (digits2_pos m) = d.
Proof.
  intros [H1 H2]. pose proof (digits2_pos_bounds m) as [H3 H4].
  assert (0 <= d) by (destruct (Z.neg_nonneg_cases d); [rewrite Z.pow_neg_r in H2 by lia|]; lia).
  assert (d - 1 < Z.pos (digits2_pos m)) by (apply (Z.pow_lt_mono_r_iff 2); lia).
  assert (Z.pos (digits2_pos m) - 1 < d) by (apply (Z.pow_lt_mono_r_iff 2); lia). lia.
Qed.

Lemma digits2_pos_le m d : 0 <= d -> Z.pos m < 2 ^ d -> Z.pos (digits2_pos m) <= d.
Proof.
  intros Hd H. pose proof (digits2_pos_bounds m) as [H3 _].
  assert (Z.pos (digits2_pos m) - 1 < d) by (apply (Z.pow_lt_mono_r_iff 2); lia). lia.
Qed.

Lemma bounded_significand t m e : bounded (fprec t) (femax t) m e = true -> Z.pos m < 2 ^ fprec t.
Proof.
  intros [Hc _]%bounded_canonical. pose proof (digits2_pos_bounds m) as [_ H].
  unfold fexp in Hc. assert (Z.pos (digits2_pos m) <= fprec t) by lia.
  eapply Z.lt_le_trans; [exact H|]. apply Z.pow_le_mono_r; lia.
Qed.

(** Every bit pattern is one of the values of its format. *)
Lemma float_from_bits_valid t bits : valid t (float_from_bits t bits).
Proof.
  unfold valid, float_from_bits.
  assert (Hp : 1 < fprec t < femax t) by (destruct t; simpl; lia).
  set (q := 2 ^ (fprec t - 1)). set (field := Z.shiftr _ _ mod _).
  assert (Hq : 0 < q) by (apply Z.pow_pos_nonneg; lia).
  assert (Hq2 : 2 ^ fprec t = 2 * q) by (unfold q; rewrite <- Z.pow_succ_r by lia; f_equal; lia).
  pose proof (Z.mod_pos_bound bits q Hq) as Hfrac.
  assert (Hw : 0 < 2 ^ (fwidth t - fprec t)) by (destruct t; reflexivity).
  pose proof (Z.mod_pos_bound (Z.shiftr bits (fprec t - 1)) _ Hw) as Hfield. fold field in Hfield.
  destruct (Z.eqb_spec field 0) as [_|Hf0].
  - destruct (bits mod q) as [|m|m] eqn:Em; [done| |done]. cbn [valid_binary].
    pose proof (digits2_pos_le m (fprec t - 1) ltac:(lia) ltac:(lia)).
    unfold bounded, canonical_mantissa, fexp, emin.
    apply andb_true_intro; split; [apply Z.eqb_eq|apply Z.leb_le]; destruct t; simpl in *; lia.
  - destruct (Z.eqb_spec field (2 ^ (fwidth t - fprec t) - 1)) as [_|Hf1]; [by case_match|].
    cbn [valid_binary]. set (m := Z.to_pos _).
    assert (Hm : Z.pos (digits2_pos m) = fprec t).
    { apply digits2_pos_unique. unfold m. rewrite Z2Pos.id by lia. fold q. lia. }
    unfold bounded, canonical_mantissa, fexp, emin. rewrite Hm.
    apply andb_true_intro; split; [apply Z.eqb_eq|apply Z.leb_le]; destruct t; simpl in *; lia.
Qed.

Lemma float_one t : float_of_int t (pow10_i64 0) =
  S754_finite false (padded 1 (fprec t - 1)) (- (fprec t - 1)).
Proof. by destruct t; vm_compute. Qed.

(** The sixty-fourth power of ten is zero modulo [2 ^ 64]. *)
Lemma float_pow10_64 t : float_of_int t (pow10_i64 64) = S754_zero false.
Proof. by destruct t; vm_compute. Qed.

Lemma scaled_0 t f : valid t f -> scaled t f 0 = f.
Proof.
  intros Hv. unfold scaled, float_mul. rewrite float_one.
  destruct f as [s|s| |s m e]; cbn [SFmul]; rewrite ?xorb_false_r; [done..|].
  assert (Hp : 0 <= fprec t - 1) by (destruct t; simpl; lia).
  replace (m * padded 1 (fprec t - 1))%positive with (padded m (fprec t - 1)).
  { apply binary_round_aux_exact; done. }
  symmetry. apply padded_eq; [done|]. rewrite Pos2Z.inj_mul, padded_value; lia.
Qed.

Lemma scaled_64 t s m e : scaled t (S754_finite s m e) 64 = S754_zero s.
Proof. unfold scaled, float_mul. rewrite float_pow10_64. simpl. by rewrite xorb_false_r. Qed.
Lemma scaled_nan t k : scaled t S754_nan k = S754_nan.
Proof. done. Qed.

Lemma SFeqb_refl f : f <> S754_nan -> SFeqb f f = true.
Proof.
  destruct f as [s|s| |s m e]; intros Hf; [done|by destruct s|done|].
  unfold SFeqb. cbn [SFcompare]. rewrite Z.compare_refl.
  change (Pos.compare_cont Eq m m) with (Pos.compare m m). rewrite Pos.compare_refl. by destruct s.
Qed.

Section Conversion.
Context `{FloatEqLib}.

(** ** One turn, and the loop *)

Lemma try_scale_integral t f k : scaled t f k <> S754_nan -> trunc t (scaled t f k) = scaled t f k ->
  try_scale t f k = Some (Decimal_new (as_i64 (scaled t f k)) (swrap 32 k)).
Proof. intros Hn Ht. unfold try_scale. by rewrite Ht, eq_abs_spec, SFeqb_refl. Qed.

Lemma try_scale_nan t k : try_scale t S754_nan k = None.
Proof. unfold try_scale. by rewrite scaled_nan, eq_abs_spec. Qed.

Lemma try_scale_some t f k d : try_scale t f k = Some d ->
  d = Decimal_new (as_i64 (scaled t f k)) (swrap 32 k).
Proof. unfold try_scale. case_match; congruence. Qed.

(** Until the counter wraps, the loop is a search for the least scale. *)
Lemma scale_loop_spec t f fuel k d : 0 <= k -> k + Z.of_nat fuel <= 2 ^ 32 ->
  scale_loop fuel t f k = Some d <->
  exists j, k <= j < k + Z.of_nat fuel /\ try_scale t f j = Some d /\
    forall i, k <= i < j -> try_scale t f i = None.
Proof.
  revert k. induction fuel as [|fuel IH]; intros k Hk Hf; cbn [scale_loop].
  { split; [done|]. intros (j & Hj & _). lia. }
  destruct (try_scale t f k) as [d'|] eqn:E.
  - split.
    + intros [= ->]. exists k. split_and!; [lia|lia|done|]. intros i Hi. lia.
    + intros (j & Hj & Hd & Hbefore). destruct (decide (j = k)) as [->|Hne]; [congruence|].
      rewrite Hbefore in E by lia. done.
  - destruct fuel as [|fuel].
    { simpl. split; [done|]. intros (j & Hj & Hd & _). replace j with k in Hd by lia. congruence. }
    unfold wrap. rewrite Z.mod_small, IH by lia. split; intros (j & Hj & Hd & Hb); exists j.
    + split_and!; [lia|lia|done|]. intros i Hi. destruct (decide (i = k)) as [->|?]; [done|]. apply Hb. lia.
    + assert (j <> k) by congruence. split_and!; [lia|lia|done|]. intros i Hi. apply Hb. lia.
Qed.

Lemma scale_loop_nan t fuel k : scale_loop fuel t S754_nan k = None.
Proof. revert k. induction fuel as [|fuel IH]; intros k; [done|]. cbn. by rewrite try_scale_nan. Qed.

Lemma scale_loop_none t f fuel k : 0 <= k -> k + Z.of_nat fuel <= 2 ^ 32 ->
  scale_loop fuel t f k = None -> forall i, k <= i < k + Z.of_nat fuel -> try_scale t f i = None.
Proof.
  revert k. induction fuel as [|fuel IH]; intros k Hk Hf; cbn [scale_loop]; [intros _ i Hi; lia|].
  destruct (try_scale t f k) as [d'|] eqn:E; [done|]. intros Hn i Hi.
  destruct (decide (i = k)) as [->|Hne]; [done|]. destruct fuel as [|fuel]; [lia|].
  unfold wrap in Hn. rewrite Z.mod_small in Hn by lia. apply (IH (k + 1)); [lia..|done|lia].
Qed.

(** At scale 64 the multiplier is zero, so a finite float stops there. *)
Lemma try_scale_finite t s m e : try_scale t (S754_finite s m e) 64 = Some (mkDecimal 0 64).
Proof. rewrite try_scale_integral; rewrite scaled_64; done. Qed.

(** An integral float, an infinity or a zero stops at once. *)
Lemma scale_loop_integral t f fuel : valid t f -> f <> S754_nan -> trunc t f = f ->
  scale_loop (S fuel) t f 0 = Some (mkDecimal (as_i64 f) 0).
Proof. intros Hv Hn Ht. cbn [scale_loop]. by rewrite try_scale_integral; rewrite scaled_0. Qed.

Lemma scale_loop_total t f : valid t f -> f <> S754_nan -> is_Some (scale_loop LOOP_FUEL t f 0).
Proof.
  intros Hv Hn. destruct f as [s|s| |s m e]; [by eexists; apply scale_loop_integral..|done|].
  destruct (scale_loop LOOP_FUEL t _ 0) eqn:E; [done|].
  pose proof (scale_loop_none t _ LOOP_FUEL 0 ltac:(done) ltac:(done) E 64 ltac:(unfold LOOP_FUEL; lia)) as Hnone.
  by rewrite try_scale_finite in Hnone.
Qed.

(** ** Integers *)

Lemma int_part_neg m j : 0 <= j -> int_part m (- j) = Z.pos m / 2 ^ j.
Proof.
  intros Hj. unfold int_part. rewrite <- Z.shiftr_div_pow2 by done.
  by rewrite <- Z.shiftr_opp_r, Z.opp_involutive.
Qed.

Lemma int_part_padded n j : 0 <= j -> int_part (padded n j) (- j) = Z.pos n.
Proof. intros Hj. rewrite int_part_neg, padded_value, Z.div_mul; lia. Qed.

(** The integer [n] of at most [prec] bits, as a float of its format. *)
Lemma float_of_int_pos t s n : Z.pos n < 2 ^ fprec t ->
  exists j, 0 <= j /\ valid t (S754_finite s (padded n j) (- j)) /\
    binary_round (fprec t) (femax t) s n 0 = S754_finite s (padded n j) (- j).
Proof.
  intros Hn. set (j := fprec t - Z.pos (digits2_pos n)).
  assert (Hj : 0 <= j) by (unfold j; pose proof (digits2_pos_le n (fprec t) ltac:(destruct t; simpl; lia) Hn); lia).
  assert (Hb : bounded (fprec t) (femax t) (padded n j) (- j) = true).
  { unfold bounded, canonical_mantissa, fexp, emin. rewrite padded_digits by done.
    apply andb_true_intro; split; [apply Z.eqb_eq|apply Z.leb_le]; unfold j in *; destruct t; simpl in *; lia. }
  exists j. split_and!; [done|exact Hb|]. by apply binary_round_exact.
Qed.

Lemma trunc_padded t s n j : 0 <= j -> binary_round (fprec t) (femax t) s n 0 = S754_finite s (padded n j) (- j) ->
  trunc t (S754_finite s (padded n j) (- j)) = S754_finite s (padded n j) (- j).
Proof. intros Hj Hr. cbn [trunc]. case_match; [done|]. by rewrite int_part_padded. Qed.

Lemma float_of_int_integral t z : Z.abs z < 2 ^ fprec t ->
  valid t (float_of_int t z) /\ float_of_int t z <> S754_nan /\
  trunc t (float_of_int t z) = float_of_int t z /\ as_i64 (float_of_int t z) = z.
Proof.
  intros Hz. unfold float_of_int. destruct z as [|n|n]; [done|..]; cbn [binary_normalize];
    [destruct (float_of_int_pos t false n) as (j & Hj & Hv & Hr); [lia|]
    |destruct (float_of_int_pos t true n) as (j & Hj & Hv & Hr); [lia|]];
    rewrite Hr; split_and!; try done; try (by apply trunc_padded);
    cbn [as_i64 cond_Zopp]; rewrite int_part_padded by done;
    unfold saturate; destruct t; simpl in *; lia.
Qed.
Lemma Decimal_from_float_loop t fuel bits :
  Decimal_from_float t fuel bits = scale_loop fuel t (float_from_bits t bits) 0.
Proof. by destruct t. Qed.

(** ** Floats below the epsilon *)

Lemma tiny_int_part t m e : bounded (fprec t) (femax t) m e = true ->
  SFleb (S754_finite false m e) (EPSILON t) = true -> e < 0 /\ int_part m e = 0.
Proof.
  intros Hb%bounded_significand Hle. unfold EPSILON, SFleb in Hle. cbn [SFcompare] in Hle.
  assert (He : e <= 2 * (1 - fprec t)) by (destruct (Z.compare_spec e (2 * (1 - fprec t))); [lia|lia|done]).
  assert (Hp : 2 <= fprec t) by (destruct t; simpl; lia).
  split; [lia|]. replace e with (- - e) by lia. rewrite int_part_neg by lia. apply Z.div_small.
  split; [lia|]. eapply Z.lt_le_trans; [exact Hb|]. apply Z.pow_le_mono_r; lia.
Qed.

Lemma scale_loop_tiny t s m e fuel : valid t (S754_finite s m e) ->
  SFleb (S754_finite false m e) (EPSILON t) = true ->
  scale_loop (S fuel) t (S754_finite s m e) 0 = Some (mkDecimal 0 0).
Proof.
  intros Hv Hle. destruct (tiny_int_part t m e Hv Hle) as [He Hi].
  cbn [scale_loop]. unfold try_scale. rewrite scaled_0 by done.
  assert (Ht : trunc t (S754_finite s m e) = S754_zero s).
  { cbn [trunc]. destruct (Z.leb_spec 0 e); [lia|]. by rewrite Hi. }
  rewrite Ht, eq_abs_spec. unfold float_abs_diff. cbn [SFsub SFabs]. rewrite Hle, orb_true_r.
  cbn [as_i64]. rewrite Hi. by destruct s.
Qed.

(** ** The conversions *)

(** C33: The conversion of a float returns for every number and both infinities,
    with a scale of at most 64, and never returns for a NaN: the loop has no
    other way out than the comparison, which a NaN always fails. *)
Theorem decimal_from_float_terminates t bits :
  (float_from_bits t bits <> S754_nan ->
     exists d, Decimal_from_float t LOOP_FUEL bits = Some d /\ 0 <= scale d <= 64) /\
  (float_from_bits t bits = S754_nan -> forall fuel, Decimal_from_float t fuel bits = None).
Proof.
  rewrite Decimal_from_float_loop. split.
  - intros Hn. destruct (scale_loop_total t _ (float_from_bits_valid t bits) Hn) as [d Hd].
    exists d. split; [done|]. apply scale_loop_spec in Hd as (j & Hj & Hd & _); [|done..].
    rewrite (try_scale_some _ _ _ _ Hd). cbn [scale Decimal_new]. unfold LOOP_FUEL in Hj.
    rewrite swrap_small; unfold in_i; lia.
  - intros Hn fuel. rewrite Decimal_from_float_loop, Hn. apply scale_loop_nan.
Qed.

(** The scale of a converted float is the least at which its product with the
    power of ten is within the epsilon of its integer part, and the unscaled
    value is that integer part. *)
Theorem decimal_from_float_least t bits d : Decimal_from_float t LOOP_FUEL bits = Some d ->
  let f := float_from_bits t bits in
  let near k := eq_abs t (scaled t f k) (trunc t (scaled t f k)) (EPSILON t) in
  unscaled d = as_i64 (scaled t f (scale d)) /\ near (scale d) = true /\
  forall k, 0 <= k < scale d -> near k = false.
Proof.
  rewrite Decimal_from_float_loop.
  intros (j & Hj & Hd & Hb)%scale_loop_spec; [|done..]. unfold LOOP_FUEL in Hj.
  pose proof (try_scale_some _ _ _ _ Hd) as ->. cbn [Decimal_new scale unscaled].
  rewrite swrap_small by (unfold in_i; lia). unfold try_scale in *. split_and!; [done|by case_match|].
  intros k Hk. specialize (Hb k Hk). by case_match.
Qed.

(** An integer that fits the significand of the float type becomes the decimal
    of that integer with scale zero in the first turn of the loop, and the
    decimal is that [BigInt] again. *)
Theorem float_integers_exact t bits z fuel :
  Z.abs z < 2 ^ fprec t -> float_from_bits t bits = float_of_int t z ->
  Decimal_from_float t (S fuel) bits = Some (Decimal_from_int z) /\
  BigInt_from_decimal (Decimal_from_int z) = Ok z.
Proof.
  intros Hz Hbits. destruct (float_of_int_integral t z Hz) as (Hv & Hn & Ht & Ha).
  rewrite Decimal_from_float_loop, Hbits, scale_loop_integral, Ha by done.
  split; [done|]. unfold BigInt_from_decimal, as_plain. cbn [scale unscaled Decimal_from_int].
  cbn [Z.eqb]. by rewrite Z.quot_1_r.
Qed.

(** A float whose magnitude is at most the machine epsilon becomes zero. *)
Theorem tiny_floats_vanish t bits s m e fuel :
  float_from_bits t bits = S754_finite s m e ->
  SFleb (S754_finite false m e) (EPSILON t) = true ->
  Decimal_from_float t (S fuel) bits = Some (mkDecimal 0 0).
Proof.
  intros Hb Hle. rewrite Decimal_from_float_loop, Hb. apply scale_loop_tiny; [|done].
  rewrite <- Hb. apply float_from_bits_valid.
Qed.
End Conversion.

(** ** Samples *)

Module FloatsSamples.
(** [12300001_f32], [1230000.1_f32], [0.12300001_f32]. *)
Example f32_decimals :
  map (Decimal_from_f32 LOOP_FUEL) [0x4b3baee1; 0x49962581; 0x3dfbe76e] =
  [Some (mkDecimal 12300001 0); Some (mkDecimal 12300001 1); Some (mkDecimal 12300001 8)].
Proof. vm_compute. reflexivity. Qed.

(** [1230000000000001_f64], [123000000000000.1_f64], [0.1230000000000001_f64],
    [-2.5_f64] and positive infinity, which saturates. *)
Example f64_decimals :
  map (Decimal_from_f64 LOOP_FUEL)
    [0x43117ab6c44b8004; 0x42dbf78ad3ac0006; 0x3fbf7ced916872b7; 0xc004000000000000; 0x7ff0000000000000] =
  [Some (mkDecimal 1230000000000001 0); Some (mkDecimal 1230000000000001 1);
   Some (mkDecimal 1230000000000001 16); Some (mkDecimal (-25) 1); Some (mkDecimal (2 ^ 63 - 1) 0)].
Proof. vm_compute. reflexivity. Qed.
End FloatsSamples.

(** [2f64.powi(-19)] is [1.9073486328125e-6], that is 19073486328125 at scale
    19.  The power [10i64.pow(19)] wraps to a negative number, and the decimal
    is negative. *)
Theorem float_decimal_changes_sign :
  float_from_bits F64 0x3ec0000000000000 = S754_finite false (2 ^ 52) (-71) /\
  Decimal_from_f64 LOOP_FUEL 0x3ec0000000000000 = Some (mkDecimal (-16110885760707) 19).
Proof. split; vm_compute; reflexivity. Qed.

(** [1e-10 / 3.0] is found integral at no scale below 64, where the
    multiplier is zero, and becomes zero. *)
Theorem float_decimal_vanishes :
  Decimal_from_f64 LOOP_FUEL 0x3dc2533fe68fd3d2 = Some (mkDecimal 0 64).
Proof. vm_compute. reflexivity. Qed.

Lemma decimal_from_float_terminates_witness :
  (exists d, Decimal_from_float F64 LOOP_FUEL 0x3fb999999999999a = Some d /\ 0 <= scale d <= 64) /\
  forall fuel, Decimal_from_float F32 fuel 0x7fc00000 = None.
Proof.
  split.
  - apply (proj1 (decimal_from_float_terminates F64 0x3fb999999999999a)). vm_compute. discriminate.
  - apply (proj2 (decimal_from_float_terminates F32 0x7fc00000)). vm_compute. reflexivity.
Defined.

Lemma decimal_from_float_least_witness :
  as_i64 (scaled F64 (float_from_bits F64 0x3fb999999999999a) 1) = 1.
Proof.
  symmetry. apply (proj1 (@decimal_from_float_least float_eq_documented F64 0x3fb999999999999a (mkDecimal 1 1)
    ltac:(vm_compute; reflexivity))).
Defined.

Lemma float_integers_exact_witness :
  Decimal_from_float F64 1 0x43117ab6c44b8004 = Some (Decimal_from_int 1230000000000001) /\
  BigInt_from_decimal (Decimal_from_int 1230000000000001) = Ok 1230000000000001.
Proof.
  apply (float_integers_exact F64 0x43117ab6c44b8004 1230000000000001 0);
    [vm_compute; reflexivity | vm_compute; reflexivity].
Defined.

Lemma tiny_floats_vanish_witness :
  Decimal_from_float F64 1 0x3bc79ca10c924223 = Some (mkDecimal 0 0).
Proof.
  eapply (tiny_floats_vanish F64 0x3bc79ca10c924223); [vm_compute; reflexivity | vm_compute; reflexivity].
Defined.
