(* ===== verification/RustTypes.v ===== *)
(** * Column values as Rust types

    [macros.rs] ([as_rust_type!], [list_as_rust!], [vector_as_rust!],
    [map_as_rust!], [into_rust_by_name!], [into_rust_by_index!]), the
    collection types of [types/list.rs], [map.rs], [tuple.rs], [udt.rs],
    [vector.rs] and the accessor traits of [types.rs] (the rows themselves are
    in [Responses]).  A macro rule that takes the target type is a definition that
    takes its conversion, a function of the column type and the bytes. *)

From S2P Require Import Prelude Types Wire Query Results Responses Scalars.
Local Open Scope Z_scope.
Local Open Scope cdrs_scope.

Definition cto_id (t : ColTypeOption) : ColType := match t with mkColTypeOption id _ => id end.
Definition cto_value (t : ColTypeOption) : option ColTypeOptionValue :=
  match t with mkColTypeOption _ v => v end.
Definition descriptions (u : CUdt) : list (bytes * ColTypeOption) := match u with mkCUdt _ _ d => d end.
Definition tuple_types (t : CTuple) : list ColTypeOption := match t with mkCTuple ts => ts end.

(** A conversion of one column. *)
Definition conversion (T : Type) : Type := ColTypeOption -> CBytes -> Result (option T).

(** ** [as_rust_type!]: scalars *)

(** [as_res_opt!]: null is [None]. *)
Definition as_res_opt {T} (v : CBytes) (deserialize : bytes -> Result T) : Result (option T) :=
  match CBytes_bytes v with Some b => omap Some (deserialize b) | None => Ok None end.

(** [value.as_str() == "org.apache.cassandra.db.marshal.<name>"] *)
Definition marshal (name : string) (s : bytes) : bool :=
  bool_decide (s = lit ("org.apache.cassandra.db.marshal." ++ name)).
(** The [unmarshal] closure of a [Custom] column: the decoder the type name selects. *)
Definition unmarshal {T} (t : ColTypeOption) (v : CBytes) (msg : string)
    (select : bytes -> option (bytes -> Result T)) : Result (option T) :=
  match cto_value t with
  | Some (CString s) =>
    match select s with Some d => as_res_opt v d | None => Err (EGeneral msg) end
  | _ => Err (EGeneral msg)
  end.
Definition marshal_only {T} (name : string) (d : bytes -> Result T) (s : bytes) : option (bytes -> Result T) :=
  if marshal name s then Some d else None.

Definition as_rust_blob : conversion bytes := fun t v =>
  match cto_id t with
  | CtBlob => as_res_opt v decode_blob
  | CtCustom => unmarshal t v "Invalid conversion. Cannot convert marshaled type {:?} into Vec<u8> (valid types: org.apache.cassandra.db.marshal.BytesType)."
                  (marshal_only "BytesType" decode_blob)
  | _ => Err (EGeneral "Invalid conversion. Cannot convert {:?} into Vec<u8> (valid types: Blob).")
  end.
Definition as_rust_string : conversion bytes := fun t v =>
  match cto_id t with
  | CtCustom => as_res_opt v decode_custom
  | CtAscii => as_res_opt v decode_ascii
  | CtVarchar => as_res_opt v decode_varchar
  | _ => Err (EGeneral "Invalid conversion. Cannot convert {:?} into String (valid types: Custom, Ascii, Varchar).")
  end.
Definition as_rust_bool : conversion bool := fun t v =>
  match cto_id t with
  | CtBoolean => as_res_opt v decode_boolean
  | CtCustom => unmarshal t v "Invalid conversion. Cannot convert marshaled type {:?} into bool (valid types: org.apache.cassandra.db.marshal.BooleanType)."
                  (marshal_only "BooleanType" decode_boolean)
  | _ => Err (EGeneral "Invalid conversion. Cannot convert {:?} into bool (valid types: Boolean, Custom).")
  end.
(** The marshaled types of a 64-bit integer. *)
Definition select_i64 (s : bytes) : option (bytes -> Result Z) :=
  if marshal "LongType" s || marshal "CounterColumnType" s then Some decode_bigint
  else if marshal "TimestampType" s then Some decode_timestamp
  else if marshal "TimeType" s then Some decode_time else None.
Definition as_rust_i64 : conversion Z := fun t v =>
  match cto_id t with
  | CtBigint => as_res_opt v decode_bigint
  | CtTimestamp => as_res_opt v decode_timestamp
  | CtTime => as_res_opt v decode_time
  | CtCounter => as_res_opt v decode_bigint
  | CtCustom => unmarshal t v "Invalid conversion. Cannot convert marshaled type {:?} into i64 (valid types: org.apache.cassandra.db.marshal.{LongType|IntegerType|CounterColumnType|TimestampType|TimeType})." select_i64
  | _ => Err (EGeneral "Invalid conversion. Cannot convert {:?} into i64 (valid types: Bigint, Timestamp, Time,Counter, Custom).")
  end.
Definition select_i32 (s : bytes) : option (bytes -> Result Z) :=
  if marshal "Int32Type" s then Some decode_int
  else if marshal "SimpleDateType" s then Some decode_date else None.
Definition as_rust_i32 : conversion Z := fun t v =>
  match cto_id t with
  | CtInt => as_res_opt v decode_int
  | CtDate => as_res_opt v decode_date
  | CtCustom => unmarshal t v "Invalid conversion. Cannot convert marshaled type {:?} into i32 (valid types: org.apache.cassandra.db.marshal.Int32Type)." select_i32
  | _ => Err (EGeneral "Invalid conversion. Cannot convert {:?} into i32 (valid types: Int, Date, Custom).")
  end.
Definition as_rust_i16 : conversion Z := fun t v =>
  match cto_id t with
  | CtSmallint => as_res_opt v decode_smallint
  | CtCustom => unmarshal t v "Invalid conversion. Cannot convert marshaled type {:?} into i16 (valid types: org.apache.cassandra.db.marshal.ShortType)."
                  (marshal_only "ShortType" decode_smallint)
  | _ => Err (EGeneral "Invalid conversion. Cannot convert {:?} into i16 (valid types: Smallint, Custom).")
  end.
Definition as_rust_i8 : conversion Z := fun t v =>
  match cto_id t with
  | CtTinyint => as_res_opt v decode_tinyint
  | CtCustom => unmarshal t v "Invalid conversion. Cannot convert marshaled type {:?} into i8 (valid types: org.apache.cassandra.db.marshal.ByteType)."
                  (marshal_only "ByteType" decode_tinyint)
  | _ => Err (EGeneral "Invalid conversion. Cannot convert {:?} into i8 (valid types: Tinyint, Custom).")
  end.

(** [NonZeroI64::new] and its siblings. *)
Definition non_zero (z : Z) : option Z := if z =? 0 then None else Some z.
(** [.map(|value| value.and_then(NonZero..::new))] *)
Definition and_then_non_zero (r : Result (option Z)) : Result (option Z) :=
  omap (fun v => match v with Some z => non_zero z | None => None end) r.
Definition as_rust_non_zero_i64 : conversion Z := fun t v =>
  match cto_id t with
  | CtBigint => and_then_non_zero (as_res_opt v decode_bigint)
  | CtTimestamp => and_then_non_zero (as_res_opt v decode_timestamp)
  | CtTime => and_then_non_zero (as_res_opt v decode_time)
  | CtCounter => and_then_non_zero (as_res_opt v decode_bigint)
  | CtCustom => and_then_non_zero (unmarshal t v "Invalid conversion. Cannot convert marshaled type {:?} into i64 (valid types: org.apache.cassandra.db.marshal.{LongType|IntegerType|CounterColumnType|TimestampType|TimeType})." select_i64)
  | _ => Err (EGeneral "Invalid conversion. Cannot convert {:?} into NonZeroI64 (valid types: Bigint, Timestamp, Time,Counter, Custom).")
  end.
Definition as_rust_non_zero_i32 : conversion Z := fun t v =>
  match cto_id t with
  | CtInt => and_then_non_zero (as_res_opt v decode_int)
  | CtDate => and_then_non_zero (as_res_opt v decode_date)
  | CtCustom => and_then_non_zero (unmarshal t v "Invalid conversion. Cannot convert marshaled type {:?} into i32 (valid types: org.apache.cassandra.db.marshal.Int32Type)." select_i32)
  | _ => Err (EGeneral "Invalid conversion. Cannot convert {:?} into NonZeroI32 (valid types: Int, Date, Custom).")
  end.
Definition as_rust_non_zero_i16 : conversion Z := fun t v =>
  match cto_id t with
  | CtSmallint => and_then_non_zero (as_res_opt v decode_smallint)
  | CtCustom => and_then_non_zero (unmarshal t v "Invalid conversion. Cannot convert marshaled type {:?} into NonZeroI16 (valid types: org.apache.cassandra.db.marshal.ShortType)."
                  (marshal_only "ShortType" decode_smallint))
  | _ => Err (EGeneral "Invalid conversion. Cannot convert {:?} into NonZeroI16 (valid types: Smallint, Custom).")
  end.
Definition as_rust_non_zero_i8 : conversion Z := fun t v =>
  match cto_id t with
  | CtTinyint => and_then_non_zero (as_res_opt v decode_tinyint)
  | CtCustom => and_then_non_zero (unmarshal t v "Invalid conversion. Cannot convert marshaled type {:?} into NonZeroI8 (valid types: org.apache.cassandra.db.marshal.ByteType)."
                  (marshal_only "ByteType" decode_tinyint))
  | _ => Err (EGeneral "Invalid conversion. Cannot convert {:?} into NonZeroI8 (valid types: Tinyint, Custom).")
  end.
Definition as_rust_f64 : conversion Z := fun t v =>
  match cto_id t with
  | CtDouble => as_res_opt v decode_double
  | CtCustom => unmarshal t v "Invalid conversion. Cannot convert marshaled type {:?} into f64 (valid types: org.apache.cassandra.db.marshal.DoubleType)."
                  (marshal_only "DoubleType" decode_double)
  | _ => Err (EGeneral "Invalid conversion. Cannot convert {:?} into f64 (valid types: Double, Custom).")
  end.
Definition as_rust_f32 : conversion Z := fun t v =>
  match cto_id t with
  | CtFloat => as_res_opt v decode_float
  | CtCustom => unmarshal t v "Invalid conversion. Cannot convert marshaled type {:?} into f32 (valid types: org.apache.cassandra.db.marshal.FloatType)."
                  (marshal_only "FloatType" decode_float)
  | _ => Err (EGeneral "Invalid conversion. Cannot convert {:?} into f32 (valid types: Float, Custom).")
  end.
Definition as_rust_ip : conversion IpAddr := fun t v =>
  match cto_id t with
  | CtInet => as_res_opt v decode_inet
  | CtCustom => unmarshal t v "Invalid conversion. Cannot convert marshaled type {:?} into IpAddr (valid types: org.apache.cassandra.db.marshal.InetAddressType)."
                  (marshal_only "InetAddressType" decode_inet)
  | _ => Err (EGeneral "Invalid conversion. Cannot convert {:?} into IpAddr (valid types: Inet, Custom).")
  end.
Definition as_rust_uuid `{UuidLib} : conversion Uuid := fun t v =>
  match cto_id t with
  | CtUuid | CtTimeuuid => as_res_opt v timeuuid_value
  | CtCustom => unmarshal t v "Invalid conversion. Cannot convert marshaled type {:?} into Uuid (valid types: org.apache.cassandra.db.marshal.{UUIDType|TimeUUIDType})."
                  (fun s => if marshal "UUIDType" s || marshal "TimeUUIDType" s then Some timeuuid_value else None)
  | _ => Err (EGeneral "Invalid conversion. Cannot convert {:?} into Uuid (valid types: Uuid, Timeuuid, Custom).")
  end.
Definition as_rust_decimal `{BigIntLib} : conversion Decimal := fun t v =>
  match cto_id t with
  | CtDecimal => as_res_opt v decode_decimal
  | _ => Err (EGeneral "Invalid conversion. Cannot convert {:?} into Decimal (valid types: Decimal).")
  end.
Definition as_rust_bigint `{BigIntLib} : conversion Z := fun t v =>
  match cto_id t with
  | CtVarint => as_res_opt v decode_varint
  | CtCustom => unmarshal t v "Invalid conversion. Cannot convert marshalled type {:?} into BigInt (valid types: org.apache.cassandra.db.marshal.IntegerType)."
                  (marshal_only "IntegerType" decode_varint)
  | _ => Err (EGeneral "Invalid conversion. Cannot convert {:?} into BigInt (valid types: Varint, Custom)")
  end.
Definition as_rust_duration `{VarIntLib} : conversion Duration := fun t v =>
  match cto_id t with
  | CtDuration => as_res_opt v decode_duration
  | CtCustom => unmarshal t v "Invalid conversion. Cannot convert marshalled type {:?} into Duration (valid types: org.apache.cassandra.db.marshal.DurationType)."
                  (marshal_only "DurationType" decode_duration)
  | _ => Err (EGeneral "Invalid conversion. Cannot convert {:?} into Duration (valid types: Duration, Custom)")
  end.

(** [Timestamp] columns as points in time.  Rust's [/] and [%] truncate
    towards zero; the sub-second part is cast to [i32] for [time] and to
    [u32] for [chrono]. *)
Definition as_rust_primitive_date_time `{TimeLib} : conversion PrimitiveDateTime := fun t v =>
  match cto_id t with
  | CtTimestamp =>
    match CBytes_bytes v with
    | Some b =>
      let? ts := decode_timestamp b in
      match epoch_add (Z.quot ts 1000) (swrap 32 (Z.rem ts 1000 * 1000000)) with
      | Some tm => Ok (Some tm)
      | None => Panic
      end
    | None => Ok None
    end
  | _ => Err (EGeneral "Invalid conversion. Cannot convert {:?} into PrimitiveDateTime (valid types: Timestamp).")
  end.
Definition as_rust_naive_date_time `{ChronoLib} : conversion NaiveDateTime := fun t v =>
  match cto_id t with
  | CtTimestamp =>
    match CBytes_bytes v with
    | Some b =>
      omap (fun ts => option_map naive_utc (from_timestamp (Z.quot ts 1000) (wrap 32 (Z.rem ts 1000 * 1000000))))
        (decode_timestamp b)
    | None => Ok None
    end
  | _ => Err (EGeneral "Invalid conversion. Cannot convert {:?} into NaiveDateTime (valid types: Timestamp).")
  end.
Definition as_rust_date_time `{ChronoLib} : conversion DateTime := fun t v =>
  match cto_id t with
  | CtTimestamp =>
    match CBytes_bytes v with
    | Some b =>
      omap (fun ts => from_timestamp (Z.quot ts 1000) (wrap 32 (Z.rem ts 1000 * 1000000))) (decode_timestamp b)
    | None => Ok None
    end
  | _ => Err (EGeneral "Invalid conversion. Cannot convert {:?} into DateTime (valid types: Timestamp).")
  end.

(** ** Collections

    The protocol version is only handed on to the parsers of the items, which
    do not look at it: [CInt] and [CBytes] are the same in every version. *)

Record List : Type := mkList { list_metadata : ColTypeOption; list_data : list CBytes }.
Record Vector : Type := mkVector { vector_metadata : ColTypeOption; vector_data : list CBytes }.
Record Map : Type := mkMap { map_metadata : ColTypeOption; map_data : list (CBytes * CBytes) }.
Record Tuple : Type := mkTuple { tuple_data : list (ColTypeOption * CBytes) }.
Record Udt : Type := mkUdt { udt_data : gmap bytes (ColTypeOption * CBytes) }.

Definition Tuple_new (elements : list CBytes) (metadata : CTuple) : Tuple :=
  mkTuple (zip (tuple_types metadata) elements).
(** Equality of tuples compares the items' bytes and ignores their types. *)
Definition Tuple_eq (a b : Tuple) : bool :=
  bool_decide (length (tuple_data a) = length (tuple_data b)) &&
  forallb (fun p => bool_decide (p.1.2 = p.2.2)) (zip (tuple_data a) (tuple_data b)).
Definition Udt_new (fields : list CBytes) (metadata : CUdt) : Udt :=
  mkUdt (hm_collect (map (fun p => (p.1.1, (p.1.2, p.2))) (zip (descriptions metadata) fields))).

Definition as_rust_list : conversion List := fun t v =>
  match cto_id t with
  | CtList | CtSet =>
    match CBytes_bytes v with
    | Some b => omap (fun data => Some (mkList t data)) (decode_list b)
    | None => Ok None
    end
  | _ => Err (EGeneral "Invalid conversion. Cannot convert {:?} into List (valid types: List, Set).")
  end.
Definition as_rust_map : conversion Map := fun t v =>
  match cto_id t with
  | CtMap =>
    match CBytes_bytes v with
    | Some b => omap (fun data => Some (mkMap t data)) (decode_map b)
    | None => Ok None
    end
  | _ => Err (EGeneral "Invalid conversion. Cannot convert {:?} into Map (valid types: Map).")
  end.
Definition as_rust_udt `{FailedRead} : conversion Udt := fun t v =>
  match t with
  | mkColTypeOption CtUdt (Some (UdtType u)) =>
    match CBytes_bytes v with
    | Some b => omap (fun data => Some (Udt_new data u)) (decode_udt b (length (descriptions u)))
    | None => Ok None
    end
  | _ => Err (EGeneral "Invalid conversion. Cannot convert {:?} into Udt (valid types: Udt).")
  end.
Definition as_rust_tuple : conversion Tuple := fun t v =>
  match t with
  | mkColTypeOption CtTuple (Some (TupleType u)) =>
    match CBytes_bytes v with
    | Some b => omap (fun data => Some (Tuple_new data u)) (decode_tuple b (length (tuple_types u)))
    | None => Ok None
    end
  | _ => Err (EGeneral "Invalid conversion. Cannot convert {:?} into Tuple (valid types: Tuple).")
  end.

(** ** [list_as_rust!], [vector_as_rust!], [map_as_rust!] *)

(** [.unwrap().unwrap()] of the conversion of one item. *)
Definition unwrap_item {T} (r : Result (option T)) : Result T :=
  match r with Ok (Some x) => Ok x | _ => Panic end.
(** [iter().map(f).collect()], the first failure ending it. *)
Fixpoint try_map {A B} (f : A -> Result B) (l : list A) : Result (list B) :=
  match l with
  | [] => Ok []
  | a :: l' => let? b := f a in let? bs := try_map f l' in Ok (b :: bs)
  end.

Definition list_as_rust {T} (conv : conversion T) (l : List) : Result (option (list T)) :=
  match cto_value (list_metadata l) with
  | Some (CList type_option) | Some (CSet type_option) =>
    omap Some (try_map (fun b => unwrap_item (conv type_option b)) (list_data l))
  | _ => Err (EGeneral "Invalid conversion. Cannot convert {:?} into List (valid types: List, Set).")
  end.

(** The argument of [unwrap_or] is evaluated before the call: its [?] leaves
    the function with the error, whatever the item is. *)
Definition vector_as_rust (v : Vector) : Result (option (list Z)) :=
  omap Some
    (try_map (fun data_value =>
       let? fallback := Err (A := bytes) (EGeneral "Failed to convert {:?} into float") in
       decode_float (from_option id fallback (CBytes_bytes data_value))) (vector_data v)).

(** The entries with a null key or value are left out. *)
Fixpoint map_entries {K V} (convk : CBytes -> Result (option K)) (convv : CBytes -> Result (option V))
    (data : list (CBytes * CBytes)) : Result (list (K * V)) :=
  match data with
  | [] => Ok []
  | (key, val) :: data' =>
    let? k := convk key in
    let? v := convv val in
    let? rest := map_entries convk convv data' in
    match k, v with Some k, Some v => Ok ((k, v) :: rest) | _, _ => Ok rest end
  end.
Definition map_as_rust {K V} `{Countable K} (convk : conversion K) (convv : conversion V) (m : Map) :
    Result (option (gmap K V)) :=
  match cto_value (map_metadata m) with
  | Some (CMap key_type_option val_type_option) =>
    omap (fun es => Some (hm_collect es)) (map_entries (convk key_type_option) (convv val_type_option) (map_data m))
  | _ => Err (EGeneral "Invalid column type for map: {:?}")
  end.

(** ** Accessors *)

Definition column_is_empty_err : Error := EGeneral "Column or Udt property '{column_name}' is empty".
Definition ok_or {A} (o : option A) (e : Error) : Result A :=
  match o with Some a => Ok a | None => Err e end.

(** [IntoRustByName], [IntoRustByIndex] *)
Definition Row_get_by_name {T} (conv : conversion T) (r : Row) (name : bytes) : Result (option T) :=
  let? found := col_spec_by_name r name in
  let? sc := ok_or found column_is_empty_err in
  conv (cs_col_type sc.1) sc.2.
Definition Row_get_by_index {T} (conv : conversion T) (r : Row) (index : nat) : Result (option T) :=
  let? sc := ok_or (col_spec_by_index r index) column_is_empty_err in
  conv (cs_col_type sc.1) sc.2.
Definition Udt_get_by_name {T} (conv : conversion T) (u : Udt) (name : bytes) : Result (option T) :=
  let? v := ok_or (udt_data u !! name) column_is_empty_err in
  conv v.1 v.2.
Definition Tuple_get_by_index {T} (conv : conversion T) (t : Tuple) (index : nat) : Result (option T) :=
  let? v := ok_or (tuple_data t !! index) column_is_empty_err in
  conv v.1 v.2.
(** [get_r_by_name], [get_r_by_index], [r_by_name], [r_by_index]: null is an error. *)
Definition get_r {T} (found : Result (option T)) : Result T :=
  let? op := found in ok_or op column_is_empty_err.
(** [as_r_type], [as_r_rust] *)
Definition as_r_type {T} (converted : Result (option T)) : Result T :=
  let? op := converted in ok_or op (EGeneral "Value is null or non-set").

(** ** Scalar columns read back *)

(** [conv] accepts the column types of [ok] and gives back what [into] wrote. *)
Class Converts {T} (conv : conversion T) (into : T -> bytes) (ok : ColType -> Prop) (wf : T -> Prop) : Prop :=
  converts : forall t v, ok (cto_id t) -> wf v -> conv t (CBytes_new (into v)) = Ok (Some v).

Lemma as_res_opt_decodes {T} (dec : bytes -> Result T) into wf v `{!Decodes dec into wf} :
  wf v -> as_res_opt (CBytes_new (into v)) dec = Ok (Some v).
Proof. intros Hv. unfold as_res_opt. simpl. by rewrite decodes. Qed.

Ltac converts_scalar :=
  intros [id value] v Hid Hv; cbn [cto_id] in Hid;
  repeat match type of Hid with _ \/ _ => destruct Hid as [Hid|Hid] end;
  subst id; cbn [cto_id]; eapply as_res_opt_decodes; eauto with typeclass_instances.

#[export] Instance blob_converts : Converts as_rust_blob Bytes_from_blob (eq CtBlob) (fun _ => True).
Proof. converts_scalar. Qed.
#[export] Instance string_converts :
  Converts as_rust_string Bytes_from_str (fun c => CtAscii = c \/ CtVarchar = c) wf_string.
Proof. converts_scalar. Qed.
#[export] Instance bool_converts : Converts as_rust_bool Bytes_from_bool (eq CtBoolean) (fun _ => True).
Proof. converts_scalar. Qed.
#[export] Instance i64_converts : Converts as_rust_i64 Bytes_from_i64
  (fun c => CtBigint = c \/ CtTimestamp = c \/ CtTime = c \/ CtCounter = c) (in_i 64).
Proof. converts_scalar. Qed.
#[export] Instance i32_converts :
  Converts as_rust_i32 Bytes_from_i32 (fun c => CtInt = c \/ CtDate = c) (in_i 32).
Proof. converts_scalar. Qed.
#[export] Instance i16_converts : Converts as_rust_i16 Bytes_from_i16 (eq CtSmallint) (in_i 16).
Proof. converts_scalar. Qed.
#[export] Instance i8_converts : Converts as_rust_i8 Bytes_from_i8 (eq CtTinyint) (in_i 8).
Proof. converts_scalar. Qed.
#[export] Instance f64_converts : Converts as_rust_f64 Bytes_from_f64 (eq CtDouble) (in_u 64).
Proof. converts_scalar. Qed.
#[export] Instance f32_converts : Converts as_rust_f32 Bytes_from_f32 (eq CtFloat) (in_u 32).
Proof. converts_scalar. Qed.
#[export] Instance ip_converts : Converts as_rust_ip Bytes_from_ip (eq CtInet) wf_ip.
Proof. converts_scalar. Qed.
#[export] Instance uuid_converts `{UuidLib} :
  Converts as_rust_uuid Bytes_from_uuid (fun c => CtUuid = c \/ CtTimeuuid = c) (fun _ => True).
Proof. converts_scalar. Qed.
#[export] Instance decimal_converts `{BigIntLib} :
  Converts as_rust_decimal Bytes_from_decimal (eq CtDecimal) (fun d => in_i 32 (scale d)).
Proof. converts_scalar. Qed.
#[export] Instance bigint_converts `{BigIntLib} :
  Converts as_rust_bigint Bytes_from_bigint (eq CtVarint) (fun _ => True).
Proof. converts_scalar. Qed.

(** ** Collections read back *)

Lemma try_map_ok {A B} (f : A -> Result B) l l' : Forall2 (fun a b => f a = Ok b) l l' -> try_map f l = Ok l'.
Proof. induction 1 as [|a b l l' Hab Hl IH]; [done|]. simpl. by rewrite Hab, IH. Qed.

Lemma try_map_app {A B} (f : A -> Result B) l1 l2 :
  try_map f (l1 ++ l2) = let? a := try_map f l1 in let? b := try_map f l2 in Ok (a ++ b).
Proof.
  induction l1 as [|x l1 IH]; simpl; [by destruct (try_map f l2)|].
  destruct (f x); [|done..]. simpl. rewrite IH. destruct (try_map f l1); [|done..]. simpl.
  by destruct (try_map f l2).
Qed.

Lemma Forall2_map_self {A B} (P : A -> Prop) (R : B -> A -> Prop) (f : A -> B) l :
  (forall x, P x -> R (f x) x) -> Forall P l -> Forall2 R (map f l) l.
Proof. intros H. induction 1; constructor; auto. Qed.

Lemma map_entries_ok {K V} convk convv (es : list (K * V)) (f : K -> CBytes) (g : V -> CBytes) :
  Forall (fun e => convk (f e.1) = Ok (Some e.1) /\ convv (g e.2) = Ok (Some e.2)) es ->
  map_entries convk convv (map (fun e => (f e.1, g e.2)) es) = Ok es.
Proof. induction 1 as [|[k v] es [Hk Hv] _ IH]; [done|]. simpl in *. by rewrite Hk, Hv, IH. Qed.

Section Collections.
Context {K T : Type} (conv : conversion T) (into : T -> bytes) (ok : ColType -> Prop) (wf : T -> Prop).
Context `{!Converts conv into ok wf}.

Lemma vec_converts id c elem (vs : list T) :
  (id = CtList /\ c = CList elem) \/ (id = CtSet /\ c = CSet elem) ->
  ok (cto_id elem) -> zlen vs < 2 ^ 31 -> Forall (fun v => wf v /\ short_bytes into v) vs ->
  exists l, as_rust_list (mkColTypeOption id (Some c)) (CBytes_new (Bytes_from_vec into vs)) = Ok (Some l) /\
            list_as_rust conv l = Ok (Some vs).
Proof using Type*.
  intros Hc Hok Hn Hv.
  exists (mkList (mkColTypeOption id (Some c)) (map (item_bytes into) vs)).
  assert (Hd := decode_list_vec into vs Hn (Forall_impl _ _ _ Hv (fun _ H => proj2 H))).
  assert (Hm : try_map (fun b => unwrap_item (conv elem b)) (map (item_bytes into) vs) = Ok vs).
  { apply try_map_ok. apply (Forall2_map_self (fun v => wf v /\ short_bytes into v)); [|done].
    intros v [Hw _]. unfold item_bytes. by rewrite (converts elem v Hok Hw). }
  destruct Hc as [[-> ->]|[-> ->]]; unfold as_rust_list, list_as_rust; cbn [cto_id CBytes_bytes CBytes_new];
    rewrite Hd; (split; [done|]); cbn [cto_value list_metadata list_data]; by rewrite Hm.
Qed.

(** A [Vec] sent as a query value is read back from a list or set column
    of its item type as the same [Vec]. *)
Theorem vec_round_trip id c elem (vs : list T) :
  (id = CtList /\ c = CList elem) \/ (id = CtSet /\ c = CSet elem) ->
  ok (cto_id elem) -> zlen vs < 2 ^ 31 -> Forall (fun v => wf v /\ short_bytes into v) vs ->
  exists l, as_rust_list (mkColTypeOption id (Some c)) (CBytes_new (Bytes_from_vec into vs)) = Ok (Some l) /\
            list_as_rust conv l = Ok (Some vs).
Proof using Type*. apply vec_converts. Qed.

Context `{HashIter K} (convk : conversion K) (intok : K -> bytes) (okk : ColType -> Prop) (wfk : K -> Prop).
Context `{!Converts convk intok okk wfk}.

(** A [HashMap] sent as a query value is read back from a map column of
    its key and value types as the same map, in whatever order its entries
    were written. *)
Theorem hash_map_round_trip tk tv (m : gmap K T) :
  okk (cto_id tk) -> ok (cto_id tv) -> Z.of_nat (size m) < 2 ^ 31 ->
  map_Forall (fun k v => (wfk k /\ short_bytes intok k) /\ (wf v /\ short_bytes into v)) m ->
  exists raw, as_rust_map (mkColTypeOption CtMap (Some (CMap tk tv)))
                (CBytes_new (Bytes_from_hash_map intok into m)) = Ok (Some raw) /\
              map_as_rust convk conv raw = Ok (Some m).
Proof using Type*.
  intros Hk Hv Hn Hm.
  set (t := mkColTypeOption CtMap (Some (CMap tk tv))).
  exists (mkMap t (map (fun e => (item_bytes intok e.1, item_bytes into e.2)) (hm_iter m))).
  apply (hm_iter_Forall (fun e => (wfk e.1 /\ short_bytes intok e.1) /\ (wf e.2 /\ short_bytes into e.2))) in Hm.
  split; unfold as_rust_map, map_as_rust; cbn [cto_id cto_value CBytes_bytes CBytes_new map_metadata map_data].
  - unfold Bytes_from_hash_map. rewrite decode_map_entries; [done|by unfold zlen; rewrite hm_iter_length|].
    eapply Forall_impl; [exact Hm|]. intros e He. split; apply He.
  - subst t. cbn [cto_value].
    rewrite (map_entries_ok _ _ (hm_iter m) (item_bytes intok) (item_bytes into));
      [simpl; by rewrite hm_collect_iter|].
    eapply Forall_impl; [exact Hm|]. intros e [[Hwk _] [Hwv _]]. unfold item_bytes.
    split; by apply converts.
Qed.
End Collections.

Lemma vec_round_trip_witness :
  exists l, as_rust_list (mkColTypeOption CtSet (Some (CSet (mkColTypeOption CtInt None))))
              (CBytes_new (Bytes_from_vec Bytes_from_i32 [1; -2])) = Ok (Some l) /\
            list_as_rust as_rust_i32 l = Ok (Some [1; -2]).
Proof.
  apply (vec_round_trip as_rust_i32 Bytes_from_i32 _ _ CtSet (CSet (mkColTypeOption CtInt None))
           (mkColTypeOption CtInt None)); [by right|by left|by vm_compute|].
  repeat constructor; unfold in_i; lia.
Defined.

Lemma hash_map_round_trip_witness :
  let iter := default_iter Z in
  let m : gmap Z bytes := {[ 5 := lit "five"; -1 := lit "minus one" ]} in
  exists raw, as_rust_map (mkColTypeOption CtMap (Some (CMap (mkColTypeOption CtBigint None)
                                                            (mkColTypeOption CtVarchar None))))
                (CBytes_new (Bytes_from_hash_map Bytes_from_i64 Bytes_from_str m)) = Ok (Some raw) /\
              map_as_rust as_rust_i64 as_rust_string raw = Ok (Some m).
Proof.
  intros iter m.
  apply (hash_map_round_trip as_rust_string Bytes_from_str _ _ as_rust_i64 Bytes_from_i64 _ _
           (mkColTypeOption CtBigint None) (mkColTypeOption CtVarchar None) m);
    [by left|by right|by vm_compute|].
  intros k v Hkv. apply lookup_insert_Some in Hkv as [[<- <-]|[_ [<- <-]%lookup_singleton_Some]];
    (split; [split; [unfold in_i; lia|]|split]; by vm_compute).
Defined.

(** ** Timestamps *)

Definition timestamp_column : ColTypeOption := mkColTypeOption CtTimestamp None.

Lemma rem_millis ts : Z.quot ts 1000 * 1000000000 + Z.rem ts 1000 * 1000000 = ts * 1000000.
Proof. pose proof (Z.quot_rem' ts 1000). lia. Qed.

Lemma rem_abs ts : Z.abs (Z.rem ts 1000) < 1000.
Proof. pose proof (Z.rem_bound_abs ts 1000 ltac:(lia)). lia. Qed.

(** A timestamp column read as a [PrimitiveDateTime] is the point in time
    whose encoding is the column's value again, before and after 1970. *)
Theorem primitive_date_time_round_trip `{TimeLib} (ts : Z) :
  -300000000000000 <= ts <= 250000000000000 ->
  exists tm, as_rust_primitive_date_time timestamp_column (CBytes_new (Bytes_from_i64 ts)) = Ok (Some tm) /\
             Bytes_from_primitive_date_time tm = Bytes_from_i64 ts.
Proof.
  intros Hts. pose proof (rem_abs ts) as Hr. pose proof (Z.quot_rem' ts 1000) as Hq.
  unfold as_rust_primitive_date_time. cbn [cto_id timestamp_column CBytes_bytes CBytes_new].
  unfold decode_timestamp. rewrite (decodes (dec := try_i64_from_bytes) ts) by (unfold in_i; lia).
  cbn [obind]. rewrite (swrap_small 32) by (unfold in_i; lia).
  destruct (epoch_add_valid (Z.quot ts 1000) (Z.rem ts 1000 * 1000000)) as [tm Htm]; [lia..|].
  rewrite Htm. exists tm. split; [done|].
  pose proof (epoch_add_nanos _ _ _ Htm) as He. rewrite rem_millis in He.
  pose proof (nanosecond_range tm) as Hn. unfold Bytes_from_primitive_date_time, Bytes_from_i64. f_equal.
  rewrite Z.quot_div_nonneg by lia.
  pose proof (Z.div_mod (nanosecond tm) 1000000 ltac:(lia)).
  pose proof (Z.mod_pos_bound (nanosecond tm) 1000000 ltac:(lia)).
  rewrite (swrap_small 64 (unix_timestamp tm * 1000)) by (unfold in_i; lia).
  rewrite swrap_small by (unfold in_i; lia). lia.
Qed.

Lemma primitive_date_time_round_trip_witness :
  exists tm, @as_rust_primitive_date_time time_nanos timestamp_column (CBytes_new (Bytes_from_i64 (-1500)))
               = Ok (Some tm) /\ @Bytes_from_primitive_date_time time_nanos tm = Bytes_from_i64 (-1500).
Proof. apply (@primitive_date_time_round_trip time_nanos (-1500)). lia. Defined.

(** Read as a [chrono] time the column round trips from 1970 on and at
    whole seconds before; every other timestamp before 1970 is silently read
    as null, because its negative sub-second part is cast to [u32]. *)
Theorem chrono_loses_early_timestamps `{ChronoLib} (ts : Z) :
  Z.abs ts <= 8000000000000000 ->
  (0 <= ts \/ ts mod 1000 = 0 ->
    exists d, as_rust_date_time timestamp_column (CBytes_new (Bytes_from_i64 ts)) = Ok (Some d) /\
              Bytes_from_date_time d = Bytes_from_i64 ts) /\
  (ts < 0 -> ts mod 1000 <> 0 ->
    as_rust_date_time timestamp_column (CBytes_new (Bytes_from_i64 ts)) = Ok None /\
    as_rust_naive_date_time timestamp_column (CBytes_new (Bytes_from_i64 ts)) = Ok None).
Proof.
  intros Hts. pose proof (rem_abs ts) as Hr. pose proof (Z.quot_rem' ts 1000) as Hq.
  pose proof (Z.rem_bound_abs ts 1000 ltac:(lia)) as _.
  unfold as_rust_date_time, as_rust_naive_date_time. cbn [cto_id timestamp_column CBytes_bytes CBytes_new].
  unfold decode_timestamp. rewrite (decodes (dec := try_i64_from_bytes) ts) by (unfold in_i; lia).
  cbn [omap]. set (q := Z.quot ts 1000) in *. set (r := Z.rem ts 1000) in *.
  pose proof (Z.div_mod ts 1000 ltac:(lia)). pose proof (Z.mod_pos_bound ts 1000 ltac:(lia)). split.
  - intros Hok. assert (Hr0 : 0 <= r).
    { destruct Hok as [Hp|Hz]; [by apply Z.rem_nonneg|].
      enough (r = 0) by lia. unfold r. replace ts with (ts / 1000 * 1000) by lia. by apply Z.rem_mul. }
    rewrite wrap_small by (unfold in_u; lia).
    destruct (from_timestamp_valid q (r * 1000000)) as [d Hd]; [lia..|]. rewrite Hd. exists d. split; [done|].
    unfold Bytes_from_date_time. rewrite (from_timestamp_millis q (r * 1000000) d ltac:(lia) Hd).
    rewrite Z.div_mul by lia. f_equal. lia.
  - intros Hneg Hz. assert (Hr0 : r < 0).
    { assert (r <= 0) by (apply Z.rem_nonpos; lia). destruct (Z.eq_dec r 0); [|lia].
      exfalso. apply Hz. replace ts with (q * 1000) by lia. by apply Z.mod_mul. }
    assert (Hw : 2000000000 <= wrap 32 (r * 1000000)).
    { unfold wrap. replace (r * 1000000) with (r * 1000000 + 2 ^ 32 + (-1) * 2 ^ 32) by lia.
      rewrite Z.mod_add, Z.mod_small by lia. lia. }
    by rewrite (from_timestamp_invalid _ _ Hw).
Qed.

Lemma chrono_loses_early_timestamps_witness :
  (exists d, @as_rust_date_time chrono_pairs timestamp_column (CBytes_new (Bytes_from_i64 1500)) = Ok (Some d) /\
             @Bytes_from_date_time chrono_pairs d = Bytes_from_i64 1500) /\
  @as_rust_date_time chrono_pairs timestamp_column (CBytes_new (Bytes_from_i64 (-1))) = Ok None.
Proof.
  split.
  - apply (@chrono_loses_early_timestamps chrono_pairs 1500); lia.
  - apply (proj1 (proj2 (@chrono_loses_early_timestamps chrono_pairs (-1) ltac:(lia)) ltac:(lia) ltac:(by vm_compute))).
Defined.

(** ** Vectors *)

(** [Vector::as_rust_type] never returns the components: of any vector
    but the empty one it is the error meant for a null component. *)
Theorem vector_never_converts (v : Vector) :
  vector_data v <> [] -> vector_as_rust v = Err (EGeneral "Failed to convert {:?} into float").
Proof. unfold vector_as_rust. by destruct (vector_data v). Qed.

Lemma vector_never_converts_witness :
  vector_as_rust (mkVector (mkColTypeOption CtCustom None) [CBytes_new (Bytes_from_f32 0)])
    = Err (EGeneral "Failed to convert {:?} into float").
Proof. by apply (vector_never_converts (mkVector (mkColTypeOption CtCustom None) [CBytes_new (Bytes_from_f32 0)])). Defined.

(** ** Null items *)

(** A null item of a list makes [as_rust_type] panic, at whatever place;
    an entry of a map whose key or value is null is left out. *)
Theorem null_items {T} (conv : conversion T) (t elem : ColTypeOption) (before after : list CBytes) :
  cto_value t = Some (CList elem) -> conv elem CBytes_new_null = Ok None ->
  (forall b, b ∈ before -> exists v, conv elem b = Ok v) ->
  list_as_rust conv (mkList t (before ++ CBytes_new_null :: after)) = Panic /\
  (forall k, map_entries (conv elem) (conv elem) [(k, CBytes_new_null)] =
             let? _ := conv elem k in Ok []).
Proof.
  intros Ht Hn Hb. split.
  - unfold list_as_rust. cbn [list_metadata list_data]. rewrite Ht.
    induction before as [|b before IH]; simpl; [by rewrite Hn|].
    destruct (Hb b) as [[v|] Hv]; [by left|..]; rewrite Hv; simpl; [|done].
    assert (IH' := IH (fun b' H => Hb b' (list_elem_of_further _ _ _ H))). clear IH.
    by destruct (try_map _ (before ++ _)).
  - intros k. cbn [map_entries]. destruct (conv elem k) as [[v|]| |]; simpl; by rewrite ?Hn.
Qed.

Lemma null_items_witness :
  list_as_rust as_rust_i32 (mkList (mkColTypeOption CtList (Some (CList (mkColTypeOption CtInt None))))
    [CBytes_new (to_int 1); CBytes_new_null]) = Panic.
Proof.
  apply (null_items as_rust_i32 (mkColTypeOption CtList (Some (CList (mkColTypeOption CtInt None))))
           (mkColTypeOption CtInt None) [CBytes_new (to_int 1)] []); [done..|].
  intros b ->%list_elem_of_singleton. by eexists.
Defined.

(** ** Rows *)

Lemma position_first name specs i : position name specs = Some i <->
  (exists s, specs !! i = Some s /\ cs_name s = name) /\
  (forall j s, (j < i)%nat -> specs !! j = Some s -> cs_name s <> name).
Proof.
  revert i. induction specs as [|s specs IH]; intros i; simpl.
  - split; [done|]. intros [(s & Hs & _) _]. done.
  - case_bool_decide as Hd.
    + split.
      * intros E. simplify_eq. split; [by exists s|lia].
      * intros [_ Hf]. destruct i as [|i]; [done|]. by destruct (Hf 0%nat s ltac:(lia) eq_refl).
    + destruct i as [|i].
      * split; [by destruct (position name specs)|]. intros [(s' & ? & ?) _]. by simplify_eq/=.
      * transitivity (position name specs = Some i); [by destruct (position name specs); split; intros; simplify_eq/=|].
        rewrite IH. split; intros [He Hf]; (split; [done|]); intros j s' Hj Hs'.
        -- destruct j as [|j]; simplify_eq/=; [done|]. apply (Hf j); [lia|done].
        -- apply (Hf (S j)); [lia|done].
Qed.

Lemma position_none name specs : position name specs = None <-> Forall (fun s => cs_name s <> name) specs.
Proof.
  induction specs as [|s specs IH]; simpl; [split; [by constructor|done]|].
  rewrite Forall_cons, <- IH. case_bool_decide; [split; [done|by intros [? _]]|].
  destruct (position name specs); simpl; split; try done; by intros [_ ?].
Qed.

(** In a row with a cell for every column, a column read by its name is
    the first column of that name read by its index, with any conversion; a
    name no column has is an error; null is [None], and an error of the
    accessors that return a plain value. *)
Theorem by_name_is_by_index {T} (conv : conversion T) (r : Row) (name : bytes) :
  length (row_content r) = length (rm_col_specs (metadata r)) ->
  (forall i s, rm_col_specs (metadata r) !! i = Some s -> cs_name s = name ->
     (forall j s', (j < i)%nat -> rm_col_specs (metadata r) !! j = Some s' -> cs_name s' <> name) ->
     Row_get_by_name conv r name = Row_get_by_index conv r i) /\
  (contains_column r name = false -> Row_get_by_name conv r name = Err column_is_empty_err) /\
  (Row_get_by_name conv r name = Ok None -> get_r (Row_get_by_name conv r name) = Err column_is_empty_err).
Proof.
  intros Hlen. split; [|split].
  - intros i s Hs Hn Hf. unfold Row_get_by_name, Row_get_by_index, col_spec_by_name, col_spec_by_index.
    rewrite (proj2 (position_first name _ i)) by eauto. rewrite Hs.
    destruct (lookup_lt_is_Some_2 (row_content r) i) as [c Hc]; [rewrite Hlen; by eapply lookup_lt_Some|].
    rewrite Hc. rewrite (proj2 (lookup_zip_Some _ _ i s c)) by done. done.
  - intros Hc. unfold Row_get_by_name, col_spec_by_name.
    rewrite (proj2 (position_none name _)); [done|]. unfold contains_column in Hc. clear Hlen.
    revert Hc. generalize (rm_col_specs (metadata r)) as specs.
    induction specs as [|s specs IH]; intros Hc; constructor; simpl in Hc;
      apply orb_false_iff in Hc as [H1 H2]; [by case_bool_decide|auto].
  - by intros ->.
Qed.

Lemma by_name_is_by_index_witness :
  let spec n t := mkColSpec None (lit n) (mkColTypeOption t None) in
  let r := mkRow (mkRowsMetadata 0 2 None None None [spec "id" CtInt; spec "name" CtVarchar])
             [CBytes_new (to_int 7); CBytes_new (lit "x")] V4 in
  Row_get_by_name as_rust_string r (lit "name") = Row_get_by_index as_rust_string r 1 /\
  Row_get_by_name as_rust_string r (lit "age") = Err column_is_empty_err.
Proof.
  intros spec r. split.
  - apply (by_name_is_by_index as_rust_string r (lit "name") eq_refl) with (s := spec "name" CtVarchar); [done..|].
    intros [|j] s' Hj Hs; [|lia]. by simplify_eq/=.
  - by apply (by_name_is_by_index as_rust_string r (lit "age") eq_refl).
Defined.
