(* ===== verification/CassandraTypes.v ===== *)
(** * Column values as [CassandraType]

    [types/cassandra_type.rs], the [*_as_cassandra_type!] macros of
    [macros.rs] and [types/vector.rs]: the conversion of any column, with its
    nested collections, user types, tuples and vectors, into one enum.  The
    source selects a wrapper by the column type ([wrapper_fn]) and the
    wrappers of the collections select one for their items; here a wrapper
    takes the conversion of the item types as an argument and [convert] ties
    the knot on the nesting depth of the type, which is all the recursion
    ever needs ([convert_unfold]). *)

From S2P Require Import Prelude Types Wire Query Results Scalars RustTypes.
Local Open Scope Z_scope.
Local Open Scope cdrs_scope.
#[local] Set Warnings "-register-all".

Inductive CassandraType `{UuidLib} : Type :=
| TAscii (s : bytes)
| TBigint (v : Z)
| TBlob (b : bytes)
| TBoolean (v : bool)
| TCounter (v : Z)
| TDecimal (d : Decimal)
| TDouble (bits : Z)
| TFloat (bits : Z)
| TInt (v : Z)
| TTimestamp (v : Z)
| TUuid (u : Uuid)
| TVarchar (s : bytes)
| TVarint (v : Z)
| TTimeuuid (u : Uuid)
| TInet (i : IpAddr)
| TDate (v : Z)
| TTime (v : Z)
| TSmallint (v : Z)
| TTinyint (v : Z)
| TDuration (d : Duration)
| TList (l : list CassandraType)
| TMap (l : list (CassandraType * CassandraType))
| TSet (l : list CassandraType)
| TUdt (m : gmap bytes CassandraType)
| TTuple (l : list CassandraType)
| TVector (l : list CassandraType)
| TNull.

(** ** Vector types: [get_vector_type_info] *)

(** [str::split] at an ASCII character: never empty. *)
Fixpoint split (c : Z) (s : bytes) : list bytes :=
  match s with
  | [] => [[]]
  | b :: s' =>
    if b2z b =? c then [] :: split c s'
    else match split c s' with p :: ps => (b :: p) :: ps | [] => [[b]] end
  end.

(** The UTF-8 encodings of the characters with the White_Space property. *)
Definition white_space : list bytes :=
  map (map u8)
    [[0x09]; [0x0A]; [0x0B]; [0x0C]; [0x0D]; [0x20]; [0xC2; 0x85]; [0xC2; 0xA0]; [0xE1; 0x9A; 0x80];
     [0xE2; 0x80; 0x80]; [0xE2; 0x80; 0x81]; [0xE2; 0x80; 0x82]; [0xE2; 0x80; 0x83]; [0xE2; 0x80; 0x84];
     [0xE2; 0x80; 0x85]; [0xE2; 0x80; 0x86]; [0xE2; 0x80; 0x87]; [0xE2; 0x80; 0x88]; [0xE2; 0x80; 0x89];
     [0xE2; 0x80; 0x8A]; [0xE2; 0x80; 0xA8]; [0xE2; 0x80; 0xA9]; [0xE2; 0x80; 0xAF]; [0xE2; 0x81; 0x9F];
     [0xE3; 0x80; 0x80]].
Definition strip_one (spaces : list bytes) (s : bytes) : option bytes :=
  match filter (fun w => take (length w) s = w) spaces with w :: _ => Some (drop (length w) s) | [] => None end.
Fixpoint strip (fuel : nat) (spaces : list bytes) (s : bytes) : bytes :=
  match fuel with
  | O => s
  | S f => match strip_one spaces s with Some s' => strip f spaces s' | None => s end
  end.
(** [str::trim]: a white space has at least one byte, so the length is enough fuel. *)
Definition trim (s : bytes) : bytes :=
  let s1 := strip (length s) white_space s in
  rev (strip (length s1) (map (@rev byte) white_space) (rev s1)).

(** [str::parse::<usize>]: an optional plus sign and decimal digits. *)
Fixpoint parse_digits (acc : Z) (s : bytes) : option Z :=
  match s with
  | [] => Some acc
  | b :: s' =>
    if between 0x30 0x39 b then
      let acc' := acc * 10 + (b2z b - 0x30) in
      if acc' <? 2 ^ 64 then parse_digits acc' s' else None
    else None
  end.
Definition parse_usize (s : bytes) : option Z :=
  match s with
  | [] => None
  | b :: s' =>
    if b2z b =? 0x2B then match s' with [] => None | _ => parse_digits 0 s' end
    else parse_digits 0 s
  end.

Record VectorInfo : Type := mkVectorInfo { internal_type : bytes; count : Z }.

Definition hd_piece (ps : list bytes) : bytes := match ps with p :: _ => p | [] => [] end.
Definition get_vector_type_info (option_value : ColTypeOptionValue) : Result VectorInfo :=
  match option_value with
  | CString input =>
    match split 0x28 input !! 1%nat with
    | None => Err (EGeneral "Cannot parse vector type!")
    | Some args =>
      let vector_type := trim (hd_piece (rev (split 0x2E (hd_piece (split 0x2C args))))) in
      match parse_usize (trim (hd_piece (split 0x29 (hd_piece (rev (split 0x2C args)))))) with
      | None => Err (EGeneral "Cannot parse vector count!")
      | Some n => Ok (mkVectorInfo vector_type n)
      end
    end
  | _ => Err (EGeneral "Option value must be a string!")
  end.

(** ** [AsCassandraType] *)

Section Wrappers.
Context `{UuidLib} `{BigIntLib} `{VarIntLib} `{FailedRead} `{!HashIter bytes}.

(** [wrapper_fn(&t.id)(bytes, t, version)] *)
Definition wrapper : Type := ColTypeOption -> CBytes -> Result CassandraType.

(** [Ok(match t { Some(t) => CassandraType::X(t), None => CassandraType::Null })] *)
Definition or_null {T} (c : T -> CassandraType) (r : Result (option T)) : Result CassandraType :=
  omap (fun t => match t with Some t => c t | None => TNull end) r.

Definition list_as_cassandra_type (rec : wrapper) (l : List) : Result CassandraType :=
  match cto_value (list_metadata l) with
  | Some (CList type_option) | Some (CSet type_option) =>
    omap TList (try_map (rec type_option) (list_data l))
  | _ => Err (EGeneral "Invalid conversion. Cannot convert {:?} into List (valid types: List, Set).")
  end.

Definition wrap_float : wrapper := fun t b => or_null TFloat (as_rust_f32 t b).

Definition vector_as_cassandra_type (v : Vector) : Result CassandraType :=
  match vector_metadata v with
  | mkColTypeOption CtCustom (Some value) =>
    let? info := get_vector_type_info value in
    if bool_decide (internal_type info = lit "FloatType")
    then omap TVector (try_map (wrap_float (mkColTypeOption CtFloat None)) (vector_data v))
    else Err (EGeneral "Invalid conversion. Cannot convert Vector<{:?}> into Vector (valid types: Vector<FloatType>")
  | mkColTypeOption CtCustom None => Err (EGeneral "Custom type string is none")
  | _ => Err (EGeneral "Invalid conversion. Cannot convert {:?} into Vector (valid types: Custom).")
  end.

Definition map_as_cassandra_type (rec : wrapper) (m : Map) : Result CassandraType :=
  match cto_value (map_metadata m) with
  | Some (CMap key_type value_type) =>
    omap TMap (try_map (fun kv : CBytes * CBytes =>
                          let? k := rec key_type kv.1 in
                          let? v := rec value_type kv.2 in
                          Ok (k, v)) (map_data m))
  | _ => Panic
  end.

Definition tuple_as_cassandra_type (rec : wrapper) (t : Tuple) : Result CassandraType :=
  omap TTuple (try_map (fun tb : ColTypeOption * CBytes => rec tb.1 tb.2) (tuple_data t)).

(** The fields are visited in the order of the hash map. *)
Definition udt_as_cassandra_type (rec : wrapper) (u : Udt) : Result CassandraType :=
  omap (fun kvs => TUdt (hm_collect kvs))
    (try_map (fun e : bytes * (ColTypeOption * CBytes) =>
                let? value := rec e.2.1 e.2.2 in Ok (e.1, value)) (hm_iter (udt_data u))).

(** ** [wrappers] *)

Definition wrap_custom : wrapper := fun t b =>
  match t with
  | mkColTypeOption CtCustom (Some value) =>
    let? info := get_vector_type_info value in
    match CBytes_bytes b with
    | Some actual_bytes =>
      let? data := decode_float_vector actual_bytes (count info) in
      vector_as_cassandra_type (mkVector t data)
    | None => Ok TNull
    end
  | _ => Ok TNull
  end.
Definition wrap_map (rec : wrapper) : wrapper := fun t b =>
  match CBytes_bytes b with
  | Some actual_bytes =>
    let? decoded_map := decode_map actual_bytes in map_as_cassandra_type rec (mkMap t decoded_map)
  | None => Ok TNull
  end.
Definition wrap_set (rec : wrapper) : wrapper := fun t b =>
  match CBytes_bytes b with
  | Some actual_bytes =>
    let? decoded_set := decode_set actual_bytes in list_as_cassandra_type rec (mkList t decoded_set)
  | None => Ok TNull
  end.
Definition wrap_udt (rec : wrapper) : wrapper := fun t b =>
  match cto_value t with
  | Some (UdtType u) =>
    match CBytes_bytes b with
    | Some actual_bytes =>
      let? decoded_udt := decode_udt actual_bytes (length (descriptions u)) in
      udt_as_cassandra_type rec (Udt_new decoded_udt u)
    | None => Ok TNull
    end
  | _ => Ok TNull
  end.
Definition wrap_tuple (rec : wrapper) : wrapper := fun t b =>
  match cto_value t with
  | Some (TupleType u) =>
    match CBytes_bytes b with
    | Some actual_bytes =>
      let? decoded_tuple := decode_tuple actual_bytes (length (tuple_types u)) in
      tuple_as_cassandra_type rec (Tuple_new decoded_tuple u)
    | None => Ok TNull
    end
  | _ => Ok TNull
  end.
Definition wrap_list (rec : wrapper) : wrapper := fun t b =>
  let? list := as_rust_list t b in
  match list with Some l => list_as_cassandra_type rec l | None => Ok TNull end.
Definition wrap_blob : wrapper := fun t b => or_null TBlob (as_rust_blob t b).
Definition wrap_ascii : wrapper := fun t b => or_null TAscii (as_rust_string t b).
Definition wrap_int : wrapper := fun t b => or_null TInt (as_rust_i32 t b).
Definition wrap_bigint : wrapper := fun t b => or_null TBigint (as_rust_i64 t b).
Definition wrap_counter : wrapper := fun t b => or_null TCounter (as_rust_i64 t b).
Definition wrap_decimal : wrapper := fun t b => or_null TDecimal (as_rust_decimal t b).
Definition wrap_double : wrapper := fun t b => or_null TDouble (as_rust_f64 t b).
Definition wrap_timestamp : wrapper := fun t b => or_null TTimestamp (as_rust_i64 t b).
Definition wrap_uuid : wrapper := fun t b => or_null TUuid (as_rust_uuid t b).
Definition wrap_varchar : wrapper := fun t b => or_null TVarchar (as_rust_string t b).
Definition wrap_varint : wrapper := fun t b => or_null TVarint (as_rust_bigint t b).
Definition wrap_timeuuid : wrapper := fun t b => or_null TTimeuuid (as_rust_uuid t b).
Definition wrap_inet : wrapper := fun t b => or_null TInet (as_rust_ip t b).
Definition wrap_date : wrapper := fun t b => or_null TDate (as_rust_i32 t b).
Definition wrap_time : wrapper := fun t b => or_null TTime (as_rust_i64 t b).
Definition wrap_smallint : wrapper := fun t b => or_null TSmallint (as_rust_i16 t b).
Definition wrap_tinyint : wrapper := fun t b => or_null TTinyint (as_rust_i8 t b).
Definition wrap_bool : wrapper := fun t b => or_null TBoolean (as_rust_bool t b).
Definition wrap_duration : wrapper := fun t b => or_null TDuration (as_rust_duration t b).

Definition wrapper_fn (rec : wrapper) (col_type : ColType) : wrapper :=
  match col_type with
  | CtBlob => wrap_blob | CtAscii => wrap_ascii | CtInt => wrap_int | CtList => wrap_list rec
  | CtCustom => wrap_custom | CtBigint => wrap_bigint | CtBoolean => wrap_bool
  | CtCounter => wrap_counter | CtDecimal => wrap_decimal | CtDouble => wrap_double
  | CtFloat => wrap_float | CtTimestamp => wrap_timestamp | CtUuid => wrap_uuid
  | CtVarchar => wrap_varchar | CtVarint => wrap_varint | CtTimeuuid => wrap_timeuuid
  | CtInet => wrap_inet | CtDate => wrap_date | CtTime => wrap_time | CtSmallint => wrap_smallint
  | CtTinyint => wrap_tinyint | CtDuration => wrap_duration | CtMap => wrap_map rec
  | CtSet => wrap_set rec | CtUdt => wrap_udt rec | CtTuple => wrap_tuple rec
  end.

Definition convert_step (rec : wrapper) : wrapper := fun t b => wrapper_fn rec (cto_id t) t b.
Fixpoint convert_fuel (fuel : nat) : wrapper :=
  match fuel with
  | O => fun _ _ => Panic
  | S f => convert_step (convert_fuel f)
  end.
Definition convert : wrapper := fun t b => convert_fuel (S (col_depth t)) t b.
End Wrappers.

(** ** The recursion is well founded *)

Section Recursion.
Context `{UuidLib} `{BigIntLib} `{VarIntLib} `{FailedRead} `{!HashIter bytes}.

Lemma try_map_ext_in {A B} (f g : A -> Result B) l : (forall x, x ∈ l -> f x = g x) -> try_map f l = try_map g l.
Proof.
  induction l as [|x l IH]; intros Hfg; [done|]. simpl. rewrite Hfg by left.
  by rewrite IH by (intros; apply Hfg; by right).
Qed.

Lemma hm_collect_lookup_elem {K V} `{Countable K} (l : list (K * V)) k v :
  hm_collect l !! k = Some v -> (k, v) ∈ l.
Proof.
  unfold hm_collect. assert (Hg : forall acc : gmap K V, foldl (fun m kv => <[kv.1:=kv.2]> m) acc l !! k = Some v ->
    (k, v) ∈ l \/ acc !! k = Some v).
  { induction l as [|[k' v'] l IH]; intros acc Hl; simpl in Hl; [by right|].
    destruct (IH _ Hl) as [?|Ha]; [left; by right|].
    apply lookup_insert_Some in Ha as [[<- <-]|[_ ?]]; [left; by left|by right]. }
  intros Hl. by destruct (Hg ∅ Hl) as [?|?%lookup_empty_Some].
Qed.

(** The fields of a user type's value have the types of its description. *)
Lemma Udt_new_types fields u k t c : udt_data (Udt_new fields u) !! k = Some (t, c) -> (k, t) ∈ descriptions u.
Proof.
  intros Hl%hm_collect_lookup_elem. apply list_elem_of_fmap in Hl as ([[k' t'] c'] & E & Hin).
  simplify_eq/=. by apply elem_of_zip_l in Hin.
Qed.

Lemma Tuple_new_types elements u t c : (t, c) ∈ tuple_data (Tuple_new elements u) -> t ∈ tuple_types u.
Proof. intros Hin. by apply elem_of_zip_l in Hin. Qed.

Lemma col_depth_udt id ks n ds k t : (k, t) ∈ ds ->
  (col_depth t < col_depth (mkColTypeOption id (Some (UdtType (mkCUdt ks n ds)))))%nat.
Proof.
  cbn [col_depth]. intros Hin. induction ds as [|[k' t'] ds IH]; [by apply elem_of_nil in Hin|].
  apply elem_of_cons in Hin as [E|Hin]; simplify_eq/=; [lia|]. specialize (IH Hin). lia.
Qed.
Lemma col_depth_tuple id ts t : t ∈ ts ->
  (col_depth t < col_depth (mkColTypeOption id (Some (TupleType (mkCTuple ts)))))%nat.
Proof.
  cbn [col_depth]. intros Hin. induction ts as [|t' ts IH]; [by apply elem_of_nil in Hin|].
  apply elem_of_cons in Hin as [->|Hin]; simpl; [lia|]. specialize (IH Hin). lia.
Qed.

(** A wrapper calls the one it is given on the item types only. *)
Lemma convert_step_ext rec1 rec2 t b :
  (forall t' b', (col_depth t' < col_depth t)%nat -> rec1 t' b' = rec2 t' b') ->
  convert_step rec1 t b = convert_step rec2 t b.
Proof.
  intros Hrec. destruct t as [id value]. unfold convert_step.
  assert (Hl : forall l, list_metadata l = mkColTypeOption id value ->
    list_as_cassandra_type rec1 l = list_as_cassandra_type rec2 l).
  { intros l Hl. unfold list_as_cassandra_type. rewrite Hl. cbn [cto_value].
    destruct value as [[]|]; try done; f_equal; apply try_map_ext_in; intros x _; apply Hrec; simpl; lia. }
  destruct id; cbn [wrapper_fn cto_id]; try done.
  - unfold wrap_list, as_rust_list. cbn [cto_id]. destruct (CBytes_bytes b); [|done].
    destruct (decode_list _); try done. cbn [omap obind]. by apply Hl.
  - unfold wrap_map. destruct (CBytes_bytes b); [|done]. destruct (decode_map _); try done. cbn [obind].
    unfold map_as_cassandra_type. cbn [cto_value map_metadata map_data]. destruct value as [[]|]; try done.
    f_equal. apply try_map_ext_in. intros x _.
    rewrite (Hrec v1) by (simpl; lia). destruct (rec2 v1 x.1); [|done..]. simpl.
    by rewrite (Hrec v2) by (simpl; lia).
  - unfold wrap_set. destruct (CBytes_bytes b); [|done]. destruct (decode_set _); try done. by apply Hl.
  - unfold wrap_udt. cbn [cto_value]. destruct value as [[]|]; try done. destruct (CBytes_bytes b); [|done].
    destruct (decode_udt _); try done. cbn [obind]. unfold udt_as_cassandra_type. f_equal.
    apply try_map_ext_in. intros [k [t c']] Hin. simpl. rewrite Hrec; [done|].
    rewrite hm_iter_perm in Hin. apply elem_of_map_to_list, Udt_new_types in Hin.
    destruct c as [ks n ds]. by eapply col_depth_udt.
  - unfold wrap_tuple. cbn [cto_value]. destruct value as [[]|]; try done. destruct (CBytes_bytes b); [|done].
    destruct (decode_tuple _); try done. cbn [obind]. unfold tuple_as_cassandra_type. f_equal.
    apply try_map_ext_in. intros [t c'] Hin%Tuple_new_types. simpl. apply Hrec.
    destruct c as [ts]. by eapply col_depth_tuple.
Qed.

Lemma convert_fuel_enough n m t b : (col_depth t < n)%nat -> (col_depth t < m)%nat ->
  convert_fuel n t b = convert_fuel m t b.
Proof.
  revert m t b. induction n as [|n IH]; intros m t b Hn Hm; [lia|]. destruct m as [|m]; [lia|].
  cbn [convert_fuel]. apply convert_step_ext. intros t' b' Ht. apply IH; lia.
Qed.

(** [convert] is the recursion of the source. *)
Lemma convert_unfold t b : convert t b = convert_step convert t b.
Proof.
  unfold convert at 1. cbn [convert_fuel]. apply convert_step_ext. intros t' b' Ht.
  apply convert_fuel_enough; lia.
Qed.
End Recursion.

Create HintDb cdrs_types.

(** ** Types of converted values *)

Section Typing.
Context `{UuidLib} `{BigIntLib} `{VarIntLib} `{FailedRead} `{!HashIter bytes}.

(** The values a column of a type is converted to.  Any value may be null,
    at every level; the items of a set arrive as a [List]. *)
Inductive has_type : ColTypeOption -> CassandraType -> Prop :=
| ty_null t : has_type t TNull
| ty_ascii o s : wf_string s -> has_type (mkColTypeOption CtAscii o) (TAscii s)
| ty_varchar o s : wf_string s -> has_type (mkColTypeOption CtVarchar o) (TVarchar s)
| ty_blob o b : has_type (mkColTypeOption CtBlob o) (TBlob b)
| ty_boolean o v : has_type (mkColTypeOption CtBoolean o) (TBoolean v)
| ty_bigint o v : in_i 64 v -> has_type (mkColTypeOption CtBigint o) (TBigint v)
| ty_counter o v : in_i 64 v -> has_type (mkColTypeOption CtCounter o) (TCounter v)
| ty_timestamp o v : in_i 64 v -> has_type (mkColTypeOption CtTimestamp o) (TTimestamp v)
| ty_time o v : in_i 64 v -> has_type (mkColTypeOption CtTime o) (TTime v)
| ty_int o v : in_i 32 v -> has_type (mkColTypeOption CtInt o) (TInt v)
| ty_date o v : in_i 32 v -> has_type (mkColTypeOption CtDate o) (TDate v)
| ty_smallint o v : in_i 16 v -> has_type (mkColTypeOption CtSmallint o) (TSmallint v)
| ty_tinyint o v : in_i 8 v -> has_type (mkColTypeOption CtTinyint o) (TTinyint v)
| ty_double o v : in_u 64 v -> has_type (mkColTypeOption CtDouble o) (TDouble v)
| ty_float o v : in_u 32 v -> has_type (mkColTypeOption CtFloat o) (TFloat v)
| ty_decimal o d : in_i 32 (scale d) -> has_type (mkColTypeOption CtDecimal o) (TDecimal d)
| ty_varint o v : has_type (mkColTypeOption CtVarint o) (TVarint v)
| ty_uuid o u : has_type (mkColTypeOption CtUuid o) (TUuid u)
| ty_timeuuid o u : has_type (mkColTypeOption CtTimeuuid o) (TTimeuuid u)
| ty_inet o i : wf_ip i -> has_type (mkColTypeOption CtInet o) (TInet i)
| ty_duration o d : wf_duration d -> has_type (mkColTypeOption CtDuration o) (TDuration d)
| ty_list id c elem l : id = CtList \/ id = CtSet -> c = CList elem \/ c = CSet elem ->
    Forall (has_type elem) l -> has_type (mkColTypeOption id (Some c)) (TList l)
| ty_map tk tv l : Forall (fun p => has_type tk p.1 /\ has_type tv p.2) l ->
    has_type (mkColTypeOption CtMap (Some (CMap tk tv))) (TMap l)
| ty_tuple ts l : Forall2 has_type ts l ->
    has_type (mkColTypeOption CtTuple (Some (TupleType (mkCTuple ts)))) (TTuple l)
| ty_udt ks n ds m :
    (forall k v, m !! k = Some v -> exists t, (k, t) ∈ ds /\ has_type t v) ->
    (forall k, k ∈ ds.*1 -> is_Some (m !! k)) ->
    has_type (mkColTypeOption CtUdt (Some (UdtType (mkCUdt ks n ds)))) (TUdt m)
| ty_vector s info l : get_vector_type_info (CString s) = Ok info -> zlen l = count info ->
    Forall (has_type (mkColTypeOption CtFloat None)) l ->
    has_type (mkColTypeOption CtCustom (Some (CString s))) (TVector l).

Lemma or_null_inv {T} (c : T -> CassandraType) r v : or_null c r = Ok v ->
  v = TNull \/ exists x, r = Ok (Some x) /\ v = c x.
Proof. unfold or_null. destruct r as [[x|]| |]; simpl; intros E; simplify_eq; eauto. Qed.

Lemma as_res_opt_inv {T} c (d : bytes -> Result T) x : as_res_opt c d = Ok (Some x) -> exists b, d b = Ok x.
Proof. unfold as_res_opt. destruct (CBytes_bytes c) as [b|]; [|done]. destruct (d b) eqn:E; intros; simplify_eq/=; eauto. Qed.

Lemma convert_to_array_inv n b x : convert_to_array n b = Ok x -> x = b /\ length b = n.
Proof. unfold convert_to_array. case_bool_decide; intros; by simplify_eq. Qed.

Lemma i64_range b v : try_i64_from_bytes b = Ok v -> in_i 64 v.
Proof. unfold try_i64_from_bytes. destruct (convert_to_array 8 b); intros; simplify_eq/=. by apply swrap_range. Qed.
Lemma i32_range b v : try_i32_from_bytes b = Ok v -> in_i 32 v.
Proof. unfold try_i32_from_bytes. destruct (convert_to_array 4 b); intros; simplify_eq/=. by apply swrap_range. Qed.
Lemma i16_range b v : try_i16_from_bytes b = Ok v -> in_i 16 v.
Proof. unfold try_i16_from_bytes. destruct (convert_to_array 2 b); intros; simplify_eq/=. by apply swrap_range. Qed.
Lemma i8_range b v : decode_tinyint b = Ok v -> in_i 8 v.
Proof. unfold decode_tinyint. destruct b; intros; simplify_eq. by apply swrap_range. Qed.
Lemma f64_range b v : decode_double b = Ok v -> in_u 64 v.
Proof.
  unfold decode_double, try_f64_from_bytes. destruct (convert_to_array 8 b) eqn:E; intros; simplify_eq/=.
  apply convert_to_array_inv in E as [-> Hb]. pose proof (be_uint_range b). by rewrite Hb in *.
Qed.
Lemma f32_range b v : decode_float b = Ok v -> in_u 32 v.
Proof.
  unfold decode_float, try_f32_from_bytes. destruct (convert_to_array 4 b) eqn:E; intros; simplify_eq/=.
  apply convert_to_array_inv in E as [-> Hb]. pose proof (be_uint_range b). by rewrite Hb in *.
Qed.
Lemma decode_inet_wf b i : decode_inet b = Ok i -> wf_ip i.
Proof. unfold decode_inet. repeat case_bool_decide; intros; by simplify_eq. Qed.
Lemma decode_decimal_scale b d : decode_decimal b = Ok d -> in_i 32 (scale d).
Proof.
  unfold decode_decimal. case_match; [done|]. destruct (try_i32_from_bytes _) eqn:E; [|done..].
  simpl. intros. simplify_eq/=. by eapply i32_range.
Qed.
Lemma decode_duration_wf b d : decode_duration b = Ok d -> wf_duration d.
Proof.
  unfold decode_duration. destruct (decode_var 32 b) as [[m k]|] eqn:E1; [|done]. cbn [or_invalid obind fst snd].
  destruct (slice_from k b) as [b1| |]; [|done..]. cbn [obind].
  destruct (decode_var 32 b1) as [[dd j]|] eqn:E2; [|done]. cbn [or_invalid obind fst snd].
  destruct (slice_from _ b) as [b2| |]; [|done..]. cbn [obind].
  destruct (decode_var 64 b2) as [[n l]|] eqn:E3; [|done]. cbn [or_invalid obind fst snd].
  destruct (Duration_new m dd n) as [r| |] eqn:E4; [|done..]. apply Duration_new_ok in E4 as [Hs ->].
  intros. simplify_eq/=. apply decode_var_bound in E1 as [_ ?], E2 as [_ ?], E3 as [_ ?]; auto. by split_and!.
Qed.
Lemma lossy_wf b s : Ok (E := Error) (from_utf8_lossy b) = Ok s -> wf_string s.
Proof. intros. simplify_eq. apply from_utf8_lossy_valid. Qed.
End Typing.
#[export] Hint Resolve i64_range i32_range i16_range i8_range f64_range f32_range decode_inet_wf
  decode_decimal_scale decode_duration_wf lossy_wf : cdrs_types.

Section Typed.
Context `{UuidLib} `{BigIntLib} `{VarIntLib} `{FailedRead} `{!HashIter bytes}.

Ltac typed_scalar :=
  intros [-> |(x & Hx & ->)]%or_null_inv; [constructor|];
  apply as_res_opt_inv in Hx as [b' Hb]; constructor; eauto with cdrs_types.

Lemma try_map_Forall2 {A B} (f : A -> Result B) l l' : try_map f l = Ok l' -> Forall2 (fun a b => f a = Ok b) l l'.
Proof.
  revert l'. induction l as [|a l IH]; simpl; intros l' E; [by simplify_eq|].
  destruct (f a) eqn:Ea; [|done..]. simpl in E. destruct (try_map f l) eqn:El; [|done..].
  simplify_eq/=. constructor; auto.
Qed.

Lemma Forall2_Forall_r {A B} (R : A -> B -> Prop) (P : B -> Prop) l l' :
  Forall2 R l l' -> (forall a b, a ∈ l -> R a b -> P b) -> Forall P l'.
Proof.
  induction 1 as [|a b l l' Hab _ IH]; intros Hp; constructor; [apply (Hp a); [by left|done]|].
  apply IH. intros a' b' Ha'. apply Hp. by right.
Qed.

Lemma float_typed t c v : wrap_float (mkColTypeOption CtFloat t) c = Ok v -> has_type (mkColTypeOption CtFloat t) v.
Proof. unfold wrap_float, as_rust_f32. cbn [cto_id]. typed_scalar. Qed.

Lemma list_typed rec id c l v : id = CtList \/ id = CtSet ->
  (forall t b w, (col_depth t < col_depth (mkColTypeOption id c))%nat -> rec t b = Ok w -> has_type t w) ->
  list_as_cassandra_type rec (mkList (mkColTypeOption id c) l) = Ok v -> has_type (mkColTypeOption id c) v.
Proof.
  intros Hid Hrec. unfold list_as_cassandra_type. cbn [list_metadata cto_value list_data].
  assert (Hgo : forall elem, c = Some (CList elem) \/ c = Some (CSet elem) ->
    omap TList (try_map (rec elem) l) = Ok v -> has_type (mkColTypeOption id c) v).
  { intros elem Hc E. destruct (try_map (rec elem) l) as [vs| |] eqn:Em; [|done..]. simplify_eq/=.
    apply try_map_Forall2 in Em.
    assert (Hvs : Forall (has_type elem) vs).
    { eapply Forall2_Forall_r; [exact Em|]. intros a w _ Hw. eapply Hrec; [|exact Hw].
      destruct Hc as [-> | ->]; simpl; lia. }
    destruct Hc as [-> | ->]; eapply ty_list; eauto. }
  destruct c as [[]|]; try done; apply Hgo; auto.
Qed.

Lemma map_typed rec c l v :
  (forall t b w, (col_depth t < col_depth (mkColTypeOption CtMap c))%nat -> rec t b = Ok w -> has_type t w) ->
  map_as_cassandra_type rec (mkMap (mkColTypeOption CtMap c) l) = Ok v -> has_type (mkColTypeOption CtMap c) v.
Proof.
  intros Hrec. unfold map_as_cassandra_type. cbn [map_metadata cto_value map_data].
  destruct c as [[| | | | | |tk tv]|]; try done.
  destruct (try_map _ l) as [vs| |] eqn:Em; [|done..]. intros E. simplify_eq/=.
  apply try_map_Forall2 in Em. apply ty_map. eapply Forall2_Forall_r; [exact Em|].
  intros [ck cv] [wk wv] _. simpl. destruct (rec tk ck) eqn:Ek; [|done..]. simpl.
  destruct (rec tv cv) eqn:Ev; [|done..]. simpl. intros E. simplify_eq.
  split; eapply Hrec; eauto; simpl; lia.
Qed.

Lemma tuple_typed rec ts cs v : length cs = length ts ->
  (forall t b w, t ∈ ts -> rec t b = Ok w -> has_type t w) ->
  tuple_as_cassandra_type rec (Tuple_new cs (mkCTuple ts)) = Ok v ->
  has_type (mkColTypeOption CtTuple (Some (TupleType (mkCTuple ts)))) v.
Proof.
  intros Hlen Hrec. unfold tuple_as_cassandra_type, Tuple_new. cbn [tuple_data tuple_types].
  destruct (try_map _ _) as [vs| |] eqn:Em; [|done..]. intros E. simplify_eq/=.
  apply ty_tuple. apply try_map_Forall2 in Em. revert cs vs Hlen Em Hrec.
  induction ts as [|t ts IH]; intros [|c cs] vs Hlen Em Hrec; try done; simpl in Em.
  - inversion Em. constructor.
  - inversion Em as [|? w ? vs' Hw Hrest]; subst. simpl in Hw. constructor.
    + eapply Hrec; [by left|done].
    + apply (IH cs); [simpl in Hlen; lia|done|]. intros t' b' w' Ht'. apply Hrec. by right.
Qed.

Lemma hm_collect_keys {K V} `{Countable K} (l : list (K * V)) k : k ∈ l.*1 -> is_Some (hm_collect l !! k).
Proof.
  unfold hm_collect. assert (Hg : forall acc : gmap K V, k ∈ l.*1 \/ is_Some (acc !! k) ->
    is_Some (foldl (fun m kv => <[kv.1:=kv.2]> m) acc l !! k)).
  { induction l as [|[k' v'] l IH]; intros acc Hk; simpl; [by destruct Hk as [?%elem_of_nil|]|].
    apply IH. destruct Hk as [Hk|Hk].
    - simpl in Hk. apply elem_of_cons in Hk as [->|Hk]; [|by left]. right. by rewrite lookup_insert_eq.
    - right. destruct (decide (k = k')) as [->|]; [by rewrite lookup_insert_eq|by rewrite lookup_insert_ne]. }
  intros Hk. apply Hg. by left.
Qed.

Lemma udt_typed rec ks n ds cs v : length cs = length ds ->
  (forall k t b w, (k, t) ∈ ds -> rec t b = Ok w -> has_type t w) ->
  udt_as_cassandra_type rec (Udt_new cs (mkCUdt ks n ds)) = Ok v ->
  has_type (mkColTypeOption CtUdt (Some (UdtType (mkCUdt ks n ds)))) v.
Proof.
  intros Hlen Hrec. unfold udt_as_cassandra_type.
  destruct (try_map _ _) as [kvs| |] eqn:Em; [|done..]. cbn [omap]. intros E. simplify_eq.
  apply try_map_Forall2 in Em. apply ty_udt.
  - intros k w Hw%hm_collect_lookup_elem.
    apply list_elem_of_lookup in Hw as [i Hi]. eapply Forall2_lookup_r in Em as ([k' [t c]] & Hl & Hr); [|exact Hi].
    cbn [fst snd] in Hr. destruct (rec t c) eqn:Er; [|done..]. cbn [obind] in Hr. simplify_eq.
    apply list_elem_of_lookup_2 in Hl. rewrite hm_iter_perm in Hl.
    apply elem_of_map_to_list, Udt_new_types in Hl. exists t. split; [done|]. by eapply Hrec.
  - intros k Hk. apply hm_collect_keys.
    assert (Hk' : is_Some (udt_data (Udt_new cs (mkCUdt ks n ds)) !! k)).
    { apply hm_collect_keys. rewrite <- list_fmap_compose. cbn [descriptions].
      replace (_ <$> zip ds cs) with (ds.*1); [done|].
      rewrite <- (fst_zip ds cs) at 1 by lia. by rewrite <- list_fmap_compose. }
    destruct Hk' as [[t c] Hl]. apply elem_of_map_to_list in Hl. rewrite <- hm_iter_perm in Hl.
    apply list_elem_of_lookup in Hl as [i Hi].
    eapply Forall2_lookup_l in Em as ([k' w] & Hkw & Hr); [|exact Hi].
    cbn [fst snd] in Hr. destruct (rec t c); [|done..]. cbn [obind] in Hr. simplify_eq.
    apply list_elem_of_fmap. eexists. split; [|by eapply list_elem_of_lookup_2]. done.
Qed.

Lemma read_n_length {A} (r : R A) n i l j : read_n n r i = Ok (l, j) -> length l = n.
Proof.
  revert i l j. induction n as [|n IH]; intros i l j; cbn [read_n]; unfold rbind, rret; [intros; by simplify_eq|].
  destruct (r i) as [[x i']| |]; [|done..]. destruct (read_n n r i') as [[xs k]| |] eqn:E; [|done..].
  intros. simplify_eq/=. by rewrite (IH _ _ _ E).
Qed.

Lemma decode_tuple_length b l cs : decode_tuple b l = Ok cs -> length cs = l.
Proof.
  unfold decode_tuple, run_invalid. destruct (read_n l _ b) as [[x r]| |] eqn:E; intros; simplify_eq/=.
  by eapply read_n_length.
Qed.
Lemma decode_udt_length b l cs : decode_udt b l = Ok cs -> length cs = l.
Proof.
  unfold decode_udt, run_invalid. destruct (read_n l _ b) as [[x r]| |] eqn:E; intros; simplify_eq/=.
  by eapply read_n_length.
Qed.

Lemma float_slices_length n b cs : float_slices n b = Ok cs -> length cs = n.
Proof.
  revert b cs. induction n as [|n IH]; intros b cs; cbn [float_slices]; [intros; by simplify_eq|].
  case_match; [done|]. destruct (float_slices n _) eqn:E; intros; simplify_eq/=. by rewrite (IH _ _ E).
Qed.

Lemma parse_digits_range acc s n : 0 <= acc < 2 ^ 64 -> parse_digits acc s = Some n -> 0 <= n.
Proof.
  revert acc. induction s as [|b s IH]; intros acc Ha; cbn [parse_digits]; [intros; simplify_eq; lia|].
  unfold between. destruct (Z.leb_spec 0x30 (b2z b)); [|done]. destruct (b2z b <=? 0x39); [|done]. cbn [andb].
  destruct (Z.ltb_spec (acc * 10 + (b2z b - 48)) (2 ^ 64)); [|done]. apply IH. lia.
Qed.
Lemma parse_usize_range s n : parse_usize s = Some n -> 0 <= n.
Proof.
  unfold parse_usize. destruct s as [|b s]; [done|].
  destruct (b2z b =? _); [destruct s; [done|]|]; apply parse_digits_range; lia.
Qed.
Lemma vector_count_range o info : get_vector_type_info o = Ok info -> 0 <= count info.
Proof.
  unfold get_vector_type_info. destruct o; try done. destruct (split _ s !! 1%nat); [|done].
  destruct (parse_usize _) eqn:E; [|done]. intros. simplify_eq/=. by eapply parse_usize_range.
Qed.

Lemma custom_typed c b v : wrap_custom (mkColTypeOption CtCustom c) b = Ok v -> has_type (mkColTypeOption CtCustom c) v.
Proof.
  unfold wrap_custom. destruct c as [o|]; [|intros; simplify_eq; constructor].
  destruct (get_vector_type_info o) as [info| |] eqn:Ei; [|done..]. cbn [obind].
  destruct (CBytes_bytes b) as [ab|]; [|intros; simplify_eq; constructor].
  destruct (decode_float_vector ab (count info)) as [data| |] eqn:Ed; [|done..]. cbn [obind].
  unfold vector_as_cassandra_type. cbn [vector_metadata vector_data]. rewrite Ei. cbn [obind].
  case_bool_decide; [|done]. destruct (try_map _ data) as [vs| |] eqn:Em; [|done..]. cbn [omap]. intros. simplify_eq.
  destruct o as [s| | | | | |]; try done. apply try_map_Forall2 in Em. eapply ty_vector; [exact Ei| |].
  - unfold decode_float_vector in Ed. case_match; [done|]. apply float_slices_length in Ed.
    pose proof (vector_count_range _ _ Ei). unfold zlen. rewrite <- (Forall2_length _ _ _ Em). lia.
  - eapply Forall2_Forall_r; [exact Em|]. intros c w _. apply float_typed.
Qed.

End Typed.


(** ** Values read back *)

Section Encoding.
Context `{UuidLib} `{BigIntLib} `{VarIntLib} `{FailedRead} `{!HashIter bytes}.

(** [impl Into<Bytes> for Bytes] *)
Definition id_bytes (b : bytes) : bytes := b.

(** A component of a tuple or a field of a user type: its name (empty in a
    tuple), type, value and cell. *)
Record component : Type := mkComponent {
  c_name : bytes; c_type : ColTypeOption; c_value : CassandraType; c_cell : CBytes }.

(** The bytes of a value of a type: those the [Bytes] conversions write for
    scalars, lists and maps; the components' cells, one after the other, for
    tuples and user types, where the last fields may be missing. *)
Inductive encodes : ColTypeOption -> CassandraType -> bytes -> Prop :=
| en_ascii o s : wf_string s -> encodes (mkColTypeOption CtAscii o) (TAscii s) (Bytes_from_str s)
| en_varchar o s : wf_string s -> encodes (mkColTypeOption CtVarchar o) (TVarchar s) (Bytes_from_str s)
| en_blob o b : encodes (mkColTypeOption CtBlob o) (TBlob b) (Bytes_from_blob b)
| en_boolean o v : encodes (mkColTypeOption CtBoolean o) (TBoolean v) (Bytes_from_bool v)
| en_bigint o v : in_i 64 v -> encodes (mkColTypeOption CtBigint o) (TBigint v) (Bytes_from_i64 v)
| en_counter o v : in_i 64 v -> encodes (mkColTypeOption CtCounter o) (TCounter v) (Bytes_from_i64 v)
| en_timestamp o v : in_i 64 v -> encodes (mkColTypeOption CtTimestamp o) (TTimestamp v) (Bytes_from_i64 v)
| en_time o v : in_i 64 v -> encodes (mkColTypeOption CtTime o) (TTime v) (Bytes_from_i64 v)
| en_int o v : in_i 32 v -> encodes (mkColTypeOption CtInt o) (TInt v) (Bytes_from_i32 v)
| en_date o v : in_i 32 v -> encodes (mkColTypeOption CtDate o) (TDate v) (Bytes_from_i32 v)
| en_smallint o v : in_i 16 v -> encodes (mkColTypeOption CtSmallint o) (TSmallint v) (Bytes_from_i16 v)
| en_tinyint o v : in_i 8 v -> encodes (mkColTypeOption CtTinyint o) (TTinyint v) (Bytes_from_i8 v)
| en_double o v : in_u 64 v -> encodes (mkColTypeOption CtDouble o) (TDouble v) (Bytes_from_f64 v)
| en_float o v : in_u 32 v -> encodes (mkColTypeOption CtFloat o) (TFloat v) (Bytes_from_f32 v)
| en_decimal o d : in_i 32 (scale d) -> encodes (mkColTypeOption CtDecimal o) (TDecimal d) (Bytes_from_decimal d)
| en_varint o v : encodes (mkColTypeOption CtVarint o) (TVarint v) (Bytes_from_bigint v)
| en_uuid o u : encodes (mkColTypeOption CtUuid o) (TUuid u) (Bytes_from_uuid u)
| en_timeuuid o u : encodes (mkColTypeOption CtTimeuuid o) (TTimeuuid u) (Bytes_from_uuid u)
| en_inet o i : wf_ip i -> encodes (mkColTypeOption CtInet o) (TInet i) (Bytes_from_ip i)
| en_duration o d b : wf_duration d -> Bytes_from_duration d = Ok b ->
    encodes (mkColTypeOption CtDuration o) (TDuration d) b
| en_list id c elem vs bs : (id = CtList /\ c = CList elem) \/ (id = CtSet /\ c = CSet elem) ->
    Forall2 (encodes elem) vs bs -> zlen bs < 2 ^ 31 -> Forall (short_bytes id_bytes) bs ->
    encodes (mkColTypeOption id (Some c)) (TList vs) (Bytes_from_vec id_bytes bs)
| en_map tk tv vs bs :
    Forall2 (fun v b => encodes tk v.1 b.1 /\ encodes tv v.2 b.2) vs bs ->
    zlen bs < 2 ^ 31 -> Forall (fun b => short_bytes id_bytes b.1 /\ short_bytes id_bytes b.2) bs ->
    encodes (mkColTypeOption CtMap (Some (CMap tk tv))) (TMap vs) (Bytes_from_entries id_bytes id_bytes bs)
| en_tuple cs : Forall cell cs ->
    encodes (mkColTypeOption CtTuple (Some (TupleType (mkCTuple (map c_type cs)))))
      (TTuple (map c_value cs)) (concat (map (fun c => CBytes_serialize (c_cell c)) cs))
| en_udt ks n cs missing : Forall cell cs -> Forall (fun p => cto_id p.2 <> CtCustom) missing ->
    NoDup (map c_name cs ++ map fst missing) ->
    encodes (mkColTypeOption CtUdt (Some (UdtType (mkCUdt ks n (map (fun c => (c_name c, c_type c)) cs ++ missing)))))
      (TUdt (list_to_map (map (fun c => (c_name c, c_value c)) cs ++ map (fun p => (p.1, TNull)) missing)))
      (concat (map (fun c => CBytes_serialize (c_cell c)) cs))
| en_vector s info fs : get_vector_type_info (CString s) = Ok info ->
    internal_type info = lit "FloatType" -> count info = zlen fs -> zlen fs < 2 ^ 31 -> Forall (in_u 32) fs ->
    encodes (mkColTypeOption CtCustom (Some (CString s))) (TVector (map TFloat fs)) (concat (map Bytes_from_f32 fs))
with cell : component -> Prop :=
| cell_some n t v b : encodes t v b -> zlen b < 2 ^ 31 -> cell (mkComponent n t v (CBytes_new b))
| cell_null n t : cto_id t <> CtCustom -> cell (mkComponent n t TNull CBytes_new_null).

Lemma or_null_ok {T} (c : T -> CassandraType) (conv : conversion T) into ok wf t v `{!Converts conv into ok wf} :
  ok (cto_id t) -> wf v -> or_null c (conv t (CBytes_new (into v))) = Ok (c v).
Proof. intros Ht Hv. by rewrite (converts t v Ht Hv). Qed.

Lemma convert_null t : cto_id t <> CtCustom -> convert t CBytes_new_null = Ok TNull.
Proof.
  intros Ht. rewrite convert_unfold. unfold convert_step. destruct t as [id c]; cbn [cto_id] in *.
  destruct id; try done; cbn [wrapper_fn].
  - unfold wrap_udt. cbn [cto_value]. by destruct c as [[]|].
  - unfold wrap_tuple. cbn [cto_value]. by destruct c as [[]|].
Qed.

Lemma cell_ok c : (forall b, c_cell c = CBytes_new b -> encodes (c_type c) (c_value c) b ->
                   convert (c_type c) (CBytes_new b) = Ok (c_value c)) ->
  cell c -> convert (c_type c) (c_cell c) = Ok (c_value c) /\ wf_cbytes (c_cell c).
Proof.
  intros Hc Hcell. inversion Hcell; subst; cbn in *; [by split; [apply Hc|]|].
  split; [by apply convert_null|done].
Qed.

Lemma list_converts id c elem vs bs : (id = CtList /\ c = CList elem) \/ (id = CtSet /\ c = CSet elem) ->
  zlen bs < 2 ^ 31 -> Forall (short_bytes id_bytes) bs ->
  Forall2 (fun v b => convert elem (CBytes_new b) = Ok v) vs bs ->
  convert (mkColTypeOption id (Some c)) (CBytes_new (Bytes_from_vec id_bytes bs)) = Ok (TList vs).
Proof.
  intros Hc Hn Hs Hv. rewrite convert_unfold. unfold convert_step.
  assert (Hm : try_map (convert elem) (map (item_bytes id_bytes) bs) = Ok vs).
  { apply try_map_ok. clear -Hv. induction Hv; constructor; auto. }
  destruct Hc as [[-> ->]|[-> ->]]; cbn [cto_id wrapper_fn].
  - unfold wrap_list, as_rust_list. cbn [cto_id CBytes_bytes CBytes_new]. rewrite decode_list_vec by done.
    cbn [omap obind]. unfold list_as_cassandra_type. cbn [list_metadata cto_value list_data]. by rewrite Hm.
  - unfold wrap_set, decode_set. cbn [CBytes_bytes CBytes_new]. rewrite decode_list_vec by done.
    cbn [obind]. unfold list_as_cassandra_type. cbn [list_metadata cto_value list_data]. by rewrite Hm.
Qed.

Lemma map_converts tk tv vs bs :
  zlen bs < 2 ^ 31 -> Forall (fun b => short_bytes id_bytes b.1 /\ short_bytes id_bytes b.2) bs ->
  Forall2 (fun v b => convert tk (CBytes_new b.1) = Ok v.1 /\ convert tv (CBytes_new b.2) = Ok v.2) vs bs ->
  convert (mkColTypeOption CtMap (Some (CMap tk tv))) (CBytes_new (Bytes_from_entries id_bytes id_bytes bs)) = Ok (TMap vs).
Proof.
  intros Hn Hs Hv. rewrite convert_unfold. unfold convert_step. cbn [cto_id wrapper_fn].
  unfold wrap_map. cbn [CBytes_bytes CBytes_new]. rewrite decode_map_entries by done. cbn [obind].
  unfold map_as_cassandra_type. cbn [map_metadata cto_value map_data].
  rewrite (try_map_ok _ _ vs); [done|]. clear -Hv.
  induction Hv as [|[wk wv] [bk bv] vs bs [Hk Hv] _ IH]; constructor; [|done].
  cbn [fst snd] in *. unfold item_bytes, id_bytes. rewrite Hk. cbn [obind]. by rewrite Hv.
Qed.

Lemma zip_map {A B C} (f : A -> B) (g : A -> C) l : zip (map f l) (map g l) = map (fun x => (f x, g x)) l.
Proof. induction l; simpl; by f_equal. Qed.

Lemma tuple_converts cs :
  Forall (fun c => convert (c_type c) (c_cell c) = Ok (c_value c) /\ wf_cbytes (c_cell c)) cs ->
  convert (mkColTypeOption CtTuple (Some (TupleType (mkCTuple (map c_type cs)))))
    (CBytes_new (concat (map (fun c => CBytes_serialize (c_cell c)) cs))) = Ok (TTuple (map c_value cs)).
Proof.
  intros Hc. rewrite convert_unfold. unfold convert_step. cbn [cto_id wrapper_fn].
  unfold wrap_tuple. cbn [cto_value CBytes_bytes CBytes_new tuple_types]. rewrite length_map.
  rewrite <- (map_map c_cell CBytes_serialize), <- (length_map c_cell cs).
  rewrite decode_tuple_cells by (apply Forall_map; eapply Forall_impl; [exact Hc|]; by intros ? []). cbn [obind].
  unfold tuple_as_cassandra_type, Tuple_new. cbn [tuple_data tuple_types]. rewrite zip_map.
  rewrite (try_map_ok _ _ (map c_value cs)); [done|]. clear -Hc.
  induction Hc as [|c cs [Hc _] _ IH]; constructor; done.
Qed.

Definition field_of (c : component) : bytes * (ColTypeOption * CBytes) := (c_name c, (c_type c, c_cell c)).
Definition value_of (c : component) : bytes * CassandraType := (c_name c, c_value c).
Definition missing_field (p : bytes * ColTypeOption) : component := mkComponent p.1 p.2 TNull CBytes_new_null.

Lemma fields_convert cs : NoDup (map c_name cs) ->
  Forall (fun c => convert (c_type c) (c_cell c) = Ok (c_value c)) cs ->
  udt_as_cassandra_type convert (mkUdt (hm_collect (map field_of cs)))
    = Ok (TUdt (list_to_map (map value_of cs))).
Proof.
  intros Hnd Hc. unfold udt_as_cassandra_type. cbn [udt_data].
  assert (Hk : forall cs', cs' ≡ₚ cs -> NoDup (map field_of cs').*1 /\ NoDup (map value_of cs').*1).
  { intros cs' Hp. change (fst <$> map field_of cs') with (map fst (map field_of cs')).
    change (fst <$> map value_of cs') with (map fst (map value_of cs')). rewrite !map_map.
    split; (rewrite Hp; exact Hnd). }
  rewrite hm_collect_nodup by by apply Hk.
  assert (Hp : hm_iter (list_to_map (M := gmap bytes _) (map field_of cs)) ≡ₚ map field_of cs).
  { rewrite hm_iter_perm. apply map_to_list_to_map. by apply Hk. }
  apply Permutation_map_inv in Hp as (cs' & E & Hp). rewrite E. symmetry in Hp.
  rewrite (try_map_ok _ _ (map value_of cs')).
  - cbn [omap]. rewrite hm_collect_nodup by by apply Hk. do 2 f_equal.
    apply list_to_map_proper; [by apply Hk|by apply Permutation_map].
  - rewrite <- Hp in Hc. clear -Hc. induction Hc as [|c cs Hc _ IH]; constructor; [|done].
    unfold field_of, value_of. cbn [fst snd]. by rewrite Hc.
Qed.

Lemma udt_converts ks n cs missing :
  Forall (fun c => convert (c_type c) (c_cell c) = Ok (c_value c) /\ wf_cbytes (c_cell c)) cs ->
  Forall (fun p => cto_id p.2 <> CtCustom) missing -> NoDup (map c_name cs ++ map fst missing) ->
  convert (mkColTypeOption CtUdt (Some (UdtType (mkCUdt ks n (map (fun c => (c_name c, c_type c)) cs ++ missing)))))
    (CBytes_new (concat (map (fun c => CBytes_serialize (c_cell c)) cs)))
  = Ok (TUdt (list_to_map (map (fun c => (c_name c, c_value c)) cs ++ map (fun p => (p.1, TNull)) missing))).
Proof.
  intros Hc Hm Hnd. rewrite convert_unfold. unfold convert_step. cbn [cto_id wrapper_fn].
  unfold wrap_udt. cbn [cto_value CBytes_bytes CBytes_new descriptions].
  rewrite length_app, length_map, <- (length_map c_cell cs), <- (map_map c_cell CBytes_serialize).
  rewrite decode_udt_missing by (apply Forall_map; eapply Forall_impl; [exact Hc|]; by intros ? []).
  cbn [obind]. unfold Udt_new. cbn [descriptions].
  rewrite zip_with_app by by rewrite !length_map.
  replace (zip missing (replicate (length missing) CBytes_new_null))
    with (map (fun p => (p, CBytes_new_null)) missing) by (clear; induction missing; simpl; by f_equal).
  rewrite zip_map, map_app, !map_map.
  assert (Hcs : map c_name (cs ++ map missing_field missing) = map c_name cs ++ map fst missing)
    by by rewrite map_app, map_map.
  match goal with |- context [hm_collect ?l] =>
    change l with (map field_of cs ++ map (fun p => field_of (missing_field p)) missing) end.
  match goal with |- context [list_to_map ?l] =>
    change l with (map value_of cs ++ map (fun p => value_of (missing_field p)) missing) end.
  rewrite <- (map_map missing_field field_of missing), <- (map_map missing_field value_of missing).
  rewrite <- (map_app field_of), <- (map_app value_of). apply fields_convert; [by rewrite Hcs|].
  apply Forall_app. split; [eapply Forall_impl; [exact Hc|]; by intros ? []|].
  apply Forall_map. eapply Forall_impl; [exact Hm|]. intros p. apply convert_null.
Qed.

Lemma float_slices_app fs rest :
  float_slices (length fs) (concat (map Bytes_from_f32 fs) ++ rest) = Ok (map (item_bytes Bytes_from_f32) fs).
Proof.
  induction fs as [|f fs IH]; [done|]. cbn [length float_slices map concat]. rewrite <- app_assoc.
  assert (Hl : length (Bytes_from_f32 f) = 4%nat) by apply length_be_bytes.
  rewrite length_app, (proj2 (Nat.ltb_ge _ _)) by lia.
  by rewrite drop_app_exact, take_app_exact, IH by done.
Qed.

Lemma vector_converts s info fs : get_vector_type_info (CString s) = Ok info ->
  internal_type info = lit "FloatType" -> count info = zlen fs -> zlen fs < 2 ^ 31 -> Forall (in_u 32) fs ->
  convert (mkColTypeOption CtCustom (Some (CString s))) (CBytes_new (concat (map Bytes_from_f32 fs)))
    = Ok (TVector (map TFloat fs)).
Proof.
  intros Hi Ht Hn Hl Hf. pose proof (zlen_nonneg fs). rewrite convert_unfold. unfold convert_step.
  cbn [cto_id wrapper_fn]. unfold wrap_custom. rewrite Hi. cbn [obind CBytes_bytes CBytes_new].
  unfold decode_float_vector. rewrite Hn, (proj2 (Z.leb_gt _ _)) by lia.
  unfold zlen. rewrite Nat2Z.id, <- (app_nil_r (concat _)), float_slices_app. cbn [obind].
  unfold vector_as_cassandra_type. cbn [vector_metadata vector_data]. rewrite Hi. cbn [obind].
  rewrite bool_decide_true by done. rewrite (try_map_ok _ _ (map TFloat fs)); [done|].
  clear -Hf. induction Hf as [|f fs Hx _ IH]; constructor; [|done].
  unfold wrap_float, item_bytes. exact (or_null_ok TFloat as_rust_f32 _ _ _ (mkColTypeOption CtFloat None) f eq_refl Hx).
Qed.

Ltac scalar_converts :=
  rewrite convert_unfold; unfold convert_step; cbn [cto_id wrapper_fn];
  unfold wrap_blob, wrap_ascii, wrap_int, wrap_bigint, wrap_counter, wrap_decimal, wrap_double, wrap_float,
    wrap_timestamp, wrap_uuid, wrap_varchar, wrap_varint, wrap_timeuuid, wrap_inet, wrap_date,
    wrap_time, wrap_smallint, wrap_tinyint, wrap_bool;
  eapply or_null_ok; [apply _|by cbn; auto|done].

End Encoding.


(** A set column is converted to [CassandraType::List], never to the
    [Set] the enum has for it. *)
Theorem sets_arrive_as_lists `{UuidLib} `{BigIntLib} `{VarIntLib} `{FailedRead} `{!HashIter bytes}
    (elem : ColTypeOption) (b : CBytes) (l : list CassandraType) :
  convert (mkColTypeOption CtSet (Some (CSet elem))) b <> Ok (TSet l).
Proof.
  rewrite convert_unfold. unfold convert_step. cbn [cto_id wrapper_fn]. unfold wrap_set.
  destruct (CBytes_bytes b); [|done]. destruct (decode_set _); [|done..]. cbn [obind].
  unfold list_as_cassandra_type. cbn [list_metadata cto_value list_data]. by destruct (try_map _ _).
Qed.
