(* ===== verification/Statements.v ===== *)
(** * Statements and routing keys

    [cdrs-tokio/src/statement]: the parameters a statement is executed with
    and their builder; of [cluster/session.rs] the flags of a request and the
    serialization of the partition key a request is routed by;
    [cassandra-protocol/src/query/prepared_query.rs].  Policies are opaque:
    [SP] and [RP] are the types of the speculative execution and of the retry
    policies. *)

From S2P Require Import Prelude Types Wire Compression Envelope Query Requests Results Token.
Local Open Scope Z_scope.
Local Open Scope cdrs_scope.

(** ** [StatementParams], [StatementParamsBuilder] *)

Record StatementParams {SP RP : Type} : Type := mkStatementParams {
  sp_query_params : QueryParams;
  sp_is_idempotent : bool;
  sp_keyspace : option bytes;
  sp_token : option Murmur3Token;
  sp_routing_key : option (list Value);
  sp_tracing : bool;
  sp_warnings : bool;
  sp_speculative_execution_policy : option SP;
  sp_retry_policy : option RP;
  sp_beta_protocol : bool }.
Arguments StatementParams : clear implicits.
Arguments mkStatementParams {SP RP} _ _ _ _ _ _ _ _ _ _.

Record StatementParamsBuilder {SP RP : Type} : Type := mkSPB {
  sb_consistency : Consistency; sb_flags : option Z; sb_values : option QueryValues; sb_with_names : bool;
  sb_page_size : option Z; sb_paging_state : option CBytes; sb_serial_consistency : option Consistency;
  sb_timestamp : option Z; sb_is_idempotent : bool; sb_keyspace : option bytes; sb_now_in_seconds : option Z;
  sb_token : option Murmur3Token; sb_routing_key : option (list Value); sb_tracing : bool; sb_warnings : bool;
  sb_speculative_execution_policy : option SP; sb_retry_policy : option RP; sb_beta_protocol : bool }.
Arguments StatementParamsBuilder : clear implicits.
Arguments mkSPB {SP RP} _ _ _ _ _ _ _ _ _ _ _ _ _ _ _ _ _ _.

Section Builder.
Context {SP RP : Type}.

Definition StatementParamsBuilder_new : StatementParamsBuilder SP RP :=
  mkSPB One None None false None None None None false None None None None false false None None false.

(** The [with_*] methods and [idempotent]. *)
Inductive sp_setter : Type :=
| WithConsistency (c : Consistency) | WithFlags (f : Z) | WithValues (q : QueryValues) | WithNames (b : bool)
| WithPageSize (n : Z) | WithPagingState (s : CBytes) | WithSerialConsistency (c : Consistency)
| WithTimestamp (t : Z) | WithKeyspace (k : bytes) | WithToken (t : Murmur3Token)
| WithRoutingKey (k : list Value) | Idempotent (b : bool) | WithSpeculativeExecutionPolicy (p : SP)
| WithRetryPolicy (p : RP) | WithBetaProtocol (b : bool) | WithNowInSeconds (n : Z).

Definition values_flags (q : QueryValues) : Z :=
  if has_names q then QueryFlags.insert QueryFlags.VALUE QueryFlags.WITH_NAMES_FOR_VALUES else QueryFlags.VALUE.

(** Each method sets its field; some also set the flags, unless they are set already. *)
Definition sp_with (s : sp_setter) (b : StatementParamsBuilder SP RP) : StatementParamsBuilder SP RP :=
  mkSPB
    (match s with WithConsistency c => c | _ => sb_consistency b end)
    (match s with
     | WithFlags f => Some f
     | WithValues q => opt_or (sb_flags b) (values_flags q)
     | WithPageSize _ => opt_or (sb_flags b) QueryFlags.PAGE_SIZE
     | WithPagingState _ => opt_or (sb_flags b) QueryFlags.WITH_PAGING_STATE
     | _ => sb_flags b
     end)
    (match s with WithValues q => Some q | _ => sb_values b end)
    (match s with WithValues q => has_names q | WithNames n => n | _ => sb_with_names b end)
    (match s with WithPageSize n => Some n | _ => sb_page_size b end)
    (match s with WithPagingState p => Some p | _ => sb_paging_state b end)
    (match s with WithSerialConsistency c => Some c | _ => sb_serial_consistency b end)
    (match s with WithTimestamp t => Some t | _ => sb_timestamp b end)
    (match s with Idempotent i => i | _ => sb_is_idempotent b end)
    (match s with WithKeyspace k => Some k | _ => sb_keyspace b end)
    (match s with WithNowInSeconds n => Some n | _ => sb_now_in_seconds b end)
    (match s with WithToken t => Some t | _ => sb_token b end)
    (match s with WithRoutingKey k => Some k | _ => sb_routing_key b end)
    (sb_tracing b) (sb_warnings b)
    (match s with WithSpeculativeExecutionPolicy p => Some p | _ => sb_speculative_execution_policy b end)
    (match s with WithRetryPolicy p => Some p | _ => sb_retry_policy b end)
    (match s with WithBetaProtocol p => p | _ => sb_beta_protocol b end).

(** The flags are not used: [QueryParams] computes them from the fields. *)
Definition sp_build (b : StatementParamsBuilder SP RP) : StatementParams SP RP :=
  mkStatementParams
    (mkQueryParams (sb_consistency b) (sb_with_names b) (sb_values b) (sb_page_size b) (sb_paging_state b)
       (sb_serial_consistency b) (sb_timestamp b) (sb_keyspace b) (sb_now_in_seconds b))
    (sb_is_idempotent b) (sb_keyspace b) (sb_token b) (sb_routing_key b) (sb_tracing b) (sb_warnings b)
    (sb_speculative_execution_policy b) (sb_retry_policy b) (sb_beta_protocol b).

(** [DEFAULT_STATEMENT_PARAMETERS] *)
Definition StatementParams_default : StatementParams SP RP :=
  mkStatementParams QueryParams_default false None None None false false None None false.
End Builder.
Arguments sp_setter : clear implicits.

(** ** Requests *)

Definition prepare_flags (with_tracing with_warnings beta_protocol : bool) : Z :=
  let flags := 0 in
  let flags := if with_tracing then Flags.union flags Flags.TRACING else flags in
  let flags := if with_warnings then Flags.union flags Flags.WARNING else flags in
  if beta_protocol then Flags.union flags Flags.BETA else flags.

(** Snappy was dropped in protocol 5. *)
Definition verify_compression_configuration (v : Version) (c : Compression) : bool :=
  negb (ge_v5 v) || negb (bool_decide (c = Snappy)).

Record PreparedQuery : Type := mkPreparedQuery {
  pq_id : CBytesShort; pq_query : bytes; pq_keyspace : option bytes; pq_pk_indexes : list Z;
  pq_result_metadata_id : option CBytesShort }.

(** [PartialEq]: the statement and its result metadata. *)
Definition PreparedQuery_eq (a b : PreparedQuery) : bool :=
  bool_decide (pq_id a = pq_id b) && bool_decide (pq_result_metadata_id a = pq_result_metadata_id b).

(** ** Routing keys *)

(** [Write for Cursor<&mut Vec<u8>>] at a position within the buffer. *)
Definition cursor_write (pos : nat) (data buf : bytes) : bytes :=
  take pos buf ++ data ++ drop (pos + length data) buf.

(** The size is written as zero, then again over it once the value is there. *)
Definition serialize_routing_value (buf : bytes) (value : bytes) : bytes :=
  let pos := length buf in
  let buf := cursor_write pos (i16_serialize 0) buf in
  let before_value_pos := (pos + SHORT_LEN)%nat in
  let buf := cursor_write before_value_pos value buf in
  let after_value_pos := (before_value_pos + length value)%nat in
  let value_size := as_i16 (Z.of_nat (after_value_pos - before_value_pos)) in
  let buf := cursor_write (before_value_pos - SHORT_LEN) (i16_serialize value_size) buf in
  cursor_write after_value_pos [u8 0] buf.

(** [values.get(index as usize)]: a negative index is far out of range. *)
Definition get_value (values : list Value) (index : Z) : option Value :=
  if as_usize index <? zlen values then values !! Z.to_nat (as_usize index) else None.

(** [fold_options]: the fold stops at the first index without a value. *)
Fixpoint fold_values (values : list Value) (pk_indexes : list Z) (buf : bytes) : option bytes :=
  match pk_indexes with
  | [] => Some buf
  | index :: rest =>
    match get_value values index with
    | None => None
    | Some value =>
      fold_values values rest (match value with VSome v => serialize_routing_value buf v | _ => buf end)
    end
  end.

Definition serialize_routing_key_with_indexes (values : list Value) (pk_indexes : list Z) : option bytes :=
  match pk_indexes with
  | [] => None
  | [index] => match get_value values index with Some (VSome v) => Some v | _ => None end
  | _ => fold_values values pk_indexes []
  end.

Definition serialize_routing_key (values : list Value) : bytes :=
  match values with
  | [] => []
  | [value] => match value with VSome v => v | _ => [] end
  | _ => foldl (fun buf value => match value with VSome v => serialize_routing_value buf v | _ => buf end) [] values
  end.

(** ** The two builders agree *)

(** The [QueryParamsBuilder] method with the same name, if there is one. *)
Definition to_qp {SP RP} (s : sp_setter SP RP) : list qp_setter :=
  match s with
  | WithConsistency c => [SetConsistency c] | WithFlags f => [SetFlags f] | WithValues q => [SetValues q]
  | WithNames b => [SetNames b] | WithPageSize n => [SetPageSize n] | WithPagingState s => [SetPagingState s]
  | WithSerialConsistency c => [SetSerialConsistency c] | WithTimestamp t => [SetTimestamp t]
  | WithKeyspace k => [SetKeyspace k] | WithNowInSeconds n => [SetNowInSeconds n]
  | _ => []
  end.

(** The protocol-level part of the builder's state. *)
Definition builder_params {SP RP} (b : StatementParamsBuilder SP RP) : QueryParamsBuilder :=
  mkQPB (sb_flags b) (sp_query_params (sp_build b)).

Lemma sp_with_params {SP RP} (s : sp_setter SP RP) b :
  builder_params (sp_with s b) = foldl (fun b s => qp_with s b) (builder_params b) (to_qp s).
Proof. by destruct s. Qed.

(** Building a statement's parameters and building query parameters with
    the methods of the same names give the same protocol-level parameters,
    whatever methods are called and in whatever order; the statement's
    keyspace is the protocol-level one. *)
Theorem statement_builder_agrees {SP RP} (ss : list (sp_setter SP RP)) :
  let params := sp_build (foldl (fun b s => sp_with s b) StatementParamsBuilder_new ss) in
  sp_query_params params = qp_build (foldl (fun b s => qp_with s b) QueryParamsBuilder_new (flat_map to_qp ss)) /\
  sp_keyspace params = qp_keyspace (sp_query_params params).
Proof.
  intros params. split; [|done]. unfold params. clear params.
  assert (Hg : forall b, builder_params (foldl (fun b s => sp_with s b) b ss)
                 = foldl (fun b s => qp_with s b) (builder_params b) (flat_map to_qp ss)).
  { induction ss as [|s ss IH]; intros b; [done|]. cbn [foldl flat_map]. rewrite IH, foldl_app. by rewrite sp_with_params. }
  exact (f_equal qp_build (Hg StatementParamsBuilder_new)).
Qed.

(** ** Routing keys are partition keys *)

(** Cassandra's composite: for every component its size in two bytes, its
    bytes and a zero; a partition key of one column is its bytes alone. *)
Definition composite (component : bytes) : bytes := i16_serialize (zlen component) ++ component ++ [u8 0].
Definition partition_key (components : list bytes) : bytes :=
  match components with [c] => c | _ => concat (map composite components) end.

Lemma cursor_write_end data buf : cursor_write (length buf) data buf = buf ++ data.
Proof. unfold cursor_write. by rewrite take_ge, drop_ge, app_nil_r by lia. Qed.

Lemma cursor_write_over a old new rest :
  length old = length new -> cursor_write (length a) new (a ++ old ++ rest) = a ++ new ++ rest.
Proof.
  intros Hl. unfold cursor_write. rewrite take_app_length. f_equal. f_equal.
  rewrite <- drop_drop, drop_app_length, <- Hl. by rewrite drop_app_length.
Qed.

Lemma i16_serialize_wrap z : i16_serialize (as_i16 z) = i16_serialize z.
Proof.
  unfold i16_serialize, as_i16. rewrite <- (be_bytes_mod 2 (swrap 16 z)), <- (be_bytes_mod 2 z). f_equal.
  change (2 ^ (8 * Z.of_nat 2)) with (2 ^ 16). unfold swrap.
  rewrite Zminus_mod_idemp_l. f_equal. lia.
Qed.

Lemma serialize_routing_value_ok buf v : serialize_routing_value buf v = buf ++ composite v.
Proof.
  unfold serialize_routing_value, SHORT_LEN, composite.
  assert (H2 : forall z, length (i16_serialize z) = 2%nat) by (intros; apply length_be_bytes).
  rewrite cursor_write_end. set (b1 := buf ++ i16_serialize 0).
  assert (Hb1 : (length buf + 2)%nat = length b1) by (unfold b1; rewrite length_app, H2; lia).
  rewrite Hb1, cursor_write_end. replace (length b1 - 2)%nat with (length buf) by lia.
  assert (Ho : forall n, cursor_write (length buf) (i16_serialize n) (b1 ++ v) = buf ++ i16_serialize n ++ v).
  { intros n. unfold b1. rewrite <- app_assoc. apply cursor_write_over. by rewrite !H2. }
  rewrite Ho.
  replace (length b1 + length v - length b1)%nat with (length v) by lia.
  change (Z.of_nat (length v)) with (zlen v). rewrite i16_serialize_wrap.
  replace (length b1 + length v)%nat with (length (buf ++ i16_serialize (zlen v) ++ v))
    by (rewrite !length_app, H2; lia).
  rewrite cursor_write_end. by rewrite <- !app_assoc.
Qed.

Lemma fold_values_ok values idx cs buf :
  Forall2 (fun i c => get_value values i = Some (VSome c)) idx cs ->
  fold_values values idx buf = Some (buf ++ concat (map composite cs)).
Proof.
  intros Hv. revert buf. induction Hv as [|i c idx cs Hi _ IH]; intros buf;
    cbn [fold_values map concat]; [by rewrite app_nil_r|].
  by rewrite Hi, IH, serialize_routing_value_ok, app_assoc.
Qed.

Lemma fold_routing_values cs buf :
  foldl (fun buf value => match value with VSome v => serialize_routing_value buf v | _ => buf end) buf (map VSome cs)
    = buf ++ concat (map composite cs).
Proof.
  revert buf. induction cs as [|c cs IH]; intros buf; cbn [foldl map concat]; [by rewrite app_nil_r|].
  by rewrite IH, serialize_routing_value_ok, app_assoc.
Qed.

Lemma serialize_routing_key_ok cs : serialize_routing_key (map VSome cs) = partition_key cs.
Proof.
  unfold serialize_routing_key, partition_key. destruct cs as [|c1 [|c2 cs]]; [done..|].
  exact (fold_routing_values (c1 :: c2 :: cs) []).
Qed.

Lemma composite_inj c c' r r' : zlen c < 2 ^ 16 -> zlen c' < 2 ^ 16 ->
  composite c ++ r = composite c' ++ r' -> c = c' /\ r = r'.
Proof.
  intros Hc Hc' E. unfold composite in E. rewrite <- !app_assoc in E.
  apply app_inj_1 in E as [El E]; [|unfold i16_serialize; by rewrite !length_be_bytes].
  assert (Hl : zlen c = zlen c').
  { apply (f_equal be_uint) in El. unfold i16_serialize in El. rewrite !be_uint_be_bytes in El.
    pose proof (zlen_nonneg c). pose proof (zlen_nonneg c').
    change (2 ^ (8 * Z.of_nat 2)) with (2 ^ 16) in El. rewrite !Z.mod_small in El by lia. done. }
  apply app_inj_1 in E as [-> E]; [|unfold zlen in Hl; lia]. by simplify_list_eq.
Qed.

Lemma composites_inj cs cs' : Forall (fun c => zlen c < 2 ^ 16) cs -> Forall (fun c => zlen c < 2 ^ 16) cs' ->
  concat (map composite cs) = concat (map composite cs') -> cs = cs'.
Proof.
  intros Hc. revert cs'. induction Hc as [|c cs Hc _ IH]; intros cs' Hc' E; destruct Hc' as [|c' cs' Hc' Hcs']; [done| | |].
  - exfalso. apply (f_equal length) in E. cbn [map concat] in E. unfold composite in E.
    rewrite !length_app in E. simpl in E. lia.
  - exfalso. apply (f_equal length) in E. cbn [map concat] in E. unfold composite in E.
    rewrite !length_app in E. simpl in E. lia.
  - apply composite_inj in E as [-> E]; [|done..]. f_equal. by apply IH.
Qed.

(** C25: the routing key taken from the bound values and the explicit routing
    key are both the partition key of the components, so a request is routed
    the same way by either; keys of the same number of components that differ
    are routed by different bytes. *)
Theorem routing_key_is_partition_key (values : list Value) (pk_indexes : list Z) (components : list bytes) :
  components <> [] -> Forall2 (fun i c => get_value values i = Some (VSome c)) pk_indexes components ->
  serialize_routing_key_with_indexes values pk_indexes = Some (partition_key components) /\
  serialize_routing_key (map VSome components) = partition_key components /\
  forall components', length components' = length components ->
    Forall (fun c => zlen c < 2 ^ 16) components -> Forall (fun c => zlen c < 2 ^ 16) components' ->
    partition_key components' = partition_key components -> components' = components.
Proof.
  intros Hne Hv. split; [|split].
  - unfold serialize_routing_key_with_indexes, partition_key.
    destruct Hv as [|i c idx cs Hi Hr]; [done|]. destruct Hr as [|i' c' idx cs Hi' Hr]; [by rewrite Hi|].
    by rewrite (fold_values_ok _ _ (c :: c' :: cs)) by (by repeat constructor).
  - apply serialize_routing_key_ok.
  - intros cs' Hl Hc Hc' E. unfold partition_key in E.
    destruct components as [|c1 [|c2 cs]]; [done| |]; destruct cs' as [|c1' [|c2' cs']]; try done.
    + by subst.
    + symmetry in E. symmetry. by apply composites_inj.
Qed.

Lemma routing_key_is_partition_key_witness :
  serialize_routing_key_with_indexes [VNull; VSome (lit "b"); VSome (lit "a")] [2; 1]
    = Some (partition_key [lit "a"; lit "b"]).
Proof.
  apply (routing_key_is_partition_key [VNull; VSome (lit "b"); VSome (lit "a")] [2; 1] [lit "a"; lit "b"]); [done|].
  by repeat constructor.
Defined.
