(* ===== verification/Session.v ===== *)
(** * Sessions and pagers: [cluster/session.rs], [cluster/pager.rs]

    What a session sends for each of its operations.  How one request is
    carried out is the subject of [Speculation]; here the cluster is an
    environment that answers what is sent, with a state of its own, and
    everything sent is recorded. *)

From S2P Require Import Prelude Types Wire Compression Envelope Query Requests Results Responses Token Topology Statements.
Local Open Scope Z_scope.
Local Open Scope cdrs_scope.

Section Session.
Context {U : UuidLib} {HU : HashIter Uuid} {HB : HashIter bytes}.
(** Speculative execution policies, retry policies and the environment. *)
Context {SP RP W : Type}.

(** The arguments of [Session::send_envelope]. *)
Record SendRequest : Type := mkSendRequest {
  sr_envelope : Envelope; sr_is_idempotent : bool; sr_keyspace : option bytes; sr_token : option Murmur3Token;
  sr_routing_key : option bytes; sr_consistency : option Consistency;
  sr_speculative_execution_policy : option SP; sr_retry_policy : option RP }.

(** What is sent: a request along a query plan, or one to a given node. *)
Inductive Sent : Type :=
| ToPlan (r : SendRequest)
| ToNode (n : Node) (e : Envelope) (is_idempotent : bool) (retry_policy : RP).

Context (answer : Sent -> W -> option (Result Envelope) * W).

Record World : Type := mkWorld { w_env : W; w_sent : list Sent }.
Definition perform (s : Sent) (w : World) : option (Result Envelope) * World :=
  let '(r, e) := answer s (w_env w) in (r, mkWorld e (w_sent w ++ [s])).

Record Session : Type := mkSession {
  se_version : Version; se_retry_policy : RP; se_cluster_metadata : ClusterMetadata }.

(** [unwrap_or_else(|| Err("No nodes available in query plan!".into()))] *)
Definition session_send (r : SendRequest) (w : World) : Result Envelope * World :=
  let '(o, w) := perform (ToPlan r) w in
  (match o with Some x => x | None => Err (EGeneral "No nodes available in query plan!") end, w).

Definition effective_retry_policy (s : Session) (o : option RP) : RP :=
  match o with Some p => p | None => se_retry_policy s end.

Definition convert_to_prepared (b : ResponseBody) : Result BodyResResultPrepared :=
  match response_prepared b with
  | Some p => Ok p
  | None => Err (EGeneral "Cannot convert envelope into prepare response!")
  end.

(** [result.and_then(|response| response.response_body()).and_then(convert_to_prepared)] *)
Definition prepared_response (r : Result Envelope) : Result BodyResResultPrepared :=
  let? e := r in let? b := response_body e in convert_to_prepared b.

Definition request_flags (p : StatementParams SP RP) : Z :=
  prepare_flags (sp_tracing p) (sp_warnings p) (sp_beta_protocol p).

(** ** Prepared statements *)

(** [Option::or] *)
Definition or_option {A} (a b : option A) : option A := match a with Some _ => a | None => b end.

Definition exec_keyspace (prepared : PreparedQuery) (p : StatementParams SP RP) : option bytes :=
  or_option (pq_keyspace prepared) (sp_keyspace p).
Definition exec_routing_key (prepared : PreparedQuery) (p : StatementParams SP RP) : option bytes :=
  match qp_values (sp_query_params p) with
  | Some (SimpleValues values) =>
    or_option (serialize_routing_key_with_indexes values (pq_pk_indexes prepared))
      (option_map serialize_routing_key (sp_routing_key p))
  | Some (NamedValues _) => None
  | None => None
  end.

Definition exec_request (s : Session) (prepared : PreparedQuery) (p : StatementParams SP RP)
    (id : CBytesShort) (result_metadata_id : option CBytesShort) : SendRequest :=
  mkSendRequest (new_req_execute id result_metadata_id (sp_query_params p) (request_flags p) (se_version s))
    (sp_is_idempotent p) (exec_keyspace prepared p) (sp_token p) (exec_routing_key prepared p)
    (Some (qp_consistency (sp_query_params p))) (sp_speculative_execution_policy p) (sp_retry_policy p).

Definition prepare_on_node (s : Session) (prepared : PreparedQuery) (p : StatementParams SP RP) (node : Node) : Sent :=
  ToNode node (new_req_prepare (pq_query prepared) (exec_keyspace prepared p) (request_flags p) (se_version s)) true
    (effective_retry_policy s (sp_retry_policy p)).

(** [Err(error::Error::Server { body, addr }) if body.ty is Unprepared] *)
Definition unprepared_at (r : Result Envelope) : option SocketAddr :=
  match r with
  | Err (EServer body addr) => match eb_ty body with EtUnprepared _ => Some addr | _ => None end
  | _ => None
  end.

(** The last part: remember the metadata id of a changed result. *)
Definition set_metadata_id (id : CBytesShort) (q : PreparedQuery) : PreparedQuery :=
  mkPreparedQuery (pq_id q) (pq_query q) (pq_keyspace q) (pq_pk_indexes q) (Some id).
Definition remember_metadata (result : Result Envelope) (prepared : PreparedQuery)
  : Result Envelope * PreparedQuery :=
  match (let? e := result in response_body e) with
  | Ok b =>
    match response_rows_metadata b with
    | Some m => match rm_new_metadata_id m with Some id => (result, set_metadata_id id prepared) | None => (result, prepared) end
    | None => (result, prepared)
    end
  | Err _ => (result, prepared)
  | Panic => (Panic, prepared)
  end.

Definition exec_with_params (s : Session) (prepared : PreparedQuery) (p : StatementParams SP RP) (w : World)
  : Result Envelope * PreparedQuery * World :=
  let '(result, w) := session_send (exec_request s prepared p (pq_id prepared) (pq_result_metadata_id prepared)) w in
  match unprepared_at result with
  | None => (remember_metadata result prepared, w)
  | Some addr =>
    match find_node_by_rpc_address (se_cluster_metadata s) addr with
    | None => (Err (EGeneral "Cannot find node {addr} for statement re-preparation!"), prepared, w)
    | Some node =>
      let '(o, w) := perform (prepare_on_node s prepared p node) w in
      let response := match o with Some x => x | None => Err (EGeneral "No response for re-prepare statement!") end in
      match prepared_response response with
      | Ok new =>
        if bool_decide (pq_id prepared = rp_id new) then
          let '(result, w) := session_send (exec_request s prepared p (rp_id new) (rp_result_metadata_id new)) w in
          (remember_metadata result prepared, w)
        else (Err (EGeneral "Re-preparing an unprepared statement resulted in a different id - probably schema changed on the server."), prepared, w)
      | Err _ => (remember_metadata result prepared, w)
      | Panic => (Panic, prepared, w)
      end
    end
  end.

Definition exec_with_values (s : Session) (prepared : PreparedQuery) (values : QueryValues) (w : World) :=
  exec_with_params s prepared (sp_build (sp_with (WithValues values) StatementParamsBuilder_new)) w.
Definition exec (s : Session) (prepared : PreparedQuery) (w : World) :=
  exec_with_params s prepared StatementParams_default w.

Definition plain_request (e : Envelope) : SendRequest := mkSendRequest e true None None None None None None.
Definition prepare_raw_tw (s : Session) (query : bytes) (keyspace : option bytes)
    (with_tracing with_warnings beta_protocol : bool) (w : World) : Result BodyResResultPrepared * World :=
  let flags := prepare_flags with_tracing with_warnings beta_protocol in
  let '(r, w) := session_send (plain_request (new_req_prepare query keyspace flags (se_version s))) w in
  (prepared_response r, w).
Definition prepare_tw (s : Session) (query : bytes) (keyspace : option bytes)
    (with_tracing with_warnings beta_protocol : bool) (w : World) : Result PreparedQuery * World :=
  let '(r, w) := prepare_raw_tw s query keyspace with_tracing with_warnings beta_protocol w in
  (omap (fun result =>
     mkPreparedQuery (rp_id result) query (option_map ts_ks_name (pm_global_table_spec (rp_metadata result)))
       (pm_pk_indexes (rp_metadata result)) (rp_result_metadata_id result)) r, w).
Definition prepare (s : Session) (query : bytes) (w : World) := prepare_tw s query None false false false w.

(** ** Queries and batches *)

Definition batch_with_params (s : Session) (batch : BodyReqBatch) (p : StatementParams SP RP) (w : World) :=
  session_send
    (mkSendRequest (new_req_batch batch (request_flags p) (se_version s)) (sp_is_idempotent p) (sp_keyspace p)
       None None (Some (bb_consistency batch)) (sp_speculative_execution_policy p) (sp_retry_policy p)) w.
Definition batch (s : Session) (b : BodyReqBatch) (w : World) := batch_with_params s b StatementParams_default w.

Definition query_request (s : Session) (query : bytes) (p : StatementParams SP RP) : SendRequest :=
  mkSendRequest (new_query (mkBodyReqQuery query (sp_query_params p)) (request_flags p) (se_version s))
    (sp_is_idempotent p) (sp_keyspace p) (sp_token p) (option_map serialize_routing_key (sp_routing_key p))
    (Some (qp_consistency (sp_query_params p))) (sp_speculative_execution_policy p) (sp_retry_policy p).
Definition query_with_params (s : Session) (query : bytes) (p : StatementParams SP RP) (w : World) :=
  session_send (query_request s query p) w.
Definition query_with_values (s : Session) (query : bytes) (values : QueryValues) (w : World) :=
  query_with_params s query (sp_build (sp_with (WithValues values) StatementParamsBuilder_new)) w.
Definition query (s : Session) (q : bytes) (w : World) := query_with_params s q StatementParams_default w.

(** ** Pagers *)

Record PagerState : Type := mkPagerState { ps_cursor : option CBytes; ps_has_more_pages : option bool }.
Definition PagerState_new : PagerState := mkPagerState None None.
Definition new_with_cursor (c : CBytes) : PagerState := mkPagerState (Some c) None.
Definition new_with_cursor_and_more_flag (c : CBytes) (has_more : bool) : PagerState :=
  mkPagerState (Some c) (Some has_more).
Definition has_more (s : PagerState) : bool := match ps_has_more_pages s with Some b => b | None => false end.

Record QueryPager : Type := mkQueryPager {
  qpg_page_size : Z; qpg_state : PagerState; qpg_query : bytes; qpg_qv : option QueryValues;
  qpg_consistency : Consistency }.
Record ExecPager : Type := mkExecPager { epg_page_size : Z; epg_state : PagerState; epg_query : PreparedQuery }.

Definition query_with_pager_state_params (page_size : Z) (q : bytes) (state : PagerState) (qp : QueryParams) : QueryPager :=
  mkQueryPager page_size state q (qp_values qp) (qp_consistency qp).
Definition pager_query_with_params (page_size : Z) (q : bytes) (qp : QueryParams) : QueryPager :=
  query_with_pager_state_params page_size q PagerState_new qp.
Definition query_with_pager_state (page_size : Z) (q : bytes) (state : PagerState) : QueryPager :=
  query_with_pager_state_params page_size q state QueryParams_default.
Definition pager_query (page_size : Z) (q : bytes) : QueryPager :=
  pager_query_with_params page_size q (qp_build (qp_with (SetConsistency One) QueryParamsBuilder_new)).
Definition query_with_param (page_size : Z) (q : bytes) (qp : QueryParams) : QueryPager :=
  pager_query_with_params page_size q qp.
Definition exec_with_pager_state (page_size : Z) (q : PreparedQuery) (state : PagerState) : ExecPager :=
  mkExecPager page_size state q.
Definition pager_exec (page_size : Z) (q : PreparedQuery) : ExecPager := exec_with_pager_state page_size q PagerState_new.

(** What a pager tells of its state, and what a state tells. *)
Definition query_pager_state (g : QueryPager) : PagerState := qpg_state g.
Definition query_has_more (g : QueryPager) : bool := has_more (query_pager_state g).
Definition exec_pager_state (g : ExecPager) : PagerState := epg_state g.
Definition exec_has_more (g : ExecPager) : bool := has_more (exec_pager_state g).
Definition state_cursor (s : PagerState) : option CBytes := ps_cursor s.

Definition with_option {A} (f : A -> sp_setter SP RP) (o : option A) (b : StatementParamsBuilder SP RP) :=
  match o with Some a => sp_with (f a) b | None => b end.
Definition query_page_params (g : QueryPager) : StatementParams SP RP :=
  let params := sp_with (WithPageSize (qpg_page_size g)) (sp_with (WithConsistency (qpg_consistency g)) StatementParamsBuilder_new) in
  let params := with_option WithValues (qpg_qv g) params in
  sp_build (with_option WithPagingState (ps_cursor (qpg_state g)) params).
Definition exec_page_params (g : ExecPager) : StatementParams SP RP :=
  sp_build (with_option WithPagingState (ps_cursor (epg_state g))
              (sp_with (WithPageSize (epg_page_size g)) StatementParamsBuilder_new)).

(** The pages of a query are asked for with its values and consistency; whatever
    else the parameters have is dropped: serial consistency, timestamp,
    keyspace and the current time. *)
Theorem pager_drops_parameters (page_size : Z) (q : bytes) (qp : QueryParams) (s : Session) :
  let sent := sp_query_params (query_page_params (pager_query_with_params page_size q qp)) in
  qp_consistency sent = qp_consistency qp /\ qp_values sent = qp_values qp /\ qp_page_size sent = Some page_size /\
  qp_serial_consistency sent = None /\ qp_timestamp sent = None /\ qp_keyspace sent = None /\ qp_now_in_seconds sent = None /\
  (forall qp', qp_consistency qp' = qp_consistency qp -> qp_values qp' = qp_values qp ->
     query_request s q (query_page_params (pager_query_with_params page_size q qp')) =
     query_request s q (query_page_params (pager_query_with_params page_size q qp))).
Proof.
  unfold pager_query_with_params, query_with_pager_state_params, query_page_params. cbn [qpg_page_size qpg_state qpg_qv qpg_consistency].
  destruct qp as [c wn v ps pst sc ts ks now]. cbn. split_and!; [by destruct v..|].
  intros [c' wn' v' ps' pst' sc' ts' ks' now'] Hc Hv. cbn in *. by subst.
Qed.

(** The state after a response, and its rows. *)
Definition read_page (r : Result Envelope) (state : PagerState) : Result (list Row) * PagerState :=
  match (let? e := r in response_body e) with
  | Ok b =>
    match response_rows_metadata b with
    | None => (Err (EGeneral "Pager query should yield a vector of rows"), state)
    | Some m =>
      let state := mkPagerState (rm_paging_state m)
                     (Some (RowsMetadataFlags.contains (rm_flags m) RowsMetadataFlags.HAS_MORE_PAGES)) in
      (match into_rows b with Some rows => Ok rows | None => Err (EGeneral "Pager query should yield a vector of rows") end, state)
    end
  | Err e => (Err e, state)
  | Panic => (Panic, state)
  end.

Definition query_next (s : Session) (g : QueryPager) (w : World) : Result (list Row) * QueryPager * World :=
  let '(r, w) := query_with_params s (qpg_query g) (query_page_params g) w in
  let '(rows, state) := read_page r (qpg_state g) in
  (rows, mkQueryPager (qpg_page_size g) state (qpg_query g) (qpg_qv g) (qpg_consistency g), w).
Definition exec_next (s : Session) (g : ExecPager) (w : World) : Result (list Row) * ExecPager * World :=
  let '(r, q, w) := exec_with_params s (epg_query g) (exec_page_params g) w in
  let '(rows, state) := read_page r (epg_state g) in
  (rows, mkExecPager (epg_page_size g) state q, w).

(** ** Executing a prepared statement *)

Lemma session_send_sent r w x w' : session_send r w = (x, w') -> w_sent w' = w_sent w ++ [ToPlan r].
Proof.
  unfold session_send, perform. destruct (answer (ToPlan r) (w_env w)) as [o e]. intros E. by simplify_eq.
Qed.
Lemma perform_sent x w o w' : perform x w = (o, w') -> w_sent w' = w_sent w ++ [x].
Proof. unfold perform. destruct (answer x (w_env w)) as [o' e]. intros E. by simplify_eq. Qed.

Lemma remember_metadata_result r q x q' : remember_metadata r q = (x, q') -> x = r \/ x = Panic.
Proof. unfold remember_metadata. intros E. repeat case_match; simplify_eq; auto. Qed.

(** Only the id of the result metadata of a prepared statement ever changes. *)
Definition same_statement (a b : PreparedQuery) : Prop :=
  pq_id a = pq_id b /\ pq_query a = pq_query b /\ pq_keyspace a = pq_keyspace b /\ pq_pk_indexes a = pq_pk_indexes b.

Lemma remember_metadata_same r q x q' : remember_metadata r q = (x, q') -> same_statement q q'.
Proof. unfold remember_metadata. intros E. repeat case_match; simplify_eq; by repeat split. Qed.

(** [q] prepares the query again on the node that answered [r] that it does not have it. *)
Definition reprepares (s : Session) (prepared : PreparedQuery) (p : StatementParams SP RP) (r : Result Envelope)
    (q : Sent) : Prop :=
  exists addr node, unprepared_at r = Some addr /\
    find_node_by_rpc_address (se_cluster_metadata s) addr = Some node /\ q = prepare_on_node s prepared p node.

(** What follows the first execution, which was answered with [r]. *)
Definition follow_up (s : Session) (prepared : PreparedQuery) (p : StatementParams SP RP) (r : Result Envelope)
    (rest : list Sent) : Prop :=
  match rest with
  | [] => True
  | [q] => reprepares s prepared p r q
  | [q; x] => reprepares s prepared p r q /\ exists md, x = ToPlan (exec_request s prepared p (pq_id prepared) md)
  | _ => False
  end.

(** C24: executing a prepared statement sends the execution and, only if a
    known node answered that it does not have the statement, the preparation
    of the same query on that very node and then at most one more execution,
    of the same id.  A successful result is the answer to an execution sent,
    and of the statement only the metadata id changes. *)
Theorem reprepared_at_most_once (s : Session) (prepared : PreparedQuery) (p : StatementParams SP RP) (w : World)
    (result : Result Envelope) (prepared' : PreparedQuery) (w' : World) :
  exec_with_params s prepared p w = (result, prepared', w') ->
  let first := exec_request s prepared p (pq_id prepared) (pq_result_metadata_id prepared) in
  exists rest, w_sent w' = w_sent w ++ ToPlan first :: rest /\
    follow_up s prepared p (session_send first w).1 rest /\ same_statement prepared prepared' /\
    forall e, result = Ok e -> exists r w0, ToPlan r ∈ ToPlan first :: rest /\ (session_send r w0).1 = Ok e.
Proof.
  intros E first. unfold exec_with_params in E. fold first in E.
  destruct (session_send first w) as [r1 w1] eqn:E1. pose proof (session_send_sent _ _ _ _ E1) as S1. cbn [fst].
  assert (Hfirst : forall rest x q e, remember_metadata r1 prepared = (x, q) -> x = Ok e ->
    exists r w0, ToPlan r ∈ ToPlan first :: rest /\ (session_send r w0).1 = Ok e).
  { intros rest x q e Er ->. exists first, w. split; [by left|]. rewrite E1.
    by apply remember_metadata_result in Er as [-> |]. }
  destruct (unprepared_at r1) as [addr|] eqn:Eu.
  2:{ destruct (remember_metadata r1 prepared) as [x q] eqn:Er. simplify_eq. exists []. split_and!; [done..| |].
      - by eapply remember_metadata_same.
      - intros e He. by eapply Hfirst. }
  destruct (find_node_by_rpc_address (se_cluster_metadata s) addr) as [node|] eqn:En.
  2:{ simplify_eq. exists []. by split_and!. }
  assert (Hre : reprepares s prepared p r1 (prepare_on_node s prepared p node)) by by exists addr, node.
  destruct (perform (prepare_on_node s prepared p node) w1) as [o w2] eqn:E2.
  pose proof (perform_sent _ _ _ _ E2) as S2. rewrite S1, <- app_assoc in S2. cbn [app] in S2.
  destruct (prepared_response _) as [new|err|] eqn:Ep; [case_bool_decide as Hid|..].
  - destruct (session_send _ w2) as [r3 w3] eqn:E3. pose proof (session_send_sent _ _ _ _ E3) as S3.
    rewrite S2, <- app_assoc in S3. cbn [app] in S3.
    destruct (remember_metadata r3 prepared) as [x q] eqn:Er. simplify_eq. rewrite <- Hid in *.
    eexists. split; [exact S3|]. split; [split; [exact Hre|by eexists]|]. split; [by eapply remember_metadata_same|].
    intros e ->. eexists _, w2. split; [do 2 right; by left|]. rewrite E3.
    by apply remember_metadata_result in Er as [-> |].
  - simplify_eq. eexists. split; [exact S2|]. by split_and!.
  - destruct (remember_metadata r1 prepared) as [x q] eqn:Er. simplify_eq. eexists. split; [exact S2|].
    split_and!; [done|by eapply remember_metadata_same|]. intros e He. by eapply Hfirst.
  - simplify_eq. eexists. split; [exact S2|]. by split_and!.
Qed.

(** The explicit routing key of a statement is not used when a prepared
    statement is executed without positional values, although only bound
    primary key values are documented to take precedence over it. *)
Theorem explicit_routing_key_ignored (prepared : PreparedQuery) (p : StatementParams SP RP) (key : list Value) :
  sp_routing_key p = Some key ->
  (forall values, qp_values (sp_query_params p) <> Some (SimpleValues values)) ->
  exec_routing_key prepared p = None.
Proof.
  intros _ Hv. unfold exec_routing_key. destruct (qp_values (sp_query_params p)) as [[vs|m]|]; [|done..].
  by destruct (Hv vs).
Qed.

(** ** Paging *)

(** [n] calls of [next]. *)
Fixpoint query_pages (n : nat) (s : Session) (g : QueryPager) (w : World) : list (Result (list Row)) * QueryPager * World :=
  match n with
  | O => ([], g, w)
  | S n =>
    let '(r, g, w) := query_next s g w in
    let '(rs, g, w) := query_pages n s g w in
    (r :: rs, g, w)
  end.

(** The pager of a query at a paging state, and the request for that page. *)
Definition pager_at (size : Z) (q : bytes) (qv : option QueryValues) (cl : Consistency) (state : PagerState) : QueryPager :=
  mkQueryPager size state q qv cl.
Definition page_request (s : Session) (size : Z) (q : bytes) (qv : option QueryValues) (cl : Consistency)
    (cur : option CBytes) : SendRequest :=
  query_request s q (query_page_params (pager_at size q qv cl (mkPagerState cur None))).

Section Paging.
Context (s : Session) (size : Z) (q : bytes) (qv : option QueryValues) (cl : Consistency).
(** The result of the query in pages: page [k] is asked for with the paging
    state the page before it came with, whatever was sent in between. *)
Context (cursor : nat -> option CBytes) (page : nat -> BodyResResultRows) (reply : nat -> Envelope).
Context (Hserved : forall k e, exists e',
  answer (ToPlan (page_request s size q qv cl (cursor k))) e = (Some (Ok (reply k)), e')).
Context (Hreply : forall k, response_body (reply k) = Ok (RbResult (ResRows (page k)))).
Context (Hcursor : forall k, rm_paging_state (rr_metadata (page k)) = cursor (S k)).

Definition page_flag (k : nat) : bool :=
  RowsMetadataFlags.contains (rm_flags (rr_metadata (page k))) RowsMetadataFlags.HAS_MORE_PAGES.

Lemma query_next_page k more w : exists e', query_next s (pager_at size q qv cl (mkPagerState (cursor k) more)) w
  = (Ok (Row_from_body (page k)), pager_at size q qv cl (mkPagerState (cursor (S k)) (Some (page_flag k))),
     mkWorld e' (w_sent w ++ [ToPlan (page_request s size q qv cl (cursor k))])).
Proof using Hserved Hreply Hcursor.
  destruct (Hserved k (w_env w)) as [e' He]. exists e'. unfold query_next, query_with_params, session_send, perform.
  cbn [qpg_query pager_at].
  change (query_request s q (query_page_params (pager_at size q qv cl (mkPagerState (cursor k) more))))
    with (page_request s size q qv cl (cursor k)).
  rewrite He. unfold read_page. cbn [obind]. rewrite Hreply. cbn. by rewrite Hcursor.
Qed.

Lemma query_pages_from n k more w : exists e',
  query_pages n s (pager_at size q qv cl (mkPagerState (cursor k) more)) w
    = (map (fun j => Ok (Row_from_body (page j))) (seq k n),
       pager_at size q qv cl (mkPagerState (cursor (k + n))
         (match n with O => more | S _ => Some (page_flag (k + n - 1)) end)),
       mkWorld e' (w_sent w ++ map (fun j => ToPlan (page_request s size q qv cl (cursor j))) (seq k n))).
Proof using Hserved Hreply Hcursor.
  revert k more w. induction n as [|n IH]; intros k more w; cbn [query_pages seq map].
  - exists (w_env w). rewrite Nat.add_0_r, app_nil_r. by destruct w.
  - destruct (query_next_page k more w) as [e1 ->].
    destruct (IH (S k) (Some (page_flag k)) (mkWorld e1 (w_sent w ++ [ToPlan (page_request s size q qv cl (cursor k))])))
      as [e2 ->].
    exists e2. cbn [w_sent]. rewrite <- app_assoc, Nat.add_succ_comm. do 4 f_equal.
    destruct n as [|n]; do 2 f_equal; lia.
Qed.

End Paging.
End Session.

(** ** Witnesses *)

Module SessionSamples.
#[local] Existing Instance uuid_bytes.
#[local] Instance order : HashIter bytes := default_iter bytes.
#[local] Instance uuid_order : HashIter Uuid := default_iter Uuid.

Definition session : Session := mkSession V4 tt ClusterMetadata_default.
Definition rows (flags : Z) (paging_state : option CBytes) : BodyResResultRows :=
  mkResultRows (mkRowsMetadata flags 1 paging_state None (Some (mkTableSpec (lit "ks") (lit "t")))
                  [mkColSpec None (lit "id") (mkColTypeOption CtInt None)]) 1 [[CBytes_new (to_int 7)]] V4.
Definition more_rows : BodyResResultRows := rows 3 (Some (CBytes_new [u8 9])).
Definition reply (b : BodyResResultRows) : Envelope :=
  mkEnvelope V4 Response 0 OpResult 1 (match ResResultBody_serialize (ResRows b) with Ok bs => bs | _ => [] end) None [].
(** A server with no last page. *)
Definition endless (x : Sent (SP := unit) (RP := unit)) (e : unit) : option (Result Envelope) * unit :=
  (Some (Ok (reply more_rows)), e).
Definition cursor (k : nat) : option CBytes := match k with O => None | _ => Some (CBytes_new [u8 9]) end.


(** A cluster that answers that no node has the statement, and knows no node. *)
Definition unprepared : Result Envelope :=
  Err (EServer (mkErrorBody (lit "unprepared") (EtUnprepared (mkUnprepared (mkCBytesShort (Some [u8 1])))))
         (mkSocketAddr (IpV4 (map u8 [10; 0; 0; 1])) 9042)).
Definition forgetful (x : Sent (SP := unit) (RP := unit)) (e : unit) : option (Result Envelope) * unit := (Some unprepared, e).
Definition statement : PreparedQuery := mkPreparedQuery (mkCBytesShort (Some [u8 1])) (lit "SELECT") None [] None.

Lemma reprepared_at_most_once_witness :
  let first := exec_request session statement StatementParams_default (pq_id statement) None in
  exists rest, [ToPlan first] = [] ++ ToPlan first :: rest /\
    follow_up session statement StatementParams_default (session_send forgetful first (mkWorld tt [])).1 rest /\
    same_statement statement statement /\
    forall e, Err (A := Envelope) (EGeneral "Cannot find node {addr} for statement re-preparation!") = Ok e ->
      exists r w0, ToPlan r ∈ ToPlan first :: rest /\ (session_send forgetful r w0).1 = Ok e.
Proof.
  apply (reprepared_at_most_once forgetful session statement StatementParams_default (mkWorld tt [])
           (Err (EGeneral "Cannot find node {addr} for statement re-preparation!")) statement
           (mkWorld tt [ToPlan (exec_request session statement StatementParams_default (pq_id statement) None)])).
  vm_compute. reflexivity.
Defined.

Lemma explicit_routing_key_ignored_witness :
  exec_routing_key statement
    (sp_build (sp_with (WithRoutingKey [VSome [u8 1]]) (StatementParamsBuilder_new (SP := unit) (RP := unit)))) = None.
Proof.
  apply (explicit_routing_key_ignored statement
    (sp_build (sp_with (WithRoutingKey [VSome [u8 1]]) StatementParamsBuilder_new)) [VSome [u8 1]]); [reflexivity|].
  intros values. discriminate.
Defined.
End SessionSamples.
