(* ===== verification/Keys.v ===== *)
(** * Values as keys: equality, order and hashing

    The hand-written [PartialEq], [Ord] and [Hash] of prepared statements
    ([query/prepared_query.rs]) and tuples ([types/tuple.rs]), with the derived
    ones of [CBytes] and [CBytesShort] they use: what [HashMap] and [BTreeMap]
    rely on.  A [Hasher] is the sequence of what is written to it. *)

From S2P Require Import Prelude Types Wire Envelope Query Results Responses Scalars RustTypes Statements Session.
Local Open Scope Z_scope.
Local Open Scope cdrs_scope.

(** ** Total orders *)

Class TotalOrder {A} (cmp : A -> A -> comparison) : Prop := {
  order_eq : forall a b, cmp a b = Eq <-> a = b;
  order_opp : forall a b, cmp b a = CompOpp (cmp a b);
  order_trans : forall a b c, cmp a b = Lt -> cmp b c = Lt -> cmp a c = Lt }.

#[export] Instance Z_order : TotalOrder Z.compare.
Proof.
  split; [apply Z.compare_eq_iff|intros a b; apply Z.compare_antisym|].
  intros a b c. rewrite !Z.compare_lt_iff. lia.
Qed.

(** [match a.cmp(b) { Equal => .., result => result }] *)
Definition then_compare (c d : comparison) : comparison := match c with Eq => d | _ => c end.

(** The order of [u8], of [Vec<T>] and of [Option<T>]. *)
Definition byte_compare (a b : byte) : comparison := Z.compare (b2z a) (b2z b).
Fixpoint lex_compare {A} (cmp : A -> A -> comparison) (l m : list A) : comparison :=
  match l, m with
  | [], [] => Eq
  | [], _ => Lt
  | _, [] => Gt
  | a :: l, b :: m => then_compare (cmp a b) (lex_compare cmp l m)
  end.
Definition option_compare {A} (cmp : A -> A -> comparison) (a b : option A) : comparison :=
  match a, b with
  | None, None => Eq
  | None, Some _ => Lt
  | Some _, None => Gt
  | Some a, Some b => cmp a b
  end.

#[export] Instance byte_order : TotalOrder byte_compare.
Proof.
  unfold byte_compare. split.
  - intros a b. rewrite order_eq. split; [apply b2z_inj|by intros ->].
  - intros a b. apply order_opp.
  - intros a b c. apply order_trans.
Qed.

(** Two keys, the second one deciding where the first ones agree. *)
Lemma then_compare_opp c d : CompOpp (then_compare c d) = then_compare (CompOpp c) (CompOpp d).
Proof. by destruct c. Qed.
Lemma then_compare_eq c d : then_compare c d = Eq <-> c = Eq /\ d = Eq.
Proof. destruct c; simpl; intuition congruence. Qed.
Lemma then_compare_trans {A} (cmp : A -> A -> comparison) `{!TotalOrder cmp} a b c d1 d2 d3 :
  (d1 = Lt -> d2 = Lt -> d3 = Lt) ->
  then_compare (cmp a b) d1 = Lt -> then_compare (cmp b c) d2 = Lt -> then_compare (cmp a c) d3 = Lt.
Proof.
  intros Hd. destruct (cmp a b) eqn:E1; [apply order_eq in E1 as ->| |done].
  - destruct (cmp b c) eqn:E2; simpl; auto.
  - destruct (cmp b c) eqn:E2; simpl; [apply order_eq in E2 as ->; by rewrite E1| |done].
    by rewrite (order_trans _ _ _ E1 E2).
Qed.

#[export] Instance lex_order {A} (cmp : A -> A -> comparison) `{!TotalOrder cmp} : TotalOrder (lex_compare cmp).
Proof.
  split.
  - intros l. induction l as [|a l IH]; intros [|b m]; simpl; [done..|].
    rewrite then_compare_eq, order_eq, IH. split; [by intros [-> ->]|by intros [= -> ->]].
  - intros l. induction l as [|a l IH]; intros [|b m]; simpl; [done..|]. by rewrite then_compare_opp, IH, <- (order_opp (cmp := cmp)).
  - intros l. induction l as [|a l IH]; intros [|b m] [|c n]; simpl; try done. apply then_compare_trans; [done|apply IH].
Qed.

#[export] Instance option_order {A} (cmp : A -> A -> comparison) `{!TotalOrder cmp} : TotalOrder (option_compare cmp).
Proof.
  split.
  - intros [a|] [b|]; simpl; [|done..]. rewrite order_eq. split; [by intros ->|by intros [= ->]].
  - intros [a|] [b|]; simpl; [apply order_opp|done..].
  - intros [a|] [b|] [c|]; simpl; try done. apply order_trans.
Qed.

(** ** Hashing *)

(** What is written to a hasher: the discriminant of an [Option], the length
    and the items of a vector. *)
Inductive hashed : Type := HDiscriminant (d : Z) | HLength (n : Z) | HByte (b : byte).
Definition hash_bytes (b : bytes) : list hashed := HLength (zlen b) :: map HByte b.
Definition hash_option {A} (hash : A -> list hashed) (o : option A) : list hashed :=
  match o with Some a => HDiscriminant 1 :: hash a | None => [HDiscriminant 0] end.

(** Derived for [CBytesShort] and [CBytes]. *)
Definition CBytesShort_cmp (a b : CBytesShort) : comparison :=
  option_compare (lex_compare byte_compare) (CBytesShort_bytes a) (CBytesShort_bytes b).
Definition CBytesShort_hash (a : CBytesShort) : list hashed := hash_option hash_bytes (CBytesShort_bytes a).
Definition CBytes_hash (a : CBytes) : list hashed := hash_option hash_bytes (CBytes_bytes a).

#[export] Instance CBytesShort_order : TotalOrder CBytesShort_cmp.
Proof.
  unfold CBytesShort_cmp. split.
  - intros [a] [b]. rewrite order_eq. cbn. split; [by intros ->|by intros [= ->]].
  - intros a b. apply order_opp.
  - intros a b c. apply order_trans.
Qed.

(** ** Prepared statements *)

Definition PreparedQuery_clone (q : PreparedQuery) : PreparedQuery :=
  mkPreparedQuery (pq_id q) (pq_query q) (pq_keyspace q) (pq_pk_indexes q) (pq_result_metadata_id q).
Definition PreparedQuery_cmp (a b : PreparedQuery) : comparison :=
  match CBytesShort_cmp (pq_id a) (pq_id b) with
  | Eq => option_compare CBytesShort_cmp (pq_result_metadata_id a) (pq_result_metadata_id b)
  | result => result
  end.
Definition PreparedQuery_partial_cmp (a b : PreparedQuery) : option comparison := Some (PreparedQuery_cmp a b).
Definition PreparedQuery_hash (a : PreparedQuery) : list hashed :=
  CBytesShort_hash (pq_id a) ++ hash_option CBytesShort_hash (pq_result_metadata_id a).

(** ** Tuples *)

Definition Tuple_hash (a : Tuple) : list hashed := concat (map (fun data => CBytes_hash data.2) (tuple_data a)).

(** ** Laws *)

Lemma PreparedQuery_eq_spec a b :
  PreparedQuery_eq a b = true <-> pq_id a = pq_id b /\ pq_result_metadata_id a = pq_result_metadata_id b.
Proof. unfold PreparedQuery_eq. rewrite andb_true_iff, !bool_decide_eq_true. done. Qed.

(** Equality, order and hashing of prepared statements agree: equality is the
    order's, the order is total, and equal statements are hashed alike; a
    clone is equal to its original. *)
Theorem prepared_query_keys a b c :
  (PreparedQuery_eq a b = true <-> PreparedQuery_cmp a b = Eq) /\
  PreparedQuery_cmp b a = CompOpp (PreparedQuery_cmp a b) /\
  (PreparedQuery_cmp a b = Lt -> PreparedQuery_cmp b c = Lt -> PreparedQuery_cmp a c = Lt) /\
  (PreparedQuery_eq a b = true -> PreparedQuery_hash a = PreparedQuery_hash b) /\
  PreparedQuery_eq (PreparedQuery_clone a) a = true.
Proof.
  assert (E : forall a b, PreparedQuery_cmp a b = then_compare (CBytesShort_cmp (pq_id a) (pq_id b))
    (option_compare CBytesShort_cmp (pq_result_metadata_id a) (pq_result_metadata_id b))).
  { intros x y. unfold PreparedQuery_cmp. by destruct (CBytesShort_cmp _ _). }
  rewrite !E. split_and!.
  - by rewrite PreparedQuery_eq_spec, then_compare_eq, !order_eq.
  - by rewrite then_compare_opp, <- !order_opp.
  - apply then_compare_trans; [apply _|apply order_trans].
  - intros [Hi Hm]%PreparedQuery_eq_spec. unfold PreparedQuery_hash. by rewrite Hi, Hm.
  - by apply PreparedQuery_eq_spec.
Qed.

(** The hash covers the id of the result metadata, which an execution may
    replace in place: a statement that is a key of a map is then neither equal
    to the key it was inserted as nor hashed like it. *)
Theorem executed_statement_changes_key (id : CBytesShort) (q : PreparedQuery) :
  pq_result_metadata_id q <> Some id ->
  PreparedQuery_eq (set_metadata_id id q) q = false /\
  PreparedQuery_hash (set_metadata_id id q) <> PreparedQuery_hash q.
Proof.
  assert (Hinj : forall a b, hash_bytes a = hash_bytes b -> a = b).
  { intros a b [= _ H]. revert b H. induction a as [|x a IH]; intros [|y b] H; try done. injection H as -> H. by rewrite (IH b). }
  assert (Hid : forall a b, CBytesShort_hash a = CBytesShort_hash b -> a = b).
  { intros [[a|]] [[b|]] H; try done. cbn [CBytesShort_hash hash_option CBytesShort_bytes] in H.
    injection H as H1 H2. by rewrite (Hinj a b) by (unfold hash_bytes; by rewrite H1, H2). }
  intros Hne. split.
  - apply not_true_is_false. intros [_ H]%PreparedQuery_eq_spec. by cbn in H.
  - unfold PreparedQuery_hash. cbn [set_metadata_id pq_id pq_result_metadata_id]. intros H%app_inv_head.
    destruct (pq_result_metadata_id q) as [m|]; [|done]. cbn [hash_option] in H. injection H as H%Hid. by subst.
Qed.

(** Equal tuples are hashed alike, although equality and hash ignore the types
    of the items. *)
Theorem tuple_keys a b : Tuple_eq a b = true -> Tuple_hash a = Tuple_hash b.
Proof.
  unfold Tuple_eq, Tuple_hash. destruct a as [a], b as [b]. cbn [tuple_data]. intros [Hl He]%andb_prop.
  apply bool_decide_eq_true in Hl. revert b Hl He. induction a as [|x a IH]; intros [|y b] Hl He; try done.
  cbn in Hl, He. apply andb_prop in He as [Hx He]. apply bool_decide_eq_true in Hx. cbn [map concat].
  by rewrite (IH b), Hx by (done || lia).
Qed.

Module KeysSamples.
Definition statement (m : option CBytesShort) : PreparedQuery := mkPreparedQuery (mkCBytesShort (Some [u8 7])) [] None [] m.
Definition meta (b : Z) : CBytesShort := mkCBytesShort (Some [u8 b]).

Lemma prepared_query_keys_witness :
  PreparedQuery_cmp (statement None) (statement (Some (meta 2))) = Lt /\
  PreparedQuery_hash (statement (Some (meta 1))) = PreparedQuery_hash (PreparedQuery_clone (statement (Some (meta 1)))).
Proof.
  split.
  - apply (prepared_query_keys (statement None) (statement (Some (meta 1))) (statement (Some (meta 2)))); reflexivity.
  - apply (prepared_query_keys (statement (Some (meta 1))) (PreparedQuery_clone (statement (Some (meta 1)))) (statement None)); reflexivity.
Defined.

Lemma executed_statement_changes_key_witness :
  PreparedQuery_eq (set_metadata_id (meta 2) (statement (Some (meta 1)))) (statement (Some (meta 1))) = false.
Proof. by apply executed_statement_changes_key. Defined.

Lemma tuple_keys_witness :
  Tuple_hash (mkTuple [(mkColTypeOption CtInt None, CBytes_new [u8 1])]) =
  Tuple_hash (mkTuple [(mkColTypeOption CtBlob None, CBytes_new [u8 1])]).
Proof. apply tuple_keys. reflexivity. Defined.
End KeysSamples.
