(* ===== verification/Speculation.v ===== *)
(** * Carrying out one request: [Session::send_envelope] ([cluster/session.rs])

    The plan is shared: several executions of [send_envelope] may run at
    once, each taking the next node of the plan when it needs one.  Their
    futures are polled by one task, so an execution runs undisturbed from one
    [await] to the next; an event of the model is what lets one of them, or
    the timer, proceed, and a run is any sequence of events.  Without a
    speculative execution policy, or for a request that is not idempotent,
    there is one execution and no timer. *)

From S2P Require Import Prelude Types Wire Envelope ErrorMsg Query Token Topology LoadBalancing Retry.
Local Open Scope Z_scope.
Local Open Scope cdrs_scope.

Section Speculation.
Context {U : UuidLib} {N : Type} {S : Type} `{!RetrySession S}.
(** [execution_interval] of the policy in force, if there is one, and a fresh retry session. *)
Context (interval : option (Z -> option Z)) (new_session : S) (is_idempotent : bool).

(** Where an execution of [send_envelope] waits: not polled yet, for a
    connection to a node, or for the answer of a node. *)
Inductive phase : Type := Starting | Connecting (n : N) | Writing (n : N).
Record Execution : Type := mkExecution {
  ex_id : nat; ex_phase : phase; ex_session : S; ex_saved : option Error }.

(** What [send_envelope] returned. *)
Definition completion : Type := option (Result Envelope).

Record SpecState : Type := mkSpec {
  st_plan : list N;                 (** what is left of the shared plan *)
  st_running : list Execution;      (** [async_tasks] *)
  st_executions : Z;                (** [context.running_executions] *)
  st_timer : bool;                  (** [sleep_fut] is not terminated *)
  st_last_error : option Error;
  st_done : option (Result Envelope);
  st_taken : list (nat * N);        (** which execution took which node, in order *)
  st_written : list (nat * N) }.    (** the writes made, in order *)

(** [Some(policy) if is_idempotent] *)
Definition speculating : option (Z -> option Z) := if is_idempotent then interval else None.

Definition spec_start (plan : list N) : SpecState :=
  mkSpec plan [mkExecution 0 Starting new_session None] 1
    (match speculating with Some _ => true | None => false end) None None [] [].

(** The result of the request when the plan is exhausted and nothing runs. *)
Definition no_nodes (last_error : option Error) : Result Envelope :=
  match last_error with Some e => Err e | None => Err (EGeneral "No nodes available in query plan!") end.

(** [Err(error::Error::Io(_)) | Err(error::Error::Timeout(_))] *)
Definition transient (e : Error) : bool := match e with EIo _ | ETimeout _ => true | _ => false end.

(** [result = async_tasks.select_next_some()]: an execution ended, the others being [running]. *)
Definition complete (c : completion) (running : list Execution) (s : SpecState) : SpecState :=
  let result (last_error : option Error) (done : option (Result Envelope)) :=
    mkSpec (st_plan s) running (st_executions s) (st_timer s) last_error done (st_taken s) (st_written s) in
  match speculating with
  | None => result (st_last_error s) (Some (match c with Some r => r | None => no_nodes None end))
  | Some _ =>
    match c with
    | Some (Err e) =>
      if transient e then result (Some e) None else result (st_last_error s) (Some (Err e))
    | Some r => result (st_last_error s) (Some r)
    | None =>
      match running with
      | [] => result (st_last_error s) (Some (no_nodes (st_last_error s)))
      | _ => result (st_last_error s) None
      end
    end
  end.

(** [for node in query_plan]: the next node of the shared plan, or the end. *)
Definition take_next (x : Execution) (before after : list Execution) (s : SpecState) : SpecState :=
  match st_plan s with
  | [] => complete (option_map Err (ex_saved x)) (before ++ after) s
  | n :: plan =>
    mkSpec plan (before ++ mkExecution (ex_id x) (Connecting n) (ex_session x) (ex_saved x) :: after)
      (st_executions s) (st_timer s) (st_last_error s) (st_done s) (st_taken s ++ [(ex_id x, n)]) (st_written s)
  end.

Inductive event : Type :=
| Fired                                     (** the timer *)
| Polled (i : nat)                          (** a new execution *)
| Connected (i : nat) (r : Result unit)     (** the connection an execution asked for *)
| Answered (i : nat) (r : Result Envelope)  (** the answer it waits for *)
| Idle.                                     (** the task, with nothing running and the timer pending *)

(** The execution at an index, with the ones before and after it. *)
Definition focus (i : nat) (l : list Execution) : option (list Execution * Execution * list Execution) :=
  match l !! i with Some x => Some (take i l, x, drop (Datatypes.S i) l) | None => None end.

Definition with_done (r : Result Envelope) (s : SpecState) : SpecState :=
  mkSpec (st_plan s) (st_running s) (st_executions s) (st_timer s) (st_last_error s) (Some r) (st_taken s) (st_written s).

(** One event, if the state allows it. *)
Definition spec_step (e : event) (s : SpecState) : option SpecState :=
  match st_done s with
  | Some _ => None
  | None =>
    match e with
    | Fired =>
      match speculating, st_timer s with
      | Some policy, true =>
        match policy (st_executions s) with
        | Some _ =>
          Some (mkSpec (st_plan s)
                  (st_running s ++ [mkExecution (Z.to_nat (st_executions s)) Starting new_session None])
                  (st_executions s + 1) true (st_last_error s) None (st_taken s) (st_written s))
        | None =>
          Some (mkSpec (st_plan s) (st_running s) (st_executions s) false (st_last_error s) None (st_taken s) (st_written s))
        end
      | _, _ => None
      end
    | Polled i =>
      match focus i (st_running s) with
      | Some (before, x, after) =>
        match ex_phase x with Starting => Some (take_next x before after s) | _ => None end
      | None => None
      end
    | Connected i r =>
      match focus i (st_running s) with
      | Some (before, x, after) =>
        match ex_phase x with
        | Connecting n =>
          match r with
          | Ok _ =>
            Some (mkSpec (st_plan s) (before ++ mkExecution (ex_id x) (Writing n) (ex_session x) (ex_saved x) :: after)
                    (st_executions s) (st_timer s) (st_last_error s) None (st_taken s) (st_written s ++ [(ex_id x, n)]))
          | Err error => Some (take_next (mkExecution (ex_id x) (ex_phase x) (ex_session x) (Some error)) before after s)
          | Panic => Some (with_done Panic s)
          end
        | _ => None
        end
      | None => None
      end
    | Answered i r =>
      match focus i (st_running s) with
      | Some (before, x, after) =>
        match ex_phase x with
        | Writing n =>
          match r with
          | Ok envelope => Some (complete (Some (Ok envelope)) (before ++ after) s)
          | Err error =>
            let '(decision, session') := decide_retry (ex_session x) (mkQueryInfo error is_idempotent) in
            match decision with
            | RetrySameNode =>
              Some (mkSpec (st_plan s) (before ++ mkExecution (ex_id x) (Connecting n) session' (ex_saved x) :: after)
                      (st_executions s) (st_timer s) (st_last_error s) None (st_taken s) (st_written s))
            | RetryNextNode => Some (take_next (mkExecution (ex_id x) (ex_phase x) session' (ex_saved x)) before after s)
            | DontRetry => Some (complete (Some (Err error)) (before ++ after) s)
            end
          | Panic => Some (with_done Panic s)
          end
        | _ => None
        end
      | None => None
      end
    | Idle =>
      (** [select_next_some] must not be polled again once the set is empty, and [tokio::select!] does. *)
      match st_running s with [] => Some (with_done Panic s) | _ => None end
    end
  end.

Fixpoint spec_run (es : list event) (s : SpecState) : option SpecState :=
  match es with
  | [] => Some s
  | e :: es => match spec_step e s with Some s => spec_run es s | None => None end
  end.

(** ** Invariant *)

Definition phase_node (x : Execution) : option N :=
  match ex_phase x with Starting => None | Connecting n | Writing n => Some n end.

(** The nodes are taken from the front of the plan, each by one execution;
    executions wait for, and write to, nodes they took; there is one
    execution unless the request speculates, and then as many as the policy
    allows. *)
Record spec_inv (plan : list N) (s : SpecState) : Prop := {
  inv_taken : (st_taken s).*2 ++ st_plan s = plan;
  inv_running : Forall (fun x => forall n, phase_node x = Some n -> (ex_id x, n) ∈ st_taken s) (st_running s);
  inv_written : Forall (fun p => p ∈ st_taken s) (st_written s);
  inv_count : zlen (st_running s) <= st_executions s;
  inv_policy : st_executions s = 1 \/
    exists policy d, speculating = Some policy /\ policy (st_executions s - 1) = Some d }.

Lemma focus_spec i l before x after : focus i l = Some (before, x, after) -> l = before ++ x :: after.
Proof.
  unfold focus. destruct (l !! i) as [y|] eqn:E; [|done]. intros; simplify_eq. symmetry. by apply take_drop_middle.
Qed.

Lemma spec_inv_start plan : spec_inv plan (spec_start plan).
Proof. split; simpl; [done|by repeat constructor|done|done|by left]. Qed.

(** An execution leaves, or another takes its place. *)
Lemma running_drop (P : Execution -> Prop) before x after :
  Forall P (before ++ x :: after) -> Forall P (before ++ after) /\ P x.
Proof. rewrite !Forall_app, Forall_cons. tauto. Qed.
Lemma running_swap (P : Execution -> Prop) before x y after :
  Forall P (before ++ x :: after) -> P y -> Forall P (before ++ y :: after).
Proof. rewrite !Forall_app, !Forall_cons. tauto. Qed.

Lemma complete_inv plan c before x after s : st_running s = before ++ x :: after ->
  spec_inv plan s -> spec_inv plan (complete c (before ++ after) s).
Proof.
  intros Hr [H1 H2 H3 H4 H5]. rewrite Hr in H2, H4. apply running_drop in H2 as [H2 _].
  assert (Hc : zlen (before ++ after) <= st_executions s) by (rewrite zlen_app, zlen_cons in H4; rewrite zlen_app; lia).
  clear Hr H4. revert H2 Hc. generalize (before ++ after) as running. intros running H2 Hc.
  unfold complete. destruct speculating eqn:Es; destruct c as [[]|]; try destruct (transient e); try destruct running;
    split; cbn [st_taken st_plan st_running st_written st_executions]; rewrite ?Es; done.
Qed.

Lemma take_next_inv plan x y before after s : st_running s = before ++ x :: after ->
  spec_inv plan s -> spec_inv plan (take_next y before after s).
Proof.
  intros Hr Hi. unfold take_next. destruct (st_plan s) as [|n rest] eqn:Ep; [by eapply complete_inv|].
  destruct Hi as [H1 H2 H3 H4 H5]. rewrite Ep in H1. rewrite Hr in H2, H4.
  split; cbn [st_taken st_plan st_running st_written st_executions].
  - rewrite fmap_app, <- app_assoc. exact H1.
  - eapply running_swap.
    + eapply Forall_impl; [exact H2|]. intros z Hz m Hm. apply elem_of_app. left. auto.
    + intros m [= <-]. apply elem_of_app. right. by left.
  - eapply Forall_impl; [exact H3|]. intros p Hp. apply elem_of_app. by left.
  - by rewrite zlen_app, zlen_cons in *.
  - done.
Qed.

Lemma spec_step_inv plan e s s' : spec_inv plan s -> spec_step e s = Some s' -> spec_inv plan s'.
Proof.
  intros Hi. unfold spec_step. destruct (st_done s); [done|].
  destruct e as [|i|i r|i r|]; [|destruct (focus i (st_running s)) as [[[before x] after]|] eqn:Ef; [|done]..|].
  - destruct speculating as [policy|] eqn:Es; [|done]. destruct (st_timer s); [|done]. destruct Hi as [H1 H2 H3 H4 H5].
    destruct (policy (st_executions s)) as [d|] eqn:Ep; intros; simplify_eq.
    + split; cbn [st_taken st_plan st_running st_written st_executions]; [done| |done| |].
      * apply Forall_app. split; [done|]. by repeat constructor.
      * rewrite zlen_app. unfold zlen at 2. simpl. lia.
      * right. exists policy, d. split; [done|]. by replace (st_executions s + 1 - 1) with (st_executions s) by lia.
    + split; done.
  - apply focus_spec in Ef. destruct (ex_phase x) eqn:Ex; [|done..]. intros; simplify_eq. by eapply take_next_inv.
  - apply focus_spec in Ef. destruct (ex_phase x) as [|n|n] eqn:Ex; [done| |done]. destruct r as [[]|err|]; intros; simplify_eq.
    + destruct Hi as [H1 H2 H3 H4 H5]. rewrite Ef in H2, H4. pose proof (running_drop _ _ _ _ H2) as [_ Hx].
      assert (Hn : (ex_id x, n) ∈ st_taken s) by (apply Hx; unfold phase_node; by rewrite Ex).
      split; cbn [st_taken st_plan st_running st_written st_executions]; [done| | |by rewrite zlen_app, zlen_cons in *|done].
      * eapply running_swap; [exact H2|]. intros m [= <-]. exact Hn.
      * apply Forall_app. by repeat constructor.
    + by eapply take_next_inv.
    + destruct Hi. by split.
  - apply focus_spec in Ef. destruct (ex_phase x) as [|n|n] eqn:Ex; [done..|]. destruct r as [env|err|].
    + intros; simplify_eq. by eapply complete_inv.
    + destruct (decide_retry _ _) as [[] session']; intros; simplify_eq.
      * destruct Hi as [H1 H2 H3 H4 H5]. rewrite Ef in H2, H4. pose proof (running_drop _ _ _ _ H2) as [_ Hx].
        split; cbn [st_taken st_plan st_running st_written st_executions]; [done| |done|by rewrite zlen_app, zlen_cons in *|done].
        eapply running_swap; [exact H2|]. intros m [= <-]. apply Hx. unfold phase_node. by rewrite Ex.
      * by eapply take_next_inv.
      * by eapply complete_inv.
    + intros; simplify_eq. destruct Hi. by split.
  - destruct (st_running s) eqn:Er; [|done]. intros; simplify_eq. destruct Hi. by split.
Qed.

Lemma spec_run_inv plan es s s' : spec_inv plan s -> spec_run es s = Some s' -> spec_inv plan s'.
Proof.
  revert s. induction es as [|e es IH]; intros s Hi; simpl; [intros; by simplify_eq|].
  destruct (spec_step e s) as [s1|] eqn:E; [|done]. apply IH. by eapply spec_step_inv.
Qed.

(** A request returns an envelope only when an execution got it as an answer. *)
Lemma spec_step_ok e s s' envelope : spec_step e s = Some s' -> st_done s' = Some (Ok envelope) ->
  exists i, e = Answered i (Ok envelope).
Proof.
  assert (Hc : forall c running, st_done (complete c running s) = Some (Ok envelope) -> c = Some (Ok envelope)).
  { intros c running. unfold complete, no_nodes. repeat (case_match; simplify_eq/=; try done). }
  assert (Ht : forall x before after, st_done s = None -> st_done (take_next x before after s) = Some (Ok envelope) -> False).
  { intros x before after Hn. unfold take_next. case_match; [|cbn; by rewrite Hn].
    intros H1%Hc. by destruct (ex_saved x). }
  unfold spec_step. destruct (st_done s) eqn:Hn; [done|]. intros Hs Hd.
  repeat (case_match; simplify_eq/=; try done); try (by exfalso; eapply Ht); try (apply Hc in Hd); simplify_eq/=; eauto.
Qed.

(** Executions have identities of their own. *)
Record ids_inv (s : SpecState) : Prop := {
  ids_distinct : NoDup (map ex_id (st_running s));
  ids_below : Forall (fun i => Z.of_nat i < st_executions s) (map ex_id (st_running s));
  ids_some : 0 < st_executions s }.

Lemma ids_inv_start plan : ids_inv (spec_start plan).
Proof. split; simpl; [apply NoDup_singleton|by repeat constructor|done]. Qed.

Lemma ids_inv_drop s s' before x after : ids_inv s -> st_running s = before ++ x :: after ->
  st_executions s' = st_executions s ->
  map ex_id (st_running s') = map ex_id (before ++ x :: after) \/ map ex_id (st_running s') = map ex_id (before ++ after) ->
  ids_inv s'.
Proof.
  intros [H1 H2 H3] Hr He Hm. rewrite Hr in H1, H2.
  assert (Hsub : sublist (map ex_id (st_running s')) (map ex_id (before ++ x :: after))).
  { destruct Hm as [-> | ->]; [done|]. rewrite !map_app. apply sublist_app; [done|]. simpl. by apply sublist_cons. }
  split; rewrite ?He; [by eapply sublist_NoDup| |done].
  rewrite Forall_forall in H2 |- *. intros i Hi. apply H2. by eapply elem_of_sublist.
Qed.

Lemma complete_running c running s : st_running (complete c running s) = running.
Proof. unfold complete. repeat case_match; done. Qed.
Lemma complete_executions c running s : st_executions (complete c running s) = st_executions s.
Proof. unfold complete. repeat case_match; done. Qed.
Lemma take_next_ids x y before after s : ex_id y = ex_id x ->
  st_executions (take_next y before after s) = st_executions s /\
  (map ex_id (st_running (take_next y before after s)) = map ex_id (before ++ x :: after) \/
   map ex_id (st_running (take_next y before after s)) = map ex_id (before ++ after)).
Proof.
  intros Hy. unfold take_next. destruct (st_plan s); rewrite ?complete_running, ?complete_executions; [by eauto|].
  split; [done|left]. cbn [st_running]. by rewrite !map_app; simpl; rewrite Hy.
Qed.

Lemma spec_step_ids e s s' : ids_inv s -> spec_step e s = Some s' -> ids_inv s'.
Proof.
  intros Hi. unfold spec_step. destruct (st_done s); [done|].
  destruct e as [|i|i r|i r|]; [|destruct (focus i (st_running s)) as [[[before x] after]|] eqn:Ef; [apply focus_spec in Ef|done]..|].
  - destruct Hi as [H1 H2 H3]. destruct speculating; [|done]. destruct (st_timer s); [|done]. case_match; intros [= <-]; [|by split].
    split; cbn [st_running st_executions]; rewrite ?map_app; [| |lia].
    + apply NoDup_app. split; [done|]. split; [|apply NoDup_singleton]. intros j Hj ->%list_elem_of_singleton.
      rewrite Forall_forall in H2. apply H2 in Hj. cbn [ex_id] in Hj. lia.
    + apply Forall_app. split; [eapply Forall_impl; [exact H2|]; simpl; lia|]. repeat constructor. simpl. lia.
  - destruct (ex_phase x); [|done..]. intros [= <-].
    destruct (take_next_ids x x before after s eq_refl) as [He Hm]. by eapply ids_inv_drop.
  - destruct (ex_phase x); [done| |done]. destruct r as [u|err|]; intros [= <-].
    + eapply ids_inv_drop; [done..|]. left. cbn [st_running]. by rewrite !map_app.
    + destruct (take_next_ids x (mkExecution (ex_id x) (ex_phase x) (ex_session x) (Some err)) before after s eq_refl) as [He Hm].
      by eapply ids_inv_drop.
    + destruct Hi. by split.
  - destruct (ex_phase x); [done..|]. destruct r as [env|err|].
    + intros [= <-]. eapply ids_inv_drop; [done..|apply complete_executions|]. right. by rewrite complete_running.
    + destruct (decide_retry _ _) as [[] session']; intros [= <-].
      * eapply ids_inv_drop; [done..|]. left. cbn [st_running]. by rewrite !map_app.
      * destruct (take_next_ids x (mkExecution (ex_id x) (ex_phase x) session' (ex_saved x)) before after s eq_refl) as [He Hm].
        by eapply ids_inv_drop.
      * eapply ids_inv_drop; [done..|apply complete_executions|]. right. by rewrite complete_running.
    + intros [= <-]. destruct Hi. by split.
  - destruct (st_running s) eqn:Er; [|done]. intros [= <-]. destruct Hi. by split.
Qed.

(** An execution waits for an answer from the moment it has a connection. *)
Lemma spec_step_writing e s s' x n : spec_step e s = Some s' -> x ∈ st_running s' -> ex_phase x = Writing n ->
  x ∈ st_running s \/
  exists i before y after, e = Connected i (Ok tt) /\ focus i (st_running s) = Some (before, y, after) /\
    ex_phase y = Connecting n /\ ex_id x = ex_id y.
Proof.
  assert (Hsub : forall before y after, st_running s = before ++ y :: after -> x ∈ before ++ after -> x ∈ st_running s).
  { intros before y after -> Hin. rewrite elem_of_app in *. rewrite elem_of_cons. tauto. }
  assert (Hmid : forall before (y z : Execution) after, st_running s = before ++ y :: after ->
    x ∈ before ++ z :: after -> x = z \/ x ∈ st_running s).
  { intros before y z after -> Hin. rewrite !elem_of_app, !elem_of_cons in *. tauto. }
  assert (Htake : forall y before z after, st_running s = before ++ z :: after ->
    x ∈ st_running (take_next y before after s) -> ex_phase x = Writing n -> x ∈ st_running s).
  { intros y before z after Hr. unfold take_next. destruct (st_plan s); rewrite ?complete_running; [by eauto|].
    cbn [st_running]. intros [->|?]%(Hmid _ _ _ _ Hr) Hp; [done|done]. }
  unfold spec_step. destruct (st_done s); [done|]. intros Hs Hin Hp.
  destruct e as [|i|i r|i r|]; [|destruct (focus i (st_running s)) as [[[before y] after]|] eqn:Ef; [|done]..|];
    [| | | |by destruct (st_running s) eqn:Er; simplify_eq/=; rewrite Er in Hin; set_solver].
  - left. destruct speculating; [|done]. destruct (st_timer s); [|done]. case_match; simplify_eq/=; [|done].
    apply elem_of_app in Hin as [?|Hl]; [done|]. apply list_elem_of_singleton in Hl as ->. done.
  - left. apply focus_spec in Ef. destruct (ex_phase y); simplify_eq/=. by eapply Htake.
  - pose proof Ef as Hr%focus_spec. destruct (ex_phase y) as [|m|m] eqn:Hy; [done| |done].
    destruct r as [[]|err|]; simplify_eq/=; [|left; by eapply Htake|by left].
    apply (Hmid _ _ _ _ Hr) in Hin as [->|Hin]; [right|by left]. simpl in Hp. simplify_eq. by exists i, before, y, after.
  - left. apply focus_spec in Ef. destruct (ex_phase y) as [|m|m] eqn:Hy; [done..|]. destruct r as [env|err|].
    + simplify_eq/=. rewrite complete_running in Hin. by eapply Hsub.
    + destruct (decide_retry _ _) as [[] session']; simplify_eq/=; [|by eapply Htake|].
      * by apply (Hmid _ _ _ _ Ef) in Hin as [->|Hin].
      * rewrite complete_running in Hin. by eapply Hsub.
    + by simplify_eq/=.
Qed.

Lemma spec_step_written e s s' p : spec_step e s = Some s' -> p ∈ st_written s -> p ∈ st_written s'.
Proof.
  assert (Hc : forall c running, st_written (complete c running s) = st_written s) by (intros; unfold complete; by repeat case_match).
  assert (Ht : forall x before after, st_written (take_next x before after s) = st_written s)
    by (intros; unfold take_next; case_match; [apply Hc|done]).
  unfold spec_step. destruct (st_done s); [done|]. intros Hs Hin.
  repeat (case_match; simplify_eq/=; try done); rewrite ?Ht, ?Hc; try done. apply elem_of_app. by left.
Qed.

(** An execution that is handed a connection writes to the node it chose. *)
Lemma spec_step_connected i s s' before x after n : focus i (st_running s) = Some (before, x, after) ->
  ex_phase x = Connecting n -> spec_step (Connected i (Ok tt)) s = Some s' ->
  focus i (st_running s') = Some (before, mkExecution (ex_id x) (Writing n) (ex_session x) (ex_saved x), after) /\
  st_written s' = st_written s ++ [(ex_id x, n)].
Proof.
  intros Hf Hp. unfold spec_step. destruct (st_done s); [done|]. rewrite Hf, Hp. intros [= <-]. split; [|done].
  cbn [st_running]. unfold focus in *. destruct (st_running s !! i) as [y|] eqn:E; [|done]. injection Hf as <- -> <-.
  assert (Hi : length (take i (st_running s)) = i) by (apply lookup_lt_Some in E; rewrite length_take; lia).
  rewrite list_lookup_middle by done. f_equal. f_equal; [f_equal|].
  - by apply take_app_length'.
  - rewrite <- (Nat.add_1_r i), <- drop_drop, drop_app_length' by done. done.
Qed.

Lemma spec_step_running e s s' : spec_step e s = Some s' -> st_done s = None.
Proof. unfold spec_step. by destruct (st_done s). Qed.

Lemma same_execution s x y : ids_inv s -> x ∈ st_running s -> y ∈ st_running s -> ex_id x = ex_id y -> x = y.
Proof.
  intros [Hn _ _] [i Hi]%list_elem_of_lookup [j Hj]%list_elem_of_lookup He.
  assert (i = j); [|by simplify_eq]. eapply (NoDup_lookup (map ex_id (st_running s)) i j (ex_id x)); [done|..];
    rewrite list_lookup_fmap; [by rewrite Hi|by rewrite Hj, He].
Qed.

(** An execution that got its answer does not wait for it any more. *)
Lemma spec_step_answered i r s s' before x after y n : focus i (st_running s) = Some (before, x, after) ->
  spec_step (Answered i r) s = Some s' -> st_done s' = None -> y ∈ st_running s' -> ex_phase y = Writing n ->
  y ∈ before ++ after.
Proof.
  intros Hf. unfold spec_step. destruct (st_done s); [done|]. rewrite Hf.
  assert (Hmid : forall z, (forall m, ex_phase z <> Writing m) -> y ∈ before ++ z :: after -> ex_phase y = Writing n -> y ∈ before ++ after).
  { intros z Hz Hin Hy. rewrite elem_of_app, elem_of_cons in Hin. rewrite elem_of_app.
    destruct Hin as [?|[->|?]]; [by left|by destruct (Hz n)|by right]. }
  destruct (ex_phase x); [done..|]. destruct r as [env|err|]; [|destruct (decide_retry _ _) as [[] session']|];
    intros [= <-] Hn; rewrite ?complete_running; try done.
  - cbn [st_running]. by apply Hmid.
  - unfold take_next. destruct (st_plan s); [by rewrite complete_running|]. cbn [st_running]. by apply Hmid.
Qed.

(** Whatever the answer is, an execution that waits for it can take it. *)
Lemma spec_step_answers i r s x n : st_done s = None -> st_running s !! i = Some x -> ex_phase x = Writing n ->
  is_Some (spec_step (Answered i r) s).
Proof.
  intros Hd Hx Hp. unfold spec_step, focus. rewrite Hd, Hx, Hp. destruct r as [env|err|]; [done| |done].
  by destruct (decide_retry _ _) as [[] session'].
Qed.

Lemma NoDup_snd_inj {A B} (l : list (A * B)) a a' b : NoDup l.*2 -> (a, b) ∈ l -> (a', b) ∈ l -> a = a'.
Proof.
  intros Hn H1 H2. apply list_elem_of_lookup in H1 as [i Hi]. apply list_elem_of_lookup in H2 as [j Hj].
  assert (i = j); [|by simplify_eq]. eapply (NoDup_lookup l.*2 i j b); [done|..];
    rewrite list_lookup_fmap; [by rewrite Hi|by rewrite Hj].
Qed.

(** C12: in every interleaving of the executions of a request, the nodes are
    taken from the plan in order; only nodes of the plan are written to; when
    the plan has no repetitions no two executions write to the same node; a
    request that is not idempotent has one execution, and the others no more
    than the policy allows. *)
Theorem executions_share_plan (plan : list N) (es : list event) (s : SpecState) :
  spec_run es (spec_start plan) = Some s ->
  (exists k, (st_taken s).*2 = take k plan) /\
  (forall i n, (i, n) ∈ st_written s -> n ∈ plan) /\
  (NoDup plan -> forall i j n, (i, n) ∈ st_written s -> (j, n) ∈ st_written s -> i = j) /\
  zlen (st_running s) <= st_executions s /\
  (is_idempotent = false -> st_executions s = 1) /\
  (st_executions s = 1 \/ exists policy d, interval = Some policy /\ policy (st_executions s - 1) = Some d).
Proof.
  intros Hr. apply (spec_run_inv plan) in Hr as [H1 H2 H3 H4 H5]; [|apply spec_inv_start].
  rewrite Forall_forall in H3. split_and!.
  - exists (length (st_taken s).*2). by rewrite <- H1, take_app_length.
  - intros i n Hw%H3. rewrite <- H1. apply elem_of_app. left. by apply (list_elem_of_fmap_2 snd) in Hw.
  - intros Hn i j n Hi%H3 Hj%H3. eapply NoDup_snd_inj; [|done..]. rewrite <- H1 in Hn. by apply NoDup_app in Hn as [? _].
  - done.
  - intros Hf. destruct H5 as [|(policy & d & Hs & _)]; [done|]. unfold speculating in Hs. by rewrite Hf in Hs.
  - destruct H5 as [|(policy & d & Hs & Hd)]; [by left|right]. exists policy, d. split; [|done].
    unfold speculating in Hs. by destruct is_idempotent.
Qed.

Lemma spec_run_app es es' s :
  spec_run (es ++ es') s = match spec_run es s with Some s => spec_run es' s | None => None end.
Proof. revert s. induction es as [|e es IH]; intros s; simpl; [done|]. by destruct (spec_step e s). Qed.

(** The first execution finding that no node can be connected to. *)
Fixpoint unreachable (plan : list N) (k : io_kind) : list event :=
  match plan with [] => [] | _ :: plan => Connected 0 (Err (EIo k)) :: unreachable plan k end.

Lemma unreachable_run policy plan k n saved taken :
  speculating = Some policy ->
  spec_run (unreachable (n :: plan) k)
    (mkSpec plan [mkExecution 0 (Connecting n) new_session saved] 1 true None None taken [])
  = Some (mkSpec [] [] 1 true (Some (EIo k)) None (taken ++ map (pair 0%nat) plan) []).
Proof.
  intros Hs. revert n saved taken. induction plan as [|n' plan IH]; intros n saved taken;
    cbn [unreachable spec_run]; unfold spec_step at 1, take_next; simpl.
  - unfold complete. rewrite Hs. simpl. by rewrite app_nil_r.
  - etransitivity; [exact (IH n' (Some (EIo k)) (taken ++ [(0%nat, n')]))|]. by rewrite <- app_assoc.
Qed.

(** With a speculative execution policy, a request all of whose nodes are
    found unreachable with an I/O error before the policy's first delay is
    over does not return that error: the session polls an empty set of
    executions, which panics. *)
Theorem unreachable_nodes_panic (policy : Z -> option Z) (plan : list N) (k : io_kind) :
  interval = Some policy -> is_idempotent = true -> plan <> [] ->
  exists s, spec_run (Polled 0 :: unreachable plan k ++ [Idle]) (spec_start plan) = Some s /\ st_done s = Some Panic.
Proof.
  intros Hp Hi Hne. assert (Hs : speculating = Some policy) by (unfold speculating; by rewrite Hi).
  destruct plan as [|n plan]; [done|].
  assert (H0 : spec_step (Polled 0) (spec_start (n :: plan))
    = Some (mkSpec plan [mkExecution 0 (Connecting n) new_session None] 1 true None None [(0%nat, n)] [])).
  { unfold spec_step, spec_start. by rewrite Hs. }
  cbn [spec_run]. rewrite H0, spec_run_app, (unreachable_run policy) by done. by eexists.
Qed.
End Speculation.

(** ** With the load balancing strategies *)

Section Routing.
Context {U : UuidLib} {HU : HashIter Uuid} {US : UnstableSort} {SH : Shuffle}.
Context {LB : Type} `{!LoadBalancingStrategy LB} `{!ServingStrategy LB}.
Context {S : Type} `{!RetrySession S} (interval : option (Z -> option Z)) (new_session : S) (is_idempotent : bool).

(** [Request::new(keyspace.or(current_keyspace), token, routing_key, consistency)] *)
Definition routed_request (keyspace current_keyspace : option bytes) (token : option Murmur3Token)
    (routing_key : option bytes) (consistency : option Consistency) : Request :=
  mkRequest (match keyspace with Some k => Some k | None => current_keyspace end) token routing_key consistency.

(** C13: once the cluster is known, every write of a request, by whichever
    strategy it is routed and however its executions interleave, goes to a
    node that was up and had a distance when the plan was made. *)
Theorem writes_reach_usable_nodes (lb : InitializingWrapper LB) (draws : Z * Z) (request : Request)
    (c : ClusterMetadata) (h : Heap) (es : list event) (s : SpecState) :
  has_nodes c = true ->
  spec_run interval new_session is_idempotent es
    (spec_start interval new_session is_idempotent (query_plan lb draws (Some request) c h).1) = Some s ->
  forall i n, (i, n) ∈ st_written s -> is_ignored n h = false.
Proof using Type HU ServingStrategy0.
  intros Hc Hr i n Hw. apply (spec_run_inv _ _ _ (query_plan lb draws (Some request) c h).1) in Hr; [|apply spec_inv_start].
  destruct Hr as [H1 _ H3 _ _]. rewrite Forall_forall in H3. apply H3 in Hw.
  assert (Hn : n ∈ (query_plan lb draws (Some request) c h).1).
  { rewrite <- H1. apply elem_of_app. left. by apply (list_elem_of_fmap_2 snd) in Hw. }
  unfold query_plan, Initializing_strategy in Hn. rewrite Hc in Hn.
  pose proof (plan_serves (inner lb) draws (Some request) c h) as [Hu _].
  destruct (query_plan (inner lb) draws (Some request) c h). rewrite Forall_forall in Hu. by apply Hu.
Qed.
End Routing.

(** ** Witnesses *)

Module SpeculationSamples.
#[local] Existing Instance uuid_bytes.
Definition policy (running : Z) : option Z := if running <? 2 then Some 100 else None.
Definition void : Envelope := mkEnvelope V4 Response 0 OpResult 1 [] None [].

(** The first execution waits for node 1 when the second is answered by node 2. *)
Definition overtaking : list (event) :=
  [Polled 0; Connected 0 (Ok tt); Fired; Polled 1; Connected 1 (Ok tt); Answered 1 (Ok void)].
Definition overtaken : option (SpecState (N := Z) (S := DefaultRetrySession)) :=
  spec_run (Some policy) DefaultRetrySession_default true overtaking
    (spec_start (Some policy) DefaultRetrySession_default true [1; 2; 3]).

Lemma executions_share_plan_witness :
  exists s, overtaken = Some s /\ st_written s = [(0%nat, 1); (1%nat, 2)] /\ st_done s = Some (Ok void) /\
    exists k, (st_taken s).*2 = take k [1; 2; 3].
Proof.
  eexists. split; [vm_compute; reflexivity|]. split; [reflexivity|]. split; [reflexivity|].
  apply (executions_share_plan (Some policy) DefaultRetrySession_default true [1; 2; 3] overtaking). vm_compute. reflexivity.
Defined.

Lemma unreachable_nodes_panic_witness :
  exists s, spec_run (N := Z) (Some policy) DefaultRetrySession_default true
              (Polled 0 :: unreachable [1; 2] BrokenPipe ++ [Idle])
              (spec_start (Some policy) DefaultRetrySession_default true [1; 2]) = Some s /\ st_done s = Some Panic.
Proof. by apply (unreachable_nodes_panic (Some policy) DefaultRetrySession_default true policy [1; 2] BrokenPipe). Defined.

(** A query routed by token in the cluster of [LoadBalancingSamples], with an
    execution for each of its two nodes. *)
#[local] Existing Instance merge_unstable.
#[local] Existing Instance rotating_shuffle.
#[local] Instance order : HashIter Uuid := default_iter Uuid.
Definition routed : Request := routed_request None (Some (lit "ks")) (Some (mkToken 20)) None (Some Quorum).
Definition routed_plan : list Node :=
  (query_plan (S := InitializingWrapper TopologyAwareLoadBalancingStrategy)
     LoadBalancingSamples.wrapped (0, 0) (Some routed) LoadBalancingSamples.cluster LoadBalancingSamples.heap).1.
Definition routed_run : option (SpecState (N := Node) (S := DefaultRetrySession)) :=
  spec_run (Some policy) DefaultRetrySession_default true overtaking
    (spec_start (Some policy) DefaultRetrySession_default true routed_plan).
Definition routed_writes : list (nat * Node) := match routed_run with Some s => st_written s | None => [] end.

Lemma writes_reach_usable_nodes_witness :
  length routed_writes = 2%nat /\ exists s, routed_run = Some s /\
    forall i n, (i, n) ∈ st_written s -> is_ignored n LoadBalancingSamples.heap = false.
Proof.
  split; [vm_compute; reflexivity|].
  assert (H : match routed_run with Some _ => true | None => false end = true) by (vm_compute; reflexivity).
  destruct routed_run as [s|] eqn:E; [clear H|discriminate H].
  exists s. split; [reflexivity|].
  apply (writes_reach_usable_nodes (Some policy) DefaultRetrySession_default true LoadBalancingSamples.wrapped (0, 0)
           routed LoadBalancingSamples.cluster LoadBalancingSamples.heap overtaking s); [vm_compute; reflexivity|exact E].
Defined.
End SpeculationSamples.
