(* ===== verification/Dispatch.v ===== *)
(** * A request over the connections of its nodes

    [Speculation] carries out a request against answers that come from
    anywhere, [Connection] answers the requests put on one connection.  Here
    they run together: the executions of [cluster/send_envelope.rs] write the
    envelope to connections of their nodes through [write_envelope] of
    [transport.rs] and take the answer its receiver yields, while the task of
    every connection and other requesters go on, in any interleaving. *)

From S2P Require Import Prelude Types Wire Compression Crc Envelope Frame FrameStream Query ErrorMsg Results Responses Transport Writer Reader Connection Retry Speculation.
Local Open Scope Z_scope.
Local Open Scope cdrs_scope.

Section Dispatch.
Context {U : UuidLib} {L : Lz4Lib} {SN : SnapLib} {HZ : HashIter Z}.
Context {E : Type} `{!FrameEncoder E} {W : Type} `{!AsyncWrite W} {D : Type} `{!FrameDecoder D}.
Context {N : Type} `{!EqDecision N} {S : Type} `{!RetrySession S}.
(** The request: its envelope, policies and whether it is idempotent. *)
Context (envelope : Envelope) (interval : option (Z -> option Z)) (new_session : S) (is_idempotent : bool).
(** The connections the pools ever hold, by number: the node of each, its
    address, and what it starts with. *)
Context (owner : nat -> N) (addr : nat -> SocketAddr) (encoders : nat -> E) (halves : nat -> W) (decoders : nat -> D).
Context (keyspaces : nat -> KeyspaceHolder).
Context (compression : Compression) (buffer_size : nat) (event_handler error_handler : bool).

Definition fresh (k : nat) : Connection (E := E) (W := W) (D := D) :=
  Connection_new (encoders k) (halves k) (decoders k) (keyspaces k).

(** The executions, the connections, the handler and connection of the write an
    execution made last, and the next oneshot channel. *)
Record Dispatch : Type := mkDispatch {
  ds_spec : SpecState (N := N) (S := S);
  ds_conns : list (Connection (E := E) (W := W) (D := D));
  ds_writes : list (nat * (nat * handler));
  ds_next : handler }.

Definition ds_start (plan : list N) (connections : nat) : Dispatch :=
  mkDispatch (spec_start interval new_session is_idempotent plan) (map fresh (seq 0 connections)) [] 0%nat.

Definition with_spec (s : SpecState (N := N) (S := S)) (d : Dispatch) : Dispatch := mkDispatch s (ds_conns d) (ds_writes d) (ds_next d).

(** The write an execution waits for. *)
Definition waits_for (d : Dispatch) (execution : nat) : option (nat * handler) :=
  snd <$> find (fun w => bool_decide (w.1 = execution)) (ds_writes d).

Inductive ds_event : Type :=
| Proceeds (e : Speculation.event)     (** the request, but for writes and answers *)
| Writes (i k : nat)                   (** the execution at an index is handed a connection *)
| Hears (i : nat)                      (** it gets the answer *)
| Works (k : nat) (e : cn_event).      (** a connection, or another requester on it *)

Definition spec_event (e : Speculation.event) (s : SpecState (N := N) (S := S)) : option (SpecState (N := N) (S := S)) :=
  spec_step interval new_session is_idempotent e s.

(** [let transport = node.persistent_connection().await] gives a connection of
    the node; then [transport.write_envelope(envelope, false)], which waits
    while the channel of the connection is full. *)
Definition ds_write (i k : nat) (d : Dispatch) : option Dispatch :=
  match focus i (st_running (ds_spec d)), ds_conns d !! k with
  | Some (_, x, _), Some c =>
    match ex_phase x with
    | Connecting n =>
      if bool_decide (owner k = n) then
        match write_envelope compression buffer_size envelope false (ds_next d) c, spec_event (Connected i (Ok tt)) (ds_spec d) with
        | Some r, Some s =>
          match r with
          | Ok c => Some (mkDispatch s (<[k := c]> (ds_conns d)) ((ex_id x, (k, ds_next d)) :: ds_writes d)
                            (Datatypes.S (ds_next d)))
          | Err error => (fun s => with_spec s d) <$> spec_event (Answered i (Err error)) s
          | Panic => (fun s => with_spec s d) <$> spec_event (Answered i Panic) s
          end
        | _, _ => None
        end
      else None
    | _ => None
    end
  | _, _ => None
  end.

(** What the receiver of the execution's write yields. *)
Definition ds_answer (d : Dispatch) (x : Execution (N := N) (S := S)) : option (Result Envelope) :=
  match waits_for d (ex_id x) with
  | Some (k, h) => match ds_conns d !! k with Some c => response_of h c | None => None end
  | None => None
  end.
Definition ds_hear (i : nat) (d : Dispatch) : option Dispatch :=
  match focus i (st_running (ds_spec d)) with
  | Some (_, x, _) =>
    match ds_answer d x with
    | Some r => (fun s => with_spec s d) <$> spec_event (Answered i r) (ds_spec d)
    | None => None
    end
  | None => None
  end.

(** A oneshot channel is made for each request. *)
Definition ds_work (k : nat) (e : cn_event) (d : Dispatch) : option Dispatch :=
  let next :=
    match e with
    | ESubmit _ _ h => if bool_decide (h = ds_next d) then Some (Datatypes.S (ds_next d)) else None
    | _ => Some (ds_next d)
    end in
  match next, ds_conns d !! k with
  | Some next, Some c =>
    (fun c => mkDispatch (ds_spec d) (<[k := c]> (ds_conns d)) (ds_writes d) next)
      <$> conn_step (addr k) compression buffer_size event_handler error_handler e c
  | _, _ => None
  end.

(** One event, as long as the request has not returned. *)
Definition ds_step (e : ds_event) (d : Dispatch) : option Dispatch :=
  match st_done (ds_spec d) with
  | Some _ => None
  | None =>
    match e with
    | Proceeds (Connected _ (Ok _)) | Proceeds (Answered _ _) => None
    | Proceeds e => (fun s => with_spec s d) <$> spec_event e (ds_spec d)
    | Writes i k => ds_write i k d
    | Hears i => ds_hear i d
    | Works k e => ds_work k e d
    end
  end.
Fixpoint ds_run (es : list ds_event) (d : Dispatch) : option Dispatch :=
  match es with
  | [] => Some d
  | e :: es => match ds_step e d with Some d => ds_run es d | None => None end
  end.

(** ** The history of a connection *)

Abbreviation conn_steps k := (conn_run (addr k) compression buffer_size event_handler error_handler).

Lemma conn_run_snoc k evs c c1 ev c2 : conn_steps k evs c = Some c1 ->
  conn_step (addr k) compression buffer_size event_handler error_handler ev c1 = Some c2 ->
  conn_steps k (evs ++ [ev]) c = Some c2.
Proof.
  revert c. induction evs as [|ev' evs IH]; intros c; cbn [conn_run app]; [by intros [= ->] ->|].
  destruct (conn_step _ _ _ _ _ ev' c); [apply IH|done].
Qed.

Lemma submitted_in evs e handshake h : ESubmit e handshake h ∈ evs -> h ∈ submitted evs.
Proof.
  intros (evs1 & evs2 & ->)%list_elem_of_split. rewrite submitted_app. apply elem_of_app. right. by left.
Qed.

Lemma write_submits k e handshake h c c' : write_envelope compression buffer_size e handshake h c = Some (Ok c') ->
  conn_step (addr k) compression buffer_size event_handler error_handler (ESubmit e handshake h) c = Some c'.
Proof.
  intros Hw. unfold conn_step. rewrite Hw. unfold write_envelope in Hw.
  destruct (envelope_request _ _ _ _); [|done..]. by destruct (cn_status c).
Qed.

(** Connection [k] is where these events took it, every request on it has a
    channel of its own among the first [next], and the writes of the
    executions to it are among them. *)
Record history (k : nat) (evs : list cn_event) (c : Connection) (writes : list (nat * (nat * handler))) (next : handler) : Prop := {
  hi_run : conn_steps k evs (fresh k) = Some c;
  hi_below : Forall (fun h => h < next)%nat (submitted evs);
  hi_distinct : NoDup (submitted evs);
  hi_writes : forall i h, (i, (k, h)) ∈ writes -> ESubmit envelope false h ∈ evs }.

Lemma history_more k evs c ws next i k' next' : history k evs c ws next -> (next <= next')%nat -> k' <> k ->
  history k evs c ((i, (k', next)) :: ws) next'.
Proof.
  intros [H1 H2 H3 H4] Hn Hk. split; [done| |done|].
  - eapply Forall_impl; [exact H2|]. simpl. lia.
  - intros j h [[= -> -> ->]|Hin]%elem_of_cons; [done|]. by eapply H4.
Qed.
Lemma history_later k evs c ws next next' : history k evs c ws next -> (next <= next')%nat -> history k evs c ws next'.
Proof. intros [H1 H2 H3 H4] Hn. split; [done| |done..]. eapply Forall_impl; [exact H2|]. simpl. lia. Qed.

(** One more event of the connection. *)
Lemma history_step k evs c ws next ev c' next' : history k evs c ws next ->
  conn_step (addr k) compression buffer_size event_handler error_handler ev c = Some c' ->
  match ev with ESubmit _ _ h => h = next /\ next' = Datatypes.S next | _ => next' = next end ->
  history k (evs ++ [ev]) c' ws next'.
Proof.
  intros [H1 H2 H3 H4] Hs Hn. split.
  - by eapply conn_run_snoc.
  - rewrite submitted_app. apply Forall_app. destruct ev; try (subst; by repeat constructor). destruct Hn as [-> ->].
    split; [eapply Forall_impl; [exact H2|]; simpl; lia|]. repeat constructor.
  - rewrite submitted_app. apply NoDup_app. split; [done|].
    split; [|destruct ev; try apply NoDup_nil_2; apply NoDup_singleton].
    intros h Hh. destruct ev; cbn [submitted map concat app]; try apply not_elem_of_nil. destruct Hn as [-> _].
    intros ->%list_elem_of_singleton. rewrite Forall_forall in H2. apply H2 in Hh. lia.
  - intros i h Hin. apply elem_of_app. left. by eapply H4.
Qed.

(** ** Invariant *)

Record ds_inv (plan : list N) (d : Dispatch) : Prop := {
  di_spec : spec_inv interval is_idempotent plan (ds_spec d);
  di_ids : ids_inv (ds_spec d);
  di_conns : forall k c, ds_conns d !! k = Some c -> exists evs, history k evs c (ds_writes d) (ds_next d);
  di_writes : forall i k h, (i, (k, h)) ∈ ds_writes d -> (i, owner k) ∈ st_written (ds_spec d) /\ is_Some (ds_conns d !! k);
  di_waits : st_done (ds_spec d) = None -> forall x n, x ∈ st_running (ds_spec d) -> ex_phase x = Writing n ->
    exists k h, waits_for d (ex_id x) = Some (k, h) /\ owner k = n }.

Lemma waits_for_in d i k h : waits_for d i = Some (k, h) -> (i, (k, h)) ∈ ds_writes d.
Proof.
  unfold waits_for. destruct (find _ _) as [[j p]|] eqn:Hf; [|done]. intros [= ->].
  apply find_some in Hf as [Hin%list_elem_of_In Hb%bool_decide_eq_true]. simpl in Hb. by subst.
Qed.

Lemma ds_inv_start plan connections : ds_inv plan (ds_start plan connections).
Proof.
  split; [apply spec_inv_start|apply ids_inv_start|..].
  - intros k c Hk. cbn [ds_conns ds_start] in Hk. apply list_lookup_fmap_Some in Hk as (j & -> & Hj).
    apply lookup_seq in Hj as [-> _]. exists []. split; [done|constructor|constructor|set_solver].
  - set_solver.
  - intros _ x n ->%list_elem_of_singleton. done.
Qed.

(** A step of the request alone, which starts no write. *)
Lemma spec_part plan d e s : ds_inv plan d -> spec_event e (ds_spec d) = Some s -> (forall i, e <> Connected i (Ok tt)) ->
  ds_inv plan (with_spec s d).
Proof.
  intros [H1 H2 H3 H4 H5] Hs He. split; cbn [with_spec ds_spec ds_conns ds_writes ds_next].
  - by eapply spec_step_inv.
  - by eapply spec_step_ids.
  - done.
  - intros i k h Hin. destruct (H4 i k h Hin) as [Hw Hk]. split; [|done]. by eapply spec_step_written.
  - intros _ x n Hin Hp. destruct (spec_step_writing _ _ _ _ _ _ _ _ Hs Hin Hp) as [Hx|(i & b & y & a & -> & _)]; [|by destruct (He i)].
    apply H5; [by eapply spec_step_running|done..].
Qed.

(** A write that is refused at once. *)
Lemma refused_part plan d i before x after n r s d' : ds_inv plan d -> focus i (st_running (ds_spec d)) = Some (before, x, after) ->
  ex_phase x = Connecting n -> spec_event (Connected i (Ok tt)) (ds_spec d) = Some s ->
  (fun s => with_spec s d) <$> spec_event (Answered i r) s = Some d' -> ds_inv plan d'.
Proof.
  intros [H1 H2 H3 H4 H5] Ef Hp Hs Hd. destruct (spec_event (Answered i r) s) as [s1|] eqn:Hs1; [|done]. injection Hd as <-.
  destruct (spec_step_connected _ _ _ _ _ _ _ _ _ _ Ef Hp Hs) as [Ef' _].
  split; cbn [with_spec ds_spec ds_conns ds_writes ds_next].
  - eapply spec_step_inv; [eapply spec_step_inv; [exact H1|exact Hs]|exact Hs1].
  - eapply spec_step_ids; [eapply spec_step_ids; [exact H2|exact Hs]|exact Hs1].
  - done.
  - intros j k h Hin. destruct (H4 j k h Hin) as [Hj Hk]. split; [|done].
    eapply spec_step_written; [exact Hs1|]. by eapply spec_step_written.
  - intros Hn y m Hin Hy. pose proof (spec_step_answered _ _ _ _ _ _ _ _ _ _ _ _ Ef' Hs1 Hn Hin Hy) as Hin'.
    apply (H5 (spec_step_running _ _ _ _ _ _ Hs) y m); [|done]. rewrite (focus_spec _ _ _ _ _ Ef).
    rewrite elem_of_app in Hin' |- *. rewrite elem_of_cons. tauto.
Qed.

Lemma write_part plan d i k d' : ds_inv plan d -> ds_write i k d = Some d' -> ds_inv plan d'.
Proof.
  intros Hi. unfold ds_write. destruct (focus i _) as [[[before x] after]|] eqn:Ef; [|done].
  destruct (ds_conns d !! k) as [c|] eqn:Ek; [|done]. destruct (ex_phase x) as [|n|] eqn:Hp; [done| |done].
  case_bool_decide as Ho; [|done]. destruct (write_envelope _ _ _ _ _ c) as [r|] eqn:Hw; [|done].
  destruct (spec_event _ _) as [s|] eqn:Hs; [|done].
  destruct r as [c'|err|]; [|by eapply refused_part..].
  intros [= <-]. destruct (spec_step_connected _ _ _ _ _ _ _ _ _ _ Ef Hp Hs) as [Ef' Hwr].
  destruct Hi as [H1 H2 H3 H4 H5]. assert (Hids : ids_inv s) by (by eapply spec_step_ids).
  split; cbn [ds_spec ds_conns ds_writes ds_next]; [by eapply spec_step_inv|done|..].
  - intros k' c1 [(<- & <- & _)|[Hne Hk']]%list_lookup_insert_Some.
    + destruct (H3 _ _ Ek) as [evs Hh]. exists (evs ++ [ESubmit envelope false (ds_next d)]).
      destruct (history_step _ _ _ _ _ (ESubmit envelope false (ds_next d)) _ (Datatypes.S (ds_next d)) Hh
        (write_submits k _ _ _ _ _ Hw) ltac:(done)) as [G1 G2 G3 G4].
      split; [done..|]. intros j h [[= -> ->]|Hin]%elem_of_cons; [apply elem_of_app; right; by left|by eapply G4].
    + destruct (H3 _ _ Hk') as [evs Hh]. exists evs. apply history_more; [done|lia|congruence].
  - intros j k' h Hin. rewrite Hwr, list_lookup_insert_is_Some. rewrite elem_of_app.
    apply elem_of_cons in Hin as [[= -> -> ->]|Hin]; [|by destruct (H4 j k' h Hin); auto].
    split; [right; rewrite Ho; by left|by rewrite Ek].
  - intros _ y m Hin Hy. unfold waits_for. cbn [ds_writes find fst].
    assert (Hx' : mkExecution (ex_id x) (Writing n) (ex_session x) (ex_saved x) ∈ st_running s).
    { rewrite (focus_spec _ _ _ _ _ Ef'). apply elem_of_app. right. by left. }
    case_bool_decide as Hid.
    + exists k, (ds_next d). split; [done|]. pose proof (same_execution _ _ _ Hids Hx' Hin Hid) as <-. simpl in Hy. congruence.
    + destruct (spec_step_writing _ _ _ _ _ _ _ _ Hs Hin Hy) as [Hx|(i' & b & z & a & [= <-] & Hf & _ & He)].
      * destruct (H5 (spec_step_running _ _ _ _ _ _ Hs) y m Hx Hy) as (k' & h & Hw' & Hk'). by exists k', h.
      * rewrite Ef in Hf. by injection Hf as <- <- <-.
Qed.

Lemma step_part plan d e d' : ds_inv plan d -> ds_step e d = Some d' -> ds_inv plan d'.
Proof.
  intros Hi. unfold ds_step. destruct (st_done (ds_spec d)) eqn:Hd; [done|]. destruct e as [e|i k|i|k e].
  - assert (Hp : (forall i, e <> Connected i (Ok tt)) -> (fun s => with_spec s d) <$> spec_event e (ds_spec d) = Some d' -> ds_inv plan d').
    { intros He. destruct (spec_event e (ds_spec d)) as [s|] eqn:Hs; [|done]. intros [= <-]. by eapply spec_part. }
    destruct e as [|i|i [[]|err|]|i r|]; try done; by apply Hp.
  - by apply write_part.
  - unfold ds_hear. destruct (focus i _) as [[[before x] after]|]; [|done]. destruct (ds_answer d x) as [r|]; [|done].
    destruct (spec_event _ _) as [s|] eqn:Hs; [|done]. intros [= <-]. by eapply spec_part.
  - unfold ds_work. destruct (match e with ESubmit _ _ h => _ | _ => _ end) as [next|] eqn:Hn; [|done].
    destruct (ds_conns d !! k) as [c|] eqn:Ek; [|done].
    destruct (conn_step _ _ _ _ _ e c) as [c'|] eqn:Hc; [|done]. intros [= <-].
    assert (Hnext : match e with ESubmit _ _ h => h = ds_next d /\ next = Datatypes.S (ds_next d) | _ => next = ds_next d end).
    { destruct e; try congruence. case_bool_decide; naive_solver congruence. }
    assert (Hle : (ds_next d <= next)%nat) by (destruct e; intuition lia).
    destruct Hi as [H1 H2 H3 H4 H5]. split; cbn [ds_spec ds_conns ds_writes ds_next]; [done..| | |done].
    + intros k' c1 [(<- & <- & _)|[Hne Hk']]%list_lookup_insert_Some.
      * destruct (H3 _ _ Ek) as [evs Hh]. exists (evs ++ [e]). by eapply history_step.
      * destruct (H3 _ _ Hk') as [evs Hh]. exists evs. by eapply history_later.
    + intros j k' h Hin. rewrite list_lookup_insert_is_Some. by apply (H4 j k' h).
Qed.

Lemma ds_run_inv plan es d d' : ds_inv plan d -> ds_run es d = Some d' -> ds_inv plan d'.
Proof.
  revert d. induction es as [|e es IH]; intros d Hi; cbn [ds_run]; [by intros [= <-]|].
  destruct (ds_step e d) as [d1|] eqn:Hs; [|done]. apply IH. by eapply step_part.
Qed.

(** ** The answer of a request *)

(** What a receiver yields is what was sent on its channel, or an error of the
    connection. *)
Lemma response_of_ok h (c : Connection (E := E) (W := W) (D := D)) e : response_of h c = Some (Ok e) ->
  (h, Sent (Ok e)) ∈ fates (cn_handlers c).
Proof.
  unfold response_of. destruct (fate_of h _) as [[r|]|] eqn:Hf; [|by destruct (cn_status c)..].
  intros [= ->]. by apply fate_of_some.
Qed.

(** An envelope the session is given: it was handed to the receiver of a write
    of the request by the connection written to. *)
Definition answered_by (d : Dispatch) (e : Envelope) (i k : nat) (h : handler) : Prop :=
  (i, (k, h)) ∈ ds_writes d /\ exists c, ds_conns d !! k = Some c /\ (h, Sent (Ok e)) ∈ fates (cn_handlers c).

Lemma step_answer e d d' env : ds_step e d = Some d' -> st_done (ds_spec d') = Some (Ok env) ->
  exists i k h, answered_by d' env i k h.
Proof.
  unfold ds_step. destruct (st_done (ds_spec d)) eqn:Hd; [done|]. intros Hs Hdone. destruct e as [e|i k|i|k e].
  - assert (Hs1 : (fun s => with_spec s d) <$> spec_event e (ds_spec d) = Some d') by (by destruct e as [| |? [[]| |]| |]).
    destruct (spec_event e (ds_spec d)) as [s|] eqn:Hsp; [|done]. injection Hs1 as <-.
    destruct (spec_step_ok _ _ _ _ _ _ _ Hsp Hdone) as [i ->]. done.
  - unfold ds_write in Hs. destruct (focus i _) as [[[before x] after]|] eqn:Ef; [|done].
    destruct (ds_conns d !! k) as [c|]; [|done]. destruct (ex_phase x) as [|n|]; [done| |done].
    case_bool_decide; [|done]. destruct (write_envelope _ _ _ _ _ c) as [r|]; [|done].
    destruct (spec_event _ (ds_spec d)) as [s|] eqn:Hsp; [|done]. destruct r as [c'|err|].
    + injection Hs as <-. by destruct (spec_step_ok _ _ _ _ _ _ _ Hsp Hdone).
    + destruct (spec_event _ s) as [s1|] eqn:Hs1; [|done]. injection Hs as <-.
      by destruct (spec_step_ok _ _ _ _ _ _ _ Hs1 Hdone).
    + destruct (spec_event _ s) as [s1|] eqn:Hs1; [|done]. injection Hs as <-.
      by destruct (spec_step_ok _ _ _ _ _ _ _ Hs1 Hdone).
  - unfold ds_hear in Hs. destruct (focus i _) as [[[before x] after]|]; [|done].
    destruct (ds_answer d x) as [r|] eqn:Ha; [|done]. destruct (spec_event _ _) as [s|] eqn:Hsp; [|done]. injection Hs as <-.
    destruct (spec_step_ok _ _ _ _ _ _ _ Hsp Hdone) as [j [= <- ->]].
    unfold ds_answer in Ha. destruct (waits_for d (ex_id x)) as [[k h]|] eqn:Hw; [|done].
    destruct (ds_conns d !! k) as [c|] eqn:Ek; [|done]. exists (ex_id x), k, h. split; [by apply waits_for_in|].
    exists c. split; [done|by apply response_of_ok].
  - unfold ds_work in Hs. destruct (match e with ESubmit _ _ h => _ | _ => _ end) as [next|]; [|done].
    destruct (ds_conns d !! k); [|done]. destruct (conn_step _ _ _ _ _ e _); [|done]. injection Hs as <-.
    cbn [ds_spec] in Hdone. congruence.
Qed.

Lemma run_answer es d d' env : st_done (ds_spec d) = None -> ds_run es d = Some d' -> st_done (ds_spec d') = Some (Ok env) ->
  exists i k h, answered_by d' env i k h.
Proof.
  revert d. induction es as [|e es IH]; intros d Hn; cbn [ds_run]; [intros [= <-]; congruence|].
  destruct (ds_step e d) as [d1|] eqn:Hs; [|done]. intros Hr Hd.
  destruct (st_done (ds_spec d1)) as [r|] eqn:Hd1; [|by eapply IH].
  destruct es as [|e' es]; cbn [ds_run] in Hr; [injection Hr as <-; by eapply step_answer|].
  unfold ds_step in Hr at 1. by rewrite Hd1 in Hr.
Qed.

(** A written request is with its connection or answered. *)
Lemma written_pending k evs (c : Connection (E := E) (W := W) (D := D)) ws next h : history k evs c ws next -> h ∈ submitted evs ->
  is_Some (response_of h c) \/
  cn_status c = Running /\ (h ∈ map rq_handler (cn_queue c) \/ h ∈ in_flight (cn_handlers c)).
Proof using All.
  intros [Hr _ Hnd _] Hh.
  pose proof (reached_handlers _ _ _ _ _ _ _ _ _ _ _ Hr) as Hp.
  rewrite Hp, app_assoc, elem_of_app, elem_of_app in Hh. unfold response_of.
  destruct (fate_of h _) as [[r|]|] eqn:Hf; [by left; eauto|left; by destruct (cn_status c); eauto|].
  destruct (cn_status c) eqn:Hs; [|left; eauto..]. right. split; [done|]. apply fate_of_none in Hf. tauto.
Qed.

(** C4: The envelope a request returns was the answer of a connection to a node of
    its plan, after the request was written to that connection as one of its
    requests, and it carries the stream id of that very request.  As long as the
    request has not returned, an execution that waits for an answer waits on a
    running connection to its node that still has the request; it never waits on
    a connection that has answered it, has ended or has crashed. *)
Theorem request_over_connections plan connections es d : ds_run es (ds_start plan connections) = Some d ->
  (forall e, st_done (ds_spec d) = Some (Ok e) ->
     exists i k h c evs j, (i, owner k) ∈ st_written (ds_spec d) /\ owner k ∈ plan /\
       ds_conns d !! k = Some c /\ conn_steps k evs (fresh k) = Some c /\
       NoDup (submitted evs) /\ ESubmit envelope false h ∈ evs /\ submitted evs !! j = Some h /\
       (h, Sent (Ok e)) ∈ fates (cn_handlers c) /\ stream_id e = nth_stream_id (Z.of_nat j)) /\
  (st_done (ds_spec d) = None -> forall i x n, st_running (ds_spec d) !! i = Some x -> ex_phase x = Writing n ->
     is_Some (ds_step (Hears i) d) \/
     exists k h c, waits_for d (ex_id x) = Some (k, h) /\ owner k = n /\ ds_conns d !! k = Some c /\ cn_status c = Running /\
       (h ∈ map rq_handler (cn_queue c) \/ h ∈ in_flight (cn_handlers c))).
Proof using All.
  intros Hr. pose proof (ds_run_inv _ _ _ _ (ds_inv_start plan connections) Hr) as [H1 H2 H3 H4 H5]. split.
  - intros e Hd. destruct (run_answer _ (ds_start plan connections) _ e eq_refl Hr Hd) as (i & k & h & Hin & c & Hc & Hs).
    destruct (H4 i k h Hin) as [Hw _]. destruct (H3 k c Hc) as [evs [G1 G2 G3 G4]].
    destruct (answers_own_stream _ _ _ _ _ _ _ _ _ _ _ _ _ G1 Hs) as (j & Hj & He).
    exists i, k, h, c, evs, j. split_and!; try done; [|by eapply G4].
    destruct H1 as [K1 _ K3 _ _]. rewrite Forall_forall in K3. apply K3 in Hw. rewrite <- K1. apply elem_of_app. left.
    by apply (list_elem_of_fmap_2 snd) in Hw.
  - intros Hd i x n Hx Hp. destruct (H5 Hd x n) as (k & h & Hw & Ho); [by eapply list_elem_of_lookup_2|done|].
    pose proof (waits_for_in _ _ _ _ Hw) as Hin. destruct (H4 _ _ _ Hin) as [_ [c Hc]].
    destruct (H3 k c Hc) as [evs Hh]. assert (Hsub : h ∈ submitted evs) by (eapply submitted_in, (hi_writes _ _ _ _ _ Hh); exact Hin).
    destruct (written_pending _ _ _ _ _ _ Hh Hsub) as [[r Hresp]|[Hrun Hwhere]]; [left|right; by exists k, h, c].
    unfold ds_step. rewrite Hd. unfold ds_hear, focus. rewrite Hx. unfold ds_answer. rewrite Hw, Hc, Hresp.
    destruct (spec_step_answers interval new_session is_idempotent i r (ds_spec d) x n Hd Hx Hp) as [s Hs].
    unfold spec_event. rewrite Hs. by eexists.
Qed.
End Dispatch.

(** ** Witnesses *)

Module DispatchSamples.
#[local] Existing Instances uuid_bytes stored_lz4 stored_snap crc32_ieee WriterSamples.order WriterSamples.sink_write.
Import WriterSamples ReaderSamples ConnectionSamples.
Local Abbreviation Session := (Dispatch (E := UncompressedFrameEncoder) (W := sink) (D := UncompressedFrameDecoder)
  (N := Z) (S := DefaultRetrySession)).

(** Two connections, to the nodes 0 and 1; the plan has the nodes 5 and 1, and
    nothing connects to 5. *)
Definition request_start : Session :=
  ds_start None DefaultRetrySession_default false (fun _ => UncompressedFrameEncoder_default) (fun _ => mkSink [])
    (fun _ => mkUncompressedDec GenericFrameDecoder_default) (fun _ => KeyspaceHolder_new) [5; 1] 2.
Definition request_run (es : list ds_event) : option Session :=
  ds_run query None DefaultRetrySession_default false Z.of_nat (fun _ => node) NoCompression 10 true true es request_start.

(** The connection is started; the request is written to it, and another one
    after it; the other one is answered first. *)
Definition written : list ds_event :=
  [Works 1 (ESubmit opts true 0%nat); Works 1 EReceive; Works 1 ETryReceive; Works 1 (EEnvelope (Ok (response RbReady 1)));
   Proceeds (Polled 0); Proceeds (Connected 0 (Err (EIo BrokenPipe))); Writes 0 1;
   Works 1 EReceive; Works 1 (ESubmit opts false 2%nat); Works 1 ETryReceive; Works 1 ETryReceive;
   Works 1 (ERead (Ok (u_frame true (bytes_of (response use_ks 3)))))].
Definition heard : list ds_event :=
  written ++ [Works 1 (ERead (Ok (u_frame true (bytes_of (response use_ks 2))))); Hears 0].

Definition waiting : Session := match request_run written with Some d => d | None => request_start end.
Definition returned : Session := match request_run heard with Some d => d | None => request_start end.
Lemma written_reached : request_run written = Some waiting.
Proof. vm_compute. reflexivity. Qed.
Lemma heard_reached : request_run heard = Some returned.
Proof. vm_compute. reflexivity. Qed.

Lemma request_over_connections_witness :
  (exists i k j, (i, Z.of_nat k) ∈ st_written (ds_spec returned) /\ Z.of_nat k ∈ [5; 1] /\
     stream_id (response use_ks 2) = nth_stream_id (Z.of_nat j)) /\
  exists k h c, waits_for waiting 0 = Some (k, h) /\ ds_conns waiting !! k = Some c /\ cn_status c = Running.
Proof.
  split.
  - destruct (request_over_connections query None DefaultRetrySession_default false Z.of_nat (fun _ => node) _ _ _ _
      NoCompression 10 true true _ _ _ _ heard_reached) as [H _].
    destruct (H (response use_ks 2) ltac:(vm_compute; reflexivity)) as (i & k & h & c & evs & j & H1 & H2 & _ & _ & _ & _ & _ & _ & H3).
    exists i, k, j. split; [exact H1|]. split; [exact H2|exact H3].
  - destruct (request_over_connections query None DefaultRetrySession_default false Z.of_nat (fun _ => node) _ _ _ _
      NoCompression 10 true true _ _ _ _ written_reached) as [_ H].
    destruct (H ltac:(vm_compute; reflexivity) 0%nat (mkExecution 0 (Writing 1) DefaultRetrySession_default (Some (EIo BrokenPipe))) 1
      ltac:(vm_compute; reflexivity) eq_refl) as [[d Hd]|(k & h & c & H1 & _ & H2 & H3 & _)].
    + exfalso. vm_compute in Hd. discriminate Hd.
    + exists k, h, c. split; [exact H1|]. split; [exact H2|exact H3].
Defined.
End DispatchSamples.
