(* ===== verification/Startup.v ===== *)
(** * Establishing a connection: [cluster/connection_manager.rs], [cluster/tcp_connection_manager.rs], [authenticators.rs]

    The conversation that makes a fresh transport ready to use: STARTUP,
    authentication if the server asks for it, and the current keyspace.  The
    server is an environment that answers each envelope written and has a
    state of its own; what was written and answered is recorded.  The server
    may issue any number of challenges, so the authentication loop is bounded
    by a fuel, and running out of it is a result of its own ([None]). *)

From S2P Require Import Prelude Types Wire Compression Envelope Query Requests ErrorMsg Results Responses Transport Reader.
Local Open Scope Z_scope.
Local Open Scope cdrs_scope.

(** ** [SaslAuthenticator], [SaslAuthenticatorProvider] *)

(** The methods take [&self]; an authenticator with interior state is allowed for. *)
Class SaslAuthenticator (A : Type) : Type := {
  initial_response : A -> CBytes * A;
  evaluate_challenge : A -> CBytes -> Result CBytes * A;
  handle_success : A -> CBytes -> Result unit * A }.
Class SaslAuthenticatorProvider (P A : Type) : Type := {
  provider_name : P -> option bytes;
  create_authenticator : P -> A }.

Record StaticPasswordAuthenticator : Type := mkStaticPassword { sa_username : bytes; sa_password : bytes }.
#[export] Instance StaticPassword_authenticator : SaslAuthenticator StaticPasswordAuthenticator := {
  initial_response a := (CBytes_new ([u8 0] ++ sa_username a ++ [u8 0] ++ sa_password a), a);
  evaluate_challenge a _ := (Err (EGeneral "Server challenge is not supported for StaticPasswordAuthenticator!"), a);
  handle_success a _ := (Ok tt, a) }.
Record StaticPasswordAuthenticatorProvider : Type := mkStaticPasswordProvider { sap_username : bytes; sap_password : bytes }.
#[export] Instance StaticPassword_provider :
  SaslAuthenticatorProvider StaticPasswordAuthenticatorProvider StaticPasswordAuthenticator := {
  provider_name _ := Some (lit "org.apache.cassandra.auth.PasswordAuthenticator");
  create_authenticator p := mkStaticPassword (sap_username p) (sap_password p) }.

Inductive NoneAuthenticator : Type := mkNoneAuthenticator.
#[export] Instance None_authenticator : SaslAuthenticator NoneAuthenticator := {
  initial_response a := (CBytes_new [u8 0], a);
  evaluate_challenge a _ := (Err (EGeneral "Server challenge is not supported for NoneAuthenticator!"), a);
  handle_success a _ := (Ok tt, a) }.
Inductive NoneAuthenticatorProvider : Type := mkNoneProvider.
#[export] Instance None_provider : SaslAuthenticatorProvider NoneAuthenticatorProvider NoneAuthenticator := {
  provider_name _ := None;
  create_authenticator _ := mkNoneAuthenticator }.

(** An authenticator that answers no challenge. *)
Class NoChallenges (A : Type) `{!SaslAuthenticator A} : Prop :=
  no_challenges : forall a c, exists e, (evaluate_challenge a c).1 = Err e.
#[export] Instance StaticPassword_no_challenges : NoChallenges StaticPasswordAuthenticator.
Proof. intros a c. by eexists. Qed.
#[export] Instance None_no_challenges : NoChallenges NoneAuthenticator.
Proof. intros a c. by eexists. Qed.

(** ** Conversations *)

Section Startup.
Context {U : UuidLib} {HB : HashIter bytes} {P A : Type} `{!SaslAuthenticator A} `{!SaslAuthenticatorProvider P A}.
(** The server, with the keyspace holder shared by all connections as it is
    in a state of the environment; the node's address; the version of the
    package, sent in STARTUP. *)
Context {W : Type} (answer : Envelope -> bool -> W -> Result Envelope * W) (holder : W -> KeyspaceHolder).
Context (address : SocketAddr) (pkg_version : option bytes).

Record Exchange : Type := mkExchange { x_sent : Envelope; x_handshake : bool; x_answer : Result Envelope }.
Record Conversation : Type := mkConversation { c_env : W; c_log : list Exchange }.

(** A computation that talks to the server; [None] when the fuel is used up. *)
Definition talk (X : Type) : Type := Conversation -> option (Result X * Conversation).
Definition tlift {X} (r : Result X) : talk X := fun w => Some (r, w).
Definition tbind {X Y} (m : talk X) (k : X -> talk Y) : talk Y := fun w =>
  match m w with
  | Some (Ok x, w) => k x w
  | Some (Err e, w) => Some (Err e, w)
  | Some (Panic, w) => Some (Panic, w)
  | None => None
  end.
Local Notation "'let!' x ':=' m 'in' k" := (tbind m (fun x => k)) (at level 10, x name, m at level 100, k at level 200).

Definition tell (e : Envelope) (handshake : bool) : talk Envelope := fun w =>
  let '(r, env) := answer e handshake (c_env w) in
  Some (r, mkConversation env (c_log w ++ [mkExchange e handshake r])).

Definition use_keyspace (keyspace : bytes) (v : Version) : Envelope :=
  new_query (mkBodyReqQuery (lit "USE " ++ quote keyspace) QueryParams_default) 0 v.

Definition set_keyspace (v : Version) : talk unit := fun w =>
  match current_keyspace (holder (c_env w)) with
  | Some keyspace => (let! _ := tell (use_keyspace keyspace v) false in tlift (Ok tt)) w
  | None => Some (Ok tt, w)
  end.

(** A server that does not speak the protocol version is reported as such. *)
Definition bad_protocol (r : Result Envelope) : Result Envelope :=
  match r with
  | Err (EServer body addr) => if is_bad_protocol body then Err (EInvalidProtocol address) else Err (EServer body addr)
  | _ => r
  end.
Definition startup_envelope (compression : Compression) (v : Version) : Envelope :=
  new_req_startup pkg_version (option_map lit (as_str compression)) v.
Definition tell_startup (compression : Compression) (v : Version) : talk Envelope := fun w =>
  match tell (startup_envelope compression v) true w with
  | Some (r, w) => Some (bad_protocol r, w)
  | None => None
  end.

Definition check_authenticator (provider : P) (authenticator : bytes) : Result unit :=
  match provider_name provider with
  | None => Err (EGeneral "No authenticator was provided")
  | Some auth => if bool_decide (authenticator <> auth) then Err (EIo NotFound) else Ok tt
  end.

Fixpoint authenticate (fuel : nat) (a : A) (e : Envelope) (v : Version) : talk unit :=
  match fuel with
  | O => fun _ => None
  | S fuel =>
    let! b := tlift (response_body e) in
    match b with
    | RbAuthChallenge challenge =>
      let '(response, a) := evaluate_challenge a (bac_data challenge) in
      let! response := tlift response in
      let! e := tell (new_req_auth_response response v) false in
      authenticate fuel a e v
    | RbAuthSuccess success => tlift (handle_success a (bas_data success)).1
    | _ => tlift (Err (EUnexpectedAuthResponse (opcode e)))
    end
  end.

Definition startup (fuel : nat) (provider : P) (compression : Compression) (v : Version) : talk unit :=
  let! start_response := tell_startup compression v in
  if bool_decide (opcode start_response = OpReady) then set_keyspace v
  else if bool_decide (opcode start_response = OpAuthenticate) then
    let! body := tlift (response_body start_response) in
    let! authenticator := tlift (match authenticator body with
      | Some name => Ok name
      | None => Err (EGeneral "Cassandra server did communicate that it needed authentication but the auth schema was missing in the body response")
      end) in
    let! _ := tlift (check_authenticator provider authenticator) in
    let '(response, a) := initial_response (create_authenticator provider) in
    let! e := tell (new_req_auth_response response v) false in
    let! _ := authenticate fuel a e v in
    set_keyspace v
  else tlift (Err (EUnexpectedStartupResponse (opcode start_response))).

(** [establish_connection]: the socket, then the conversation on it. *)
Definition establish_connection (create_transport : W -> outcome io_kind unit * W) (fuel : nat) (provider : P)
    (compression : Compression) (v : Version) (env : W) : option (Result unit * Conversation) :=
  let '(r, env) := create_transport env in
  match r with
  | Ok _ => startup fuel provider compression v (mkConversation env [])
  | Err k => Some (Err (EIo k), mkConversation env [])
  | Panic => Some (Panic, mkConversation env [])
  end.

(** ** The conversation *)

Definition answered (x : Exchange) : Prop := exists e, x_answer x = Ok e.
Definition unframed (x : Exchange) : Prop := x_handshake x = true.

(** The tokens sent after the first answer the server's challenges one by one. *)
Fixpoint challenge_chain (v : Version) (a : A) (previous : Envelope) (auths : list Exchange) : Prop :=
  match auths with
  | [] => True
  | y :: rest =>
    exists c token a', response_body previous = Ok (RbAuthChallenge c) /\
      evaluate_challenge a (bac_data c) = (Ok token, a') /\ x_sent y = new_req_auth_response token v /\
      match x_answer y with Ok e => challenge_chain v a' e rest | _ => rest = [] end
  end.

(** Nothing is told to a server that did not ask for the authenticator of the provider. *)
Definition credentials (provider : P) (v : Version) (start : Result Envelope) (auths : list Exchange) : Prop :=
  match auths with
  | [] => True
  | y :: rest =>
    exists e b, start = Ok e /\ response_body e = Ok (RbAuthenticate b) /\ provider_name provider = Some (ba_data b) /\
      let '(token, a) := initial_response (create_authenticator provider) in
      x_sent y = new_req_auth_response token v /\
      match x_answer y with Ok e => challenge_chain v a e rest | _ => rest = [] end
  end.

Definition last_answer (start : Result Envelope) (l : list Exchange) : Result Envelope :=
  match last l with Some y => x_answer y | None => start end.
Lemma last_answer_cons start y l : last_answer start (y :: l) = last_answer (x_answer y) l.
Proof.
  unfold last_answer. destruct l as [|z l]; [done|]. rewrite last_cons_cons.
  destruct (last (z :: l)) eqn:E; [done|]. by apply last_None in E.
Qed.

(** The server accepted the connection: READY, or the end of the authentication. *)
Definition accepted (start : Result Envelope) (auths : list Exchange) : Prop :=
  exists e, last_answer start auths = Ok e /\
    match auths with [] => opcode e = OpReady | _ => exists s, response_body e = Ok (RbAuthSuccess s) end.

Lemma tbind_inv {X Y} (m : talk X) (k : X -> talk Y) w r w' : tbind m k w = Some (r, w') ->
  (exists x w1, m w = Some (Ok x, w1) /\ k x w1 = Some (r, w')) \/
  (exists q, m w = Some (q, w') /\ (forall x, q <> Ok x) /\ (forall y, r <> Ok y)).
Proof.
  unfold tbind. destruct (m w) as [[[x|e|] w1]|]; [|intros [= <- <-]; right..|done]; [|by eexists..].
  intros H. left. by exists x, w1.
Qed.

Lemma tbind_lift {X Y} (q : Result X) (k : X -> talk Y) w :
  tbind (tlift q) k w = match q with Ok x => k x w | Err e => Some (Err e, w) | Panic => Some (Panic, w) end.
Proof. by destruct q. Qed.

Lemma set_keyspace_spec v w r w' : set_keyspace v w = Some (r, w') ->
  exists uses, c_log w' = c_log w ++ uses /\ Forall (fun y => x_handshake y = false) uses /\
    map x_sent uses = match current_keyspace (holder (c_env w)) with Some k => [use_keyspace k v] | None => [] end /\
    (r = Ok tt -> Forall answered uses).
Proof using Type.
  unfold set_keyspace. destruct (current_keyspace _) as [k|].
  - unfold tbind, tell. destruct (answer _ _ _) as [q env]. exists [mkExchange (use_keyspace k v) false q].
    destruct q as [e|e|]; simpl in H; unfold tlift in H; simplify_eq; split_and!; try done; repeat constructor; try done.
    by exists e.
  - intros [= <- <-]. exists []. by rewrite app_nil_r.
Qed.

Lemma authenticate_spec fuel a e v w r w' : authenticate fuel a e v w = Some (r, w') ->
  exists auths, c_log w' = c_log w ++ auths /\ Forall (fun y => x_handshake y = false) auths /\
    challenge_chain v a e auths /\
    (r = Ok tt -> Forall answered auths /\
      exists e' s, last_answer (Ok e) auths = Ok e' /\ response_body e' = Ok (RbAuthSuccess s)).
Proof using Type.
  revert a e w. induction fuel as [|fuel IH]; intros a e w; [done|]. cbn [authenticate]. unfold tbind at 1, tlift at 1.
  destruct (response_body e) as [b|err|] eqn:Eb; [|intros [= <- <-]; exists []; by rewrite app_nil_r..].
  destruct b; try (intros [= <- <-]; exists []; by rewrite app_nil_r).
  - destruct (evaluate_challenge a (bac_data b)) as [[token|err|] a'] eqn:Ec;
      [|intros [= <- <-]; exists []; by rewrite app_nil_r..].
    unfold tbind at 1, tlift at 1. unfold tbind, tell. destruct (answer _ _ _) as [q env].
    set (y := mkExchange (new_req_auth_response token v) false q).
    destruct q as [e1|err|].
    + intros (auths & Hl & Hf & Hc & Hr)%IH. exists (y :: auths). cbn [c_log] in Hl.
      rewrite <- app_assoc in Hl. split_and!; [done|by constructor|by exists b, token, a'|].
      intros (Ha & e' & s & He & Hs)%Hr. split; [constructor; [by exists e1|done]|].
      exists e', s. by rewrite last_answer_cons.
    + intros [= <- <-]. exists [y]. by split_and!; repeat constructor; try exists b, token, a'.
    + intros [= <- <-]. exists [y]. by split_and!; repeat constructor; try exists b, token, a'.
  - intros [= <- <-]. exists []. rewrite app_nil_r. split_and!; [done..|]. intros _. split; [done|]. by exists e, b.
Qed.

(** What is sent after STARTUP, which was answered with [start]: tokens, then
    the keyspace; [r] is what the caller gets. *)
Record well_conducted (provider : P) (v : Version) (start : Result Envelope) (auths uses : list Exchange)
    (r : Result unit) : Prop := {
  wc_framed : Forall (fun y => x_handshake y = false) (auths ++ uses);
  wc_credentials : credentials provider v start auths;
  wc_accepted : uses <> [] \/ r = Ok tt -> accepted start auths;
  wc_answered : r = Ok tt -> Forall answered (auths ++ uses);
  wc_once : (length uses <= 1)%nat;
  wc_keyspace : forall k, (forall env, current_keyspace (holder env) = k) -> uses <> [] \/ r = Ok tt ->
    map x_sent uses = match k with Some k => [use_keyspace k v] | None => [] end }.

Lemma gave_up provider v start auths r : r <> Ok tt -> credentials provider v start auths ->
  Forall (fun y => x_handshake y = false) auths -> well_conducted provider v start auths [] r.
Proof. intros Hr Hc Hf. split; rewrite ?app_nil_r; [done..| | | |]; [by intros [?|?]|done|simpl; lia|]. by intros k _ [?|?]. Qed.

Lemma keyspace_conducted provider v start auths w r w' :
  set_keyspace v w = Some (r, w') -> credentials provider v start auths ->
  Forall (fun y => x_handshake y = false) auths -> Forall answered auths -> accepted start auths ->
  exists uses, c_log w' = c_log w ++ uses /\ well_conducted provider v start auths uses r.
Proof using Type.
  intros (uses & Hl & Hf & Hu & Ha)%set_keyspace_spec Hc Hf' Ha' Hacc. exists uses. split; [done|].
  split; [by apply Forall_app|done..| | |].
  - intros Hr. apply Forall_app. auto.
  - rewrite <- (length_map x_sent uses), Hu. case_match; simpl; lia.
  - intros k Hk _. by rewrite Hu, Hk.
Qed.

Lemma authenticated_conducted fuel provider v start b w r w' :
  response_body start = Ok (RbAuthenticate b) -> provider_name provider = Some (ba_data b) ->
  (let '(response, a) := initial_response (create_authenticator provider) in
   tbind (tell (new_req_auth_response response v) false)
     (fun e => tbind (authenticate fuel a e v) (fun _ => set_keyspace v))) w = Some (r, w') ->
  exists auths uses, c_log w' = c_log w ++ auths ++ uses /\ well_conducted provider v (Ok start) auths uses r.
Proof using Type.
  intros Hb Hp. destruct (initial_response _) as [token a] eqn:Ei. intros H. apply tbind_inv in H. unfold tell in H.
  destruct (answer _ _ _) as [q env]. set (y := mkExchange (new_req_auth_response token v) false q) in H.
  assert (Hcred : forall rest, match q with Ok e => challenge_chain v a e rest | _ => rest = [] end ->
    credentials provider v (Ok start) (y :: rest)).
  { intros rest Hrest. exists start, b. by rewrite Ei. }
  destruct H as [(e & w1 & Hw & H)|(q' & Hw & Hq & Hr)]; injection Hw as -> <-.
  2:{ exists [y], []. split; [done|]. apply gave_up; [done| |by repeat constructor]. apply Hcred.
      destruct q' as [e|e|]; [by destruct (Hq e)|done..]. }
  apply tbind_inv in H as [([] & w2 & H & Hk)|(q' & H & _ & Hr)];
    apply authenticate_spec in H as (auths & Hl & Hf & Hc & Hok); cbn [c_log] in Hl; rewrite <- app_assoc in Hl.
  2:{ exists (y :: auths), []. rewrite app_nil_r. split; [done|]. apply gave_up; [done|by apply Hcred|by constructor]. }
  destruct (Hok eq_refl) as (Ha & e' & s & He & Hs).
  apply (keyspace_conducted provider v (Ok start) (y :: auths)) in Hk as (uses & Hl' & Hw);
    [|by apply Hcred|by constructor|constructor; [by exists e|done]|].
  - exists (y :: auths), uses. split; [|done]. rewrite Hl', Hl, <- app_assoc. done.
  - exists e'. rewrite last_answer_cons. split; [done|by exists s].
Qed.

Lemma startup_sends (fuel : nat) (provider : P) (compression : Compression) (v : Version)
    (w : Conversation) (r : Result unit) (w' : Conversation) :
  startup fuel provider compression v w = Some (r, w') ->
  exists start auths uses,
    c_log w' = c_log w ++ mkExchange (startup_envelope compression v) true start :: auths ++ uses /\
    (r = Ok tt -> exists e, start = Ok e) /\ well_conducted provider v start auths uses r.
Proof using Type.
  unfold startup, tell_startup, tell. intros H. apply tbind_inv in H.
  destruct (answer _ _ _) as [q env]. exists q.
  assert (Hend : forall r, r <> Ok tt -> exists auths uses, 
    c_log w ++ [mkExchange (startup_envelope compression v) true q] =
    c_log w ++ mkExchange (startup_envelope compression v) true q :: auths ++ uses /\
    (r = Ok tt -> exists e, q = Ok e) /\ well_conducted provider v q auths uses r).
  { intros r0 Hr. exists [], []. split_and!; [done..|]. by apply gave_up. }
  destruct H as [(e & w1 & Hw & H)|(q' & Hw & _ & Hr)]; [|injection Hw as _ <-; by apply Hend].
  assert (q = Ok e) as -> by (destruct q as [|[] |]; simpl in Hw; repeat case_match; congruence).
  injection Hw as <-. case_bool_decide as Hop; [|case_bool_decide as Hau; [|injection H as <- <-; by apply Hend]].
  - apply (keyspace_conducted provider v (Ok e) []) in H as (uses & Hl & Hw); [|done..|by exists e].
    exists [], uses. rewrite Hl. cbn [c_log]. rewrite <- app_assoc. split_and!; [done|by exists e|done].
  - rewrite tbind_lift in H. destruct (response_body e) as [body|err|] eqn:Eb; [|injection H as <- <-; by apply Hend..].
    rewrite tbind_lift in H. destruct body; cbn [authenticator] in H; try (injection H as <- <-; by apply Hend).
    rewrite tbind_lift in H. unfold check_authenticator in H. destruct (provider_name provider) as [auth|] eqn:Ep; [|injection H as <- <-; by apply Hend].
    case_bool_decide as Hn; [injection H as <- <-; by apply Hend|]. subst auth.
    eapply authenticated_conducted in H as (auths & uses & Hl & Hw); [|done..].
    exists auths, uses. rewrite Hl. cbn [c_log]. rewrite <- app_assoc. split_and!; [done|by exists e|done].
Qed.

(** C14: in every conversation with any server, only STARTUP is sent as part
    of the unframed handshake; credentials are sent only to a server that
    asked for the authenticator the client was given, and further tokens only
    as answers to its challenges; the keyspace is set only after the server
    accepted the connection.  A connection is reported ready only when every
    message was answered without an error, the server accepted it and the
    current keyspace, if there is one, was set on it. *)
Theorem startup_conversation (fuel : nat) (provider : P) (compression : Compression) (v : Version)
    (w : Conversation) (r : Result unit) (w' : Conversation) :
  startup fuel provider compression v w = Some (r, w') ->
  exists start auths uses,
    c_log w' = c_log w ++ mkExchange (startup_envelope compression v) true start :: auths ++ uses /\
    (r = Ok tt -> exists e, start = Ok e) /\ well_conducted provider v start auths uses r.
Proof using Type. apply startup_sends. Qed.

Lemma few_tokens `{!NoChallenges A} provider v start auths uses r :
  well_conducted provider v start auths uses r -> (length auths <= 1)%nat.
Proof.
  intros [_ Hc _ _ _ _]. destruct auths as [|y [|z rest]]; simpl; try lia. simpl in Hc.
  destruct Hc as (e & b & _ & _ & _ & Hc). destruct (initial_response _) as [token a]. destruct Hc as [_ Hc].
  destruct (x_answer y) as [e1|err|]; [|done..]. destruct Hc as (c & token' & a' & _ & He & _).
  destruct (no_challenges a (bac_data c)) as [err Hn]. by rewrite He in Hn.
Qed.

(** ** It ends *)

(** The authentication loop either needs one round, because no challenge is
    answered, or as many as the server has challenges. *)
Lemma authenticate_once `{!NoChallenges A} fuel a e v w : is_Some (authenticate (S fuel) a e v w).
Proof.
  cbn [authenticate]. rewrite tbind_lift. destruct (response_body e) as [[]|err|]; try by eexists.
  destruct (no_challenges a (bac_data b)) as [err He]. destruct (evaluate_challenge _ _) as [q a']. simpl in He.
  subst q. by eexists.
Qed.

Definition fewer_challenges (m : W -> nat) : Prop := forall e handshake env q env',
  answer e handshake env = (q, env') -> (m env' <= m env)%nat /\
    forall e' c, q = Ok e' -> response_body e' = Ok (RbAuthChallenge c) -> (m env' < m env)%nat.

Lemma authenticate_ends m fuel a e v w : fewer_challenges m ->
  (0 < fuel)%nat -> (forall c, response_body e = Ok (RbAuthChallenge c) -> S (m (c_env w)) < fuel)%nat ->
  is_Some (authenticate fuel a e v w).
Proof.
  intros Hm. revert a e w. induction fuel as [|fuel IH]; intros a e w Hf Hc; [lia|]. cbn [authenticate].
  rewrite tbind_lift. destruct (response_body e) as [[]|err|]; try by eexists. specialize (Hc b eq_refl).
  destruct (evaluate_challenge _ _) as [[token|err|] a']; rewrite tbind_lift; try by eexists. unfold tbind, tell.
  destruct (answer _ _ _) as [[e1|err|] env'] eqn:Ea; try by eexists.
  destruct (Hm _ _ _ _ _ Ea) as [_ Hlt]. apply IH; [lia|]. intros c Hb. specialize (Hlt e1 c eq_refl Hb). cbn [c_env]. lia.
Qed.

(** [startup] ends when its authentication loop does. *)
Lemma startup_ends_if fuel provider compression v w :
  (forall token a env env' e log, answer (new_req_auth_response token v) false env = (Ok e, env') ->
     (exists e0 q0, answer e0 true (c_env w) = (q0, env)) ->
     is_Some (authenticate fuel a e v (mkConversation env' log))) ->
  is_Some (startup fuel provider compression v w).
Proof.
  intros Ha. assert (Hk : forall w, is_Some (set_keyspace v w)).
  { intros w0. unfold set_keyspace. destruct (current_keyspace _); [|by eexists]. unfold tbind, tell.
    destruct (answer _ _ _) as [[] ?]; by eexists. }
  unfold startup, tell_startup, tell. unfold tbind at 1. destruct (answer _ _ _) as [q env] eqn:E.
  destruct (bad_protocol q) as [e|err|]; [|by eexists..].
  case_bool_decide; [apply Hk|]. case_bool_decide; [|by eexists]. rewrite tbind_lift.
  destruct (response_body e) as [body|err|]; [|by eexists..]. rewrite tbind_lift.
  destruct (authenticator body) as [name|]; [|by eexists]. rewrite tbind_lift.
  destruct (check_authenticator provider name) as [[]|err|]; [|by eexists..].
  destruct (initial_response _) as [token a]. unfold tbind at 1, tell. cbn [c_env].
  destruct (answer _ false _) as [[e1|err|] env'] eqn:E1; [|by eexists..]. unfold tbind at 1.
  edestruct (Ha token a env env' e1) as [[r w1] Hr]; [exact E1|by eexists _, _|]. rewrite Hr.
  destruct r; [apply Hk|by eexists..].
Qed.

(** C32: establishing a connection ends.  With an authenticator that answers
    no challenges (the two the library has) one round of the loop is enough
    and at most three messages are sent; in general there are as many rounds
    as the server has challenges to issue. *)
Theorem startup_ends (provider : P) (compression : Compression) (v : Version) (w : Conversation) :
  (NoChallenges A -> exists r w', startup 1 provider compression v w = Some (r, w') /\
     (length (c_log w') <= length (c_log w) + 3)%nat) /\
  (forall m, fewer_challenges m -> is_Some (startup (2 + m (c_env w)) provider compression v w)).
Proof using Type.
  split.
  - intros Hn. destruct (startup_ends_if 1 provider compression v w) as [[r w'] H].
    { intros. by apply authenticate_once. }
    exists r, w'. split; [done|]. apply startup_sends in H as (start & auths & uses & Hl & _ & Hw). rewrite Hl.
    rewrite length_app. simpl. rewrite length_app. pose proof (few_tokens _ _ _ _ _ _ Hw).
    pose proof (wc_once _ _ _ _ _ _ Hw). lia.
  - intros m Hm. apply startup_ends_if. intros token a env env' e log E1 (e0 & q0 & E0).
    destruct (Hm _ _ _ _ _ E0) as [H0 _]. destruct (Hm _ _ _ _ _ E1) as [_ H1].
    apply (authenticate_ends m); [done|lia|]. intros c Hc. specialize (H1 e c eq_refl Hc). cbn [c_env]. lia.
Qed.
End Startup.

(** The SASL PLAIN token names one user and one password: neither may contain
    the separator. *)
Lemma split_at_nul (a a' b b' : bytes) : u8 0 ∉ a -> u8 0 ∉ a' -> a ++ u8 0 :: b = a' ++ u8 0 :: b' -> a = a' /\ b = b'.
Proof.
  revert a'. induction a as [|x a IH]; intros [|x' a'] Ha Ha' E; injection E; [done| | |].
  - intros _ <-. destruct Ha'. by left.
  - intros _ ->. destruct Ha. by left.
  - intros E' ->. apply not_elem_of_cons in Ha as [_ Ha], Ha' as [_ Ha']. by destruct (IH _ Ha Ha' E') as [-> ->].
Qed.
Theorem password_token_unambiguous (a b : StaticPasswordAuthenticator) :
  u8 0 ∉ sa_username a -> u8 0 ∉ sa_username b -> (initial_response a).1 = (initial_response b).1 -> a = b.
Proof.
  intros Ha Hb E. destruct a as [ua pa], b as [ub pb]. unfold initial_response in E. simpl in *.
  injection E as E. apply split_at_nul in E as [-> ->]; done.
Qed.

(** ** Witnesses *)

Module StartupSamples.
#[local] Existing Instance uuid_bytes.
#[local] Instance order : HashIter bytes := default_iter bytes.

(** A server that plays back a list of responses. *)
Record Script : Type := mkScript { responses : list (Result Envelope); keyspaces : KeyspaceHolder }.
Definition play (e : Envelope) (handshake : bool) (s : Script) : Result Envelope * Script :=
  match responses s with
  | r :: rest => (r, mkScript rest (keyspaces s))
  | [] => (Err (EIo BrokenPipe), s)
  end.
Definition response (o : Opcode) (b : bytes) : Result Envelope := Ok (mkEnvelope V4 Response 0 o 1 b None []).
Definition password : bytes := lit "org.apache.cassandra.auth.PasswordAuthenticator".
Definition secure : Script :=
  mkScript [response OpAuthenticate (BodyResAuthenticate_serialize (mkBodyResAuthenticate password));
            response OpAuthSuccess (CBytes_serialize (CBytes_new []));
            response OpResult (i32_serialize 1)]
    (mkKeyspaceHolder (Some (lit "ks")) []).
Definition node_address : SocketAddr := mkSocketAddr (IpV4 (map u8 [10; 0; 0; 1])) 9042.
Definition provider : StaticPasswordAuthenticatorProvider := mkStaticPasswordProvider (lit "user") (lit "pass").
Definition connected : option (Result unit * Conversation) :=
  startup play keyspaces node_address None 1 provider NoCompression V4 (mkConversation secure []).
Definition connected_result : Result unit := match connected with Some (r, _) => r | None => Panic end.
Definition connected_log : list Exchange := match connected with Some (_, w) => c_log w | None => [] end.

(** The credentials are sent in the second message and the keyspace in the third. *)
Lemma startup_conversation_witness :
  connected_result = Ok tt /\ map (fun x => opcode (x_sent x)) connected_log = [OpStartup; OpAuthResponse; OpQuery] /\
  exists start auths uses,
    connected_log = [] ++ mkExchange (startup_envelope None NoCompression V4) true start :: auths ++ uses /\
    (connected_result = Ok tt -> exists e, start = Ok e) /\
    well_conducted keyspaces provider V4 start auths uses connected_result.
Proof.
  split; [vm_compute; reflexivity|]. split; [vm_compute; reflexivity|].
  assert (E : match connected with Some _ => true | None => false end = true) by (vm_compute; reflexivity).
  unfold connected_log, connected_result. destruct connected as [[r w]|] eqn:Ec; [clear E|discriminate E].
  apply (startup_conversation play keyspaces node_address None 1 provider NoCompression V4 (mkConversation secure []) r w).
  exact Ec.
Defined.

(** Two rounds more than responses are enough for this server. *)
Lemma startup_ends_witness :
  is_Some (startup play keyspaces node_address None 5 provider NoCompression V4 (mkConversation secure [])) /\
  exists r w', connected = Some (r, w') /\ (length (c_log w') <= 3)%nat.
Proof.
  split.
  - apply (proj2 (startup_ends play keyspaces node_address None provider NoCompression V4 (mkConversation secure []))
             (fun s => length (responses s))).
    intros e handshake [[|q rest] k] q' env' E; unfold play in E; simpl in E; injection E as <- <-; simpl.
    + split; [lia|discriminate].
    + split; [lia|intros; lia].
  - exact (proj1 (startup_ends play keyspaces node_address None provider NoCompression V4 (mkConversation secure [])) _).
Defined.
End StartupSamples.
