(* ===== verification/Pool.v ===== *)
(** * Connection pools: [cluster/connection_pool.rs], [Node::persistent_connection]

    The pool of a node: its creation, the choice of a connection, the tasks
    that monitor and restore it.  Connections are identified by numbers and
    whether one is broken is a flag its transport sets once.  The monitor and
    the reconnection task run concurrently with the transports: their steps
    between two points of interaction (a channel, the pool's lock, the atomic
    reconnection state, the node's state) are the transitions of a machine,
    and what the network answers comes with the events. *)

From S2P Require Import Prelude Types Wire Envelope Query Requests Transport Reader Retry Token Topology LoadBalancing Startup.
Local Open Scope Z_scope.
Local Open Scope cdrs_scope.

(** ** [ConnectionPoolConfig] *)

Record ConnectionPoolConfig : Type := mkPoolConfig {
  local_size : nat; remote_size : nat; connect_timeout : option Z; heartbeat_interval : Z }.
(** Durations are in milliseconds. *)
Definition ConnectionPoolConfig_default : ConnectionPoolConfig := mkPoolConfig 1 1 None 30000.

Inductive pool_setter : Type :=
| WithLocalSize (n : nat) | WithRemoteSize (n : nat) | WithConnectTimeout (t : option Z) | WithHeartbeatInterval (t : Z).
Definition pool_with (s : pool_setter) (c : ConnectionPoolConfig) : ConnectionPoolConfig :=
  match s with
  | WithLocalSize n => mkPoolConfig n (remote_size c) (connect_timeout c) (heartbeat_interval c)
  | WithRemoteSize n => mkPoolConfig (local_size c) n (connect_timeout c) (heartbeat_interval c)
  | WithConnectTimeout t => mkPoolConfig (local_size c) (remote_size c) t (heartbeat_interval c)
  | WithHeartbeatInterval t => mkPoolConfig (local_size c) (remote_size c) (connect_timeout c) t
  end.

Definition pool_size (d : NodeDistance) (c : ConnectionPoolConfig) : nat :=
  if bool_decide (d = NdLocal) then local_size c else remote_size c.

(** [new_connection]: what the connection manager returns, [None] if it has
    not by the time the timer fires. *)
Definition new_connection {C} (timeout : option Z) (finished : option (Result C)) : option (Result C) :=
  match timeout with
  | Some _ =>
    Some (match finished with Some r => r | None => Err (ETimeout "Timeout waiting for connection to: {broadcast_rpc_address}") end)
  | None => finished
  end.

(** ** [ConnectionPool] *)

Record ConnectionPool {C : Type} : Type := mkPool { pool : list C; desired_size : nat; current_index : Z }.
Arguments ConnectionPool : clear implicits.
Arguments mkPool {C} _ _ _.

Section Pool.
Context {C : Type}.

(** [filter_map] and [try_collect] over what [join_all] returned: an invalid
    protocol is final, other failures are left to the reconnection. *)
Fixpoint collect_connections (results : list (Result C)) : Result (list C) :=
  match results with
  | [] => Ok []
  | Ok c :: results => let? pool := collect_connections results in Ok (c :: pool)
  | Err (EInvalidProtocol addr) :: _ => Err (EInvalidProtocol addr)
  | Err _ :: results => collect_connections results
  | Panic :: _ => Panic
  end.

(** [ConnectionPool::new], with the number of errors that broken transports
    have put in the channel meanwhile; the channel's receiver is only read
    once the pool exists, so that [None] waits forever. *)
Definition ConnectionPool_new (d : NodeDistance) (config : ConnectionPoolConfig) (results : list (Result C)) (reported : nat)
  : option (Result (ConnectionPool C * nat)) :=
  let desired_size := pool_size d config in
  match collect_connections results with
  | Ok pool =>
    if bool_decide (length pool <> desired_size) then
      if (reported <? desired_size)%nat then Some (Ok (mkPool pool desired_size 0, S reported)) else None
    else Some (Ok (mkPool pool desired_size 0, reported))
  | Err e => Some (Err e)
  | Panic => Some Panic
  end.

(** [ConnectionPoolFactory::create]: a channel must have room for a message. *)
Definition create (d : NodeDistance) (config : ConnectionPoolConfig) (results : list (Result C)) (reported : nat)
  : option (Result (ConnectionPool C * nat)) :=
  if bool_decide (pool_size d config = O) then Some Panic else ConnectionPool_new d config results reported.

Definition no_connections_error {A} : Result A := Err (EGeneral "No active connections to: {}").

(** The loop over the pool, starting anywhere; running out of fuel or of the
    pool's bounds is not a result it has. *)
Fixpoint pick (fuel : nat) (is_broken : C -> bool) (l : list C) (first_index index : nat) : Result C :=
  match fuel with
  | O => Panic
  | S fuel =>
    match l !! index with
    | None => Panic
    | Some connection =>
      if negb (is_broken connection) then Ok connection
      else
        let index := ((index + 1) mod length l)%nat in
        if bool_decide (index = first_index) then no_connections_error else pick fuel is_broken l first_index index
    end
  end.

(** [ConnectionPool::connection] *)
Definition connection (is_broken : C -> bool) (p : ConnectionPool C) : Result C * ConnectionPool C :=
  let pool_len := length (pool p) in
  if bool_decide (pool_len = O) then (no_connections_error, p)
  else
    let index := (Z.to_nat (current_index p mod Z.of_nat pool_len)) in
    (pick pool_len is_broken (pool p) index index, mkPool (pool p) (desired_size p) (wrap 64 (current_index p + 1))).

Definition is_any_connection_up (is_broken : C -> bool) (p : ConnectionPool C) : bool :=
  existsb (fun c => negb (is_broken c)) (pool p).
Definition are_all_connections_down (is_broken : C -> bool) (p : ConnectionPool C) : bool :=
  forallb is_broken (pool p).

(** [Node::persistent_connection]: the node's pool is created once, by the
    first request that gets one. *)
Definition persistent_connection `{UuidLib} (is_broken : C -> bool) (n : Node) (current : option (ConnectionPool C))
    (created : option (Result (ConnectionPool C * nat))) (h : Heap)
  : option (Result C * option (ConnectionPool C) * Heap) :=
  match current with
  | Some p => let '(r, p) := connection is_broken p in Some (r, Some p, h)
  | None =>
    match created with
    | None => None
    | Some (Ok (p, _)) => let '(r, p) := connection is_broken p in Some (r, Some p, h)
    | Some (Err (EInvalidProtocol addr)) => Some (Err (EInvalidProtocol addr), None, force_down n h)
    | Some (Err e) => Some (Err e, None, h)
    | Some Panic => Some (Panic, None, h)
    end
  end.

(** The watcher of the keyspace: USE on every connection that works. *)
Definition keyspace_changed `{UuidLib} {HB : HashIter bytes} (is_broken : C -> bool) (p : ConnectionPool C)
    (keyspace : option bytes) (v : Version) : list (C * Envelope) :=
  match keyspace with
  | Some keyspace => map (fun c => (c, use_keyspace keyspace v)) (filter (fun c => is_broken c = false) (pool p))
  | None => []
  end.

(** One tick of the heartbeat of a node and a pool, if they still exist:
    [None] when it stops, otherwise what it writes. *)
Definition heartbeat `{UuidLib} (node_state : option NodeState) (p : option (ConnectionPool C)) (v : Version)
  : option (list (C * Envelope)) :=
  match node_state with
  | None => None
  | Some NsForcedDown => None
  | Some NsUp => match p with Some p => Some (map (fun c => (c, new_req_options v)) (pool p)) | None => None end
  | Some _ => Some []
  end.
End Pool.

(** ** Choosing a connection *)

Section Choice.
Context {C : Type} (is_broken : C -> bool).

Definition first_unbroken (l : list C) : option C := find (fun c => negb (is_broken c)) l.
Definition or_no_connections (o : option C) : Result C := match o with Some c => Ok c | None => no_connections_error end.

Lemma first_unbroken_spec l :
  match first_unbroken l with
  | Some c => c ∈ l /\ is_broken c = false
  | None => forall c, c ∈ l -> is_broken c = true
  end.
Proof.
  unfold first_unbroken. destruct (find _ l) as [c|] eqn:E.
  - apply find_some in E as [Hc Hb]. split; [by apply list_elem_of_In|]. by apply negb_true_iff.
  - intros c Hc%list_elem_of_In. by apply negb_false_iff, (find_none _ _ E).
Qed.

(** From the [k]-th connection of the rotation on. *)
Lemma pick_rotation l first fuel k : (first < length l)%nat -> (k + fuel = length l)%nat -> (0 < fuel)%nat ->
  pick fuel is_broken l first ((first + k) mod length l) = or_no_connections (first_unbroken (drop k (rotate_left first l))).
Proof.
  intros Hf. revert k. induction fuel as [|fuel IH]; intros k Hk Hpos; [lia|]. cbn [pick].
  assert (Hl : rotate_left first l !! k = l !! ((first + k) mod length l)%nat) by (apply rotate_left_lookup; lia).
  destruct (lookup_lt_is_Some_2 (rotate_left first l) k) as [c Hc]; [rewrite rotate_left_perm; lia|].
  rewrite <- Hl, Hc, (drop_S _ c k Hc). unfold first_unbroken. cbn [find]. destruct (negb (is_broken c)); [done|].
  rewrite Nat.Div0.add_mod_idemp_l. replace (first + k + 1)%nat with (first + S k)%nat by lia.
  destruct fuel as [|fuel].
  - rewrite bool_decide_true; [by rewrite drop_ge by (rewrite rotate_left_perm; lia)|].
    replace (first + S k)%nat with (first + 1 * length l)%nat by lia. by rewrite Nat.Div0.mod_add, Nat.mod_small.
  - rewrite bool_decide_false; [by apply IH; lia|].
    destruct (Nat.lt_ge_cases (first + S k) (length l)); [rewrite Nat.mod_small by lia; lia|].
    replace (first + S k)%nat with ((first + S k - length l) + 1 * length l)%nat by lia.
    rewrite Nat.Div0.mod_add, Nat.mod_small by lia. lia.
Qed.

(** A request gets the first working connection of the node's pool,
    counting from the one after where the previous request started and around
    the end; it fails exactly when no connection works, and the search always
    ends. *)
Theorem connection_round_robin (p : ConnectionPool C) :
  let start := Z.to_nat (current_index p mod zlen (pool p)) in
  (connection is_broken p).1 = or_no_connections (first_unbroken (rotate_left start (pool p))) /\
  (is_any_connection_up is_broken p = true <-> exists c, (connection is_broken p).1 = Ok c) /\
  (forall c, (connection is_broken p).1 = Ok c -> c ∈ pool p /\ is_broken c = false) /\
  (pool p <> [] -> current_index (connection is_broken p).2 = wrap 64 (current_index p + 1)).
Proof.
  intros start. assert (H : (connection is_broken p).1 = or_no_connections (first_unbroken (rotate_left start (pool p)))).
  { unfold connection. case_bool_decide as Hl.
    - apply nil_length_inv in Hl. unfold start. rewrite Hl. unfold rotate_left. by rewrite drop_nil, take_nil.
    - cbn [fst]. fold (zlen (pool p)). fold start. assert (start < length (pool p))%nat.
      { unfold start. pose proof (Z.mod_pos_bound (current_index p) (zlen (pool p))). unfold zlen in *. lia. }
      pose proof (pick_rotation (pool p) start (length (pool p)) 0) as Hp.
      rewrite drop_0, Nat.add_0_r, Nat.mod_small in Hp by done. apply Hp; lia. }
  pose proof (first_unbroken_spec (rotate_left start (pool p))) as Hs. rewrite H.
  split_and!; [done| | |].
  - unfold is_any_connection_up. rewrite existsb_exists. destruct (first_unbroken _) as [c|].
    + destruct Hs as [Hc Hb]. rewrite rotate_left_perm in Hc. split; [by exists c|]. intros _. exists c.
      by rewrite <- list_elem_of_In, Hb.
    + split; [|by intros [c ?]]. intros (c & Hc%list_elem_of_In & Hb). rewrite <- (rotate_left_perm start) in Hc.
      by rewrite (Hs c Hc) in Hb.
  - destruct (first_unbroken _) as [c|]; [|done]. intros c' [= <-]. by rewrite rotate_left_perm in Hs.
  - intros Hne. unfold connection. case_bool_decide as Hl; [|done]. by apply nil_length_inv in Hl.
Qed.
End Choice.

(** ** Creating a pool *)

Definition recoverable {C} (r : Result C) : Prop :=
  exists e, r = Err e /\ forall addr, e <> EInvalidProtocol addr.
Definition established {C} (results : list (Result C)) : list C :=
  flat_map (fun r => match r with Ok c => [c] | _ => [] end) results.

Lemma collect_connections_ok {C} (results : list (Result C)) :
  Forall (fun r => (exists c, r = Ok c) \/ recoverable r) results ->
  collect_connections results = Ok (established results).
Proof.
  induction 1 as [|r results Hr _ IH]; [done|]. destruct Hr as [[c ->]|(e & -> & He)].
  - cbn [collect_connections]. by rewrite IH.
  - cbn [collect_connections]. destruct e; try done. by destruct (He addr).
Qed.

(** A pool is created with the connections that could be established,
    and when some could not, an error in its channel starts their
    reconnection.  But that error is sent before anything reads the channel:
    when as many transports as the pool has connections broke while they were
    being started, the channel is full and the caller waits forever. *)
Theorem pool_creation {C} (d : NodeDistance) (config : ConnectionPoolConfig) (results : list (Result C)) (reported : nat) :
  pool_size d config <> O -> length results = pool_size d config ->
  Forall (fun r => (exists c, r = Ok c) \/ recoverable r) results ->
  let pool := established results in
  (length pool = pool_size d config ->
    create d config results reported = Some (Ok (mkPool pool (pool_size d config) 0, reported))) /\
  (length pool <> pool_size d config -> (reported < pool_size d config)%nat ->
    create d config results reported = Some (Ok (mkPool pool (pool_size d config) 0, S reported))) /\
  (length pool <> pool_size d config -> (pool_size d config <= reported)%nat ->
    create d config results reported = None).
Proof.
  intros Hn Hl Hr pool. unfold create. rewrite bool_decide_false by done. unfold ConnectionPool_new.
  rewrite (collect_connections_ok results Hr). fold pool. split_and!; intros Hp.
  - by rewrite bool_decide_false by (intros []; done).
  - intros Hq. rewrite bool_decide_true by done. by rewrite (proj2 (Nat.ltb_lt _ _)) by done.
  - intros Hq. rewrite bool_decide_true by done. by rewrite (proj2 (Nat.ltb_ge _ _)) by done.
Qed.

(** ** Monitoring and reconnection *)

Inductive ReconnectionState : Type := NotRunning | InProgress | Disabled.
#[export] Instance ReconnectionState_eq_dec : EqDecision ReconnectionState.
Proof. solve_decision. Defined.

(** Where the monitor of a pool is: waiting for an error, about to look at
    the connections, about to look at the reconnection state, or gone. *)
Inductive monitor_phase : Type := MIdle | MReceived | MChecked | MStopped.

(** A reconnection task: asleep, connecting the given slot of the pool with
    the lock held, about to store the state it returned, about to update the
    node, or ended by a panic. *)
Inductive task {S : Type} : Type :=
| Sleeping (s : S) | Reconnecting (s : S) (slot : nat) | Stopped (r : ReconnectionState)
| Settling (r : ReconnectionState) | Died.
Arguments task : clear implicits.

Section Monitor.
Context {S : Type} `{!ReconnectionSchedule S} (new_node_schedule : S).

Record PoolState : Type := mkPoolState {
  pl_desired_size : nat;
  pl_connections : list nat;
  pl_next : nat;                        (** the next connection made *)
  pl_broken : gset nat;                 (** transports whose [is_broken] is set *)
  pl_unreported : gset nat;             (** broken transports yet to send their error *)
  pl_queue : nat;                       (** errors in the channel *)
  pl_reconnection_state : ReconnectionState;
  pl_tasks : list (task S);
  pl_monitor : monitor_phase;
  pl_node_state : NodeState;
  pl_node_alive : bool; pl_pool_alive : bool; pl_manager_alive : bool }.

(** A new pool, of the connections that could be established, and the state of its node. *)
Definition pool_start (desired established queue : nat) (ns : NodeState) : PoolState :=
  mkPoolState desired (seq 0 established) established ∅ ∅ queue NotRunning [] MIdle ns true true true.

Inductive pool_event : Type :=
| EBreak (c : nat)                                       (** a transport sets [is_broken] *)
| EReport (c : nat)                                      (** and sends its error *)
| EReceive | ECheck | EDecide (jitter : Z)               (** the monitor *)
| EWake (k : nat) (jitter : Z)                           (** the delay of a task is over *)
| EConnected (k : nat) (r : Result unit) (jitter : Z)    (** the connection it asked for *)
| EStore (k : nat) | ESettle (k : nat)
| ENodeState (s : NodeState)                             (** somebody else stores the node's state *)
| EDropNode | EDropPool | EDropManager.

Definition pl_is_broken (s : PoolState) (c : nat) : bool := bool_decide (c ∈ pl_broken s).
Definition all_down (s : PoolState) : bool :=
  are_all_connections_down (pl_is_broken s) (mkPool (pl_connections s) (pl_desired_size s) 0).
Definition any_up (s : PoolState) : bool :=
  is_any_connection_up (pl_is_broken s) (mkPool (pl_connections s) (pl_desired_size s) 0).

(** [reconnect_broken]: the next slot, from [i] on, that is broken or missing. *)
Definition needs_connection (s : PoolState) (slot : nat) : bool :=
  match pl_connections s !! slot with Some c => pl_is_broken s c | None => true end.
Definition next_slot (s : PoolState) (i : nat) : option nat :=
  find (needs_connection s) (seq i (Nat.max (length (pl_connections s)) (pl_desired_size s) - i)).
Definition reconnect_from (s : PoolState) (sched : S) (i : nat) : task S :=
  match next_slot s i with Some slot => Reconnecting sched slot | None => Stopped NotRunning end.

(** [while let Some(delay) = reconnection_schedule.next_delay()] *)
Definition next_round (jitter : Z) (sched : S) : task S :=
  match next_delay jitter sched with
  | (Ok (Some _), sched) => Sleeping sched
  | (Ok None, _) => Stopped Disabled
  | _ => Died
  end.

Definition with_tasks (l : list (task S)) (s : PoolState) : PoolState :=
  mkPoolState (pl_desired_size s) (pl_connections s) (pl_next s) (pl_broken s) (pl_unreported s) (pl_queue s)
    (pl_reconnection_state s) l (pl_monitor s) (pl_node_state s) (pl_node_alive s) (pl_pool_alive s) (pl_manager_alive s).
Definition with_monitor (m : monitor_phase) (s : PoolState) : PoolState :=
  mkPoolState (pl_desired_size s) (pl_connections s) (pl_next s) (pl_broken s) (pl_unreported s) (pl_queue s)
    (pl_reconnection_state s) (pl_tasks s) m (pl_node_state s) (pl_node_alive s) (pl_pool_alive s) (pl_manager_alive s).
Definition with_queue (q : nat) (unreported : gset nat) (s : PoolState) : PoolState :=
  mkPoolState (pl_desired_size s) (pl_connections s) (pl_next s) (pl_broken s) unreported q
    (pl_reconnection_state s) (pl_tasks s) (pl_monitor s) (pl_node_state s) (pl_node_alive s) (pl_pool_alive s)
    (pl_manager_alive s).
Definition with_broken (c : nat) (s : PoolState) : PoolState :=
  mkPoolState (pl_desired_size s) (pl_connections s) (pl_next s) ({[c]} ∪ pl_broken s) ({[c]} ∪ pl_unreported s) (pl_queue s)
    (pl_reconnection_state s) (pl_tasks s) (pl_monitor s) (pl_node_state s) (pl_node_alive s) (pl_pool_alive s)
    (pl_manager_alive s).
Definition with_node_state (ns : NodeState) (s : PoolState) : PoolState :=
  mkPoolState (pl_desired_size s) (pl_connections s) (pl_next s) (pl_broken s) (pl_unreported s) (pl_queue s)
    (pl_reconnection_state s) (pl_tasks s) (pl_monitor s) ns (pl_node_alive s) (pl_pool_alive s) (pl_manager_alive s).
Definition with_reconnection_state (r : ReconnectionState) (s : PoolState) : PoolState :=
  mkPoolState (pl_desired_size s) (pl_connections s) (pl_next s) (pl_broken s) (pl_unreported s) (pl_queue s)
    r (pl_tasks s) (pl_monitor s) (pl_node_state s) (pl_node_alive s) (pl_pool_alive s) (pl_manager_alive s).
(** [*connection = ..] or [pool.push(..)] *)
Definition with_connection (slot : nat) (s : PoolState) : PoolState :=
  let l := pl_connections s in
  mkPoolState (pl_desired_size s) (if (slot <? length l)%nat then <[slot := pl_next s]> l else l ++ [pl_next s])
    (Datatypes.S (pl_next s)) (pl_broken s) (pl_unreported s) (pl_queue s)
    (pl_reconnection_state s) (pl_tasks s) (pl_monitor s) (pl_node_state s) (pl_node_alive s) (pl_pool_alive s)
    (pl_manager_alive s).
Definition with_alive (node pool manager : bool) (s : PoolState) : PoolState :=
  mkPoolState (pl_desired_size s) (pl_connections s) (pl_next s) (pl_broken s) (pl_unreported s) (pl_queue s)
    (pl_reconnection_state s) (pl_tasks s) (pl_monitor s) (pl_node_state s) node pool manager.

Definition set_task (k : nat) (t : task S) (s : PoolState) : PoolState := with_tasks (<[k := t]> (pl_tasks s)) s.
Definition drop_task (k : nat) (s : PoolState) : PoolState := with_tasks (delete k (pl_tasks s)) s.
Definition locked (s : PoolState) : bool :=
  existsb (fun t => match t with Reconnecting _ _ => true | _ => false end) (pl_tasks s).
Definition store_node (ns : NodeState) (s : PoolState) : PoolState :=
  if pl_node_alive s then with_node_state ns s else s.

(** The end of a reconnection task. *)
Definition settle (r : ReconnectionState) (s : PoolState) : PoolState :=
  match r with
  | Disabled => store_node NsForcedDown s
  | NotRunning => store_node NsUp s
  | InProgress =>
    if pl_pool_alive s then if any_up s then store_node NsUp s else s else store_node NsForcedDown s
  end.

Definition pool_step (e : pool_event) (s : PoolState) : option PoolState :=
  match e with
  | EBreak c =>
    if bool_decide (c ∈ pl_connections s) && negb (pl_is_broken s c) then Some (with_broken c s) else None
  | EReport c =>
    if bool_decide (c ∈ pl_unreported s) && (pl_queue s <? pl_desired_size s)%nat
    then Some (with_queue (Datatypes.S (pl_queue s)) (pl_unreported s ∖ {[c]}) s) else None
  | EReceive =>
    match pl_monitor s, pl_queue s with
    | MIdle, Datatypes.S q =>
      let s := with_queue q (pl_unreported s) s in
      if pl_node_alive s then
        if bool_decide (pl_node_state s = NsForcedDown) then Some (with_monitor MStopped s) else Some (with_monitor MReceived s)
      else Some (with_monitor MStopped s)
    | _, _ => None
    end
  | ECheck =>
    match pl_monitor s with
    | MReceived =>
      if pl_pool_alive s then
        if locked s then None
        else Some (with_monitor MChecked (if all_down s then with_node_state NsDown s else s))
      else Some (with_monitor MStopped s)
    | _ => None
    end
  | EDecide jitter =>
    match pl_monitor s with
    | MChecked =>
      match pl_reconnection_state s with
      | NotRunning =>
        Some (with_monitor MIdle
                (with_tasks (pl_tasks s ++ [next_round jitter new_node_schedule]) (with_reconnection_state InProgress s)))
      | Disabled => Some (with_monitor MStopped s)
      | InProgress => Some (with_monitor MIdle s)
      end
    | _ => None
    end
  | EWake k jitter =>
    match pl_tasks s !! k with
    | Some (Sleeping sched) =>
      if pl_pool_alive s then
        if pl_manager_alive s then if locked s then None else Some (set_task k (reconnect_from s sched 0) s)
        else Some (set_task k (next_round jitter sched) s)
      else Some (set_task k (Stopped Disabled) s)
    | _ => None
    end
  | EConnected k r jitter =>
    match pl_tasks s !! k with
    | Some (Reconnecting sched slot) =>
      match r with
      | Ok _ => let s := with_connection slot s in Some (set_task k (reconnect_from s sched (Datatypes.S slot)) s)
      | Err (EInvalidProtocol _) => Some (set_task k (Stopped Disabled) s)
      | Err _ => Some (set_task k (next_round jitter sched) s)
      | Panic => Some (set_task k Died s)
      end
    | _ => None
    end
  | EStore k =>
    match pl_tasks s !! k with
    | Some (Stopped r) => Some (set_task k (Settling r) (with_reconnection_state r s))
    | _ => None
    end
  | ESettle k =>
    match pl_tasks s !! k with
    | Some (Settling r) => Some (drop_task k (settle r s))
    | _ => None
    end
  | ENodeState ns => Some (with_node_state ns s)
  | EDropNode => Some (with_alive false (pl_pool_alive s) (pl_manager_alive s) s)
  | EDropPool => Some (with_alive (pl_node_alive s) false (pl_manager_alive s) s)
  | EDropManager => Some (with_alive (pl_node_alive s) (pl_pool_alive s) false s)
  end.

Fixpoint pool_run (es : list pool_event) (s : PoolState) : option PoolState :=
  match es with
  | [] => Some s
  | e :: es => match pool_step e s with Some s => pool_run es s | None => None end
  end.

(** *** Invariant *)

Definition unsettled (t : task S) : bool := match t with Settling _ => false | _ => true end.
Definition reconnections (l : list (task S)) : nat := length (List.filter unsettled l).

Definition task_ok (s : PoolState) (t : task S) : Prop :=
  match t with
  | Reconnecting _ slot => (slot < pl_desired_size s)%nat /\ (slot <= length (pl_connections s))%nat
  | Stopped NotRunning => length (pl_connections s) = pl_desired_size s
  | Stopped InProgress | Settling InProgress => False
  | _ => True
  end.

Record pool_inv (s : PoolState) : Prop := {
  pi_size : (length (pl_connections s) <= pl_desired_size s)%nat;
  pi_fresh : NoDup (pl_connections s) /\ Forall (fun c => c < pl_next s)%nat (pl_connections s);
  pi_broken : forall c, c ∈ pl_broken s -> (c < pl_next s)%nat;
  pi_queue : (pl_queue s <= pl_desired_size s)%nat;
  pi_one : reconnections (pl_tasks s) = if bool_decide (pl_reconnection_state s = InProgress) then 1%nat else 0%nat;
  pi_tasks : Forall (task_ok s) (pl_tasks s) }.

Lemma reconnections_app l l' : reconnections (l ++ l') = (reconnections l + reconnections l')%nat.
Proof. unfold reconnections. by rewrite List.filter_app, length_app. Qed.

Lemma reconnections_split (l : list (task S)) k t : l !! k = Some t ->
  reconnections l = (reconnections [t] + reconnections (delete k l))%nat /\
  forall t', reconnections (<[k := t']> l) = (reconnections [t'] + reconnections (delete k l))%nat.
Proof.
  intros Hk. assert (Hlen := lookup_lt_Some _ _ _ Hk).
  assert (E : forall t', reconnections (take k l ++ t' :: drop (Datatypes.S k) l) =
    (reconnections [t'] + reconnections (delete k l))%nat).
  { intros t'. rewrite delete_take_drop. change (t' :: drop (Datatypes.S k) l) with ([t'] ++ drop (Datatypes.S k) l).
    rewrite !reconnections_app. lia. }
  split; [|intros t'].
  - by rewrite <- (E t), take_drop_middle.
  - by rewrite insert_take_drop, E.
Qed.

Lemma next_slot_spec s i :
  match next_slot s i with
  | Some slot => (i <= slot)%nat /\ (slot < Nat.max (length (pl_connections s)) (pl_desired_size s))%nat /\
      needs_connection s slot = true /\ forall k, (i <= k < slot)%nat -> needs_connection s k = false
  | None => forall k, (i <= k < Nat.max (length (pl_connections s)) (pl_desired_size s))%nat -> needs_connection s k = false
  end.
Proof.
  unfold next_slot. generalize (Nat.max (length (pl_connections s)) (pl_desired_size s)) as n. intros n.
  remember (n - i)%nat as m eqn:Hm. revert i Hm. induction m as [|m IH]; intros i Hm; [intros k; lia|]. cbn [seq find].
  destruct (needs_connection s i) eqn:Ei; [split_and!; [lia|lia|done|lia]|].
  specialize (IH (Datatypes.S i) ltac:(lia)). destruct (find _ _) as [slot|].
  - destruct IH as (H1 & H2 & H3 & H4). split_and!; [lia|lia|done|]. intros k Hk.
    destruct (decide (k = i)) as [-> |]; [done|]. apply H4. lia.
  - intros k Hk. destruct (decide (k = i)) as [-> |]; [done|]. apply IH. lia.
Qed.

Lemma no_need s k : needs_connection s k = false -> (k < length (pl_connections s))%nat.
Proof. unfold needs_connection. destruct (pl_connections s !! k) eqn:E; [|done]. intros _. by eapply lookup_lt_Some. Qed.

(** What a task does next is all right. *)
Lemma reconnect_from_ok s sched i : (length (pl_connections s) <= pl_desired_size s)%nat ->
  (i <= length (pl_connections s))%nat -> task_ok s (reconnect_from s sched i).
Proof.
  intros Hl Hi. unfold reconnect_from. pose proof (next_slot_spec s i) as H. destruct (next_slot s i) as [slot|].
  - destruct H as (H1 & H2 & H3 & H4). simpl. split; [lia|]. destruct (Nat.le_gt_cases slot (length (pl_connections s))); [done|].
    specialize (H4 (length (pl_connections s)) ltac:(lia)). apply no_need in H4. lia.
  - simpl. destruct (Nat.eq_dec (length (pl_connections s)) (pl_desired_size s)) as [|Hne]; [done|].
    specialize (H (length (pl_connections s)) ltac:(lia)). apply no_need in H. lia.
Qed.
Lemma next_round_ok s jitter sched : task_ok s (next_round jitter sched).
Proof. unfold next_round. by destruct (next_delay jitter sched) as [[[]| |] ?]. Qed.
Lemma next_round_unsettled jitter sched : unsettled (next_round jitter sched) = true.
Proof. unfold next_round. by destruct (next_delay jitter sched) as [[[]| |] ?]. Qed.
Lemma reconnect_from_unsettled s sched i : unsettled (reconnect_from s sched i) = true.
Proof. unfold reconnect_from. by destruct (next_slot s i). Qed.

(** Steps of a task that is, and stays, unsettled. *)
Lemma set_task_inv s k t t' : pool_inv s -> pl_tasks s !! k = Some t -> unsettled t = true -> unsettled t' = true ->
  task_ok s t' -> pool_inv (set_task k t' s).
Proof.
  intros [H1 H2 Hb H3 H4 H5] Hk Hu Hu' Hok. destruct (reconnections_split _ _ _ Hk) as [E E']. split; try done.
  - unfold set_task, with_tasks. cbn [pl_tasks pl_reconnection_state]. rewrite E'. rewrite E in H4. revert H4.
    generalize (reconnections (delete k (pl_tasks s))) as n. intros n. unfold reconnections. cbn [List.filter].
    by rewrite Hu, Hu'.
  - change (Forall (task_ok s) (<[k := t']> (pl_tasks s))). by apply Forall_insert.
Qed.

Lemma task_ok_mono s s' t : pl_desired_size s' = pl_desired_size s ->
  (length (pl_connections s) <= length (pl_connections s') <= pl_desired_size s)%nat -> task_ok s t -> task_ok s' t.
Proof. intros Hd Hl. destruct t as [|? slot|[]|[]|]; simpl; try done; rewrite Hd; lia. Qed.

(** A slot of the pool is replaced, or one added, by a new connection. *)
Definition place (slot c : nat) (l : list nat) : list nat :=
  if (slot <? length l)%nat then <[slot := c]> l else l ++ [c].
Lemma length_place slot c l : (slot <= length l)%nat -> length (place slot c l) = Nat.max (length l) (Datatypes.S slot).
Proof.
  intros Hs. unfold place. destruct (Nat.ltb_spec slot (length l)); [rewrite length_insert; lia|].
  rewrite length_app. simpl. lia.
Qed.
Lemma place_fresh slot n l : NoDup l -> Forall (fun c => c < n)%nat l ->
  NoDup (place slot n l) /\ Forall (fun c => c < Datatypes.S n)%nat (place slot n l).
Proof.
  intros Hn Hf. assert (Hnew : n ∉ l) by (intros Hin; rewrite Forall_forall in Hf; specialize (Hf n Hin); lia).
  assert (Hf' : Forall (fun c => c < Datatypes.S n)%nat l) by (eapply Forall_impl; [exact Hf|]; simpl; lia).
  unfold place. destruct (Nat.ltb_spec slot (length l)) as [Hlt|].
  - split; [|apply Forall_insert; [done|simpl; lia]]. rewrite insert_take_drop by done.
    rewrite <- Permutation_middle, <- delete_take_drop. apply NoDup_cons. split.
    + intros Hin. apply Hnew. eapply sublist_subseteq; [apply sublist_delete|done].
    + eapply sublist_NoDup; [done|apply sublist_delete].
  - rewrite Permutation_app_comm. split; [by apply NoDup_cons|]. constructor; [lia|done].
Qed.

Lemma with_connection_inv s sched slot k : pool_inv s -> pl_tasks s !! k = Some (Reconnecting sched slot) ->
  pool_inv (set_task k (reconnect_from (with_connection slot s) sched (Datatypes.S slot)) (with_connection slot s)).
Proof.
  intros [H1 [H2 H2'] Hb H3 H4 H5] Hk. pose proof (Forall_lookup_1 _ _ _ _ H5 Hk) as [Hs Hs'].
  pose proof (length_place slot (pl_next s) (pl_connections s) Hs') as Hlen.
  assert (Hc : pl_connections (with_connection slot s) = place slot (pl_next s) (pl_connections s)) by done.
  eapply set_task_inv; [|exact Hk|done|apply reconnect_from_unsettled|apply reconnect_from_ok];
    [|rewrite Hc, Hlen; cbn [pl_desired_size with_connection]; lia..].
  split; [rewrite Hc, Hlen; cbn [pl_desired_size with_connection]; lia| | |done|done|].
  - by apply place_fresh.
  - intros c Hin%Hb. cbn. lia.
  - eapply Forall_impl; [exact H5|]. intros t. apply task_ok_mono; [done|]. rewrite Hc, Hlen. lia.
Qed.

Lemma pool_step_inv e s s' : pool_inv s -> pool_step e s = Some s' -> pool_inv s'.
Proof.
  intros Hi. pose proof Hi as [H1 H2 Hb H3 H4 H5].
  assert (Hsame : forall s', pl_desired_size s' = pl_desired_size s -> pl_connections s' = pl_connections s ->
    pl_next s' = pl_next s -> (forall c, c ∈ pl_broken s' -> c ∈ pl_broken s \/ c ∈ pl_connections s) -> pl_tasks s' = pl_tasks s -> pl_reconnection_state s' = pl_reconnection_state s ->
    (pl_queue s' <= pl_desired_size s)%nat -> pool_inv s').
  { intros s1 Ed Ec En Eb Et Er Hq. split; rewrite ?Ed, ?Ec, ?En, ?Et, ?Er; [done|done| |done|done|].
    - intros c [Hc%Hb|Hc]%Eb; [done|]. destruct H2 as [_ H2]. rewrite Forall_forall in H2. by apply H2.
    - eapply Forall_impl; [exact H5|]. intros t. apply task_ok_mono; [done|]. rewrite Ec. lia. }
  destruct e as [c|c| | |jitter|k jitter|k r jitter|k|k|ns| | |]; cbn [pool_step]; intros E.
  - destruct (_ && _) eqn:Eq; simplify_eq. apply andb_true_iff in Eq as [Eq _]. apply bool_decide_eq_true_1 in Eq.
    apply Hsame; try done. cbn. intros c' [->%elem_of_singleton|]%elem_of_union; auto.
  - destruct (_ && _) eqn:Eq; simplify_eq. apply andb_true_iff in Eq as [_ Eq]. apply Nat.ltb_lt in Eq. apply Hsame; auto.
  - destruct (pl_monitor s); try done. destruct (pl_queue s) eqn:Eq; [done|].
    repeat case_match; simplify_eq; apply Hsame; auto; cbn; lia.
  - destruct (pl_monitor s); try done. repeat case_match; simplify_eq; apply Hsame; auto.
  - destruct (pl_monitor s); try done. destruct (pl_reconnection_state s) eqn:Er; simplify_eq; try (apply Hsame; by auto).
    split; try done.
    + cbn [pl_tasks pl_reconnection_state with_monitor with_tasks with_reconnection_state]. rewrite reconnections_app, H4.
      unfold reconnections. cbn [List.filter]. by rewrite next_round_unsettled.
    + apply Forall_app. split; [done|]. constructor; [|done]. apply next_round_ok.
  - destruct (pl_tasks s !! k) as [[sched|sched slot|r|r|]|] eqn:Ek; try done.
    repeat case_match; simplify_eq; (eapply set_task_inv; [done|exact Ek|done|..]);
      first [apply next_round_unsettled|apply reconnect_from_unsettled|apply next_round_ok|apply reconnect_from_ok; lia|done].
  - destruct (pl_tasks s !! k) as [[sched|sched slot|q|q|]|] eqn:Ek; try done.
    destruct r as [[]|err|]; simplify_eq; [by apply with_connection_inv| |eapply set_task_inv; by eauto].
    destruct err; simplify_eq; (eapply set_task_inv; [done|exact Ek|done|..]);
      first [apply next_round_unsettled|apply next_round_ok|done].
  - destruct (pl_tasks s !! k) as [[sched|sched slot|r|r|]|] eqn:Ek; try done. simplify_eq.
    destruct (reconnections_split _ _ _ Ek) as [E E']. pose proof (Forall_lookup_1 _ _ _ _ H5 Ek) as Hr.
    assert (Hd : reconnections (delete k (pl_tasks s)) = 0%nat).
    { rewrite E in H4. unfold reconnections at 1 in H4. cbn in H4. destruct (bool_decide _); lia. }
    split; try done.
    + cbn [pl_tasks pl_reconnection_state set_task with_tasks with_reconnection_state].
      rewrite E', Hd. by destruct r.
    + apply Forall_insert; [done|]. by destruct r.
  - destruct (pl_tasks s !! k) as [[sched|sched slot|r|r|]|] eqn:Ek; try done. simplify_eq.
    destruct (reconnections_split _ _ _ Ek) as [E _].
    assert (Hs : forall ns, pool_inv (drop_task k (with_node_state ns s)) /\ pool_inv (drop_task k s)).
    { intros ns. split; (split; [done..| |by apply Forall_delete]);
        change (reconnections (delete k (pl_tasks s)) =
          if bool_decide (pl_reconnection_state s = InProgress) then 1%nat else 0%nat); by rewrite <- H4, E. }
    unfold settle, store_node. destruct (Hs NsUp), (Hs NsForcedDown). repeat case_match; done.
  - simplify_eq. apply Hsame; auto.
  - simplify_eq. apply Hsame; auto.
  - simplify_eq. apply Hsame; auto.
  - simplify_eq. apply Hsame; auto.
Qed.

Lemma pool_run_inv es s s' : pool_inv s -> pool_run es s = Some s' -> pool_inv s'.
Proof.
  revert s. induction es as [|e es IH]; intros s Hi; simpl; [by intros [= <-]|].
  destruct (pool_step e s) as [s1|] eqn:E; [|done]. apply IH. by eapply pool_step_inv.
Qed.
Lemma pool_start_inv desired established queue ns : (established <= desired)%nat -> (queue <= desired)%nat ->
  pool_inv (pool_start desired established queue ns).
Proof.
  intros He Hq. split; simpl; rewrite ?length_seq; try done.
  - split; [apply NoDup_seq|]. apply Forall_forall. intros c Hc. apply elem_of_seq in Hc. lia.
Qed.


(** *** Reconnecting *)

(** The steps of a reconnection whose connections are all established. *)
Fixpoint connect_all (k n : nat) : list pool_event :=
  match n with O => [] | Datatypes.S n => EConnected k (Ok tt) 0 :: connect_all k n end.

Definition restored (k : nat) (s : PoolState) : Prop :=
  pl_tasks s !! k = Some (Stopped NotRunning) /\ length (pl_connections s) = pl_desired_size s /\
  Forall (fun c => c ∉ pl_broken s) (pl_connections s).

Lemma lookup_place slot c l j : (slot <= length l)%nat ->
  place slot c l !! j = if bool_decide (j = slot) then Some c else l !! j.
Proof.
  intros Hs. unfold place. destruct (Nat.ltb_spec slot (length l)); case_bool_decide as Hj; subst.
  - by apply list_lookup_insert_eq.
  - by apply list_lookup_insert_ne.
  - rewrite lookup_app_r by lia. replace (slot - length l)%nat with 0%nat by lia. done.
  - destruct (Nat.lt_ge_cases j (length l)); [by rewrite lookup_app_l|].
    rewrite lookup_app_r by lia. rewrite (lookup_ge_None_2 l j) by done.
    destruct (j - length l)%nat eqn:E; [lia|done].
Qed.

Lemma none_unsettled (l : list (task S)) k t : reconnections l = 0%nat -> l !! k = Some t -> unsettled t = false.
Proof.
  intros Hl Hk. destruct (reconnections_split _ _ _ Hk) as [E _]. rewrite Hl in E. unfold reconnections at 1 in E.
  cbn [List.filter] in E. destruct (unsettled t); [|done]. simpl in E. lia.
Qed.
Lemma one_unsettled (l : list (task S)) k k' t t' : (reconnections l <= 1)%nat ->
  l !! k = Some t -> l !! k' = Some t' -> unsettled t = true -> unsettled t' = true -> k = k'.
Proof.
  revert k k'. induction l as [|x l IH]; intros k k' Hl Hk Hk' Ht Ht'; [done|].
  change (x :: l) with ([x] ++ l) in Hl. rewrite reconnections_app in Hl.
  assert (Hx : unsettled x = true -> reconnections l = 0%nat).
  { intros Hx. unfold reconnections at 1 in Hl. cbn [List.filter] in Hl. rewrite Hx in Hl. simpl in Hl. lia. }
  destruct k as [|k], k' as [|k']; simplify_eq/=; [done| | |f_equal; eapply IH; eauto; lia].
  - by rewrite (none_unsettled l k' t') in Ht' by auto.
  - by rewrite (none_unsettled l k t) in Ht by auto.
Qed.

Lemma all_restored k s i : pool_inv s -> pl_tasks s !! k = Some (Stopped NotRunning) ->
  (forall j, (j < i)%nat -> needs_connection s j = false) ->
  (forall j, (i <= j < Nat.max (length (pl_connections s)) (pl_desired_size s))%nat -> needs_connection s j = false) ->
  restored k s.
Proof.
  intros Hi Hk Hlt Hge. pose proof (Forall_lookup_1 _ _ _ _ (pi_tasks _ Hi) Hk) as Hlen. split_and!; [done|done|].
  apply Forall_lookup. intros j c Hj. pose proof (lookup_lt_Some _ _ _ Hj).
  assert (Hn : needs_connection s j = false) by (destruct (Nat.lt_ge_cases j i); [by apply Hlt|apply Hge; lia]).
  unfold needs_connection in Hn. rewrite Hj in Hn. by apply bool_decide_eq_false_1 in Hn.
Qed.

Lemma reconnect_restores k sched m s i : pool_inv s -> (pl_desired_size s - i <= m)%nat -> (i <= length (pl_connections s))%nat ->
  pl_tasks s !! k = Some (reconnect_from s sched i) -> (forall j, (j < i)%nat -> needs_connection s j = false) ->
  exists n s', (n <= m)%nat /\ pool_run (connect_all k n) s = Some s' /\ restored k s' /\ pl_desired_size s' = pl_desired_size s.
Proof.
  revert s i. induction m as [|m IH]; intros s i Hi Hm Hil Hk Hj;
    pose proof (next_slot_spec s i) as Hn; unfold reconnect_from in Hk; destruct (next_slot s i) as [slot|].
  - exfalso. destruct Hn as (H1 & H2 & _). pose proof (pi_size _ Hi). lia.
  - exists 0%nat, s. split_and!; [lia|done| |done]. by eapply all_restored.
  - destruct Hn as (H1 & H2 & H3 & H4). pose proof (Forall_lookup_1 _ _ _ _ (pi_tasks _ Hi) Hk) as [Hs Hs'].
    set (s1 := set_task k (reconnect_from (with_connection slot s) sched (Datatypes.S slot)) (with_connection slot s)).
    assert (Hst : pool_step (EConnected k (Ok tt) 0) s = Some s1) by (cbn [pool_step]; by rewrite Hk).
    assert (Hc : pl_connections s1 = place slot (pl_next s) (pl_connections s)) by done.
    destruct (IH s1 (Datatypes.S slot)) as (n & s' & Hn & Hr & Hrest & Hd).
    + by eapply pool_step_inv.
    + change (pl_desired_size s1) with (pl_desired_size s). lia.
    + rewrite Hc, length_place by done. lia.
    + apply list_lookup_insert_eq. by eapply lookup_lt_Some.
    + intros j Hlt. unfold needs_connection. rewrite Hc, lookup_place by done. case_bool_decide as Hjs.
      * apply bool_decide_eq_false_2. intros Hin%(pi_broken _ Hi). lia.
      * destruct (Nat.lt_ge_cases j i); [by apply Hj|apply H4; lia].
    + exists (Datatypes.S n), s'. split_and!; [lia| |done|done]. cbn [connect_all pool_run]. by rewrite Hst.
  - exists 0%nat, s. split_and!; [lia|done| |done]. by eapply all_restored.
Qed.

(** C27: when its delay is over and the node answers, a reconnection restores
    the pool: with at most as many attempts as the pool has connections it is
    full and none of its connections is broken. *)
Theorem reconnection_restores (desired established queue : nat) (ns : NodeState) (es : list pool_event) (s : PoolState)
    (k : nat) (sched : S) (jitter : Z) :
  (established <= desired)%nat -> (queue <= desired)%nat ->
  pool_run es (pool_start desired established queue ns) = Some s ->
  pl_tasks s !! k = Some (Sleeping sched) -> pl_pool_alive s = true -> pl_manager_alive s = true ->
  exists n s', (n <= pl_desired_size s)%nat /\ pool_run (EWake k jitter :: connect_all k n) s = Some s' /\ restored k s'.
Proof.
  intros He Hq Hr Hk Hp Hm. apply pool_run_inv in Hr; [|by apply pool_start_inv].
  assert (Hl : locked s = false).
  { apply not_true_is_false. intros Hl. unfold locked in Hl. apply existsb_exists in Hl as (t & Ht%list_elem_of_In & Hrec).
    apply list_elem_of_lookup in Ht as [k' Hk']. destruct t as [|? slot| | |]; try done.
    assert (k' = k) as ->; [|congruence]. eapply one_unsettled; [|exact Hk'|exact Hk|done|done].
    rewrite (pi_one _ Hr). case_bool_decide; lia. }
  set (s1 := set_task k (reconnect_from s sched 0) s).
  assert (Hst : pool_step (EWake k jitter) s = Some s1) by (cbn [pool_step]; by rewrite Hk, Hp, Hm, Hl).
  destruct (reconnect_restores k sched (pl_desired_size s) s1 0) as (n & s' & Hn & Hrun & Hres & _).
  - by eapply pool_step_inv.
  - change (pl_desired_size s1) with (pl_desired_size s). lia.
  - lia.
  - apply list_lookup_insert_eq. by eapply lookup_lt_Some.
  - lia.
  - exists n, s'. split_and!; [done| |done]. cbn [pool_run]. by rewrite Hst.
Qed.

(** *** A lost wake-up *)

Lemma pool_run_app es es' s :
  pool_run (es ++ es') s = match pool_run es s with Some s => pool_run es' s | None => None end.
Proof. revert s. induction es as [|e es IH]; intros s; simpl; [done|]. by destruct (pool_step e s). Qed.

(** Every connection is broken, and nothing is left that would do anything about it. *)
Record stranded (s : PoolState) : Prop := {
  sd_down : all_down s = true; sd_reported : pl_unreported s = ∅; sd_queue : pl_queue s = 0%nat;
  sd_tasks : pl_tasks s = []; sd_monitor : pl_monitor s = MIdle }.

Lemma stranded_step e s s' : stranded s -> pool_step e s = Some s' ->
  stranded s' /\ pl_connections s' = pl_connections s.
Proof.
  intros [H1 H2 H3 H4 H5]. destruct e; cbn [pool_step]; rewrite ?H2, ?H3, ?H4, ?H5, ?lookup_nil; try done;
    try (intros E; simplify_eq; done).
  - intros E. destruct (_ && _) eqn:Eb; [|done]. apply andb_true_iff in Eb as [Hc Hb]. exfalso.
    unfold all_down, are_all_connections_down in H1. rewrite forallb_forall in H1.
    apply bool_decide_eq_true_1, list_elem_of_In in Hc. specialize (H1 c Hc). by rewrite H1 in Hb.
Qed.
Lemma stranded_run es s s' : stranded s -> pool_run es s = Some s' -> stranded s' /\ pl_connections s' = pl_connections s.
Proof.
  revert s. induction es as [|e es IH]; intros s Hs; simpl; [by intros [= <-]|].
  destruct (pool_step e s) as [s1|] eqn:E; [|done]. destruct (stranded_step _ _ _ Hs E) as [Hs1 Hc].
  intros [Hs' Hc']%IH; [|done]. split; [done|congruence].
Qed.

(** The connection made by a reconnection breaks before its task has stored
    that it ended: the monitor receives the error in between. *)
Definition first_break : list pool_event := [EBreak 0; EReport 0; EReceive; ECheck].
Definition second_break (jitter : Z) : list pool_event :=
  [EWake 0 jitter; EConnected 0 (Ok tt) jitter; EBreak 1; EReport 1; EReceive; ECheck; EDecide jitter; EStore 0; ESettle 0].

(** An error that reaches the monitor after the pool has been reconnected
    but before the task has said so is ignored: the pool of one node then
    stays broken for ever, with no reconnection running and the node marked
    as up, whatever happens. *)
Theorem lost_reconnection (jitter d : Z) (sched : S) :
  next_delay jitter new_node_schedule = (Ok (Some d), sched) ->
  exists s, pool_run (first_break ++ EDecide jitter :: second_break jitter) (pool_start 1 1 0 NsUp) = Some s /\
    pl_node_state s = NsUp /\ pl_reconnection_state s = NotRunning /\ pl_connections s <> [] /\
    pl_pool_alive s = true /\ pl_node_alive s = true /\
    forall es s', pool_run es s = Some s' -> all_down s' = true /\ pl_connections s' = pl_connections s /\ pl_tasks s' = [].
Proof.
  intros Hd. rewrite pool_run_app. destruct (pool_run first_break _) as [s0|] eqn:E0; [|vm_compute in E0; done].
  cbn [pool_run]. vm_compute in E0. injection E0 as <-. cbn [pool_step]. unfold next_round. rewrite Hd.
  eexists. split; [vm_compute; reflexivity|]. split_and!; [done..|]. intros es s' Hr.
  apply stranded_run in Hr as [[] Hc]; [by split_and!|]. by split; vm_compute.
Qed.
End Monitor.

(** ** Witnesses *)

Module PoolSamples.
Definition five_seconds : ConstantReconnectionSchedule := mkConstantSchedule 5000.

(** Two of three transports broke while they were started. *)
Definition attempts : list (Result nat) := [Ok 7%nat; Err (EIo UnexpectedEof); Err (EIo UnexpectedEof)].
Definition config : ConnectionPoolConfig := pool_with (WithLocalSize 3) ConnectionPoolConfig_default.
Lemma pool_creation_witness :
  create NdLocal config attempts 2 = Some (Ok (mkPool [7%nat] 3 0, 3%nat)) /\
  create NdLocal ConnectionPoolConfig_default [Err (EIo UnexpectedEof) : Result nat] 1 = None.
Proof.
  split.
  - apply (pool_creation NdLocal config attempts 2); [vm_compute; discriminate|reflexivity| |vm_compute; discriminate|vm_compute; lia].
    apply Forall_cons; split; [left; by eexists|]. repeat (apply Forall_cons; split; [right; by eexists|]). done.
  - apply (pool_creation NdLocal ConnectionPoolConfig_default [Err (EIo UnexpectedEof) : Result nat] 1);
      [vm_compute; discriminate|reflexivity| |vm_compute; discriminate|vm_compute; lia].
    apply Forall_cons; split; [right; by eexists|done].
Defined.

(** One connection of two breaks; the reconnection is asleep. *)
Definition broken_one : list pool_event := first_break ++ [EDecide 0].
Definition after_break : option (PoolState (S := ConstantReconnectionSchedule)) :=
  pool_run five_seconds broken_one (pool_start 2 2 0 NsUp).


Definition waiting : PoolState := default (pool_start 0 0 0 NsUp) after_break.
Lemma reconnection_restores_witness : pl_connections waiting = [0%nat; 1%nat] /\ exists n s', (n <= 2)%nat /\
  pool_run five_seconds (EWake 0 0 :: connect_all 0 n) waiting = Some s' /\ restored 0 s'.
Proof.
  split; [vm_compute; reflexivity|].
  apply (reconnection_restores five_seconds 2 2 0 NsUp broken_one waiting 0 five_seconds 0);
    [lia|lia|vm_compute; reflexivity..].
Defined.

Lemma lost_reconnection_witness : exists s,
  pool_run five_seconds (first_break ++ EDecide 0 :: second_break 0) (pool_start 1 1 0 NsUp) = Some s /\ pl_node_state s = NsUp.
Proof.
  destruct (lost_reconnection five_seconds 0 5000 five_seconds) as (s & Hr & Hn & _); [reflexivity|].
  exists s. split; [exact Hr|exact Hn].
Defined.
End PoolSamples.
