(* ===== verification/SystemTables.v ===== *)
(** * Reading the system tables: the queries of [cluster/cluster_metadata_manager.rs]

    What the metadata manager asks the node of the control connection and how
    it reads the rows it gets: nodes from [system.local] and the peers
    tables, keyspaces with their replication.  The node is a function from
    queries to answers, the state of the cluster being fixed while it is read.
    [system_answers] are the [Answers] that [Manager] is given. *)

From S2P Require Import Prelude Types Wire Envelope Query Requests ErrorMsg Results Responses Token Topology Manager Scalars RustTypes.
From Stdlib Require Import DecimalPos DecimalN DecimalZ.
Local Open Scope Z_scope.
Local Open Scope cdrs_scope.

(** ** [FromStr] of the integers of the standard library *)

Definition digit (b : byte) : option Z :=
  let d := b2z b - 48 in if (0 <=? d) && (d <? 10) then Some d else None.

(** [checked_mul] and [checked_add], or [checked_sub] for a negative number. *)
Fixpoint parse_digits (negative : bool) (lo hi acc : Z) (s : bytes) : option Z :=
  match s with
  | [] => Some acc
  | b :: s =>
    match digit b with
    | None => None
    | Some d =>
      let acc := if negative then acc * 10 - d else acc * 10 + d in
      if (lo <=? acc) && (acc <=? hi) then parse_digits negative lo hi acc s else None
    end
  end.
Definition plus : byte := u8 43.
Definition minus : byte := u8 45.
(** A sign alone and the empty string are errors; only signed types take a minus. *)
Definition parse_int (lo hi : Z) (s : bytes) : option Z :=
  match s with
  | [] => None
  | b :: rest =>
    if bool_decide (b = plus) then match rest with [] => None | _ => parse_digits false lo hi 0 rest end
    else if bool_decide (b = minus) && (lo <? 0) then match rest with [] => None | _ => parse_digits true lo hi 0 rest end
    else parse_digits false lo hi 0 s
  end.
Definition i64_from_str : bytes -> option Z := parse_int (- 2 ^ 63) (2 ^ 63 - 1).
Definition usize_from_str : bytes -> option Z := parse_int 0 (2 ^ 64 - 1).

(** [TryFrom<String> for Murmur3Token] *)
Definition Murmur3Token_try_from (value : bytes) : Result Murmur3Token :=
  match i64_from_str value with Some v => Ok (mkToken v) | None => Err (EGeneral "Error parsing token: {error}") end.

(** ** Keyspaces *)

(** [serde_json]: its values, of which the driver looks at strings and objects. *)
Class JsonLib : Type := {
  JsonValue : Type;
  json_from_str : bytes -> option JsonValue;
  json_object : JsonValue -> option (gmap bytes JsonValue);
  json_string : JsonValue -> option bytes }.

Fixpoint find_slash (s : bytes) : option nat :=
  match s with [] => None | b :: s => if bool_decide (b = u8 47) then Some O else option_map S (find_slash s) end.

Section Keyspaces.
Context {J : JsonLib} {HB : HashIter bytes}.

Definition extract_replication_factor (value : option JsonValue) : Result nat :=
  match value with
  | Some v =>
    match json_string v with
    | Some replication_factor =>
      let result :=
        match find_slash replication_factor with
        | Some slash => usize_from_str (take slash replication_factor)
        | None => usize_from_str replication_factor
        end in
      match result with
      | Some n => Ok (Z.to_nat n)
      | None => Err (EGeneral "Failed to parse ('{replication_factor}'): {error}")
      end
    | None => Err (EGeneral "Missing replication factor!")
    end
  | None => Err (EGeneral "Missing replication factor!")
  end.

(** The properties are visited in the order of the map. *)
Definition extract_datacenter_replication_factor (properties : gmap bytes JsonValue) : Result (gmap bytes nat) :=
  omap hm_collect
    (try_map (fun kv : bytes * JsonValue =>
       let? factor := extract_replication_factor (Some kv.2) in Ok (kv.1, factor)) (hm_iter properties)).

Definition build_replication_strategy (properties : gmap bytes JsonValue) : Result ReplicationStrategy :=
  let class := properties !! lit "class" in
  let properties := delete (lit "class") properties in
  match class ≫= json_string with
  | Some class =>
    if bool_decide (class = lit "org.apache.cassandra.locator.SimpleStrategy" \/ class = lit "SimpleStrategy") then
      omap SimpleStrategy (extract_replication_factor (properties !! lit "replication_factor"))
    else if bool_decide (class = lit "org.apache.cassandra.locator.NetworkTopologyStrategy" \/
                         class = lit "NetworkTopologyStrategy") then
      omap NetworkTopologyStrategy (extract_datacenter_replication_factor properties)
    else Ok OtherStrategy
  | None => Err (EGeneral "Missing replication strategy class!")
  end.

Definition build_keyspace (row : Row) : Result (bytes * KeyspaceMetadata) :=
  let? keyspace_name := get_r (Row_get_by_name as_rust_string row (lit "keyspace_name")) in
  let? replication := get_r (Row_get_by_name as_rust_string row (lit "replication")) in
  match json_from_str replication with
  | None => Err (EGeneral "Error parsing replication for {keyspace_name}: {error}")
  | Some replication =>
    match json_object replication with
    | Some properties =>
      let? replication_strategy := build_replication_strategy properties in
      Ok (keyspace_name, mkKeyspaceMetadata replication_strategy)
    | None => Err (EInvalidReplicationFormat keyspace_name)
    end
  end.
End Keyspaces.

(** ** Nodes *)

Section Nodes.
Context {U : UuidLib}.
(** The numbers drawn in place of tokens that are not 64-bit integers. *)
Context (draws : nat -> Z).

Definition or_else {A} (r other : Result A) : Result A := match r with Err _ => other | _ => r end.

Definition read_tokens (tokens : list bytes) : list Murmur3Token :=
  imap (fun k token => match Murmur3Token_try_from token with Ok t => t | _ => mkToken (draws k) end) tokens.

Definition build_node_info (row : Row) (broadcast_rpc_address : SocketAddr) : Result NodeInfo :=
  let? host_id := get_r (Row_get_by_name as_rust_uuid row (lit "host_id")) in
  let? broadcast_address := or_else (Row_get_by_name as_rust_ip row (lit "broadcast_address"))
                                    (Row_get_by_name as_rust_ip row (lit "peer")) in
  let? broadcast_address :=
    match broadcast_address with
    | Some broadcast_address =>
      let? port :=
        (if contains_column row (lit "broadcast_port") then Row_get_by_name as_rust_i32 row (lit "broadcast_port")
         else if contains_column row (lit "peer_port") then Row_get_by_name as_rust_i32 row (lit "peer_port")
         else Ok None) in
      Ok (option_map (fun port => mkSocketAddr broadcast_address (wrap 16 port)) port)
    | None => Ok None
    end in
  let? datacenter := get_r (Row_get_by_name as_rust_string row (lit "data_center")) in
  let? rack := get_r (Row_get_by_name as_rust_string row (lit "rack")) in
  let? tokens := get_r (Row_get_by_name as_rust_list row (lit "tokens")) in
  let? tokens := as_r_type (list_as_rust as_rust_string tokens) in
  Ok (mkNodeInfo host_id broadcast_rpc_address broadcast_address datacenter (read_tokens tokens) rack).

Definition build_node_broadcast_rpc_address (row : Row) (broadcast_rpc_address : option SocketAddr)
    (control_addr : SocketAddr) : SocketAddr :=
  if contains_column row (lit "peer") then default control_addr broadcast_rpc_address else control_addr.

Definition rpc_port (row : Row) (control_addr : SocketAddr) : Result Z :=
  match or_else (Row_get_by_name as_rust_i32 row (lit "rpc_port")) (Row_get_by_name as_rust_i32 row (lit "native_port")) with
  | Ok (Some port) => Ok port
  | Ok None | Err _ => Ok (sa_port control_addr)
  | Panic => Panic
  end.

(** It is never an error, but reading a row can panic. *)
Definition broadcast_rpc_address_from_row (row : Row) (control_addr : SocketAddr) : Result (option SocketAddr) :=
  match or_else (Row_get_by_name as_rust_ip row (lit "rpc_address")) (Row_get_by_name as_rust_ip row (lit "native_address")) with
  | Ok (Some rpc_address) =>
    let? rpc_port := rpc_port row control_addr in
    let rpc_address := mkSocketAddr rpc_address (wrap 16 rpc_port) in
    if bool_decide (rpc_address = control_addr) && contains_column row (lit "peer") then Ok None else Ok (Some rpc_address)
  | Ok None | Err _ => Ok None
  | Panic => Panic
  end.

Definition is_peer_row_valid (row : Row) : bool :=
  let has_peers_rpc_address := negb (is_empty_by_name row (lit "rpc_address")) in
  let has_peers_v_2_rpc_address :=
    negb (is_empty_by_name row (lit "native_address")) && negb (is_empty_by_name row (lit "native_port")) in
  (has_peers_rpc_address || has_peers_v_2_rpc_address) &&
  negb (is_empty_by_name row (lit "host_id")) && negb (is_empty_by_name row (lit "data_center")) &&
  negb (is_empty_by_name row (lit "rack")) && negb (is_empty_by_name row (lit "tokens")) &&
  negb (is_empty_by_name row (lit "schema_version")).

Fixpoint find_in_peers (peers : list Row) (broadcast_rpc_address control_addr : SocketAddr) : Result (option NodeInfo) :=
  match peers with
  | [] => Ok None
  | peer :: peers =>
    let? peer_address := broadcast_rpc_address_from_row peer control_addr in
    match peer_address with
    | Some peer_address =>
      if bool_decide (peer_address = broadcast_rpc_address) && is_peer_row_valid peer
      then omap Some (build_node_info peer peer_address)
      else find_in_peers peers broadcast_rpc_address control_addr
    | None => find_in_peers peers broadcast_rpc_address control_addr
    end
  end.

(** The infos of the valid rows; the first error ends it. *)
Fixpoint peer_infos (peers : list Row) (control_addr : SocketAddr) : Result (list NodeInfo) :=
  match peers with
  | [] => Ok []
  | row :: peers =>
    if negb (is_peer_row_valid row) then peer_infos peers control_addr
    else
      let? broadcast_rpc_address := broadcast_rpc_address_from_row row control_addr in
      match broadcast_rpc_address with
      | None => peer_infos peers control_addr
      | Some broadcast_rpc_address =>
        let? node_info := build_node_info row broadcast_rpc_address in
        let? node_infos := peer_infos peers control_addr in
        Ok (node_info :: node_infos)
      end
  end.
End Nodes.

(** ** Queries *)

Section Queries.
Context {U : UuidLib} {J : JsonLib} {HB : HashIter bytes}.
Context (draws : nat -> Z) (respond : Envelope -> Result Envelope).
Context (v : Version) (beta_protocol : bool).

Definition send_query_with_params (query : bytes) (query_params : QueryParams) : Result (option (list Row)) :=
  let flags := if beta_protocol then Flags.BETA else 0 in
  let? envelope := respond (new_query (mkBodyReqQuery query query_params) flags v) in
  let? body := response_body envelope in Ok (into_rows body).
Definition send_query (query : string) : Result (option (list Row)) :=
  send_query_with_params (lit query) (qp_build QueryParamsBuilder_new).
Definition send_query_with_values (query : string) (values : QueryValues) : Result (option (list Row)) :=
  send_query_with_params (lit query) (qp_build (qp_with (SetValues values) QueryParamsBuilder_new)).

(** [rows.and_then(|mut rows| rows.pop())] *)
Definition pop (rows : option (list Row)) : option Row := rows ≫= last.

Definition fetch_control_connection_info : Result Row :=
  let? rows := send_query "SELECT * FROM system.local" in
  ok_or (pop rows) (EGeneral "Node {control_addr} failed to return info about itself!").

Definition query_legacy_peers : Result (option (list Row)) := send_query "SELECT * FROM system.peers".
(** With [is_schema_v2], which a server without the new table resets. *)
Definition query_peers (is_schema_v2 : bool) : Result (option (list Row)) * bool :=
  if is_schema_v2 then
    match send_query "SELECT * FROM system.peers_v2" with
    | Err (EServer body addr) =>
      match eb_ty body with EtInvalid => (query_legacy_peers, false) | _ => (Err (EServer body addr), true) end
    | result => (result, true)
    end
  else (query_legacy_peers, false).
Definition peer_table_name (is_schema_v2 : bool) : string := if is_schema_v2 then "system.peers_v2" else "system.peers".

(** The address of the control connection's node, if there is a connection. *)
Context (control : option SocketAddr).
Definition control_transport : Result SocketAddr :=
  ok_or control (EGeneral "Cannot fetch information without a control connection!").

Definition refresh_node_infos (is_schema_v2 : bool) : Result (list NodeInfo) * bool :=
  let local :=
    let? control_addr := control_transport in
    let? local := fetch_control_connection_info in
    if negb (is_peer_row_valid local) then Err (EGeneral "Invalid local row info!")
    else
      let? address := broadcast_rpc_address_from_row local control_addr in
      let? info := build_node_info draws local (build_node_broadcast_rpc_address local address control_addr) in
      Ok (info, control_addr) in
  match local with
  | Ok (info, control_addr) =>
    let '(peers, is_schema_v2) := query_peers is_schema_v2 in
    (let? peers := peers in
     match peers with
     | Some peers => let? infos := peer_infos draws peers control_addr in Ok (info :: infos)
     | None => Ok [info]
     end, is_schema_v2)
  | Err e => (Err e, is_schema_v2)
  | Panic => (Panic, is_schema_v2)
  end.

Definition refresh_keyspaces : Result (gmap bytes KeyspaceMetadata) :=
  let? _ := control_transport in
  let? rows := send_query "SELECT keyspace_name, toJson(replication) AS replication FROM system_schema.keyspaces" in
  match rows with Some rows => omap hm_collect (try_map build_keyspace rows) | None => Ok ∅ end.

Definition query_new_node_info (is_schema_v2 : bool) (broadcast_rpc_address : SocketAddr) : Result (option NodeInfo) :=
  let? control_addr := control_transport in
  if bool_decide (broadcast_rpc_address = control_addr) then
    let? local_info := fetch_control_connection_info in
    omap Some (build_node_info draws local_info broadcast_rpc_address)
  else
    let? peers := send_query ("SELECT * FROM " ++ peer_table_name is_schema_v2) in
    match peers with
    | Some peers => find_in_peers draws peers broadcast_rpc_address control_addr
    | None => Ok None
    end.

Definition query_keyspace (keyspace : bytes) : Result (option (bytes * KeyspaceMetadata)) :=
  let? _ := control_transport in
  let? rows := send_query_with_values
    "SELECT keyspace_name, toJson(replication) AS replication FROM system_schema.keyspaces WHERE keyspace_name = ?"
    (SimpleValues [VSome keyspace]) in
  match pop rows with Some row => omap Some (build_keyspace row) | None => Ok None end.

(** What the manager is answered. *)
Definition system_answers (is_schema_v2 : bool) (connection_up : Node -> bool) : Answers :=
  mkAnswers (query_new_node_info is_schema_v2) connection_up query_keyspace.

(** [refresh_metadata]: both queries, then the metadata is replaced.  When
    both fail, which of the errors is returned depends on the order in which
    the answers arrive. *)
Context {HU : HashIter Uuid} {US : UnstableSort} {E : Type} `{!NodeDistanceEvaluator E}.
Definition refresh_from_tables (is_schema_v2 full_refresh : bool) (m : ClusterMetadataManager (E := E)) (h : Heap)
  : Result (ClusterMetadataManager (E := E)) * Heap * bool :=
  let '(node_infos, is_schema_v2) := refresh_node_infos is_schema_v2 in
  match node_infos, refresh_keyspaces with
  | Ok infos, Ok keyspaces =>
    let '(m, h) := Manager_refresh_metadata full_refresh infos keyspaces m h in (Ok m, h, is_schema_v2)
  | Panic, _ | _, Panic => (Panic, h, is_schema_v2)
  | Err e, _ | _, Err e => (Err e, h, is_schema_v2)
  end.
End Queries.

(** ** Numbers in decimal *)

Definition digits_value (acc : Z) (ds : list Z) : Z := foldl (fun a d => a * 10 + d) acc ds.
Definition digit_byte (d : Z) : byte := u8 (48 + d).
Definition is_digit (d : Z) : Prop := 0 <= d < 10.

Fixpoint uint_digits (u : Decimal.uint) : list Z :=
  match u with
  | Decimal.Nil => []
  | Decimal.D0 u => 0 :: uint_digits u | Decimal.D1 u => 1 :: uint_digits u | Decimal.D2 u => 2 :: uint_digits u
  | Decimal.D3 u => 3 :: uint_digits u | Decimal.D4 u => 4 :: uint_digits u | Decimal.D5 u => 5 :: uint_digits u
  | Decimal.D6 u => 6 :: uint_digits u | Decimal.D7 u => 7 :: uint_digits u | Decimal.D8 u => 8 :: uint_digits u
  | Decimal.D9 u => 9 :: uint_digits u
  end.
(** How the server writes a number. *)
Definition decimal (z : Z) : bytes :=
  match Z.to_int z with
  | Decimal.Pos u => map digit_byte (uint_digits u)
  | Decimal.Neg u => minus :: map digit_byte (uint_digits u)
  end.

Lemma uint_digits_ok u : Forall is_digit (uint_digits u).
Proof. induction u; constructor; unfold is_digit; done || lia. Qed.
Lemma of_uint_acc_value u p : Z.pos (Pos.of_uint_acc u p) = digits_value (Z.pos p) (uint_digits u).
Proof. revert p. induction u; intros p; cbn [Pos.of_uint_acc uint_digits digits_value foldl]; [done|..];
  rewrite IHu; unfold digits_value; f_equal; lia. Qed.
Lemma of_uint_value u : Z.of_uint u = digits_value 0 (uint_digits u).
Proof. unfold Z.of_uint. induction u; cbn [Pos.of_uint uint_digits digits_value foldl]; try done;
  cbn [Z.of_N]; apply of_uint_acc_value. Qed.

Lemma digit_of_byte d : is_digit d -> digit (digit_byte d) = Some d.
Proof.
  unfold is_digit, digit, digit_byte. intros Hd. rewrite b2z_u8, Z.mod_small by lia.
  replace (48 + d - 48) with d by lia. by rewrite (proj2 (Z.leb_le _ _)), (proj2 (Z.ltb_lt _ _)) by lia.
Qed.

Lemma digits_value_ge ds acc : Forall is_digit ds -> 0 <= acc -> acc <= digits_value acc ds.
Proof.
  intros Hd. revert acc. induction Hd as [|d ds Hd _ IH]; intros acc Ha; [unfold digits_value; simpl; lia|].
  unfold is_digit in Hd. change (acc <= digits_value (acc * 10 + d) ds). specialize (IH (acc * 10 + d)). lia.
Qed.

(** [parse_digits] is the value of the digits, if that is in range. *)
Lemma parse_digits_ok lo hi ds acc : lo <= 0 -> Forall is_digit ds -> 0 <= acc -> digits_value acc ds <= hi ->
  parse_digits false lo hi acc (map digit_byte ds) = Some (digits_value acc ds).
Proof.
  intros Hlo Hd. revert acc. induction Hd as [|d ds Hd Hds IH]; intros acc Ha Hv; [done|].
  cbn [map parse_digits]. rewrite digit_of_byte by done. unfold is_digit in Hd.
  change (digits_value acc (d :: ds)) with (digits_value (acc * 10 + d) ds) in *.
  pose proof (digits_value_ge ds (acc * 10 + d) Hds ltac:(lia)).
  rewrite (proj2 (Z.leb_le lo _)), (proj2 (Z.leb_le _ hi)) by lia. simpl. apply IH; lia.
Qed.
Lemma parse_negative_digits_ok lo hi ds acc : 0 <= hi -> Forall is_digit ds -> 0 <= acc -> lo <= - digits_value acc ds ->
  parse_digits true lo hi (- acc) (map digit_byte ds) = Some (- digits_value acc ds).
Proof.
  intros Hhi Hd. revert acc. induction Hd as [|d ds Hd Hds IH]; intros acc Ha Hv; [done|].
  cbn [map parse_digits]. rewrite digit_of_byte by done. unfold is_digit in Hd.
  change (digits_value acc (d :: ds)) with (digits_value (acc * 10 + d) ds) in *.
  pose proof (digits_value_ge ds (acc * 10 + d) Hds ltac:(lia)).
  replace (- acc * 10 - d) with (- (acc * 10 + d)) by lia.
  rewrite (proj2 (Z.leb_le lo _)), (proj2 (Z.leb_le _ hi)) by lia. simpl. apply IH; lia.
Qed.

(** A digit is neither sign. *)
Lemma digit_no_sign d : is_digit d -> digit_byte d <> plus /\ digit_byte d <> minus.
Proof.
  intros Hd. assert (Hb : b2z (digit_byte d) = 48 + d).
  { unfold digit_byte. rewrite b2z_u8, Z.mod_small; unfold is_digit in Hd; lia. }
  assert (b2z plus = 43 /\ b2z minus = 45) as [Hp Hm] by (split; reflexivity).
  unfold is_digit in Hd. split; intros E; rewrite E in Hb; lia.
Qed.
Lemma map_digit_nonnil u : u <> Decimal.Nil -> exists d ds, uint_digits u = d :: ds.
Proof. destruct u; [done|..]; intros _; simpl; by eexists _, _. Qed.

(** Every integer in range is read back from its decimal digits. *)
Lemma parse_decimal lo hi z : lo <= 0 -> 0 <= hi -> lo <= z <= hi -> parse_int lo hi (decimal z) = Some z.
Proof.
  intros Hlo Hhi Hz. pose proof (DecimalZ.of_to z) as Hv. unfold decimal.
  assert (Hnil : match Z.to_int z with Decimal.Pos u => u <> Decimal.Nil | Decimal.Neg u => z < 0 /\ u <> Decimal.Nil end).
  { destruct z as [|p|p]; simpl; [done|apply DecimalPos.Unsigned.to_uint_nonnil|].
    split; [lia|apply DecimalPos.Unsigned.to_uint_nonnil]. }
  destruct (Z.to_int z) as [u|u]; unfold Z.of_int in Hv; rewrite of_uint_value in Hv; pose proof (uint_digits_ok u) as Hd.
  - destruct (map_digit_nonnil u Hnil) as (d & ds & E). rewrite E in *. apply Forall_cons in Hd as [Hd Hds].
    destruct (digit_no_sign d Hd). unfold parse_int. cbn [map].
    rewrite (bool_decide_eq_false_2 (_ = plus)), (bool_decide_eq_false_2 (_ = minus)) by done. simpl andb. cbv iota.
    change (digit_byte d :: map digit_byte ds) with (map digit_byte (d :: ds)).
    rewrite parse_digits_ok; [by rewrite Hv|done|by constructor|lia|by rewrite Hv; lia].
  - destruct Hnil as [Hneg Hnil]. destruct (map_digit_nonnil u Hnil) as (d & ds & E). rewrite E in *.
    unfold parse_int. rewrite bool_decide_eq_false_2 by done. rewrite bool_decide_eq_true_2 by done.
    rewrite (proj2 (Z.ltb_lt lo 0)) by lia. cbn [andb]. change (map digit_byte (d :: ds)) with (digit_byte d :: map digit_byte ds).
    cbv iota. change (digit_byte d :: map digit_byte ds) with (map digit_byte (d :: ds)).
    pose proof (parse_negative_digits_ok lo hi (d :: ds) 0 Hhi Hd) as Hp. rewrite Z.opp_0 in Hp.
    rewrite Hp; [by rewrite Hv|lia|lia].
Qed.

(** A decimal text is ASCII and short. *)
Lemma utf8_ascii l : Forall (fun b => b2z b < 128) l -> wf_string l.
Proof.
  induction 1 as [|b l Hb _ IH]; [done|]. unfold wf_string in *. cbn [utf8_valid]. by rewrite (proj2 (Z.ltb_lt _ _)).
Qed.
Lemma decimal_wf z : wf_string (decimal z).
Proof.
  apply utf8_ascii. assert (Hd : forall u, Forall (fun b => b2z b < 128) (map digit_byte (uint_digits u))).
  { intros u. pose proof (uint_digits_ok u) as H. induction H as [|d ds Hd _ IH]; constructor; [|done].
    unfold digit_byte. rewrite b2z_u8. unfold is_digit in Hd. rewrite Z.mod_small; lia. }
  unfold decimal. destruct (Z.to_int z); [apply Hd|]. constructor; [done|apply Hd].
Qed.

Lemma length_rev_digits u : length (uint_digits (Decimal.rev u)) = length (uint_digits u).
Proof.
  unfold Decimal.rev. enough (H : forall v, length (uint_digits (Decimal.revapp u v)) = (length (uint_digits u) + length (uint_digits v))%nat)
    by (rewrite H; simpl; lia).
  induction u; intros v; cbn [Decimal.revapp]; [done|..]; rewrite IHu; simpl; lia.
Qed.
Lemma length_double_digits u :
  (length (uint_digits (Decimal.Little.double u)) <= length (uint_digits u) + 1)%nat /\
  (length (uint_digits (Decimal.Little.succ_double u)) <= length (uint_digits u) + 1)%nat.
Proof. induction u as [|u [I1 I2]|u [I1 I2]|u [I1 I2]|u [I1 I2]|u [I1 I2]|u [I1 I2]|u [I1 I2]|u [I1 I2]|u [I1 I2]|u [I1 I2]];
  cbn [Decimal.Little.double Decimal.Little.succ_double uint_digits length]; lia. Qed.
Lemma length_positive_digits p (n : nat) : Z.pos p < 2 ^ Z.of_nat n -> (length (uint_digits (Pos.to_uint p)) <= n)%nat.
Proof.
  unfold Pos.to_uint. rewrite length_rev_digits. revert n.
  assert (Hstep : forall q n, 2 * Z.pos q < 2 ^ Z.of_nat n -> exists m, n = S m /\ Z.pos q < 2 ^ Z.of_nat m).
  { intros q [|m] H; [simpl in H; lia|]. exists m. split; [done|]. rewrite Nat2Z.inj_succ, Z.pow_succ_r in H by lia. lia. }
  induction p as [p IH|p IH|]; intros n Hn; cbn [Pos.to_little_uint].
  - destruct (Hstep p n) as (m & -> & Hm); [lia|]. destruct (length_double_digits (Pos.to_little_uint p)). specialize (IH m Hm). lia.
  - destruct (Hstep p n) as (m & -> & Hm); [lia|]. destruct (length_double_digits (Pos.to_little_uint p)). specialize (IH m Hm). lia.
  - destruct n; [simpl in Hn; lia|]. simpl. lia.
Qed.
Lemma decimal_short z : in_i 64 z -> zlen (decimal z) <= 65.
Proof.
  unfold in_i. intros Hz. assert (Hp : forall p, Z.pos p < 2 ^ 64 -> zlen (map digit_byte (uint_digits (Pos.to_uint p))) <= 64).
  { intros p Hp%(length_positive_digits p 64). unfold zlen. rewrite length_map. lia. }
  unfold decimal. destruct z as [|p|p]; simpl Z.to_int; cbv iota; [done|specialize (Hp p); lia|].
  rewrite zlen_cons. specialize (Hp p). lia.
Qed.

(** ** Rows *)

Definition col (ty : ColType) : ColTypeOption := mkColTypeOption ty None.
Definition text : ColTypeOption := col CtVarchar.

(** The row has a column of that name, its first, with a type and a cell; or it has none. *)
Definition has (row : Row) (name : string) (ty : ColTypeOption) (cell : CBytes) : Prop :=
  exists i s, position (lit name) (rm_col_specs (Responses.metadata row)) = Some i /\
    rm_col_specs (Responses.metadata row) !! i = Some s /\ row_content row !! i = Some cell /\ cs_col_type s = ty.
Definition lacks (row : Row) (name : string) : Prop := position (lit name) (rm_col_specs (Responses.metadata row)) = None.

Section Columns.
Context {U : UuidLib}.

Lemma has_get {T} (conv : conversion T) row name ty cell : has row name ty cell ->
  Row_get_by_name conv row (lit name) = conv ty cell.
Proof.
  intros (i & s & Hp & Hs & Hc & <-). unfold Row_get_by_name, col_spec_by_name. by rewrite Hp, Hs, Hc.
Qed.
Lemma lacks_get {T} (conv : conversion T) row name : lacks row name ->
  Row_get_by_name conv row (lit name) = Err column_is_empty_err.
Proof. unfold lacks, Row_get_by_name, col_spec_by_name. by intros ->. Qed.

Lemma contains_position row name : contains_column row name = match position name (rm_col_specs (Responses.metadata row)) with Some _ => true | None => false end.
Proof.
  unfold contains_column. generalize (rm_col_specs (Responses.metadata row)) as specs. intros specs.
  induction specs as [|s specs IH]; simpl; [done|]. case_bool_decide; [done|]. rewrite IH. by destruct (position name specs).
Qed.
Lemma has_contains row name ty cell : has row name ty cell -> contains_column row (lit name) = true.
Proof. intros (i & s & Hp & _). by rewrite contains_position, Hp. Qed.
Lemma lacks_contains row name : lacks row name -> contains_column row (lit name) = false.
Proof. intros Hp. by rewrite contains_position, Hp. Qed.
Lemma has_empty row name ty cell : has row name ty cell -> is_empty_by_name row (lit name) = CBytes_is_null_or_empty cell.
Proof. intros (i & s & Hp & _ & Hc & _). unfold is_empty_by_name, Row_is_empty. by rewrite Hp, Hc. Qed.
Lemma lacks_empty row name : lacks row name -> is_empty_by_name row (lit name) = false.
Proof. unfold lacks, is_empty_by_name. by intros ->. Qed.

(** A column of a scalar type that has a value. *)
Lemma has_scalar {T} (conv : conversion T) (into : T -> bytes) ok wf `{!Converts conv into ok wf} row name ty (x : T) :
  ok ty -> wf x -> has row name (col ty) (CBytes_new (into x)) -> Row_get_by_name conv row (lit name) = Ok (Some x).
Proof. intros Hok Hwf H. rewrite (has_get _ _ _ _ _ H). by apply (converts (col ty)). Qed.

(** How a node is reported in the peers table of a server of version 4. *)
Record reported (row : Row) (i : NodeInfo) (broadcast : SocketAddr) (schema_version : bytes) : Prop := {
  rp_rpc : lacks row "rpc_address" /\ lacks row "rpc_port";
  rp_native : has row "native_address" (col CtInet) (CBytes_new (Bytes_from_ip (sa_ip (ni_broadcast_rpc_address i)))) /\
    has row "native_port" (col CtInt) (CBytes_new (Bytes_from_i32 (sa_port (ni_broadcast_rpc_address i))));
  rp_broadcast : lacks row "broadcast_address" /\ lacks row "broadcast_port";
  rp_peer : has row "peer" (col CtInet) (CBytes_new (Bytes_from_ip (sa_ip broadcast))) /\
    has row "peer_port" (col CtInt) (CBytes_new (Bytes_from_i32 (sa_port broadcast)));
  rp_host : has row "host_id" (col CtUuid) (CBytes_new (Bytes_from_uuid (ni_host_id i)));
  rp_place : has row "data_center" text (CBytes_new (ni_datacenter i)) /\ has row "rack" text (CBytes_new (ni_rack i));
  rp_tokens : has row "tokens" (mkColTypeOption CtSet (Some (CSet text)))
    (CBytes_new (Bytes_from_vec Bytes_from_str (map (fun t => decimal (token_value t)) (ni_tokens i))));
  rp_schema : has row "schema_version" (col CtUuid) (CBytes_new schema_version) /\ schema_version <> [] }.

Record wf_info (i : NodeInfo) (broadcast : SocketAddr) : Prop := {
  wi_rpc : wf_socket_addr (ni_broadcast_rpc_address i);
  wi_broadcast : wf_socket_addr broadcast /\ ni_broadcast_address i = Some broadcast;
  wi_place : wf_string (ni_datacenter i) /\ wf_string (ni_rack i) /\ ni_datacenter i <> [] /\ ni_rack i <> [];
  wi_tokens : Forall (fun t => in_i 64 (token_value t)) (ni_tokens i) /\ zlen (ni_tokens i) < 2 ^ 31 }.

Lemma read_tokens_ok draws tokens : Forall (fun t => in_i 64 (token_value t)) tokens ->
  read_tokens draws (map (fun t => decimal (token_value t)) tokens) = tokens.
Proof.
  unfold read_tokens. intros Ht. apply list_eq. intros k. rewrite list_lookup_imap, list_lookup_fmap.
  destruct (tokens !! k) as [t|] eqn:E; [|done]. simpl. f_equal. rewrite Forall_lookup in Ht. specialize (Ht k t E).
  unfold Murmur3Token_try_from, i64_from_str. unfold in_i in Ht. rewrite parse_decimal by lia. by destruct t.
Qed.

Lemma tokens_read row tokens : Forall (fun t => in_i 64 (token_value t)) tokens -> zlen tokens < 2 ^ 31 ->
  has row "tokens" (mkColTypeOption CtSet (Some (CSet text)))
    (CBytes_new (Bytes_from_vec Bytes_from_str (map (fun t => decimal (token_value t)) tokens))) ->
  exists l, Row_get_by_name as_rust_list row (lit "tokens") = Ok (Some l) /\
    list_as_rust as_rust_string l = Ok (Some (map (fun t => decimal (token_value t)) tokens)).
Proof.
  intros Ht Hn H. rewrite (has_get _ _ _ _ _ H).
  destruct (vec_converts as_rust_string Bytes_from_str (fun c => CtAscii = c \/ CtVarchar = c) wf_string
              CtSet (CSet text) text (map (fun t => decimal (token_value t)) tokens)) as (l & Hl & Hr).
  - by right.
  - by right.
  - unfold zlen in *. by rewrite length_map.
  - apply Forall_map. eapply Forall_impl; [exact Ht|]. intros t Hin. split; [apply decimal_wf|].
    unfold short_bytes, Bytes_from_str. pose proof (decimal_short _ Hin). lia.
  - by exists l.
Qed.

Lemma not_empty_bytes (b : bytes) : (0 < length b)%nat -> CBytes_is_null_or_empty (CBytes_new b) = false.
Proof. by destruct b; [simpl; lia|]. Qed.
Lemma ip_not_empty ip : wf_ip ip -> CBytes_is_null_or_empty (CBytes_new (Bytes_from_ip ip)) = false.
Proof. intros Hip. apply not_empty_bytes. destruct ip; simpl in *; lia. Qed.

Lemma reported_valid row i broadcast sv : reported row i broadcast sv -> wf_info i broadcast -> is_peer_row_valid row = true.
Proof.
  intros [[H1 _] [H2 H3] _ _ H4 [H5 H6] H7 [H8 Hsv]] [[Hrpc _] _ (_ & _ & Hdc & Hrk) _]. unfold is_peer_row_valid.
  rewrite (lacks_empty _ _ H1), (has_empty _ _ _ _ H2), (has_empty _ _ _ _ H3), (has_empty _ _ _ _ H4),
    (has_empty _ _ _ _ H5), (has_empty _ _ _ _ H6), (has_empty _ _ _ _ H7), (has_empty _ _ _ _ H8).
  rewrite ip_not_empty by done. rewrite !not_empty_bytes; [done|..].
  - destruct sv; [done|simpl; lia].
  - unfold Bytes_from_vec, i32_serialize. rewrite length_app, length_be_bytes. lia.
  - destruct (ni_rack i); [done|simpl; lia].
  - destruct (ni_datacenter i); [done|simpl; lia].
  - unfold Bytes_from_uuid. rewrite Uuid_len. lia.
  - unfold Bytes_from_i32, to_int. rewrite length_be_bytes. lia.
Qed.

(** A port is sixteen bits, so it is an [int] that the cast leaves alone. *)
Lemma port_read row name a : wf_socket_addr a -> has row name (col CtInt) (CBytes_new (Bytes_from_i32 (sa_port a))) ->
  Row_get_by_name as_rust_i32 row (lit name) = Ok (Some (sa_port a)) /\ mkSocketAddr (sa_ip a) (wrap 16 (sa_port a)) = a.
Proof.
  intros [_ Hp] H. split; [|rewrite wrap_small by done; by destruct a].
  eapply (has_scalar as_rust_i32 Bytes_from_i32); [apply _|by left| |done]. unfold in_i, in_u in *. lia.
Qed.

(** C39: a node reported in the peers table of a version 4 server is read as
    it was reported: its row is valid, its RPC address is found, and the node
    info has its host id, both addresses, its place and exactly its tokens;
    only a row with the address of the control connection's node is taken
    for a mistake. *)
Theorem reported_node_read (draws : nat -> Z) (row : Row) (i : NodeInfo) (broadcast : SocketAddr) (schema_version : bytes)
    (control : SocketAddr) :
  reported row i broadcast schema_version -> wf_info i broadcast ->
  is_peer_row_valid row = true /\
  broadcast_rpc_address_from_row row control =
    Ok (if bool_decide (ni_broadcast_rpc_address i = control) then None else Some (ni_broadcast_rpc_address i)) /\
  build_node_info draws row (ni_broadcast_rpc_address i) = Ok i.
Proof.
  intros Hr Hw. split; [by eapply reported_valid|].
  destruct Hr as [[H1 H1'] [H2 H3] [H4 H4'] [H5 H6] H7 [H8 H9] H10 _].
  destruct Hw as [Hrpc [Hb Hbi] (Hdc & Hrk & _) [Ht Hn]].
  destruct (port_read _ _ _ Hrpc H3) as [Hport Ha]. destruct (port_read _ _ _ Hb H6) as [Hport' Ha']. split.
  - unfold broadcast_rpc_address_from_row, rpc_port. rewrite (lacks_get _ _ _ H1), (lacks_get _ _ _ H1'). cbn [or_else].
    rewrite (has_scalar as_rust_ip Bytes_from_ip _ _ _ _ _ _ eq_refl (proj1 Hrpc) H2), Hport. cbn [obind].
    rewrite Ha, (has_contains _ _ _ _ H5), andb_true_r. by case_bool_decide.
  - unfold build_node_info. rewrite (has_scalar as_rust_uuid Bytes_from_uuid _ _ _ _ _ _ (or_introl eq_refl) I H7).
    cbn [get_r obind ok_or]. rewrite (lacks_get _ _ _ H4). cbn [or_else].
    rewrite (has_scalar as_rust_ip Bytes_from_ip _ _ _ _ _ _ eq_refl (proj1 Hb) H5). cbn [obind].
    rewrite (lacks_contains _ _ H4'), (has_contains _ _ _ _ H6), Hport'. cbn [obind option_map]. rewrite Ha'.
    rewrite (has_scalar as_rust_string Bytes_from_str _ _ _ _ _ _ (or_intror eq_refl) Hdc H8). cbn [get_r obind ok_or].
    rewrite (has_scalar as_rust_string Bytes_from_str _ _ _ _ _ _ (or_intror eq_refl) Hrk H9). cbn [get_r obind ok_or].
    destruct (tokens_read _ _ Ht Hn H10) as (l & Hl & Hs). rewrite Hl. cbn [get_r obind ok_or]. rewrite Hs.
    cbn [as_r_type obind ok_or]. rewrite read_tokens_ok by done. rewrite <- Hbi. by destruct i.
Qed.
End Columns.

(** ** Refreshing *)

Section Refresh.
Context {U : UuidLib} (draws : nat -> Z).

(** What a row of a peers table means: nothing when it is incomplete, has no
    address or is the control connection's node, and otherwise a node. *)
Inductive row_reads (control : SocketAddr) (row : Row) : option NodeInfo -> Prop :=
| reads_invalid o : is_peer_row_valid row = false -> broadcast_rpc_address_from_row row control = Ok o ->
    row_reads control row None
| reads_no_address : broadcast_rpc_address_from_row row control = Ok None -> row_reads control row None
| reads_node i : is_peer_row_valid row = true ->
    broadcast_rpc_address_from_row row control = Ok (Some (ni_broadcast_rpc_address i)) ->
    build_node_info draws row (ni_broadcast_rpc_address i) = Ok i -> row_reads control row (Some i).

Definition read_nodes (os : list (option NodeInfo)) : list NodeInfo :=
  flat_map (fun o => match o with Some i => [i] | None => [] end) os.

Lemma peer_infos_ok control rows os : Forall2 (row_reads control) rows os ->
  peer_infos draws rows control = Ok (read_nodes os).
Proof.
  induction 1 as [|row o rows os Hr _ IH]; [done|]. cbn [peer_infos]. destruct Hr as [o Hv Ha|Ha|i Hv Ha Hb].
  - by rewrite Hv.
  - destruct (is_peer_row_valid row); [|done]. cbn [negb]. by rewrite Ha.
  - rewrite Hv, Ha. cbn [negb obind]. rewrite Hb. cbn [obind]. by rewrite IH.
Qed.

Lemma find_in_peers_ok control rows os i : Forall2 (row_reads control) rows os -> Some i ∈ os ->
  (forall i', Some i' ∈ os -> ni_broadcast_rpc_address i' = ni_broadcast_rpc_address i -> i' = i) ->
  find_in_peers draws rows (ni_broadcast_rpc_address i) control = Ok (Some i).
Proof.
  induction 1 as [|row o rows os Hr _ IH]; intros Hin Huniq; [by apply not_elem_of_nil in Hin|].
  assert (Hrest : o <> Some i -> find_in_peers draws rows (ni_broadcast_rpc_address i) control = Ok (Some i)).
  { intros Ho. apply IH; [by apply elem_of_cons in Hin as [|]|]. intros i' Hi'. apply Huniq. by right. }
  cbn [find_in_peers]. destruct Hr as [o Hv Ha|Ha|j Hv Ha Hb]; rewrite Ha; cbn [obind].
  - destruct o; [|by apply Hrest]. rewrite Hv, andb_false_r. by apply Hrest.
  - by apply Hrest.
  - case_bool_decide as Hj; [|apply Hrest; congruence]. assert (j = i) as -> by (apply Huniq; [by left|done]).
    rewrite Hv. cbn [andb]. by rewrite Hb.
Qed.

Context (respond : Envelope -> Result Envelope) (v : Version) (beta_protocol : bool) {J : JsonLib} {HB : HashIter bytes}.

End Refresh.

(** ** Replication *)

Section Replication.
Context {J : JsonLib} {HB : HashIter bytes}.

(** A factor, possibly with transient replicas after a slash. *)
Definition factor_reads (value : JsonValue) (n : nat) : Prop :=
  Z.of_nat n < 2 ^ 64 /\ exists transient, json_string value = Some (decimal (Z.of_nat n) ++ transient) /\
    match transient with [] => True | b :: _ => b = u8 47 end.

Inductive replication_reads (properties : gmap bytes JsonValue) : ReplicationStrategy -> Prop :=
| simple_reads class value n :
    properties !! lit "class" ≫= json_string = Some class ->
    class = lit "org.apache.cassandra.locator.SimpleStrategy" \/ class = lit "SimpleStrategy" ->
    properties !! lit "replication_factor" = Some value -> factor_reads value n ->
    replication_reads properties (SimpleStrategy n)
| network_reads class factors :
    properties !! lit "class" ≫= json_string = Some class ->
    class = lit "org.apache.cassandra.locator.NetworkTopologyStrategy" \/ class = lit "NetworkTopologyStrategy" ->
    (forall dc, option_Forall2 factor_reads (delete (lit "class") properties !! dc) (factors !! dc)) ->
    replication_reads properties (NetworkTopologyStrategy factors).

Lemma find_slash_digits ds s : Forall is_digit ds -> match s with [] => True | b :: _ => b = u8 47 end ->
  find_slash (map digit_byte ds ++ s) = match s with [] => None | _ => Some (length ds) end.
Proof.
  intros Hd Hs. induction Hd as [|d ds Hd _ IH]; simpl.
  - destruct s as [|b s]; [done|]. by rewrite Hs.
  - rewrite bool_decide_false, IH; [by destruct s|]. intros E. assert (Hb : b2z (digit_byte d) = 48 + d).
    { unfold digit_byte. rewrite b2z_u8, Z.mod_small; unfold is_digit in Hd; lia. }
    assert (b2z (u8 47) = 47) by reflexivity. rewrite E in Hb. unfold is_digit in Hd. lia.
Qed.
Lemma decimal_nat_digits n : exists ds, decimal (Z.of_nat n) = map digit_byte ds /\ Forall is_digit ds.
Proof.
  unfold decimal. destruct (Z.of_nat n) as [|p|p] eqn:E; [|exists (uint_digits (Pos.to_uint p)); split; [done|apply uint_digits_ok]|lia].
  exists [0]. split; [done|]. constructor; [unfold is_digit; lia|done].
Qed.

Lemma factor_read value n : factor_reads value n -> extract_replication_factor (Some value) = Ok n.
Proof.
  intros (Hn & transient & Hs & Ht). unfold extract_replication_factor. rewrite Hs.
  destruct (decimal_nat_digits n) as (ds & Hd & Hds).
  assert (Hp : usize_from_str (decimal (Z.of_nat n)) = Some (Z.of_nat n)) by (apply parse_decimal; lia).
  rewrite Hd in *. rewrite find_slash_digits by done. destruct transient as [|b t].
  - rewrite app_nil_r, Hp. by rewrite Nat2Z.id.
  - rewrite take_app_le by (by rewrite length_map). rewrite take_ge by (by rewrite length_map). rewrite Hp. by rewrite Nat2Z.id.
Qed.

Lemma datacenters_read (properties : gmap bytes JsonValue) (factors : gmap bytes nat) :
  (forall dc, option_Forall2 factor_reads (properties !! dc) (factors !! dc)) ->
  extract_datacenter_replication_factor properties = Ok factors.
Proof.
  intros Hf. unfold extract_datacenter_replication_factor.
  set (read := fun kv : bytes * JsonValue => (kv.1, default 0%nat (factors !! kv.1))).
  assert (Hin : forall kv, kv ∈ hm_iter properties -> properties !! kv.1 = Some kv.2).
  { intros [k j] Hkv. rewrite hm_iter_perm in Hkv. by apply elem_of_map_to_list in Hkv. }
  assert (Hm : try_map (fun kv : bytes * JsonValue =>
      let? factor := extract_replication_factor (Some kv.2) in Ok (kv.1, factor)) (hm_iter properties)
    = Ok (map read (hm_iter properties))).
  { apply try_map_ok, Forall2_fmap_r, Forall_Forall2_diag, Forall_forall. intros kv Hkv. specialize (Hf kv.1).
    unfold read, compose. rewrite (Hin kv Hkv) in Hf. destruct (factors !! kv.1) as [n|]; [|inversion Hf].
    inversion Hf as [j n' Hn|]; subst. by rewrite (factor_read _ _ Hn). }
  rewrite Hm. cbn [omap]. f_equal.
  assert (Hk : (map read (hm_iter properties)).*1 = (hm_iter properties).*1).
  { rewrite <- list_fmap_compose. done. }
  assert (Hn : NoDup (map read (hm_iter properties)).*1).
  { rewrite Hk, hm_iter_perm. apply NoDup_fst_map_to_list. }
  rewrite hm_collect_nodup by done. apply map_eq. intros dc. specialize (Hf dc).
  destruct (factors !! dc) as [n|] eqn:Ed; inversion Hf as [j n' Hj Ep En|Ep En]; subst.
  - apply elem_of_list_to_map_1; [done|]. apply list_elem_of_fmap. exists (dc, j). unfold read. simpl. rewrite Ed.
    split; [done|]. rewrite hm_iter_perm. by apply elem_of_map_to_list.
  - apply not_elem_of_list_to_map_1. rewrite Hk. intros ([k j] & -> & Hkv)%list_elem_of_fmap.
    specialize (Hin _ Hkv). simpl in *. congruence.
Qed.

(** The replication of a keyspace is read as the server describes it:
    factors of either strategy in decimal, with transient replicas ignored,
    for every datacenter named and no other, in whatever order the properties
    come. *)
Theorem replication_read (properties : gmap bytes JsonValue) (strategy : ReplicationStrategy) :
  replication_reads properties strategy -> build_replication_strategy properties = Ok strategy.
Proof.
  intros [class value n Hc Hn Hv Hf|class factors Hc Hn Hf]; unfold build_replication_strategy; rewrite Hc.
  - rewrite bool_decide_true by done. rewrite lookup_delete_ne by done. rewrite Hv. by rewrite (factor_read _ _ Hf).
  - rewrite bool_decide_false by (destruct Hn as [-> | ->]; intros [E|E]; discriminate E).
    rewrite bool_decide_true by done. by rewrite (datacenters_read _ _ Hf).
Qed.
End Replication.

(** ** Witnesses *)

Module SystemTablesSamples.
#[local] Existing Instance uuid_bytes.
#[local] Instance order : HashIter bytes := default_iter bytes.

(** Texts, and objects of texts: enough to describe a replication. *)
Inductive json : Type := JText (s : bytes) | JProperties (m : gmap bytes bytes).
#[local] Instance sample_json : JsonLib := {|
  JsonValue := json;
  json_from_str s := Some (JText s);
  json_object j := match j with JProperties m => Some (JText <$> m) | JText _ => None end;
  json_string j := match j with JText s => Some s | JProperties _ => None end |}.

Definition host (k : Z) : Uuid := dexist (repeat (u8 k) 16) eq_refl.
Definition address (k port : Z) : SocketAddr := mkSocketAddr (IpV4 (map u8 [10; 0; 0; k])) port.
Definition info (k : Z) (ts : list Z) : NodeInfo :=
  mkNodeInfo (host k) (address k 9042) (Some (address k 7000)) (lit "dc1") (map mkToken ts) (lit "r1").

Definition column (name : string) (ty : ColTypeOption) : ColSpec := mkColSpec None (lit name) ty.
Definition tokens_type : ColTypeOption := mkColTypeOption CtSet (Some (CSet text)).
Definition peer_columns : list ColSpec :=
  [column "peer" (col CtInet); column "peer_port" (col CtInt); column "data_center" text; column "host_id" (col CtUuid);
   column "native_address" (col CtInet); column "native_port" (col CtInt); column "rack" text;
   column "schema_version" (col CtUuid); column "tokens" tokens_type].
Definition token_texts (i : NodeInfo) : bytes :=
  Bytes_from_vec Bytes_from_str (map (fun t => decimal (token_value t)) (ni_tokens i)).
Definition peer_cells (i : NodeInfo) (b : SocketAddr) : list CBytes :=
  map CBytes_new
    [Bytes_from_ip (sa_ip b); Bytes_from_i32 (sa_port b); ni_datacenter i; Bytes_from_uuid (ni_host_id i);
     Bytes_from_ip (sa_ip (ni_broadcast_rpc_address i)); Bytes_from_i32 (sa_port (ni_broadcast_rpc_address i)); ni_rack i;
     repeat (u8 1) 16; token_texts i].
Definition local_columns : list ColSpec :=
  [column "broadcast_address" (col CtInet); column "broadcast_port" (col CtInt); column "data_center" text;
   column "host_id" (col CtUuid); column "rpc_address" (col CtInet); column "rpc_port" (col CtInt); column "rack" text;
   column "schema_version" (col CtUuid); column "tokens" tokens_type].

Definition table (specs : list ColSpec) (content : list (list CBytes)) : BodyResResultRows :=
  mkResultRows (mkRowsMetadata 1 (zlen specs) None None (Some (mkTableSpec (lit "system") (lit "t"))) specs)
    (zlen content) content V4.
Definition row (specs : list ColSpec) (cells : list CBytes) : Row := mkRow (rr_metadata (table specs [cells])) cells V4.
Definition peer_row : Row := row peer_columns (peer_cells (info 2 [-5; 7]) (address 2 7000)).
Definition no_draws (k : nat) : Z := 0.

Lemma peer_reported : reported peer_row (info 2 [-5; 7]) (address 2 7000) (repeat (u8 1) 16).
Proof.
  split; try (split; reflexivity).
  - split; eexists _, _; (split; [vm_compute; reflexivity|]); split_and!; reflexivity.
  - split; eexists _, _; (split; [vm_compute; reflexivity|]); split_and!; reflexivity.
  - eexists _, _. split; [vm_compute; reflexivity|]. split_and!; reflexivity.
  - split; eexists _, _; (split; [vm_compute; reflexivity|]); split_and!; reflexivity.
  - eexists _, _. split; [vm_compute; reflexivity|]. split_and!; reflexivity.
  - split; [|discriminate]. eexists _, _. split; [vm_compute; reflexivity|]. split_and!; reflexivity.
Qed.
Lemma peer_wf : wf_info (info 2 [-5; 7]) (address 2 7000).
Proof.
  split.
  - split; [reflexivity|]. unfold in_u. simpl. lia.
  - split; [split; [reflexivity|unfold in_u; simpl; lia]|reflexivity].
  - split_and!; [reflexivity|reflexivity|discriminate|discriminate].
  - split; [|reflexivity]. repeat constructor; unfold in_i; simpl; lia.
Qed.

Lemma reported_node_read_witness :
  is_peer_row_valid peer_row = true /\
  broadcast_rpc_address_from_row peer_row (address 1 9042) = Ok (Some (address 2 9042)) /\
  build_node_info no_draws peer_row (address 2 9042) = Ok (info 2 [-5; 7]).
Proof.
  exact (reported_node_read no_draws peer_row (info 2 [-5; 7]) (address 2 7000) (repeat (u8 1) 16) (address 1 9042)
           peer_reported peer_wf).
Defined.

Definition replication : gmap bytes (@JsonValue sample_json) :=
  <[lit "class" := JText (lit "NetworkTopologyStrategy")]>
    (<[lit "dc1" := JText (lit "3")]> (<[lit "dc2" := JText (lit "12/1")]> ∅)).
Definition factors : gmap bytes nat := <[lit "dc1" := 3%nat]> (<[lit "dc2" := 12%nat]> ∅).
Lemma replication_read_witness : build_replication_strategy replication = Ok (NetworkTopologyStrategy factors).
Proof.
  apply (replication_read replication (NetworkTopologyStrategy factors)).
  apply (network_reads replication (lit "NetworkTopologyStrategy") factors);
    [unfold replication; rewrite lookup_insert_eq; reflexivity|right; reflexivity|].
  assert (E : delete (lit "class") replication
    = <[lit "dc1" := JText (lit "3")]> (<[lit "dc2" := JText (lit "12/1")]> (∅ : gmap bytes (@JsonValue sample_json)))).
  { apply delete_insert_id. rewrite !lookup_insert_ne by discriminate. apply lookup_empty. }
  intros dc. rewrite E. unfold factors.
  destruct (decide (lit "dc1" = dc)) as [<-|H1]; [|destruct (decide (lit "dc2" = dc)) as [<-|H2]].
  - rewrite !lookup_insert_eq. constructor. split; [reflexivity|]. exists []. split; [vm_compute; reflexivity|done].
  - rewrite !(lookup_insert_ne _ (lit "dc1")) by discriminate. rewrite !lookup_insert_eq. constructor.
    split; [reflexivity|]. exists (lit "/1"). split; [vm_compute; reflexivity|reflexivity].
  - rewrite !(lookup_insert_ne _ (lit "dc1")) by done. rewrite !(lookup_insert_ne _ (lit "dc2")) by done.
    rewrite !lookup_empty. constructor.
Defined.

(** A cluster of two nodes; the table of peers has an incomplete row, too. *)
Definition me : NodeInfo := info 1 [100].
Definition local_row : Row := row local_columns
  (map CBytes_new
    [Bytes_from_ip (sa_ip (address 1 7000)); Bytes_from_i32 7000; ni_datacenter me; Bytes_from_uuid (ni_host_id me);
     Bytes_from_ip (sa_ip (address 1 9042)); Bytes_from_i32 9042; ni_rack me; repeat (u8 1) 16; token_texts me]).
Definition incomplete_row : Row := row peer_columns (repeat CBytes_new_null 9).
Definition answer_rows (b : BodyResResultRows) : Result Envelope :=
  let? body := ResResultBody_serialize (ResRows b) in Ok (mkEnvelope V4 Response 0 OpResult 1 body None []).
Definition local_query : Envelope :=
  new_query (mkBodyReqQuery (lit "SELECT * FROM system.local") (qp_build QueryParamsBuilder_new)) 0 V4.
Definition node (e : Envelope) : Result Envelope :=
  if bool_decide (body e = body local_query) then answer_rows (table local_columns [row_content local_row])
  else answer_rows (table peer_columns [row_content incomplete_row; row_content peer_row]).

Definition rows_read : list Row := Row_from_body (table peer_columns [row_content incomplete_row; row_content peer_row]).
Lemma rows_reads : Forall2 (row_reads no_draws (address 1 9042)) rows_read [None; Some (info 2 [-5; 7])].
Proof.
  apply Forall2_cons. split; [apply (reads_invalid _ _ _ None); vm_compute; reflexivity|].
  apply Forall2_cons. split; [|done]. apply reads_node; vm_compute; reflexivity.
Qed.

Definition peer : NodeInfo := info 2 [-5; 7].
Lemma only_peer i : Some i ∈ [None; Some peer] -> i = peer.
Proof. intros [E|[E|E]%elem_of_cons]%elem_of_cons; [discriminate E|exact (f_equal (default peer) E)|by apply not_elem_of_nil in E]. Qed.
End SystemTablesSamples.
