(* ===== verification/Control.v ===== *)
(** * The control connection: [cluster/control_connection.rs]

    One task keeps a connection on which the server sends events.  It takes
    the first node of a load balancing plan, or of the contact points, that
    can be connected to and from which the metadata can be read, subscribes to
    events and waits for an error; then it starts again.  The task is a step
    function: an event is the end of one of its waits, or something its
    transports or the other tasks do meanwhile.  All its connections share one
    channel for their errors, with room for one. *)

From S2P Require Import Prelude Types Wire Envelope Events Requests ErrorMsg Results Responses Token Topology Manager LoadBalancing Retry.
Local Open Scope Z_scope.
Local Open Scope cdrs_scope.

(** ** Events of the server *)

(** [process_events]: of the envelopes received, the server events that can be
    read are sent on; a panic of the parser ends the task. *)
Fixpoint process_events `{UuidLib} (received : list Envelope) : list ServerEvent :=
  match received with
  | [] => []
  | envelope :: received =>
    match response_body envelope with
    | Ok body =>
      match into_server_event body with
      | Some event => bre_event event :: process_events received
      | None => process_events received
      end
    | Err _ => process_events received
    | Panic => []
    end
  end.

(** The subscription written on every new connection. *)
Definition register_envelope `{UuidLib} (v : Version) : Envelope :=
  new_req_register [SimpleSchemaChange; SimpleStatusChange; SimpleTopologyChange] v.

(** ** The task *)

Section Control.
Context {U : UuidLib} {HU : HashIter Uuid} {US : UnstableSort} {SH : Shuffle}.
Context {E : Type} `{!NodeDistanceEvaluator E} {LB : Type} `{!LoadBalancingStrategy LB}.
Context {S : Type} `{!ReconnectionSchedule S} (new_node_schedule : S) (nodes_of_config : list Node).

Definition DEFAULT_RECONNECT_DELAY : Z := from_secs 10.

(** Where the task waits: [Planning] at the top of the inner loop; asleep
    because no node is usable; for a connection to a node, whose transport may
    have been started, with the nodes left; for the metadata read on the new
    connection; at the end of the plan, then asleep; for the answer to the
    subscription; for an error.  A panic ends the task. *)
Inductive control_phase : Type :=
| Planning (sched : S)
| NoNodes (sched : S) (delay : Z)
| Connecting (sched : S) (full_refresh : bool) (n : Node) (transport : option nat) (nodes_left : list Node)
| Refreshing (sched : S) (full_refresh : bool) (c : nat) (nodes_left : list Node)
| AllFailed (sched : S)
| Waiting (sched : S) (delay : Z)
| Registering (c : nat)
| Listening (c : nat)
| Dead.

(** The transports started with the task's channels: those running, those that
    failed and wait for room in the error channel, and the one whose error is
    in it. *)
Record Links : Type := mkLinks {
  lk_next : nat; lk_running : gset nat; lk_failed : gset nat; lk_error : option nat }.

(** What was achieved, in order: a connection made to a node, the metadata read
    on it, its subscription accepted. *)
Inductive milestone : Type :=
| Connected (c : nat) (n : Node) | Refreshed (c : nat) (full_refresh : bool) | Subscribed (c : nat).

Record ControlState : Type := mkControl {
  ct_manager : ClusterMetadataManager (E := E); ct_heap : Heap; ct_balancer : LB;
  ct_transport : option nat;
  ct_init_complete : bool;
  ct_links : Links;
  ct_phase : control_phase;
  ct_log : list milestone }.

Definition control_start (m : ClusterMetadataManager (E := E)) (h : Heap) (lb : LB) : ControlState :=
  mkControl m h lb None false (mkLinks 0 ∅ ∅ None) (Planning new_node_schedule) [].

Definition with_phase (p : control_phase) (s : ControlState) : ControlState :=
  mkControl (ct_manager s) (ct_heap s) (ct_balancer s) (ct_transport s) (ct_init_complete s) (ct_links s) p (ct_log s).
Definition with_links (l : Links) (s : ControlState) : ControlState :=
  mkControl (ct_manager s) (ct_heap s) (ct_balancer s) (ct_transport s) (ct_init_complete s) l (ct_phase s) (ct_log s).
Definition with_cluster (m : ClusterMetadataManager (E := E)) (h : Heap) (lb : LB) (s : ControlState) : ControlState :=
  mkControl m h lb (ct_transport s) (ct_init_complete s) (ct_links s) (ct_phase s) (ct_log s).
(** [control_connection_transport.store] *)
Definition with_transport (t : option nat) (s : ControlState) : ControlState :=
  mkControl (ct_manager s) (ct_heap s) (ct_balancer s) t (ct_init_complete s) (ct_links s) (ct_phase s) (ct_log s).
Definition with_init (s : ControlState) : ControlState :=
  mkControl (ct_manager s) (ct_heap s) (ct_balancer s) (ct_transport s) true (ct_links s) (ct_phase s) (ct_log s).
Definition reach (a : milestone) (s : ControlState) : ControlState :=
  mkControl (ct_manager s) (ct_heap s) (ct_balancer s) (ct_transport s) (ct_init_complete s) (ct_links s) (ct_phase s)
    (ct_log s ++ [a]).

(** The start of an iteration of ['listen]. *)
Definition listen (s : ControlState) : ControlState :=
  with_phase (match ct_transport s with Some c => Registering c | None => Planning new_node_schedule end) s.

(** [for node in nodes], from the nodes left *)
Definition try_nodes (sched : S) (full_refresh : bool) (nodes : list Node) : control_phase :=
  match nodes with
  | [] => AllFailed sched
  | n :: nodes => Connecting sched full_refresh n None nodes
  end.

(** [wait_for_reconnection], up to the sleep *)
Definition wait_for_reconnection (jitter : Z) (sched : S) (k : S -> Z -> control_phase) : control_phase :=
  match next_delay jitter sched with
  | (Ok d, sched) => k sched (default DEFAULT_RECONNECT_DELAY d)
  | _ => Dead
  end.

(** The plan for the control connection itself. *)
Definition control_plan (draws : Z * Z) (s : ControlState) : list Node * LB :=
  query_plan (ct_balancer s) draws None (metadata (ct_manager s)) (ct_heap s).

(** A transport that is dropped stops; it may have reported its error before. *)
Definition drop_link (c : option nat) (l : Links) : Links :=
  match c with
  | Some c => mkLinks (lk_next l) (lk_running l ∖ {[c]}) (lk_failed l ∖ {[c]}) (lk_error l)
  | None => l
  end.

(** Events.  Of the task: it makes a plan; a sleep ends; the transport to the
    node is started; the connection is made or not; the metadata was read or
    not; it computes a delay after the whole plan; the subscription was
    answered; it receives an error.  Of the others: a transport fails; it
    reports its error; a transport nobody can reach any more is dropped; the
    metadata manager processes an event of the server; another task makes a
    plan or changes the state of nodes. *)
Inductive control_event : Type :=
| EPlan (draws : Z * Z) (jitter : Z)
| ESlept
| EOpen
| EConnected (r : Result unit)
| ERefreshed (r : Result (list NodeInfo * gmap bytes KeyspaceMetadata))
| EAllFailed (jitter : Z)
| ERegistered (r : Result Envelope)
| EReceive
| ETransportFails (c : nat)
| EReport (c : nat)
| EDrop (c : nat)
| EServerEvent (a : Answers) (e : ServerEvent)
| EOthers (h : Heap) (lb : LB).

Definition current_transport (p : control_phase) : option nat :=
  match p with Connecting _ _ _ t _ => t | _ => None end.

Definition control_step (ev : control_event) (s : ControlState) : option ControlState :=
  let l := ct_links s in
  match ev, ct_phase s with
  | EPlan draws jitter, Planning sched =>
    let '(nodes, lb) := control_plan draws s in
    let s := with_cluster (ct_manager s) (ct_heap s) lb s in
    match nodes with
    | [] => Some (with_phase (wait_for_reconnection jitter sched NoNodes) s)
    | _ => Some (with_phase (try_nodes sched false nodes) s)
    end
  | ESlept, NoNodes sched _ => Some (with_phase (try_nodes sched true nodes_of_config) s)
  | ESlept, Waiting sched _ => Some (with_phase (Planning sched) s)
  | EOpen, Connecting sched full n None rest =>
    Some (with_phase (Connecting sched full n (Some (lk_next l)) rest)
            (with_links (mkLinks (Datatypes.S (lk_next l)) ({[lk_next l]} ∪ lk_running l) (lk_failed l) (lk_error l)) s))
  | EConnected r, Connecting sched full n t rest =>
    match r, t with
    | Ok _, Some c => Some (with_phase (Refreshing sched full c rest) (reach (Connected c n) (with_transport (Some c) s)))
    | Ok _, None => None
    | Err _, _ => Some (with_phase (try_nodes sched full rest) (with_links (drop_link t l) s))
    | Panic, _ => Some (with_phase Dead (with_links (drop_link t l) s))
    end
  | ERefreshed r, Refreshing sched full c rest =>
    match r with
    | Ok (infos, keyspaces) =>
      let '(m, h) := Manager_refresh_metadata full infos keyspaces (ct_manager s) (ct_heap s) in
      Some (listen (reach (Refreshed c full) (with_cluster m h (ct_balancer s) s)))
    | Err _ => Some (with_phase (try_nodes sched full rest) s)
    | Panic => Some (with_phase Dead s)
    end
  | EAllFailed jitter, AllFailed sched => Some (with_phase (wait_for_reconnection jitter sched Waiting) s)
  | ERegistered r, Registering c =>
    match r with
    | Ok _ => Some (with_phase (Listening c) (reach (Subscribed c) (with_init s)))
    | Err _ => Some (listen (with_transport None (with_init s)))
    | Panic => Some (with_phase Dead s)
    end
  | EReceive, Listening _ =>
    match lk_error l with
    | Some _ =>
      Some (listen (with_transport None (with_links (mkLinks (lk_next l) (lk_running l) (lk_failed l) None) s)))
    | None => None
    end
  | ETransportFails c, _ =>
    if bool_decide (c ∈ lk_running l)
    then Some (with_links (mkLinks (lk_next l) (lk_running l ∖ {[c]}) ({[c]} ∪ lk_failed l) (lk_error l)) s) else None
  | EReport c, _ =>
    if bool_decide (c ∈ lk_failed l /\ lk_error l = None)
    then Some (with_links (mkLinks (lk_next l) (lk_running l) (lk_failed l ∖ {[c]}) (Some c)) s) else None
  | EDrop c, p =>
    if bool_decide (ct_transport s <> Some c /\ current_transport p <> Some c)
    then Some (with_links (drop_link (Some c) l) s) else None
  | EServerEvent a e, _ =>
    match process_event a e (ct_manager s) (ct_heap s) with
    | (Ok m, h) => Some (with_cluster m h (ct_balancer s) s)
    | (_, h) => Some (with_cluster (ct_manager s) h (ct_balancer s) s)
    end
  | EOthers h lb, _ => Some (with_cluster (ct_manager s) h lb s)
  | _, _ => None
  end.

Fixpoint control_run (es : list control_event) (s : ControlState) : option ControlState :=
  match es with
  | [] => Some s
  | e :: es => match control_step e s with Some s => control_run es s | None => None end
  end.

(** ** What a connection went through *)

(** A history of the control connections: the metadata is read on a connection
    that was made, from scratch only on one to a contact point; a subscription
    follows the reading of the metadata on the same connection, once. *)
Inductive history : list milestone -> Prop :=
| history_nil : history []
| history_connected l c n : history l -> history (l ++ [Connected c n])
| history_refreshed l c n (full : bool) :
    history l -> Connected c n ∈ l -> (full -> n ∈ nodes_of_config) -> history (l ++ [Refreshed c full])
| history_subscribed l c full :
    history l -> Refreshed c full ∈ l -> Subscribed c ∉ l -> history (l ++ [Subscribed c]).

Definition unused (s : ControlState) (c : nat) : Prop := forall c', Subscribed c' ∈ ct_log s -> (c' < c)%nat.

Definition phase_ok (s : ControlState) : Prop :=
  match ct_phase s with
  | Connecting _ full n t rest =>
    (full -> n :: rest ⊆ nodes_of_config) /\
    match t with Some c => unused s c | None => True end
  | Refreshing _ full c rest =>
    ct_transport s = Some c /\ (full -> rest ⊆ nodes_of_config) /\
    (exists n, Connected c n ∈ ct_log s /\ (full -> n ∈ nodes_of_config)) /\ unused s c
  | Registering c =>
    ct_transport s = Some c /\ (exists full, Refreshed c full ∈ ct_log s) /\ unused s c /\
    did_initial_refresh (ct_manager s) = true
  | Listening c => ct_transport s = Some c /\ Subscribed c ∈ ct_log s
  | _ => True
  end.

(** The connections in use are older than the next one. *)
Definition in_use (p : control_phase) : option nat :=
  match p with
  | Connecting _ _ _ t _ => t
  | Refreshing _ _ c _ | Registering c | Listening c => Some c
  | _ => None
  end.

Record control_inv (s : ControlState) : Prop := {
  ci_history : history (ct_log s);
  ci_init : ct_init_complete s -> did_initial_refresh (ct_manager s) = true;
  ci_ids : unused s (lk_next (ct_links s));
  ci_in_use : forall c, in_use (ct_phase s) = Some c -> (c < lk_next (ct_links s))%nat;
  ci_phase : phase_ok s }.

Lemma process_event_keeps_initial a e (m : ClusterMetadataManager (E := E)) h m' h' :
  process_event a e m h = (Ok m', h') -> did_initial_refresh m' = did_initial_refresh m.
Proof.
  unfold process_event, process_topology_event, process_status_event, process_schema_event, Manager_add_new_node,
    refresh_keyspace, remove_keyspace, store_result, store, omap.
  intros H. repeat (case_match; simplify_eq/=; try done).
Qed.

Lemma refresh_sets_initial full infos ks (m : ClusterMetadataManager (E := E)) h :
  did_initial_refresh (Manager_refresh_metadata full infos ks m h).1 = true.
Proof. unfold Manager_refresh_metadata. by case_match. Qed.

(** The metadata manager never forgets that it was refreshed. *)
Lemma control_step_keeps_initial ev s s' : control_step ev s = Some s' ->
  did_initial_refresh (ct_manager s) = true -> did_initial_refresh (ct_manager s') = true.
Proof.
  unfold control_step. intros H Hd.
  repeat (case_match; simplify_eq/=; try done).
  all: try (by unfold listen; simpl; match goal with H : Manager_refresh_metadata ?f ?i ?k ?m ?h = _ |- _ =>
    pose proof (refresh_sets_initial f i k m h) as Hr; rewrite H in Hr end).
  all: try (by erewrite process_event_keeps_initial).
Qed.

(** Only the metadata manager's flag, the transport, the phase and the log matter. *)
Lemma control_inv_same s s' : control_inv s ->
  ct_log s' = ct_log s -> ct_phase s' = ct_phase s -> ct_transport s' = ct_transport s ->
  ct_init_complete s' = ct_init_complete s -> lk_next (ct_links s') = lk_next (ct_links s) ->
  (did_initial_refresh (ct_manager s) = true -> did_initial_refresh (ct_manager s') = true) -> control_inv s'.
Proof.
  intros [Hh Hi Hn Hu Hp] El Ep Et Ei En Hd. unfold phase_ok, unused in *.
  split; unfold phase_ok, unused; rewrite ?El, ?Ep, ?Et, ?Ei, ?En; try done; [by eauto|].
  destruct (ct_phase s); naive_solver.
Qed.

(** No connection is tried or in use. *)
Definition idle (p : control_phase) : bool :=
  match p with Planning _ | NoNodes _ _ | AllFailed _ | Waiting _ _ | Dead => true | _ => false end.

Lemma control_inv_idle s p : control_inv s -> idle p -> control_inv (with_phase p s).
Proof. intros [Hh Hi Hn Hu Hp] Hp'. split; [done..| |]; unfold phase_ok; simpl; by destruct p. Qed.

Lemma wait_idle jitter sched k : (forall s d, idle (k s d)) -> idle (wait_for_reconnection jitter sched k).
Proof. intros H. unfold wait_for_reconnection. by destruct (next_delay jitter sched) as [[] ?]. Qed.

Lemma control_inv_try_nodes s sched (full : bool) rest : control_inv s -> (full -> rest ⊆ nodes_of_config) ->
  control_inv (with_phase (try_nodes sched full rest) s).
Proof.
  intros Hi Hr. destruct rest as [|n rest]; [by apply control_inv_idle|]. destruct Hi as [Hh Hi Hn Hu Hp]. by split.
Qed.

(** A new iteration without a connection. *)
Lemma control_inv_listen s : control_inv s -> control_inv (listen (with_transport None s)).
Proof. intros [Hh Hi Hn Hu Hp]. by split. Qed.

Lemma history_grows_unused s c a :
  (forall c', a = Subscribed c' -> (c' < c)%nat) -> unused s c -> unused (reach a s) c.
Proof. intros Ha Hu c' [H|H%list_elem_of_singleton]%elem_of_app; [by apply Hu|by apply Ha]. Qed.

Lemma connected_inv s sched full c n rest : control_inv s -> ct_phase s = Connecting sched full n (Some c) rest ->
  control_inv (with_phase (Refreshing sched full c rest) (reach (Connected c n) (with_transport (Some c) s))).
Proof.
  intros [Hh Hi Hn Hu Hp] E0. unfold phase_ok in Hp. rewrite E0 in Hp. destruct Hp as [Hr Hc].
  split; simpl; [by constructor|done|by apply history_grows_unused|intros ? [= <-]; apply Hu; by rewrite E0|].
  split_and!; [done|set_solver| |by apply history_grows_unused]. exists n. set_solver.
Qed.

Lemma refreshed_inv s sched full c rest infos ks : control_inv s -> ct_phase s = Refreshing sched full c rest ->
  let '(m, h) := Manager_refresh_metadata full infos ks (ct_manager s) (ct_heap s) in
  control_inv (listen (reach (Refreshed c full) (with_cluster m h (ct_balancer s) s))).
Proof.
  intros [Hh Hi Hn Hu Hp] E0. unfold phase_ok in Hp. rewrite E0 in Hp. destruct Hp as (Ht & Hr & (n & Hc & Hf) & Hs).
  pose proof (refresh_sets_initial full infos ks (ct_manager s) (ct_heap s)) as Hd.
  destruct (Manager_refresh_metadata _ _ _ _ _) as [m h]. simpl in Hd.
  split; unfold phase_ok; simpl; rewrite ?Ht; [by econstructor|done|by apply history_grows_unused| |].
  - intros ? [= <-]. apply Hu. by rewrite E0.
  - split_and!; [done|exists full; set_solver|by apply history_grows_unused|done].
Qed.

Lemma subscribed_inv s c : control_inv s -> ct_phase s = Registering c ->
  control_inv (with_phase (Listening c) (reach (Subscribed c) (with_init s))).
Proof.
  intros [Hh Hi Hn Hu Hp] E0. unfold phase_ok in Hp. rewrite E0 in Hp. destruct Hp as (Ht & (full & Hr) & Hs & Hd).
  assert (Hlt : (c < lk_next (ct_links s))%nat) by (apply Hu; by rewrite E0).
  split; simpl; [|done| | |].
  - eapply history_subscribed; [done..|]. intros Hin%Hs. lia.
  - apply history_grows_unused; [by intros ? [= <-]|done].
  - by intros ? [= <-].
  - split; [done|]. set_solver.
Qed.

Lemma registration_failed_inv s c : control_inv s -> ct_phase s = Registering c ->
  control_inv (listen (with_transport None (with_init s))).
Proof.
  intros [Hh Hi Hn Hu Hp] E0. unfold phase_ok in Hp. rewrite E0 in Hp. destruct Hp as (Ht & Hr & Hs & Hd). by split.
Qed.

Lemma opened_inv s sched full n rest : control_inv s -> ct_phase s = Connecting sched full n None rest ->
  let l := ct_links s in
  control_inv (with_phase (Connecting sched full n (Some (lk_next l)) rest)
    (with_links (mkLinks (Datatypes.S (lk_next l)) ({[lk_next l]} ∪ lk_running l) (lk_failed l) (lk_error l)) s)).
Proof.
  intros [Hh Hi Hn Hu Hp] E0. unfold phase_ok in Hp. rewrite E0 in Hp. destruct Hp as [Hr _].
  split; simpl; [done..| |by intros ? [= <-]; lia|done]. intros c Hc. pose proof (Hn c Hc). simpl. lia.
Qed.

(** The full refresh is only of contact points. *)
Lemma nodes_left_ok s : control_inv s ->
  match ct_phase s with
  | Connecting _ full _ _ rest | Refreshing _ full _ rest => full -> rest ⊆ nodes_of_config
  | _ => True
  end.
Proof. intros [_ _ _ _ Hp]. unfold phase_ok in Hp. destruct (ct_phase s); try done; set_solver. Qed.

Lemma drop_link_next t l : lk_next (drop_link t l) = lk_next l.
Proof. by destruct t. Qed.

(** Each event leads to one of the states above. *)
Ltac same_inv Hi := apply (control_inv_same _ _ Hi); simpl; rewrite ?drop_link_next; done.

Lemma control_step_inv ev s s' : control_inv s -> control_step ev s = Some s' -> control_inv s'.
Proof.
  intros Hi H. pose proof (control_step_keeps_initial ev s s' H) as Hd. pose proof (nodes_left_ok s Hi) as Hl.
  revert H. unfold control_step. destruct ev; simpl; repeat case_match; intros; simplify_eq.
  all: try same_inv Hi.
  all: try (apply control_inv_idle; [same_inv Hi || done|try apply wait_idle; done]).
  all: try (apply control_inv_try_nodes; [same_inv Hi|try done]).
  - by eapply opened_inv.
  - by apply connected_inv.
  - match goal with P : ct_phase s = _, R : Manager_refresh_metadata _ ?infos ?ks _ _ = _ |- _ =>
      pose proof (refreshed_inv s _ _ _ _ infos ks Hi P) as Hr; by rewrite R in Hr end.
  - by apply subscribed_inv.
  - by eapply registration_failed_inv.
  - apply control_inv_listen. same_inv Hi.
Qed.

Lemma control_run_inv es s s' : control_inv s -> control_run es s = Some s' -> control_inv s'.
Proof.
  revert s. induction es as [|e es IH]; intros s Hi; simpl; [by intros [= <-]|].
  destruct (control_step e s) as [s1|] eqn:E1; [|done]. apply IH. by eapply control_step_inv.
Qed.

Lemma control_start_inv m h lb : control_inv (control_start m h lb).
Proof. split; simpl; [constructor|done|by intros ? ?%elem_of_nil|done|done]. Qed.

(** C26: After any sequence of events the history is one of the above; a subscription
    is accepted, and listened to, only on the connection the session holds; the
    session is told that it is ready only when the metadata was read. *)
Theorem subscribed_after_refresh es m h lb s :
  control_run es (control_start m h lb) = Some s ->
  history (ct_log s) /\
  (forall c, ct_phase s = Registering c ->
    ct_transport s = Some c /\ (exists full, Refreshed c full ∈ ct_log s) /\ Subscribed c ∉ ct_log s) /\
  (forall c, ct_phase s = Listening c -> ct_transport s = Some c /\ Subscribed c ∈ ct_log s) /\
  (ct_init_complete s -> did_initial_refresh (ct_manager s) = true).
Proof.
  intros H%control_run_inv; [|apply control_start_inv]. destruct H as [Hh Hi _ _ Hp]. unfold phase_ok in Hp.
  split_and!; [done| | |done]; intros c Hc; rewrite Hc in Hp; [|done].
  destruct Hp as (Ht & Hr & Hu & _). split_and!; [done..|]. intros ?%Hu. lia.
Qed.

(** ** Runs *)

Lemma control_run_app es es' s :
  control_run (es ++ es') s = match control_run es s with Some s => control_run es' s | None => None end.
Proof. revert s. induction es as [|e es IH]; intros s; simpl; [done|]. by destruct (control_step e s). Qed.

Definition refused : list Error -> list control_event := map (fun e => EConnected (Err e)).
(** A node is connected to, the metadata is read and the subscription answered. *)
Definition accepted (infos : list NodeInfo) (ks : gmap bytes KeyspaceMetadata) (answer : Envelope) : list control_event :=
  [EOpen; EConnected (Ok tt); ERefreshed (Ok (infos, ks)); ERegistered (Ok answer)].

Lemma refused_run errs sched full bad n rest s : length errs = length bad ->
  control_run (refused errs) (with_phase (try_nodes sched full (bad ++ n :: rest)) s)
  = Some (with_phase (Connecting sched full n None rest) s).
Proof.
  revert bad. induction errs as [|e errs IH]; intros [|b bad] [=]; [done|]. simpl.
  rewrite <- (IH bad) by done. by destruct s.
Qed.

(** The task listens on connection [c] to node [n], with the metadata read on it. *)
Record listening_on (s0 s : ControlState) (c : nat) (n : Node) (full : bool) (infos : list NodeInfo)
    (ks : gmap bytes KeyspaceMetadata) : Prop := {
  ln_phase : ct_phase s = Listening c;
  ln_transport : ct_transport s = Some c;
  ln_running : c ∈ lk_running (ct_links s);
  ln_error : lk_error (ct_links s) = lk_error (ct_links s0);
  ln_log : ct_log s = ct_log s0 ++ [Connected c n; Refreshed c full; Subscribed c];
  ln_cluster : (ct_manager s, ct_heap s) = Manager_refresh_metadata full infos ks (ct_manager s0) (ct_heap s0);
  ln_init : ct_init_complete s = true }.

Lemma accepted_run sched full n rest s infos ks answer :
  exists s', control_run (accepted infos ks answer) (with_phase (Connecting sched full n None rest) s) = Some s' /\
    listening_on s s' (lk_next (ct_links s)) n full infos ks.
Proof.
  simpl. destruct (Manager_refresh_metadata _ _ _ _ _) as [m h] eqn:Er. simpl.
  eexists. split; [done|]. split; simpl; try done; [set_solver|by rewrite <- !app_assoc].
Qed.

(** The events that lead from a plan to its nodes: if it is empty, a delay, and
    the contact points are taken. *)
Definition no_plan (draws : Z * Z) (s : ControlState) : bool :=
  match (control_plan draws s).1 with [] => true | _ => false end.
Definition candidates (draws : Z * Z) (s : ControlState) : list Node :=
  if no_plan draws s then nodes_of_config else (control_plan draws s).1.
Definition planned (draws : Z * Z) (jitter : Z) (s : ControlState) : list control_event :=
  EPlan draws jitter :: if no_plan draws s then [ESlept] else [].

Definition delay_computed (jitter : Z) (sched : S) : Prop := exists d sched', next_delay jitter sched = (Ok d, sched').

Lemma planned_run draws jitter s sched : ct_phase s = Planning sched ->
  (no_plan draws s -> delay_computed jitter sched) ->
  exists sched', control_run (planned draws jitter s) s
    = Some (with_phase (try_nodes sched' (no_plan draws s) (candidates draws s))
              (with_cluster (ct_manager s) (ct_heap s) (control_plan draws s).2 s)).
Proof.
  unfold planned, candidates, no_plan. intros Hp Hd. simpl. rewrite Hp.
  destruct (control_plan draws s) as [[|n nodes] lb]; simpl in *; [|by eexists].
  destruct Hd as (d & sched' & Hd); [done|]. unfold wait_for_reconnection. rewrite Hd. by exists sched'.
Qed.

Lemma reconnect_run draws jitter s sched errs bad n rest infos ks answer :
  ct_phase s = Planning sched ->
  (no_plan draws s -> delay_computed jitter sched) ->
  candidates draws s = bad ++ n :: rest -> length errs = length bad ->
  exists s', control_run (planned draws jitter s ++ refused errs ++ accepted infos ks answer) s = Some s' /\
    listening_on s s' (lk_next (ct_links s)) n (no_plan draws s) infos ks.
Proof.
  intros Hp Hd Hc Hl. destruct (planned_run draws jitter s sched Hp Hd) as [sched' Hr].
  rewrite !control_run_app, Hr, Hc, control_run_app, refused_run by done.
  destruct (accepted_run sched' (no_plan draws s) n rest
    (with_cluster (ct_manager s) (ct_heap s) (control_plan draws s).2 s) infos ks answer) as (s' & -> & Hs).
  exists s'. split; [done|]. by destruct Hs.
Qed.


(** The transport to a node breaks while the connection is set up, its error
    enters the channel, the node is given up. *)
Definition breaks_in_startup (c : nat) (e : Error) : list control_event :=
  [EOpen; ETransportFails c; EReport c; EConnected (Err e)].

Lemma broken_run sched full n1 n rest s c e : lk_next (ct_links s) = c -> lk_error (ct_links s) = None ->
  exists s', control_run (breaks_in_startup c e) (with_phase (try_nodes sched full (n1 :: n :: rest)) s)
    = Some (with_phase (Connecting sched full n None rest) s') /\
    lk_next (ct_links s') = Datatypes.S c /\ lk_error (ct_links s') = Some c /\ ct_log s' = ct_log s.
Proof.
  intros Hc He. simpl. rewrite Hc. rewrite bool_decide_true by set_solver. simpl.
  rewrite bool_decide_true by (rewrite He; set_solver). simpl. eexists (with_links _ _). split; [done|done].
Qed.

(** A stale error drops a healthy connection: when the transport to the first
    candidate broke during its startup, the connection that is then made to the
    second one and subscribed is given up at once for the first one's error,
    although it still runs. *)
Theorem stale_error_drops_connection draws jitter s sched n1 n rest e infos ks answer :
  let c := lk_next (ct_links s) in
  ct_phase s = Planning sched -> lk_error (ct_links s) = None ->
  (no_plan draws s -> delay_computed jitter sched) ->
  candidates draws s = n1 :: n :: rest ->
  exists s1 s2,
    control_run (planned draws jitter s ++ breaks_in_startup c e ++ accepted infos ks answer) s = Some s1 /\
    ct_phase s1 = Listening (Datatypes.S c) /\ Datatypes.S c ∈ lk_running (ct_links s1) /\
    ct_log s1 = ct_log s ++ [Connected (Datatypes.S c) n; Refreshed (Datatypes.S c) (no_plan draws s); Subscribed (Datatypes.S c)] /\
    control_step EReceive s1 = Some s2 /\
    ct_phase s2 = Planning new_node_schedule /\ ct_transport s2 = None /\ Datatypes.S c ∈ lk_running (ct_links s2).
Proof.
  intros c Hp He Hd Hc. destruct (planned_run draws jitter s sched Hp Hd) as [sched' Hr].
  rewrite !control_run_app, Hr, Hc, control_run_app.
  destruct (broken_run sched' (no_plan draws s) n1 n rest
    (with_cluster (ct_manager s) (ct_heap s) (control_plan draws s).2 s) c e eq_refl He) as (s0 & -> & Hn & He0 & Hl).
  destruct (accepted_run sched' (no_plan draws s) n rest s0 infos ks answer) as (s1 & -> & [Hph Ht Hru Her Hlog _ _]).
  rewrite Hn in *. rewrite He0 in Her. rewrite Hl in Hlog. exists s1. eexists.
  split_and!; [done..|simpl; by rewrite Hph, Her|done|done|done].
Qed.
End Control.

(** ** Forwarding *)

Section Forwarding.
Context {U : UuidLib} {HB : HashIter bytes} {HS : HashIter SocketAddr}.

(** An envelope that carries an event. *)
Definition carries (e : Envelope) (event : ServerEvent) : Prop :=
  opcode e = OpEvent /\ body e = BodyResEvent_serialize (mkBodyResEvent event) /\ wf_event event.

(** Every event the server sends is passed on, in order, and it is of a kind
    that was subscribed to. *)
Theorem events_forwarded v envelopes events : Forall2 carries envelopes events ->
  process_events envelopes = events /\
  exists subscription, BodyReqRegister_from_cursor (body (register_envelope v)) = Ok (subscription, []) /\
    Forall (fun e => SimpleServerEvent_from e ∈ brr_events subscription) events.
Proof using HB HS U.
  intros H. split.
  - induction H as [|e event envelopes events (Ho & Hb & Hw) _ IH]; [done|]. simpl.
    rewrite (response_body_envelope e (RbEvent (mkBodyResEvent event))); [|done|done|simpl; by rewrite Hb].
    simpl. by rewrite IH.
  - eexists. split.
    + unfold register_envelope. simpl. rewrite <- (app_nil_r (BodyReqRegister_serialize _)).
      apply round_trip. vm_compute. reflexivity.
    + apply Forall_true. intros []; simpl; set_solver.
Qed.
End Forwarding.

Module ControlSamples.
#[local] Existing Instance uuid_bytes.
#[local] Existing Instance merge_unstable.
#[local] Existing Instance rotating_shuffle.
#[local] Instance order : HashIter Uuid := default_iter Uuid.
#[local] Instance order_bytes : HashIter bytes := default_iter bytes.
#[local] Instance order_addr : HashIter SocketAddr := default_iter SocketAddr.

(** A session with two contact points that has not read the metadata. *)
Definition host (k : Z) : Uuid := dexist (repeat (u8 k) 16) eq_refl.
Definition rpc (k : Z) : SocketAddr := mkSocketAddr (IpV4 (map u8 [10; 0; 0; k])) 9042.
Definition point (k : Z) : Node := mkNode (rpc k) None (Some NdLocal) (Z.to_pos k) None [] [] [].
Definition points : list Node := [point 1; point 2].
Definition info (k : Z) : NodeInfo := mkNodeInfo (host k) (rpc k) None (lit "dc1") [mkToken k] (lit "r1").
Definition no_keyspaces : gmap bytes KeyspaceMetadata := ∅.
Definition balancer (contact_points : list Node) : InitializingWrapper RoundRobinLoadBalancingStrategy :=
  mkInitializing (mkRoundRobin 0) contact_points.
Definition five_seconds : ConstantReconnectionSchedule := mkConstantSchedule 5000.
Definition begin (contact_points : list Node) : ControlState :=
  control_start five_seconds (Manager_new points mkAllLocal) (mkHeap 3 ∅) (balancer contact_points).
Definition ready : Envelope := mkEnvelope V4 Response 0 OpReady 0 [] None [].
Definition eof : Error := EIo UnexpectedEof.


Lemma stale_error_witness :
  candidates points (0, 0) (begin points) = [point 1; point 2] /\
 exists s1 s2,
    control_run five_seconds points
      (planned (0, 0) 0 (begin points) ++ breaks_in_startup 0 eof ++ accepted [info 2] no_keyspaces ready)
      (begin points) = Some s1 /\
   ct_phase s1 = Listening 1 /\ 1%nat ∈ lk_running (ct_links s1) /\
   ct_log s1 = [Connected 1 (point 2); Refreshed 1 (no_plan (0, 0) (begin points)); Subscribed 1] /\
   control_step five_seconds points EReceive s1 = Some s2 /\
   ct_phase s2 = Planning five_seconds /\ ct_transport s2 = None /\ 1%nat ∈ lk_running (ct_links s2).
Proof.
  split; [reflexivity|].
  apply (stale_error_drops_connection five_seconds points (0, 0) 0 (begin points) five_seconds (point 1) (point 2) []
    eof [info 2] no_keyspaces ready); done.
Defined.

(** The task listens after the first plan. *)
Definition first_plan : list control_event :=
  planned (0, 0) 0 (begin points) ++ refused [] ++ accepted [info 1] no_keyspaces ready.
Lemma subscribed_witness : exists s, control_run five_seconds points first_plan (begin points) = Some s /\
 history points (ct_log s) /\
 (forall c, ct_phase s = Registering c ->
    ct_transport s = Some c /\ (exists full, Refreshed c full ∈ ct_log s) /\ Subscribed c ∉ ct_log s) /\
 (forall c, ct_phase s = Listening c -> ct_transport s = Some c /\ Subscribed c ∈ ct_log s) /\
 (ct_init_complete s -> did_initial_refresh (ct_manager s) = true).
Proof.
  destruct (reconnect_run five_seconds points (0, 0) 0 (begin points) five_seconds [] [] (point 1) [point 2]
    [info 1] no_keyspaces ready) as (s & Hr & _); [done|done|done|done|].
  exists s. split; [exact Hr|]. exact (subscribed_after_refresh five_seconds points _ _ _ _ s Hr).
Defined.

Definition node_down : ServerEvent := EvStatusChange (mkStatusChange Down (rpc 2)).
Definition down_envelope : Envelope :=
  mkEnvelope V4 Response 0 OpEvent (-1) (BodyResEvent_serialize (mkBodyResEvent node_down)) None [].
Lemma events_forwarded_witness : process_events [down_envelope] = [node_down] /\
 exists subscription, BodyReqRegister_from_cursor (body (register_envelope V4)) = Ok (subscription, []) /\
   Forall (fun e => SimpleServerEvent_from e ∈ brr_events subscription) [node_down].
Proof.
  apply (events_forwarded V4 [down_envelope] [node_down]). constructor; [|constructor].
  split_and!; [done|done|]. vm_compute. intuition congruence.
Defined.
End ControlSamples.
