(* ===== verification/Connectors.v ===== *)
(** * Opening connections: [cluster/tcp_connection_manager.rs], [cluster/rustls_connection_manager.rs], the constructors of [transport.rs]

    A connection manager opens a socket to a node, directly or through an
    HTTP proxy, with or without TLS on it, and starts a transport that encodes
    frames as configured; the conversation of [Startup] follows.  The operating
    system, the proxy and the TLS library are an environment that performs
    socket operations; what was asked of it is recorded. *)

From S2P Require Import Prelude Types Wire Compression Envelope Frame FrameStream Query Requests Results Responses Reader Startup.
Local Open Scope Z_scope.
Local Open Scope cdrs_scope.

(** ** Configuration: [config_proxy.rs], [frame_encoding.rs] *)

Record HttpBasicAuth : Type := mkHttpBasicAuth { hb_username : bytes; hb_password : bytes }.
Record HttpProxyConfig : Type := mkHttpProxyConfig { hp_address : bytes; hp_basic_auth : option HttpBasicAuth }.
(** [HttpProxyConfigBuilder] has the fields of what it builds. *)
Definition HttpProxy_new (address : bytes) : HttpProxyConfig := mkHttpProxyConfig address None.
Definition with_basic_auth (username password : bytes) (c : HttpProxyConfig) : HttpProxyConfig :=
  mkHttpProxyConfig (hp_address c) (Some (mkHttpBasicAuth username password)).

(** [trait FrameEncodingFactory] with the codecs of the library, and its implementation *)
Record FrameEncodingFactory : Type := mkFactory {
  factory_encoder : Version -> Compression -> codec_kind; factory_decoder : Version -> Compression -> codec_kind }.
Definition ProtocolFrameEncodingFactory : FrameEncodingFactory := mkFactory create_encoder create_decoder.

(** ** Sockets *)

Section Sockets.
(** Server names and client configurations of rustls. *)
Context {ServerName ClientConfig : Type}.

Inductive socket_target : Type := ToNode (addr : SocketAddr) | ToProxy (address : bytes).
(** [TcpStream::connect], [http_connect_tokio] with or without credentials,
    [set_nodelay], [RustlsConnector::connect]. *)
Inductive socket_op : Type :=
| Connect (t : socket_target)
| HttpConnect (ip : IpAddr) (port : Z) (auth : option HttpBasicAuth)
| SetNodelay (b : bool)
| TlsConnect (dns_name : ServerName) (config : ClientConfig).

Context {W : Type} (perform : socket_op -> W -> outcome io_kind unit * W).

Record Net : Type := mkNet { net_env : W; net_ops : list socket_op }.
Definition net (X : Type) : Type := Net -> outcome io_kind X * Net.
Definition nret {X} (x : X) : net X := fun w => (Ok x, w).
Definition nbind {X Y} (m : net X) (k : X -> net Y) : net Y := fun w =>
  match m w with
  | (Ok x, w) => k x w
  | (Err e, w) => (Err e, w)
  | (Panic, w) => (Panic, w)
  end.
Local Notation "'let!' x ':=' m 'in' k" := (nbind m (fun x => k)) (at level 10, x name, m at level 100, k at level 200).
Definition socket (o : socket_op) : net unit := fun w =>
  let '(r, env) := perform o (net_env w) in (r, mkNet env (net_ops w ++ [o])).

(** [map_err(|error| io::Error::new(ErrorKind::Other, ..))] *)
Definition map_err_other {X} (m : net X) : net X := fun w =>
  match m w with
  | (Err _, w) => (Err OtherKind, w)
  | x => x
  end.

(** What [AsyncTransport::new] is called with, the channels and the keyspace
    holder apart. *)
Record TransportConfig : Type := mkTransportConfig {
  tr_addr : SocketAddr; tr_compression : Compression; tr_frame_encoder : codec_kind; tr_frame_decoder : codec_kind;
  tr_buffer_size : nat }.

(** [TransportTcp::with_stream], [TransportTcp::new] *)
Definition tcp_with_stream (addr : SocketAddr) c enc dec (buffer_size : nat) : net TransportConfig :=
  nret (mkTransportConfig addr c enc dec buffer_size).
Definition tcp_new (addr : SocketAddr) c enc dec (buffer_size : nat) (tcp_nodelay : bool) : net TransportConfig :=
  let! _ := socket (Connect (ToNode addr)) in
  let! _ := socket (SetNodelay tcp_nodelay) in
  tcp_with_stream addr c enc dec buffer_size.

(** [TransportRustls::with_stream], [TransportRustls::new] *)
Definition rustls_with_stream (addr : SocketAddr) dns_name config c enc dec (buffer_size : nat) : net TransportConfig :=
  let! _ := socket (TlsConnect dns_name config) in
  nret (mkTransportConfig addr c enc dec buffer_size).
Definition rustls_new (addr : SocketAddr) dns_name config c enc dec (buffer_size : nat) (tcp_nodelay : bool)
  : net TransportConfig :=
  let! _ := socket (Connect (ToNode addr)) in
  let! _ := socket (SetNodelay tcp_nodelay) in
  rustls_with_stream addr dns_name config c enc dec buffer_size.

(** ** The connection managers *)

(** The keyspace holder is in the environment of [Startup]. *)
Record TcpConnectionManager {P : Type} : Type := mkTcpManager {
  tm_authenticator_provider : P; tm_frame_encoder_factory : FrameEncodingFactory; tm_compression : Compression;
  tm_buffer_size : nat; tm_tcp_nodelay : bool; tm_version : Version; tm_http_proxy : option HttpProxyConfig }.
Record RustlsConnectionManager {P : Type} : Type := mkRustlsManager {
  rm_dns_name : ServerName; rm_authenticator_provider : P; rm_config : ClientConfig;
  rm_frame_encoder_factory : FrameEncodingFactory; rm_compression : Compression;
  rm_buffer_size : nat; rm_tcp_nodelay : bool; rm_version : Version; rm_http_proxy : option HttpProxyConfig }.
Arguments TcpConnectionManager P : clear implicits.
Arguments RustlsConnectionManager P : clear implicits.

(** The proxy is asked for a connection to the node. *)
Definition http_connect (addr : SocketAddr) (proxy : HttpProxyConfig) : net unit :=
  map_err_other (socket (HttpConnect (sa_ip addr) (sa_port addr) (hp_basic_auth proxy))).

Definition tcp_create_transport {P} (m : TcpConnectionManager P) (addr : SocketAddr) : net TransportConfig :=
  let enc := factory_encoder (tm_frame_encoder_factory m) (tm_version m) (tm_compression m) in
  let dec := factory_decoder (tm_frame_encoder_factory m) (tm_version m) (tm_compression m) in
  match tm_http_proxy m with
  | Some http_proxy =>
    let! _ := socket (Connect (ToProxy (hp_address http_proxy))) in
    let! _ := http_connect addr http_proxy in
    let! _ := socket (SetNodelay (tm_tcp_nodelay m)) in
    tcp_with_stream addr (tm_compression m) enc dec (tm_buffer_size m)
  | None => tcp_new addr (tm_compression m) enc dec (tm_buffer_size m) (tm_tcp_nodelay m)
  end.

Definition rustls_create_transport {P} (m : RustlsConnectionManager P) (addr : SocketAddr) : net TransportConfig :=
  let enc := factory_encoder (rm_frame_encoder_factory m) (rm_version m) (rm_compression m) in
  let dec := factory_decoder (rm_frame_encoder_factory m) (rm_version m) (rm_compression m) in
  match rm_http_proxy m with
  | Some http_proxy =>
    let! _ := socket (Connect (ToProxy (hp_address http_proxy))) in
    let! _ := http_connect addr http_proxy in
    let! _ := socket (SetNodelay (rm_tcp_nodelay m)) in
    rustls_with_stream addr (rm_dns_name m) (rm_config m) (rm_compression m) enc dec (rm_buffer_size m)
  | None =>
    rustls_new addr (rm_dns_name m) (rm_config m) (rm_compression m) enc dec (rm_buffer_size m) (rm_tcp_nodelay m)
  end.

(** ** What is asked of the network *)

(** A computation performs the operations of a script in order: all of them if
    it succeeds, and as many as it got to if one fails. *)
Definition follows {X} (m : net X) (script : list socket_op) (result : X) : Prop := forall w,
  exists k, net_ops (m w).2 = net_ops w ++ take k script /\
  match (m w).1 with Ok x => x = result /\ (length script <= k)%nat | _ => True end.

Lemma follows_ret {X} (x : X) : follows (nret x) [] x.
Proof. intros w. exists 0%nat. simpl. by rewrite app_nil_r. Qed.

Lemma follows_socket o : follows (socket o) [o] tt.
Proof.
  intros w. exists 1%nat. unfold socket. destruct (perform o (net_env w)) as [r env]. simpl.
  split; [done|]. destruct r as [[]| |]; [|done..]. split; [done|lia].
Qed.

Lemma follows_map_err {X} (m : net X) script x : follows m script x -> follows (map_err_other m) script x.
Proof. intros H w. destruct (H w) as [k Hk]. exists k. unfold map_err_other. by destruct (m w) as [[] ?]. Qed.

Lemma follows_bind {X Y} (m : net X) (f : X -> net Y) s1 s2 x y :
  follows m s1 x -> follows (f x) s2 y -> follows (nbind m f) (s1 ++ s2) y.
Proof.
  intros Hm Hf w. destruct (Hm w) as (k1 & H1 & H2). unfold nbind.
  destruct (m w) as [[x'|e|] w1]; simpl in *.
  - destruct H2 as [-> Hl]. destruct (Hf w1) as (k2 & H3 & H4). exists (length s1 + k2)%nat. split.
    + rewrite H3, H1, <- app_assoc, take_app_add, (take_ge s1 k1) by lia. done.
    + destruct (f x w1).1; [|done..]. destruct H4. split; [done|]. rewrite length_app. lia.
  - exists (k1 `min` length s1)%nat. split; [|done]. rewrite H1, take_app_le by lia. by rewrite <- take_take, take_ge with (n := length s1) by (rewrite ?length_take; lia).
  - exists (k1 `min` length s1)%nat. split; [|done]. rewrite H1, take_app_le by lia. by rewrite <- take_take, take_ge with (n := length s1) by (rewrite ?length_take; lia).
Qed.

(** To a node, or to the proxy and then through it. *)
Definition route (addr : SocketAddr) (http_proxy : option HttpProxyConfig) : list socket_op :=
  match http_proxy with
  | Some p => [Connect (ToProxy (hp_address p)); HttpConnect (sa_ip addr) (sa_port addr) (hp_basic_auth p)]
  | None => [Connect (ToNode addr)]
  end.
Definition tcp_opening {P} (m : TcpConnectionManager P) (addr : SocketAddr) : list socket_op :=
  route addr (tm_http_proxy m) ++ [SetNodelay (tm_tcp_nodelay m)].
Definition rustls_opening {P} (m : RustlsConnectionManager P) (addr : SocketAddr) : list socket_op :=
  route addr (rm_http_proxy m) ++ [SetNodelay (rm_tcp_nodelay m); TlsConnect (rm_dns_name m) (rm_config m)].

(** The transport started on the socket. *)
Definition codecs (f : FrameEncodingFactory) (v : Version) (c : Compression) (addr : SocketAddr) (size : nat) : TransportConfig :=
  mkTransportConfig addr c (factory_encoder f v c) (factory_decoder f v c) size.

Ltac follow := repeat first
  [apply follows_ret|apply follows_socket|apply follows_map_err|eapply (follows_bind _ _ [_])].

Lemma tcp_follows {P} (m : TcpConnectionManager P) addr :
  follows (tcp_create_transport m addr) (tcp_opening m addr)
    (codecs (tm_frame_encoder_factory m) (tm_version m) (tm_compression m) addr (tm_buffer_size m)).
Proof.
  unfold tcp_create_transport, tcp_opening, tcp_new, tcp_with_stream, http_connect.
  destruct (tm_http_proxy m); simpl; follow.
Qed.

Lemma rustls_follows {P} (m : RustlsConnectionManager P) addr :
  follows (rustls_create_transport m addr) (rustls_opening m addr)
    (codecs (rm_frame_encoder_factory m) (rm_version m) (rm_compression m) addr (rm_buffer_size m)).
Proof.
  unfold rustls_create_transport, rustls_opening, rustls_new, rustls_with_stream, http_connect.
  destruct (rm_http_proxy m); simpl; follow.
Qed.
End Sockets.
Arguments TcpConnectionManager P : clear implicits.
Arguments RustlsConnectionManager ServerName ClientConfig P : clear implicits.

(** The encoder and the decoder the library chooses are of one kind. *)
Lemma protocol_codecs_agree v c :
  factory_encoder ProtocolFrameEncodingFactory v c = factory_decoder ProtocolFrameEncodingFactory v c.
Proof. done. Qed.

(** ** [establish_connection] *)

Section Establish.
Context {U : UuidLib} {HB : HashIter bytes} {P A : Type} `{!SaslAuthenticator A} `{!SaslAuthenticatorProvider P A}.
Context {ServerName ClientConfig W : Type}.
Context (perform : socket_op (ServerName := ServerName) (ClientConfig := ClientConfig) -> W -> outcome io_kind unit * W).
(** The server at the other end, as in [Startup]. *)
Context (answer : Envelope -> bool -> W -> Result Envelope * W) (holder : W -> KeyspaceHolder) (pkg_version : option bytes).

Abbreviation Net := (Net (ServerName := ServerName) (ClientConfig := ClientConfig) (W := W)).
Definition net_answer (e : Envelope) (handshake : bool) (w : Net) : Result Envelope * Net :=
  let '(r, env) := answer e handshake (net_env w) in (r, mkNet env (net_ops w)).
Definition net_holder (w : Net) : KeyspaceHolder := holder (net_env w).
(** The transport itself plays no part in the conversation. *)
Definition opened {X} (create : net (W := W) X) : Net -> outcome io_kind unit * Net := fun w =>
  let '(r, w) := create w in (omap (fun _ => tt) r, w).

Definition tcp_establish_connection (m : TcpConnectionManager P) (addr : SocketAddr) (fuel : nat)
  : Net -> option (Result unit * Conversation) :=
  establish_connection net_answer net_holder addr pkg_version (opened (tcp_create_transport perform m addr)) fuel
    (tm_authenticator_provider m) (tm_compression m) (tm_version m).
Definition rustls_establish_connection (m : RustlsConnectionManager ServerName ClientConfig P) (addr : SocketAddr) (fuel : nat)
  : Net -> option (Result unit * Conversation) :=
  establish_connection net_answer net_holder addr pkg_version (opened (rustls_create_transport perform m addr)) fuel
    (rm_authenticator_provider m) (rm_compression m) (rm_version m).

(** The socket is opened as the script says; an error of the network ends the
    attempt with nothing said, otherwise the conversation starts. *)
Definition opens_then_talks (script : list socket_op) (talk : Net -> option (Result unit * Conversation)) (w : Net)
    (r : option (Result unit * Conversation)) : Prop :=
  exists k w1, net_ops w1 = net_ops w ++ take k script /\
    ((exists e, r = Some (Err (EIo e), mkConversation w1 [])) \/ r = Some (Panic, mkConversation w1 []) \/
     (length script <= k)%nat /\ r = talk w1).

Lemma follows_opens {X} (create : net X) script x fuel provider c v addr w : follows create script x ->
  opens_then_talks script
    (fun w1 => startup net_answer net_holder addr pkg_version fuel provider c v (mkConversation w1 []))
    w (establish_connection net_answer net_holder addr pkg_version (opened create) fuel provider c v w).
Proof.
  intros H. destruct (H w) as (k & Hk & Hr). exists k, (create w).2. unfold establish_connection, opened.
  destruct (create w) as [[y|e|] w1]; simpl in *; (split; [done|]).
  - destruct Hr. by right; right.
  - left. by exists e.
  - by right; left.
Qed.

(** A connection is opened as it was configured, over TCP and over TLS: through
    the proxy if there is one, which alone is then connected to, with the
    chosen delay option and the TLS session before anything is said; a failure
    ends the attempt; on success the driver introduces itself to the server
    with the configured authenticator, compression and version. *)
Theorem opened_as_configured (tcp : TcpConnectionManager P) (tls : RustlsConnectionManager ServerName ClientConfig P)
    (addr : SocketAddr) (fuel : nat) (w : Net) :
  opens_then_talks (tcp_opening tcp addr)
    (fun w1 => startup net_answer net_holder addr pkg_version fuel (tm_authenticator_provider tcp)
                 (tm_compression tcp) (tm_version tcp) (mkConversation w1 []))
    w (tcp_establish_connection tcp addr fuel w) /\
  opens_then_talks (rustls_opening tls addr)
    (fun w1 => startup net_answer net_holder addr pkg_version fuel (rm_authenticator_provider tls)
                 (rm_compression tls) (rm_version tls) (mkConversation w1 []))
    w (rustls_establish_connection tls addr fuel w).
Proof. split; eapply follows_opens; [apply tcp_follows|apply rustls_follows]. Qed.
End Establish.
