(* ===== verification/SessionBuilder.v ===== *)
(** * Building a session: the builders of [cluster/session.rs], [cluster/config_tcp.rs], [cluster/config_rustls.rs], [cluster/node_address.rs]

    A node configuration names the contact points and the protocol, a session
    configuration the policies; [build] checks them, starts the control
    connection and waits until it has signalled that it is initialized.
    Boxed policies are type parameters of the configuration, so a setter may
    change its type.  The tasks the builder starts are the transitions of
    [Control], and a build is what its caller sees after a run of them. *)

From S2P Require Import Prelude Types Wire Compression Envelope Events Requests ErrorMsg Results FrameStream Reader Retry Token Topology Manager LoadBalancing Statements Startup Pool Control Connectors.
Local Open Scope Z_scope.
Local Open Scope cdrs_scope.

(** ** [node_address.rs] *)

Inductive NodeAddress : Type := Direct (addr : SocketAddr) | Hostname (hostname : bytes).

Section Addresses.
(** [tokio::net::lookup_host] *)
Context (lookup_host : bytes -> outcome io_kind (list SocketAddr)).

Definition resolve_address (a : NodeAddress) : Result (list SocketAddr) :=
  match a with
  | Direct addr => Ok [addr]
  | Hostname hostname =>
    match lookup_host hostname with
    | Ok addrs => Ok addrs
    | Err k => Err (EIo k)
    | Panic => Panic
    end
  end.

(** The loop of [build]: all addresses, or the first error. *)
Fixpoint resolve_all (addrs : list NodeAddress) : Result (list SocketAddr) :=
  match addrs with
  | [] => Ok []
  | contact_point :: addrs =>
    let? found := resolve_address contact_point in
    let? contact_points := resolve_all addrs in
    Ok (found ++ contact_points)
  end.
End Addresses.

(** ** [config_tcp.rs] *)

Record NodeTcpConfig {P : Type} : Type := mkNodeTcp {
  nt_contact_points : list SocketAddr; nt_authenticator_provider : P; nt_version : Version; nt_beta_protocol : bool;
  nt_http_proxy : option HttpProxyConfig }.
Record NodeTcpConfigBuilder {P : Type} : Type := mkNodeTcpBuilder {
  nb_addrs : list NodeAddress; nb_authenticator_provider : P; nb_version : Version; nb_beta_protocol : bool;
  nb_http_proxy : option HttpProxyConfig }.
Arguments NodeTcpConfig P : clear implicits.
Arguments NodeTcpConfigBuilder P : clear implicits.

Definition NodeTcpConfigBuilder_default : NodeTcpConfigBuilder NoneAuthenticatorProvider :=
  mkNodeTcpBuilder _ [] mkNoneProvider V4 false None.
Definition with_authenticator_provider {P P'} (p : P') (b : NodeTcpConfigBuilder P) : NodeTcpConfigBuilder P' :=
  mkNodeTcpBuilder _ (nb_addrs b) p (nb_version b) (nb_beta_protocol b) (nb_http_proxy b).

(** The setters that keep the authenticator. *)
Inductive node_setter : Type :=
| WithContactPoint (a : NodeAddress) | WithContactPoints (l : list NodeAddress) | WithVersion (v : Version)
| WithBetaProtocol (beta : bool) | WithHttpProxy (c : HttpProxyConfig).
Definition node_with {P} (s : node_setter) (b : NodeTcpConfigBuilder P) : NodeTcpConfigBuilder P :=
  let '(mkNodeTcpBuilder _ addrs p v beta proxy) := b in
  match s with
  | WithContactPoint a => mkNodeTcpBuilder _ (addrs ++ [a]) p v beta proxy
  | WithContactPoints l => mkNodeTcpBuilder _ (addrs ++ l) p v beta proxy
  | WithVersion v => mkNodeTcpBuilder _ addrs p v beta proxy
  | WithBetaProtocol beta => mkNodeTcpBuilder _ addrs p v beta proxy
  | WithHttpProxy c => mkNodeTcpBuilder _ addrs p v beta (Some c)
  end.

Definition build_node_config {P} lookup_host (b : NodeTcpConfigBuilder P) : Result (NodeTcpConfig P) :=
  let? contact_points := resolve_all lookup_host (nb_addrs b) in
  Ok (mkNodeTcp _ contact_points (nb_authenticator_provider b) (nb_version b) (nb_beta_protocol b) (nb_http_proxy b)).

(** ** [config_rustls.rs] *)

Record NodeRustlsConfig {ServerName ClientConfig P : Type} : Type := mkNodeRustls {
  nr_contact_points : list SocketAddr; nr_dns_name : ServerName; nr_authenticator_provider : P; nr_config : ClientConfig;
  nr_version : Version; nr_beta_protocol : bool; nr_http_proxy : option HttpProxyConfig }.
Record NodeRustlsConfigBuilder {ServerName ClientConfig P : Type} : Type := mkNodeRustlsBuilder {
  rb_addrs : list NodeAddress; rb_dns_name : ServerName; rb_authenticator_provider : P; rb_config : ClientConfig;
  rb_version : Version; rb_beta_protocol : bool; rb_http_proxy : option HttpProxyConfig }.
Arguments NodeRustlsConfig ServerName ClientConfig P : clear implicits.
Arguments NodeRustlsConfigBuilder ServerName ClientConfig P : clear implicits.

Definition NodeRustlsConfigBuilder_new {N C} (dns_name : N) (config : C) : NodeRustlsConfigBuilder N C NoneAuthenticatorProvider :=
  mkNodeRustlsBuilder _ _ _ [] dns_name mkNoneProvider config V4 false None.
Definition rustls_with_authenticator_provider {N C P P'} (p : P') (b : NodeRustlsConfigBuilder N C P)
  : NodeRustlsConfigBuilder N C P' :=
  mkNodeRustlsBuilder _ _ _ (rb_addrs b) (rb_dns_name b) p (rb_config b) (rb_version b) (rb_beta_protocol b) (rb_http_proxy b).
Definition rustls_with {N C P} (s : node_setter) (b : NodeRustlsConfigBuilder N C P) : NodeRustlsConfigBuilder N C P :=
  let '(mkNodeRustlsBuilder _ _ _ addrs n p c v beta proxy) := b in
  match s with
  | WithContactPoint a => mkNodeRustlsBuilder _ _ _ (addrs ++ [a]) n p c v beta proxy
  | WithContactPoints l => mkNodeRustlsBuilder _ _ _ (addrs ++ l) n p c v beta proxy
  | WithVersion v => mkNodeRustlsBuilder _ _ _ addrs n p c v beta proxy
  | WithBetaProtocol beta => mkNodeRustlsBuilder _ _ _ addrs n p c v beta proxy
  | WithHttpProxy proxy => mkNodeRustlsBuilder _ _ _ addrs n p c v beta (Some proxy)
  end.
Definition build_rustls_config {N C P} lookup_host (b : NodeRustlsConfigBuilder N C P) : Result (NodeRustlsConfig N C P) :=
  let? contact_points := resolve_all lookup_host (rb_addrs b) in
  Ok (mkNodeRustls _ _ _ contact_points (rb_dns_name b) (rb_authenticator_provider b) (rb_config b) (rb_version b)
        (rb_beta_protocol b) (rb_http_proxy b)).

(** ** [SessionConfig], [TcpSessionBuilder], [RustlsSessionBuilder] *)

Definition DEFAULT_TRANSPORT_BUFFER_SIZE : nat := 1024.
Definition DEFAULT_EVENT_CHANNEL_CAPACITY : nat := 128.

(** A retry policy and a reconnection policy are what they create: a session
    and a schedule. *)
Record SessionConfig {LB RP S E SP : Type} : Type := mkSessionConfig {
  sc_compression : Compression; sc_transport_buffer_size : nat; sc_tcp_nodelay : bool; sc_load_balancing : LB;
  sc_retry_policy : RP; sc_reconnection_policy : S; sc_node_distance_evaluator : E;
  sc_speculative_execution_policy : option SP; sc_event_channel_capacity : nat;
  sc_connection_pool_config : ConnectionPoolConfig; sc_keyspace : option bytes }.
Arguments SessionConfig LB RP S E SP : clear implicits.
Arguments mkSessionConfig {LB RP S E SP}.

Definition SessionConfig_new {LB} (load_balancing : LB)
  : SessionConfig LB DefaultRetrySession ExponentialReconnectionSchedule AllLocalNodeDistanceEvaluator Empty_set :=
  mkSessionConfig NoCompression DEFAULT_TRANSPORT_BUFFER_SIZE true load_balancing DefaultRetrySession_default Exponential_default
    mkAllLocal None DEFAULT_EVENT_CHANNEL_CAPACITY ConnectionPoolConfig_default None.

Record TcpSessionBuilder {P LB RP S E SP : Type} : Type := mkTcpSessionBuilder {
  tb_config : SessionConfig LB RP S E SP; tb_node_config : NodeTcpConfig P; tb_frame_encoder_factory : FrameEncodingFactory }.
Arguments TcpSessionBuilder P LB RP S E SP : clear implicits.
Arguments mkTcpSessionBuilder {P LB RP S E SP}.
Definition TcpSessionBuilder_new {P LB} (load_balancing : LB) (node_config : NodeTcpConfig P) :=
  mkTcpSessionBuilder (SessionConfig_new load_balancing) node_config ProtocolFrameEncodingFactory.

(** The setters of the policies, which may change a type. *)
Definition with_retry_policy {LB RP RP' S E SP} (p : RP') (c : SessionConfig LB RP S E SP) : SessionConfig LB RP' S E SP :=
  mkSessionConfig (sc_compression c) (sc_transport_buffer_size c) (sc_tcp_nodelay c) (sc_load_balancing c) p
    (sc_reconnection_policy c) (sc_node_distance_evaluator c) (sc_speculative_execution_policy c)
    (sc_event_channel_capacity c) (sc_connection_pool_config c) (sc_keyspace c).
Definition with_reconnection_policy {LB RP S S' E SP} (p : S') (c : SessionConfig LB RP S E SP) : SessionConfig LB RP S' E SP :=
  mkSessionConfig (sc_compression c) (sc_transport_buffer_size c) (sc_tcp_nodelay c) (sc_load_balancing c)
    (sc_retry_policy c) p (sc_node_distance_evaluator c) (sc_speculative_execution_policy c)
    (sc_event_channel_capacity c) (sc_connection_pool_config c) (sc_keyspace c).
Definition with_node_distance_evaluator {LB RP S E E' SP} (e : E') (c : SessionConfig LB RP S E SP)
  : SessionConfig LB RP S E' SP :=
  mkSessionConfig (sc_compression c) (sc_transport_buffer_size c) (sc_tcp_nodelay c) (sc_load_balancing c)
    (sc_retry_policy c) (sc_reconnection_policy c) e (sc_speculative_execution_policy c)
    (sc_event_channel_capacity c) (sc_connection_pool_config c) (sc_keyspace c).
Definition with_speculative_execution_policy {LB RP S E SP SP'} (p : SP') (c : SessionConfig LB RP S E SP)
  : SessionConfig LB RP S E SP' :=
  mkSessionConfig (sc_compression c) (sc_transport_buffer_size c) (sc_tcp_nodelay c) (sc_load_balancing c)
    (sc_retry_policy c) (sc_reconnection_policy c) (sc_node_distance_evaluator c) (Some p)
    (sc_event_channel_capacity c) (sc_connection_pool_config c) (sc_keyspace c).

Inductive session_setter : Type :=
| WithCompression (c : Compression) | WithTransportBufferSize (n : nat) | WithTcpNodelay (b : bool)
| WithEventChannelCapacity (n : nat) | WithConnectionPoolConfig (c : ConnectionPoolConfig) | WithKeyspace (ks : bytes)
| WithSessionBetaProtocol (b : bool) | WithFrameEncoderFactory (f : FrameEncodingFactory).
Definition config_with {LB RP S E SP} (x : session_setter) (c : SessionConfig LB RP S E SP) : SessionConfig LB RP S E SP :=
  let '(mkSessionConfig comp size nodelay lb rp rec ev sp capacity pool ks) := c in
  match x with
  | WithCompression comp => mkSessionConfig comp size nodelay lb rp rec ev sp capacity pool ks
  | WithTransportBufferSize size => mkSessionConfig comp size nodelay lb rp rec ev sp capacity pool ks
  | WithTcpNodelay nodelay => mkSessionConfig comp size nodelay lb rp rec ev sp capacity pool ks
  | WithEventChannelCapacity capacity => mkSessionConfig comp size nodelay lb rp rec ev sp capacity pool ks
  | WithConnectionPoolConfig pool => mkSessionConfig comp size nodelay lb rp rec ev sp capacity pool ks
  | WithKeyspace ks => mkSessionConfig comp size nodelay lb rp rec ev sp capacity pool (Some ks)
  | _ => c
  end.
(** [with_beta_protocol] and [with_frame_encoder_factory] are the builder's own. *)
Definition session_with {P LB RP S E SP} (x : session_setter) (b : TcpSessionBuilder P LB RP S E SP)
  : TcpSessionBuilder P LB RP S E SP :=
  let n := tb_node_config b in
  mkTcpSessionBuilder (config_with x (tb_config b))
    (match x with
     | WithSessionBetaProtocol beta =>
       mkNodeTcp _ (nt_contact_points n) (nt_authenticator_provider n) (nt_version n) beta (nt_http_proxy n)
     | _ => n
     end)
    (match x with WithFrameEncoderFactory f => f | _ => tb_frame_encoder_factory b end).

Record RustlsSessionBuilder {N C P LB RP S E SP : Type} : Type := mkRustlsSessionBuilder {
  rsb_config : SessionConfig LB RP S E SP; rsb_node_config : NodeRustlsConfig N C P;
  rsb_frame_encoder_factory : FrameEncodingFactory }.
Arguments RustlsSessionBuilder N C P LB RP S E SP : clear implicits.
Arguments mkRustlsSessionBuilder {N C P LB RP S E SP}.
Definition RustlsSessionBuilder_new {N C P LB} (load_balancing : LB) (node_config : NodeRustlsConfig N C P) :=
  mkRustlsSessionBuilder (SessionConfig_new load_balancing) node_config ProtocolFrameEncodingFactory.
Definition rustls_session_with {N C P LB RP S E SP} (x : session_setter) (b : RustlsSessionBuilder N C P LB RP S E SP)
  : RustlsSessionBuilder N C P LB RP S E SP :=
  let n := rsb_node_config b in
  mkRustlsSessionBuilder (config_with x (rsb_config b))
    (match x with
     | WithSessionBetaProtocol beta =>
       mkNodeRustls _ _ _ (nr_contact_points n) (nr_dns_name n) (nr_authenticator_provider n) (nr_config n) (nr_version n)
         beta (nr_http_proxy n)
     | _ => n
     end)
    (match x with WithFrameEncoderFactory f => f | _ => rsb_frame_encoder_factory b end).

(** ** [Session::new], [build] *)

Inductive SessionBuildError : Type := CompressionTypeNotSupported | SessionInitFailed.
(** What the caller of an asynchronous builder has seen so far. *)
Definition awaited (A : Type) : Type := option (outcome SessionBuildError A).

Section Build.
Context {U : UuidLib} {HU : HashIter Uuid} {US : UnstableSort} {SH : Shuffle}.
Context {LB RP S E SP : Type}.
Context `{!LoadBalancingStrategy LB} `{!ReconnectionSchedule S} `{!NodeDistanceEvaluator E}.
Abbreviation Control := (ControlState (E := E) (LB := InitializingWrapper LB) (S := S)).

(** The nodes made of the contact points: local and up until the metadata is read. *)
Fixpoint contact_nodes (contact_points : list SocketAddr) (h : Heap) : list Node * Heap :=
  match contact_points with
  | [] => ([], h)
  | contact_point :: contact_points =>
    let '(n, h) := Node_new_with_state contact_point None None (Some NdLocal) NsUp [] [] [] h in
    let '(ns, h) := contact_nodes contact_points h in
    (n :: ns, h)
  end.

(** [create_keyspace_holder] *)
Definition create_keyspace_holder : KeyspaceHolder := KeyspaceHolder_new.

(** The fields of [Session] and of the factory of its pools; the state of the
    control connection holds the metadata manager and the balancer, which the
    session shares with it. *)
Record DriverSession {CM : Type} : Type := mkDriverSession {
  ds_keyspace_holder : KeyspaceHolder; ds_retry_policy : RP; ds_speculative_execution_policy : option SP;
  ds_connection_manager : CM; ds_connection_pool_config : ConnectionPoolConfig;
  ds_event_channel_capacity : nat; ds_version : Version; ds_beta_protocol : bool; ds_control : Control }.
Arguments DriverSession CM : clear implicits.
Arguments mkDriverSession {CM}.

(** [init_complete_receiver.await]: nothing yet, the signal, or the end of the
    task that would have sent it. *)
Definition await_init {CM} (session : Control -> DriverSession CM) (s : Control) : awaited (DriverSession CM) :=
  if ct_init_complete s then Some (Ok (session s))
  else match ct_phase s with Dead => Some (Err SessionInitFailed) | _ => None end.

(** [Session::new], on a fresh heap of node states, seen after the events [es]
    of the control connection it spawns. *)
Definition session_new {CM} (load_balancing : LB) (keyspace_holder : KeyspaceHolder) (retry_policy : RP)
    (reconnection_policy : S) (node_distance_evaluator : E) (speculative_execution_policy : option SP)
    (contact_points : list SocketAddr) (connection_manager : CM) (event_channel_capacity : nat) (version : Version)
    (connection_pool_config : ConnectionPoolConfig) (beta_protocol : bool) (es : list control_event)
  : awaited (DriverSession CM) :=
  let '(contact_points, h) := contact_nodes contact_points new_heap in
  let load_balancing := mkInitializing load_balancing contact_points in
  let cluster_metadata_manager := Manager_new contact_points node_distance_evaluator in
  let control_connection := control_start reconnection_policy cluster_metadata_manager h load_balancing in
  match control_run reconnection_policy contact_points es control_connection with
  | Some s =>
    await_init (mkDriverSession keyspace_holder retry_policy speculative_execution_policy connection_manager
                  connection_pool_config event_channel_capacity version beta_protocol) s
  | None => None
  end.

(** [SessionConfig::into_session] *)
Definition into_session {CM} (c : SessionConfig LB RP S E SP) (keyspace_holder : KeyspaceHolder)
    (contact_points : list SocketAddr) (connection_manager : CM) (version : Version) (beta_protocol : bool)
    (es : list control_event) : awaited (DriverSession CM) :=
  let keyspace_holder :=
    match sc_keyspace c with
    | Some keyspace => update_current_keyspace_without_notification keyspace_holder keyspace
    | None => keyspace_holder
    end in
  session_new (sc_load_balancing c) keyspace_holder (sc_retry_policy c) (sc_reconnection_policy c)
    (sc_node_distance_evaluator c) (sc_speculative_execution_policy c) contact_points connection_manager
    (sc_event_channel_capacity c) version (sc_connection_pool_config c) beta_protocol es.

Definition tcp_build {P} (b : TcpSessionBuilder P LB RP S E SP) (es : list control_event)
  : awaited (DriverSession (TcpConnectionManager P)) :=
  let c := tb_config b in
  let n := tb_node_config b in
  if verify_compression_configuration (nt_version n) (sc_compression c) then
    let connection_manager :=
      mkTcpManager _ (nt_authenticator_provider n) (tb_frame_encoder_factory b) (sc_compression c)
        (sc_transport_buffer_size c) (sc_tcp_nodelay c) (nt_version n) (nt_http_proxy n) in
    into_session c create_keyspace_holder (nt_contact_points n) connection_manager (nt_version n) (nt_beta_protocol n) es
  else Some (Err CompressionTypeNotSupported).

Definition rustls_build {N C P} (b : RustlsSessionBuilder N C P LB RP S E SP) (es : list control_event)
  : awaited (DriverSession (RustlsConnectionManager N C P)) :=
  let c := rsb_config b in
  let n := rsb_node_config b in
  if verify_compression_configuration (nr_version n) (sc_compression c) then
    let connection_manager :=
      mkRustlsManager _ (nr_dns_name n) (nr_authenticator_provider n) (nr_config n) (rsb_frame_encoder_factory b)
        (sc_compression c) (sc_transport_buffer_size c) (sc_tcp_nodelay c) (nr_version n) (nr_http_proxy n) in
    into_session c create_keyspace_holder (nr_contact_points n) connection_manager (nr_version n) (nr_beta_protocol n) es
  else Some (Err CompressionTypeNotSupported).

(** ** [connect_generic] *)

(** [trait GenericClusterConfig]; the manager may use the shared keyspace holder. *)
Record GenericClusterConfig {CM : Type} : Type := mkGenericConfig {
  create_manager : KeyspaceHolder -> Result CM * KeyspaceHolder; event_channel_capacity : nat; version : Version;
  connection_pool_config : ConnectionPoolConfig; beta_protocol : bool }.
Arguments GenericClusterConfig CM : clear implicits.

(** The texts of [SessionBuildError]. *)
Definition SessionBuildError_to_string (e : SessionBuildError) : string :=
  match e with
  | CompressionTypeNotSupported => "Given compression type is not supported for selected protocol!"
  | SessionInitFailed => "Session control connection died before completing initialization"
  end.
Definition map_build_error {A} (r : outcome SessionBuildError A) : Result A :=
  match r with
  | Ok x => Ok x
  | Err e => Err (EGeneral (SessionBuildError_to_string e))
  | Panic => Panic
  end.

Definition connect_generic {CM} (config : GenericClusterConfig CM) (initial_nodes : list SocketAddr) (load_balancing : LB)
    (retry_policy : RP) (reconnection_policy : S) (node_distance_evaluator : E) (speculative_execution_policy : option SP)
    (es : list control_event) : option (Result (DriverSession CM)) :=
  let '(created, keyspace_holder) := create_manager config create_keyspace_holder in
  match created with
  | Ok connection_manager =>
    option_map map_build_error
      (session_new load_balancing keyspace_holder retry_policy reconnection_policy node_distance_evaluator
         speculative_execution_policy initial_nodes connection_manager (event_channel_capacity config) (version config)
         (connection_pool_config config) (beta_protocol config) es)
  | Err e => Some (Err e)
  | Panic => Some Panic
  end.

(** ** What a build promises *)

(** The nodes of the contact points are fresh, local and up. *)
Lemma contact_nodes_usable addrs h ns h' : contact_nodes addrs h = (ns, h') ->
  (next_cell h <= next_cell h')%positive /\
  (forall c, (c < next_cell h)%positive -> cells h' !! c = cells h !! c) /\
  map broadcast_rpc_address ns = addrs /\ Forall (fun n => is_ignored n h' = false) ns.
Proof.
  revert h ns h'. induction addrs as [|a addrs IH]; intros h ns h'; simpl; [by intros [= <- <-]|].
  destruct (contact_nodes addrs _) as [ns1 h1] eqn:E1. intros [= <- <-].
  apply IH in E1 as (Hn & Hc & Ha & Hu); simpl in *.
  split_and!; [lia| |by rewrite Ha|constructor; [|done]].
  - intros c Hlt. rewrite Hc by lia. by rewrite lookup_insert_ne by lia.
  - unfold is_ignored, state. simpl. rewrite Hc by lia. by rewrite lookup_insert_eq.
Qed.

(** The configured keyspace is set without telling anyone. *)
Definition configured_holder (c : SessionConfig LB RP S E SP) (k : KeyspaceHolder) : KeyspaceHolder :=
  match sc_keyspace c with
  | Some keyspace => mkKeyspaceHolder (Some keyspace) (notifications k)
  | None => k
  end.

(** A session has the policies, the manager and the protocol of the
    configuration, and has read the metadata of the cluster. *)
Record configured {CM} (c : SessionConfig LB RP S E SP) (k : KeyspaceHolder) (manager : CM) (v : Version) (beta : bool)
    (d : DriverSession CM) : Prop := {
  cf_keyspace : ds_keyspace_holder d = configured_holder c k;
  cf_policies : ds_retry_policy d = sc_retry_policy c /\
                ds_speculative_execution_policy d = sc_speculative_execution_policy c;
  cf_manager : ds_connection_manager d = manager;
  cf_pools : ds_connection_pool_config d = sc_connection_pool_config c;
  cf_events : ds_event_channel_capacity d = sc_event_channel_capacity c;
  cf_version : ds_version d = v /\ ds_beta_protocol d = beta;
  cf_metadata : did_initial_refresh (ct_manager (ds_control d)) = true }.

Lemma await_init_ready {CM} (session : Control -> DriverSession CM) s r :
  (ct_init_complete s -> did_initial_refresh (ct_manager s) = true) -> await_init session s = Some r ->
  r = Err SessionInitFailed \/ r = Ok (session s) /\ did_initial_refresh (ct_manager s) = true.
Proof.
  unfold await_init. intros Hi. destruct (ct_init_complete s); [intros [= <-]; right; by split; [|apply Hi]|].
  destruct (ct_phase s); try done. intros [= <-]. by left.
Qed.

Lemma into_session_outcome {CM} c k points (manager : CM) v beta es r :
  into_session c k points manager v beta es = Some r ->
  r = Err SessionInitFailed \/ exists d, r = Ok d /\ configured c k manager v beta d.
Proof.
  unfold into_session, session_new. destruct (contact_nodes points new_heap) as [ns h].
  destruct (control_run _ _ _ _) as [s|] eqn:Er; [|done]. intros H.
  pose proof (control_run_inv _ _ _ _ _ (control_start_inv _ _ _ _ _) Er) as Hi.
  apply await_init_ready in H as [->|[-> Hd]]; [by left| |apply (ci_init _ _ Hi)].
  right. eexists. split; [done|]. split; simpl; [|done..]. unfold configured_holder. by destruct (sc_keyspace c).
Qed.

Definition tcp_manager {P} (b : TcpSessionBuilder P LB RP S E SP) : TcpConnectionManager P :=
  let c := tb_config b in
  let n := tb_node_config b in
  mkTcpManager _ (nt_authenticator_provider n) (tb_frame_encoder_factory b) (sc_compression c)
    (sc_transport_buffer_size c) (sc_tcp_nodelay c) (nt_version n) (nt_http_proxy n).

Lemma tcp_build_configured {P} (b : TcpSessionBuilder P LB RP S E SP) es d : tcp_build b es = Some (Ok d) ->
  configured (tb_config b) KeyspaceHolder_new (tcp_manager b) (nt_version (tb_node_config b))
    (nt_beta_protocol (tb_node_config b)) d.
Proof.
  unfold tcp_build. destruct (verify_compression_configuration _ _); [|done].
  by intros [[=]|(d' & [= ->] & Hc)]%into_session_outcome.
Qed.


(** *** A build succeeds *)

(** The contact points are the first plan of the control connection. *)
Lemma first_plan (rec : S) (m : ClusterMetadataManager (E := E)) h (lb : LB) points draws : metadata m = ClusterMetadata_default ->
  points <> [] ->
  no_plan draws (control_start rec m h (mkInitializing lb points)) = false /\
  candidates points draws (control_start rec m h (mkInitializing lb points)) = points.
Proof.
  intros Hm Hp. unfold candidates, no_plan, control_plan, query_plan, Initializing_strategy. simpl. rewrite Hm.
  change (has_nodes ClusterMetadata_default) with (bool_decide (0%nat = 1%nat)). rewrite bool_decide_false by done. simpl.
  by destruct points.
Qed.

(** What the control connection does when the first contact points refuse and
    the next one accepts. *)
Definition first_session (draws : Z * Z) (jitter : Z) (errs : list Error) (infos : list NodeInfo)
    (ks : gmap bytes KeyspaceMetadata) (answer : Envelope)
  : list (control_event (LB := InitializingWrapper LB)) :=
  EPlan draws jitter :: refused errs ++ accepted infos ks answer.


(** *** TLS *)

Definition as_tcp_builder {N C P} (b : NodeRustlsConfigBuilder N C P) : NodeTcpConfigBuilder P :=
  mkNodeTcpBuilder _ (rb_addrs b) (rb_authenticator_provider b) (rb_version b) (rb_beta_protocol b) (rb_http_proxy b).
Definition as_tcp_config {N C P} (n : NodeRustlsConfig N C P) : NodeTcpConfig P :=
  mkNodeTcp _ (nr_contact_points n) (nr_authenticator_provider n) (nr_version n) (nr_beta_protocol n) (nr_http_proxy n).
Definition as_tcp {N C P} (b : RustlsSessionBuilder N C P LB RP S E SP) : TcpSessionBuilder P LB RP S E SP :=
  mkTcpSessionBuilder (rsb_config b) (as_tcp_config (rsb_node_config b)) (rsb_frame_encoder_factory b).
Definition as_tcp_manager {N C P} (m : RustlsConnectionManager N C P) : TcpConnectionManager P :=
  mkTcpManager _ (rm_authenticator_provider m) (rm_frame_encoder_factory m) (rm_compression m) (rm_buffer_size m)
    (rm_tcp_nodelay m) (rm_version m) (rm_http_proxy m).
Definition map_manager {CM CM'} (f : CM -> CM') (d : DriverSession CM) : DriverSession CM' :=
  mkDriverSession (ds_keyspace_holder d) (ds_retry_policy d) (ds_speculative_execution_policy d)
    (f (ds_connection_manager d)) (ds_connection_pool_config d) (ds_event_channel_capacity d) (ds_version d)
    (ds_beta_protocol d) (ds_control d).

(** A session does not depend on the manager of its connections. *)
Lemma into_session_natural {CM CM'} (f : CM -> CM') c k points manager v beta es :
  option_map (omap (map_manager f)) (into_session c k points manager v beta es)
  = into_session c k points (f manager) v beta es.
Proof.
  unfold into_session, session_new. destruct (contact_nodes points new_heap) as [ns h].
  destruct (control_run _ _ _ _) as [s|]; [|done]. unfold await_init.
  destruct (ct_init_complete s); [done|]. by destruct (ct_phase s).
Qed.

(** The TLS builders repeat the TCP ones: every setter, the resolution of the
    contact points, and the whole build do the same, the TLS data apart. *)
Theorem rustls_builds_alike {N C P} :
  (forall x (b : RustlsSessionBuilder N C P LB RP S E SP), as_tcp (rustls_session_with x b) = session_with x (as_tcp b)) /\
  (forall x (b : NodeRustlsConfigBuilder N C P), as_tcp_builder (rustls_with x b) = node_with x (as_tcp_builder b)) /\
  (forall lookup_host (b : NodeRustlsConfigBuilder N C P),
     omap as_tcp_config (build_rustls_config lookup_host b) = build_node_config lookup_host (as_tcp_builder b)) /\
  (forall (b : RustlsSessionBuilder N C P LB RP S E SP) es,
     option_map (omap (map_manager as_tcp_manager)) (rustls_build b es) = tcp_build (as_tcp b) es).
Proof.
  split_and!.
  - by intros [] [].
  - by intros [] [].
  - intros lookup_host b. unfold build_rustls_config, build_node_config. simpl. by destruct (resolve_all lookup_host (rb_addrs b)).
  - intros b es. unfold rustls_build, tcp_build. simpl. destruct (verify_compression_configuration _ _); [|done].
    apply (into_session_natural as_tcp_manager).
Qed.
End Build.

(** ** Contact points *)

(** The contact points are those of every address, in the order in which they
    were added; the first address that cannot be resolved is reported. *)
Lemma resolve_all_ok lookup_host addrs found :
  Forall2 (fun a l => resolve_address lookup_host a = Ok l) addrs found -> resolve_all lookup_host addrs = Ok (concat found).
Proof. induction 1 as [|a l addrs found Ha _ IH]; [done|]. simpl. by rewrite Ha, IH. Qed.
Lemma resolve_all_err lookup_host addrs found a e rest :
  Forall2 (fun a l => resolve_address lookup_host a = Ok l) addrs found -> resolve_address lookup_host a = Err e ->
  resolve_all lookup_host (addrs ++ a :: rest) = Err e.
Proof.
  intros H Ha. induction H as [|a' l addrs found Ha' _ IH]; simpl; [by rewrite Ha|]. by rewrite Ha', IH.
Qed.

(** Builders add the contact points they are given. *)
Lemma node_with_addrs {P} (ss : list node_setter) (b : NodeTcpConfigBuilder P) :
  nb_addrs (foldl (fun b s => node_with s b) b ss) =
  nb_addrs b ++ mjoin (map (fun s => match s with WithContactPoint a => [a] | WithContactPoints l => l | _ => [] end) ss).
Proof.
  revert b. induction ss as [|s ss IH]; intros b; simpl; [by rewrite app_nil_r|]. rewrite IH.
  destruct b, s; simpl; by rewrite <- ?app_assoc.
Qed.

Module SessionBuilderSamples.
#[local] Existing Instance uuid_bytes.
#[local] Existing Instance merge_unstable.
#[local] Existing Instance rotating_shuffle.
#[local] Instance order : HashIter Uuid := default_iter Uuid.
#[local] Instance order_bytes : HashIter bytes := default_iter bytes.

(** Two contact points, the second behind a name. *)
Definition rpc (k : Z) : SocketAddr := mkSocketAddr (IpV4 (map u8 [10; 0; 0; k])) 9042.
Definition dns (name : bytes) : outcome io_kind (list SocketAddr) :=
  if decide (name = lit "cassandra") then Ok [rpc 2; rpc 3] else Err OtherKind.
Definition setters : list node_setter :=
  [WithContactPoint (Direct (rpc 1)); WithVersion V5; WithContactPoints [Hostname (lit "cassandra")]].
Definition node_config : NodeTcpConfig NoneAuthenticatorProvider :=
  match build_node_config dns (foldl (fun b s => node_with s b) NodeTcpConfigBuilder_default setters) with
  | Ok n => n
  | _ => mkNodeTcp _ [] mkNoneProvider V4 false None
  end.
Definition builder :=
  session_with (WithKeyspace (lit "ks")) (session_with (WithCompression Lz4)
    (TcpSessionBuilder_new (mkRoundRobin 0) node_config)).
Definition host : Uuid := dexist (repeat (u8 7) 16) eq_refl.
Definition info : NodeInfo := mkNodeInfo host (rpc 2) None (lit "dc1") [mkToken 5] (lit "r1").
Definition no_keyspaces : gmap bytes KeyspaceMetadata := ∅.
Definition ready : Envelope := mkEnvelope V5 Response 0 OpReady 0 [] None [].


(** Snappy is refused with protocol 5. *)
Definition snappy := session_with (WithCompression Snappy) builder.
End SessionBuilderSamples.
