(* ===== verification/Derive.v ===== *)
(** * The derive macros: [cdrs-tokio-helpers-derive/src], [types/from_cdrs.rs]

    [TryFromRow], [TryFromUdt], [IntoCdrsValue] and [DbMirror] generate code
    for a struct.  A macro is a function from the fields of the struct, as the
    parser of the compiler gives them, to the generated code: each [quote!]
    is a constructor of [code] or [item_code].  The generated code is then run
    on the values of the library; what the compiler would refuse to type is a
    panic of the run. *)

From Stdlib Require Import Ascii.
From S2P Require Import Prelude Types Wire Query Results Responses Scalars RustTypes.
Local Open Scope Z_scope.
Local Open Scope cdrs_scope.

(** ** The fields of a struct ([syn]) *)

(** A type: a path, of which only the last segment is looked at, with its
    generic arguments in angle brackets if there are any, a reference, or any
    other type. *)
Inductive rust_type : Type :=
| TPath (ident : string) (arguments : option (list generic_arg))
| TReference (elem : rust_type)
| TOther
with generic_arg : Type := GType (t : rust_type) | GOther.
Record field : Type := mkField { f_ident : string; f_ty : rust_type }.

(** The item a macro is derived for. *)
Inductive Fields : Type := FieldsNamed (named : list field) | FieldsUnnamed (unnamed : list rust_type) | FieldsUnit.
Inductive Data : Type := DataStruct (fields : Fields) | DataEnum | DataUnion.
Record DeriveInput : Type := mkDeriveInput { di_ident : string; di_data : Data }.

(** Errors of the macros, reported by the compiler. *)
Definition macro (A : Type) : Type := outcome string A.
Definition bare (ident : string) : rust_type := TPath ident None.
Definition is_one_of (l : list string) (s : string) : bool := existsb (String.eqb s) l.

(** [get_ident], [get_ident_string] *)
Fixpoint get_ident_string (ty : rust_type) : macro string :=
  match ty with
  | TReference elem => get_ident_string elem
  | TPath ident _ => Ok ident
  | TOther => Err "Cannot infer field type: {}"%string
  end.

(** [get_ident_params_string]: the last generic argument. *)
Definition get_ident_params_string (ty : rust_type) : macro rust_type :=
  match ty with
  | TPath _ (Some args) =>
    match last args with Some (GType t) => Ok t | _ => Err "Cannot infer field type"%string end
  | TPath _ None => Err "Cannot infer field type"%string
  | _ => let? _ := get_ident_string ty in Err "Cannot infer field type {}"%string
  end.

Definition extract_type (arg : generic_arg) : macro rust_type :=
  match arg with GType t => Ok t | GOther => Err "Expected type argument!"%string end.
Definition or_err {A} (o : option A) (e : string) : macro A := match o with Some a => Ok a | None => Err e end.
(** [get_map_params_string]: the first and the last generic argument. *)
Definition get_map_params_string (ty : rust_type) : macro (rust_type * rust_type) :=
  match ty with
  | TPath _ (Some args) =>
    let? k := or_err (head args) "Cannot extract map key type" in
    let? k := extract_type k in
    let? v := or_err (last args) "Cannot extract map value type" in
    let? v := extract_type v in
    Ok (k, v)
  | TPath _ None => Err "Cannot infer field type"%string
  | _ => let? _ := get_ident_string ty in Err "Cannot infer field type {}"%string
  end.

(** [get_cdrs_type]: the type of the library a column is read as. *)
Definition own_types : list string :=
  ["Blob"; "String"; "bool"; "i64"; "i32"; "i16"; "i8"; "f64"; "f32"; "Decimal"; "IpAddr"; "Uuid"; "Timespec";
   "PrimitiveDateTime"; "Option"; "NonZeroI8"; "NonZeroI16"; "NonZeroI32"; "NonZeroI64"; "NaiveDateTime"; "DateTime"].
Definition get_cdrs_type (ty : rust_type) : macro rust_type :=
  let? s := get_ident_string ty in
  Ok (bare (if is_one_of own_types s then s
            else if String.eqb s "Vec" then "List"
            else if String.eqb s "HashMap" then "Map"
            else "Udt")).

Definition is_non_zero_primitive (ty : rust_type) : macro bool :=
  omap (is_one_of ["NonZeroI8"; "NonZeroI16"; "NonZeroI32"; "NonZeroI64"]) (get_ident_string ty).

(** ** Generated code *)

(** The code for a value that was read: itself, a vector or a map of further
    values, given the type the items are read as, or a struct read from a user
    type. *)
Inductive item_code : Type :=
| IValue
| IVec (inter_rust_type : rust_type) (decoded_item : item_code)
| IMap (map_key_type inter_rust_type : rust_type) (decoded_item : item_code)
| ITryFromUdt (ty : rust_type).

(** The code for a field. *)
Inductive code : Type :=
| GFromCdrsR (field_type_ident : rust_type)
| GList (list_as_rust : item_code)
| GMap (map_as_rust : item_code)
| GOptionNonZero (opt_type : rust_type)
| GOption (opt_type_rustified : rust_type) (opt_value_as_rust : item_code)
| GTryFromUdt (field_type : rust_type).

(** [as_rust], by recursion on the generic arguments, which are fewer than the fuel. *)
Definition as_rust_values : list string :=
  ["Blob"; "String"; "bool"; "i64"; "i32"; "i16"; "i8"; "f64"; "f32"; "IpAddr"; "Uuid"; "Timespec"; "Decimal";
   "PrimitiveDateTime"].
Fixpoint as_rust_fuel (fuel : nat) (ty : rust_type) : macro item_code :=
  match fuel with
  | O => Err ""%string
  | S fuel =>
    let? cdrs_type := get_cdrs_type ty in
    let? ident := get_ident_string cdrs_type in
    if is_one_of as_rust_values ident then Ok IValue
    else if String.eqb ident "List" then
      let? vec_type := get_ident_params_string ty in
      let? inter_rust_type := get_cdrs_type vec_type in
      let? decoded_item := as_rust_fuel fuel vec_type in
      Ok (IVec inter_rust_type decoded_item)
    else if String.eqb ident "Map" then
      let? params := get_map_params_string ty in
      let? inter_rust_type := get_cdrs_type params.2 in
      let? decoded_item := as_rust_fuel fuel params.2 in
      Ok (IMap params.1 inter_rust_type decoded_item)
    else if String.eqb ident "Option" then
      let? opt_type := get_ident_params_string ty in
      as_rust_fuel fuel opt_type
    else Ok (ITryFromUdt ty)
  end.
(** The nesting of generic arguments. *)
Fixpoint type_depth (ty : rust_type) : nat :=
  match ty with
  | TPath _ (Some args) =>
    S (max_list (map (fun a => match a with GType t => type_depth t | GOther => O end) args))
  | _ => 1%nat
  end.
Definition as_rust (ty : rust_type) : macro item_code := as_rust_fuel (type_depth ty) ty.

Definition direct_types : list string :=
  ["Blob"; "String"; "bool"; "i64"; "i32"; "i16"; "i8"; "f64"; "f32"; "Decimal"; "IpAddr"; "Uuid"; "Timespec";
   "PrimitiveDateTime"; "NaiveDateTime"; "DateTime"].
Definition into_rust_with_args (field_type : rust_type) : macro code :=
  let? field_type_ident := get_cdrs_type field_type in
  let? ident := get_ident_string field_type_ident in
  if is_one_of direct_types ident then Ok (GFromCdrsR field_type_ident)
  else if String.eqb ident "List" then omap GList (as_rust field_type)
  else if String.eqb ident "Map" then omap GMap (as_rust field_type)
  else if String.eqb ident "Option" then
    let? opt_type := get_ident_params_string field_type in
    let? opt_type_rustified := get_cdrs_type opt_type in
    let? opt_value_as_rust := as_rust opt_type in
    let? non_zero := is_non_zero_primitive opt_type_rustified in
    Ok (if non_zero then GOptionNonZero opt_type_rustified else GOption opt_type_rustified opt_value_as_rust)
  else Ok (GTryFromUdt field_type).

(** [remove_r]: the name of the column of a field named by a raw identifier. *)
Definition remove_r (s : string) : string :=
  match s with
  | String "r" (String "#" s) => s
  | _ => s
  end.

Definition struct_fields (ast : DeriveInput) : macro (list field) :=
  match di_data ast with
  | DataStruct (FieldsNamed fields) => Ok fields
  | _ => Err "The derive macro is defined for structs with named fields, not for enums or unit structs"%string
  end.

(** The columns and the code for the fields. *)
Definition convert_field_into_rust (f : field) : macro (string * code) :=
  let? c := into_rust_with_args (f_ty f) in Ok (remove_r (f_ident f), c).
Fixpoint convert_fields (fields : list field) : macro (list (string * (string * code))) :=
  match fields with
  | [] => Ok []
  | f :: fields =>
    let? value := convert_field_into_rust f in
    let? rest := convert_fields fields in
    Ok ((f_ident f, value) :: rest)
  end.
(** [get_struct_fields]: what [impl_try_from_row] and [impl_try_from_udt] put
    into the struct expression. *)
Definition get_struct_fields (ast : DeriveInput) : macro (list (string * (string * code))) :=
  let? fields := struct_fields ast in convert_fields fields.

(** [impl_into_cdrs_value]: the fields and whether they are serialized as an
    option; a struct without fields has none that is not named. *)
Fixpoint serialized_fields (fields : list field) : macro (list (string * bool)) :=
  match fields with
  | [] => Ok []
  | f :: fields =>
    let? ident := get_ident_string (f_ty f) in
    let? rest := serialized_fields fields in
    Ok ((f_ident f, String.eqb ident "Option") :: rest)
  end.
Definition impl_into_cdrs_value (ast : DeriveInput) : macro (list (string * bool)) :=
  match di_data ast with
  | DataStruct (FieldsNamed fields) => serialized_fields fields
  | DataStruct (FieldsUnnamed (_ :: _)) => Err "IntoCdrsValue requires all fields be named!"%string
  | DataStruct _ => Ok []
  | _ => Err "#[derive(IntoCdrsValue)] can only be defined for structs!"%string
  end.

(** [insert_query] of the code [impl_db_mirror] generates, for a struct [name]
    with these fields; [into_query_values] is below. *)
Definition join (separator : string) (l : list string) : string := String.concat separator l.
Definition insert_query (name : string) (fields : list field) : string :=
  let names := join ", " (map f_ident fields) in
  let question_marks := join ", " (map (fun _ => "?"%string) fields) in
  ("insert into " ++ name ++ "(" ++ names ++ ") values (" ++ question_marks ++ ")")%string.
Definition impl_db_mirror (ast : DeriveInput) : macro (string * list string) :=
  let? fields := struct_fields ast in Ok (insert_query (di_ident ast) fields, map f_ident fields).

(** ** Running the generated code *)

Section Run.
Context {U : UuidLib} {BI : BigIntLib} {TL : TimeLib} {CL : ChronoLib} {FR : FailedRead}.

(** Values of the types with a conversion of their own. *)
Inductive scalar : Type :=
| SBlob (b : bytes) | SString (s : bytes) | SBool (b : bool) | SI64 (z : Z) | SI32 (z : Z) | SI16 (z : Z) | SI8 (z : Z)
| SF64 (f : Z) | SF32 (f : Z) | SDecimal (d : Decimal) | SIpAddr (i : IpAddr) | SUuid (u : Uuid)
| SPrimitiveDateTime (t : PrimitiveDateTime) | SNaiveDateTime (t : NaiveDateTime) | SDateTime (t : DateTime)
| SNonZeroI64 (z : Z) | SNonZeroI32 (z : Z) | SNonZeroI16 (z : Z) | SNonZeroI8 (z : Z).

(** Rust values: scalars, the collections of the library as they are read, and
    what the generated code makes of them.  A hash map is its entries. *)
Inductive rvalue : Type :=
| RScalar (s : scalar)
| RList (l : List) | RMap (m : Map) | RUdt (u : Udt)
| RVec (l : list rvalue)
| RHashMap (entries : list (scalar * rvalue))
| ROption (o : option rvalue)
| RStruct (fields : list (string * rvalue)).

(** Equality of the keys of a [HashMap]. *)
Context {EQ : EqDecision scalar}.

Definition conv_map {A B} (f : A -> B) (conv : conversion A) : conversion B := fun t v => omap (option_map f) (conv t v).

(** The scalars with their conversions, by the name of the type. *)
Definition scalar_conversions : list (string * conversion scalar) :=
  [("Blob", conv_map SBlob as_rust_blob); ("String", conv_map SString as_rust_string);
   ("bool", conv_map SBool as_rust_bool); ("i64", conv_map SI64 as_rust_i64); ("i32", conv_map SI32 as_rust_i32);
   ("i16", conv_map SI16 as_rust_i16); ("i8", conv_map SI8 as_rust_i8); ("f64", conv_map SF64 as_rust_f64);
   ("f32", conv_map SF32 as_rust_f32); ("Decimal", conv_map SDecimal as_rust_decimal);
   ("IpAddr", conv_map SIpAddr as_rust_ip); ("Uuid", conv_map SUuid as_rust_uuid);
   ("PrimitiveDateTime", conv_map SPrimitiveDateTime as_rust_primitive_date_time);
   ("NaiveDateTime", conv_map SNaiveDateTime as_rust_naive_date_time);
   ("DateTime", conv_map SDateTime as_rust_date_time);
   ("NonZeroI64", conv_map SNonZeroI64 as_rust_non_zero_i64); ("NonZeroI32", conv_map SNonZeroI32 as_rust_non_zero_i32);
   ("NonZeroI16", conv_map SNonZeroI16 as_rust_non_zero_i16); ("NonZeroI8", conv_map SNonZeroI8 as_rust_non_zero_i8)]%string.
Fixpoint assoc {A} (s : string) (l : list (string * A)) : option A :=
  match l with
  | [] => None
  | (k, a) :: l => if String.eqb s k then Some a else assoc s l
  end.
(** *** The conversions the library implements *)

(** [list_as_rust!]: the [T] for which a [List] is read as a [Vec<T>]. *)
Definition list_items : list string :=
  ["Blob"; "String"; "bool"; "i64"; "i32"; "i16"; "i8"; "f64"; "f32"; "IpAddr"; "Uuid"; "List"; "Map"; "Udt"; "Tuple";
   "Decimal"; "BigInt"].
(** [map_as_rust!]: the [K] and [V] for which a [Map] is read as a
    [HashMap<K, V>]. *)
Definition map_keys : list string :=
  ["Blob"; "String"; "bool"; "i64"; "i32"; "i16"; "i8"; "IpAddr"; "Uuid"; "PrimitiveDateTime"; "Tuple"].
Definition map_values : list string :=
  ["Blob"; "String"; "bool"; "i64"; "i32"; "i16"; "i8"; "f64"; "f32"; "IpAddr"; "Uuid"; "PrimitiveDateTime"; "List"; "Map";
   "Udt"; "Tuple"; "Decimal"; "BigInt"].
Definition map_impls : list (string * string) :=
  concat (map (fun k => map (pair k) map_values) map_keys).
(** [into_rust_by_name!(Row, ..)], [into_rust_by_name!(Udt, ..)],
    [into_rust_by_index!(Row, ..)] and [into_rust_by_index!(Tuple, ..)]. *)
Definition row_columns : list string :=
  ["Blob"; "String"; "bool"; "i64"; "i32"; "i16"; "i8"; "f64"; "f32"; "IpAddr"; "Uuid"; "List"; "Map"; "Udt"; "Tuple";
   "PrimitiveDateTime"; "Decimal"; "NonZeroI8"; "NonZeroI16"; "NonZeroI32"; "NonZeroI64"; "NaiveDateTime"; "DateTime"; "BigInt"].
Definition udt_columns : list string :=
  ["Blob"; "String"; "bool"; "i64"; "i32"; "i16"; "i8"; "f64"; "f32"; "IpAddr"; "Uuid"; "List"; "Map"; "Udt"; "Tuple";
   "PrimitiveDateTime"; "Decimal"; "NonZeroI8"; "NonZeroI16"; "NonZeroI32"; "NonZeroI64"; "NaiveDateTime"; "DateTime"; "BigInt"].
Definition row_indexes : list string :=
  ["Blob"; "String"; "bool"; "i64"; "i32"; "i16"; "i8"; "f64"; "f32"; "IpAddr"; "Uuid"; "List"; "Map"; "Udt"; "Tuple";
   "PrimitiveDateTime"; "Decimal"; "NonZeroI8"; "NonZeroI16"; "NonZeroI32"; "NonZeroI64"; "NaiveDateTime"; "DateTime"; "BigInt"].
Definition tuple_indexes : list string :=
  ["Blob"; "String"; "bool"; "i64"; "i32"; "i16"; "i8"; "f64"; "f32"; "IpAddr"; "Uuid"; "List"; "Map"; "Udt"; "Tuple";
   "PrimitiveDateTime"; "Decimal"; "NaiveDateTime"; "DateTime"; "BigInt"].

(** [impl FromCdrsByName for ..], [impl IntoRustByName<..>], [impl AsRustType<..>] *)
Definition conversion_of (ty : rust_type) : option (conversion rvalue) :=
  match ty with
  | TPath "List" _ => Some (conv_map RList as_rust_list)
  | TPath "Map" _ => Some (conv_map RMap as_rust_map)
  | TPath "Udt" _ => Some (conv_map RUdt as_rust_udt)
  | TPath ident _ => option_map (conv_map RScalar) (assoc ident scalar_conversions)
  | _ => None
  end.
Definition scalar_conversion_of (ty : rust_type) : option (conversion scalar) :=
  match ty with TPath ident _ => assoc ident scalar_conversions | _ => None end.
(** The conversions of the items of a list and of the keys and values of a map. *)
Definition item_conversion_of (ty : rust_type) : option (conversion rvalue) :=
  match ty with TPath ident _ => if is_one_of list_items ident then conversion_of ty else None | _ => None end.
Definition entry_conversion_of (kty vty : rust_type) : option (conversion scalar * conversion rvalue) :=
  match kty, vty with
  | TPath k _, TPath v _ =>
    if bool_decide ((k, v) ∈ map_impls) then
      match scalar_conversion_of kty, conversion_of vty with Some convk, Some convv => Some (convk, convv) | _, _ => None end
    else None
  | _, _ => None
  end.
(** What the compiler accepts; otherwise there is no code to run. *)
Definition compiled {A} (o : option A) : Result A := match o with Some a => Ok a | None => Panic end.

(** [HashMap::insert]: the value of a key already there is replaced. *)
Fixpoint map_insert {V} (k : scalar) (v : V) (m : list (scalar * V)) : list (scalar * V) :=
  match m with
  | [] => [(k, v)]
  | e :: m => if decide (e.1 = k) then (k, v) :: m else e :: map_insert k v m
  end.
Definition map_collect {V} (es : list (scalar * V)) : list (scalar * V) := foldl (fun m e => map_insert e.1 e.2 m) [] es.

(** [Map::as_r_type] into a [HashMap<K, V>] *)
Definition hash_map_as_rust (convk : conversion scalar) (convv : conversion rvalue) (m : Map)
  : Result (option (list (scalar * rvalue))) :=
  match cto_value (map_metadata m) with
  | Some (CMap key_type_option val_type_option) =>
    omap (fun es => Some (map_collect es)) (map_entries (convk key_type_option) (convv val_type_option) (map_data m))
  | _ => Err (EGeneral "Invalid column type for map: {:?}")
  end.

(** The code for an item, given [try_from_udt] of the structs. *)
Section Items.
Context (try_from_udt : rust_type -> Udt -> Result rvalue).

Fixpoint run_item (c : item_code) (val : rvalue) : Result rvalue :=
  match c, val with
  | IValue, _ => Ok val
  | IVec inter_rust_type decoded_item, RList l =>
    let? conv := compiled (item_conversion_of inter_rust_type) in
    let? inner := as_r_type (list_as_rust conv l) in
    omap RVec (try_map (run_item decoded_item) inner)
  | IMap map_key_type inter_rust_type decoded_item, RMap m =>
    let? conv := compiled (entry_conversion_of map_key_type inter_rust_type) in
    let? inner := as_r_type (hash_map_as_rust conv.1 conv.2 m) in
    omap (fun decoded => RHashMap (map_collect decoded))
      (try_map (fun e => let? v := run_item decoded_item e.2 in Ok (e.1, v)) inner)
  | ITryFromUdt ty, RUdt u => try_from_udt ty u
  | _, _ => Panic
  end.

(** The code for a field of a row or a user type, of which [by_name] is [by_name]. *)
Context (by_name : conversion rvalue -> bytes -> Result (option rvalue)).

Definition from_cdrs_by_name (ty : rust_type) (name : bytes) : Result (option rvalue) :=
  let? conv := compiled (conversion_of ty) in by_name conv name.
(** [from_cdrs_r]: null is an error. *)
Definition from_cdrs_r (ty : rust_type) (name : bytes) : Result rvalue := get_r (from_cdrs_by_name ty name).

Definition run_field (c : code) (name : bytes) : Result rvalue :=
  match c with
  | GFromCdrsR ty => from_cdrs_r ty name
  | GList c =>
    match from_cdrs_r (bare "List") name with
    | Ok list => run_item c list
    | Err _ => Err (EGeneral "List should not be empty")
    | Panic => Panic
    end
  | GMap c =>
    match from_cdrs_r (bare "Map") name with
    | Ok map => run_item c map
    | Err _ => Err (EGeneral "Map should not be empty")
    | Panic => Panic
    end
  | GOptionNonZero ty => omap ROption (from_cdrs_by_name ty name)
  | GOption ty c =>
    let? o := from_cdrs_by_name ty name in
    match o with
    | Some opt_value => let? decoded := run_item c opt_value in Ok (ROption (Some decoded))
    | None => Ok (ROption None)
    end
  | GTryFromUdt ty =>
    let? u := from_cdrs_r (bare "Udt") name in
    match u with RUdt u => try_from_udt ty u | _ => Panic end
  end.

(** The struct expression of the generated functions. *)
Definition run_struct (fields : list field) : Result rvalue :=
  match convert_fields fields with
  | Ok code =>
    omap RStruct
      (try_map (fun f => let? v := run_field f.2.2 (lit f.2.1) in Ok (f.1, v)) code)
  | _ => Panic
  end.
End Items.

(** The structs that derive the traits, by name.  A user type nested deeper
    than the fuel is not read. *)
Context (structs : string -> option (list field)).

Fixpoint try_from_udt (fuel : nat) (ty : rust_type) (udt : Udt) : Result rvalue :=
  match fuel with
  | O => Panic
  | S fuel =>
    match ty with
    | TPath ident _ =>
      let? fields := compiled (structs ident) in
      run_struct (try_from_udt fuel) (fun conv name => Udt_get_by_name conv udt name) fields
    | _ => Panic
    end
  end.
Definition try_from_row (fuel : nat) (ident : string) (row : Row) : Result rvalue :=
  let? fields := compiled (structs ident) in
  run_struct (try_from_udt fuel) (fun conv name => Row_get_by_name conv row name) fields.

(** *** [Into<Bytes>] *)

Definition scalar_into_bytes (s : scalar) : bytes :=
  match s with
  | SBlob b => Bytes_from_blob b
  | SString s => Bytes_from_str s
  | SBool b => Bytes_from_bool b
  | SI64 z | SNonZeroI64 z => Bytes_from_i64 z
  | SI32 z | SNonZeroI32 z => Bytes_from_i32 z
  | SI16 z | SNonZeroI16 z => Bytes_from_i16 z
  | SI8 z | SNonZeroI8 z => Bytes_from_i8 z
  | SF64 f => Bytes_from_f64 f
  | SF32 f => Bytes_from_f32 f
  | SDecimal d => Bytes_from_decimal d
  | SIpAddr i => Bytes_from_ip i
  | SUuid u => Bytes_from_uuid u
  | SPrimitiveDateTime t => Bytes_from_primitive_date_time t
  | SNaiveDateTime t => Bytes_from_naive_date_time t
  | SDateTime t => Bytes_from_date_time t
  end.

(** The generated [From<..> for Bytes] of a struct writes its fields one after
    the other; a field is serialized as an option when its type is one, as
    [impl_into_cdrs_value] finds out ([option_fields]).  The library's own
    collections and a bare option have no such conversion. *)
Fixpoint into_bytes (v : rvalue) : bytes :=
  match v with
  | RScalar s => scalar_into_bytes s
  | RVec l => Bytes_from_vec into_bytes l
  | RHashMap entries =>
    i32_serialize (as_i32 (zlen entries)) ++
    concat (map (fun e => Value_serialize (VSome (scalar_into_bytes e.1)) ++ Value_serialize (VSome (into_bytes e.2))) entries)
  | RStruct fields =>
    concat (map (fun f => Value_serialize
      match f.2 with
      | ROption (Some v) => VSome (into_bytes v)
      | ROption None => VNotSet
      | _ => VSome (into_bytes f.2)
      end) fields)
  | _ => []
  end.

(** [into_query_values] of [DbMirror]: the values, [From<Option<T>> for Value]
    for the options, inserted one after the other into the map under the names
    of their fields. *)
Definition Value_of (v : rvalue) : Value :=
  match v with ROption o => Value_from_option into_bytes o | _ => VSome (into_bytes v) end.
Definition into_query_values (fields : list (string * rvalue)) : QueryValues :=
  NamedValues (foldl (fun values f => <[lit f.1 := Value_of f.2]> values) ∅ fields).

(** ** Written and read back *)

(** *** What a column can hold *)

(** Scalars with the column types they are read from; points in time, which
    lose precision, have theorems of their own in [RustTypes]. *)
Inductive scalar_fits : ColType -> string -> scalar -> Prop :=
| sf_blob b : scalar_fits CtBlob "Blob" (SBlob b)
| sf_string c s : (CtAscii = c \/ CtVarchar = c) -> wf_string s -> scalar_fits c "String" (SString s)
| sf_bool b : scalar_fits CtBoolean "bool" (SBool b)
| sf_i64 c z : (CtBigint = c \/ CtTimestamp = c \/ CtTime = c \/ CtCounter = c) -> in_i 64 z -> scalar_fits c "i64" (SI64 z)
| sf_i32 c z : (CtInt = c \/ CtDate = c) -> in_i 32 z -> scalar_fits c "i32" (SI32 z)
| sf_i16 z : in_i 16 z -> scalar_fits CtSmallint "i16" (SI16 z)
| sf_i8 z : in_i 8 z -> scalar_fits CtTinyint "i8" (SI8 z)
| sf_f64 f : in_u 64 f -> scalar_fits CtDouble "f64" (SF64 f)
| sf_f32 f : in_u 32 f -> scalar_fits CtFloat "f32" (SF32 f)
| sf_decimal d : in_i 32 (scale d) -> scalar_fits CtDecimal "Decimal" (SDecimal d)
| sf_ip i : wf_ip i -> scalar_fits CtInet "IpAddr" (SIpAddr i)
| sf_uuid c u : (CtUuid = c \/ CtTimeuuid = c) -> scalar_fits c "Uuid" (SUuid u).

(** A type with a conversion that reads null as [None]. *)
Record reads_null (t : ColTypeOption) (ty : rust_type) (inter : rust_type) (conv : conversion rvalue) : Prop := {
  rn_type : get_cdrs_type ty = Ok inter;
  rn_conv : conversion_of inter = Some conv;
  rn_null : conv t CBytes_new_null = Ok None }.

Lemma scalar_conv c i s : scalar_fits c i s -> exists conv, assoc i scalar_conversions = Some conv /\
  forall t, cto_id t = c ->
    conv t (CBytes_new (scalar_into_bytes s)) = Ok (Some s) /\ conv t CBytes_new_null = Ok None.
Proof.
  intros H. destruct H; (eexists; split; [reflexivity|]); intros t Ht; unfold conv_map;
    (split; [|destruct t as [id o]; simpl in Ht; subst id; naive_solver]).
  all: cbn [scalar_into_bytes]; rewrite converts; [done| |by simpl]; by subst.
Qed.

(** Names the macros give a meaning of their own. *)
Definition special (ident : string) : bool :=
  is_one_of own_types ident || is_one_of ["Vec"; "HashMap"; "List"; "Map"; "Udt"] ident.
Definition TVec (ty : rust_type) : rust_type := TPath "Vec" (Some [GType ty]).
Definition THashMap (k ty : rust_type) : rust_type := TPath "HashMap" (Some [GType k; GType ty]).
Definition TOption (ty : rust_type) : rust_type := TPath "Option" (Some [GType ty]).

(** The column types of a Rust type. *)
Inductive column : ColTypeOption -> rust_type -> Prop :=
| column_scalar t i s : scalar_fits (cto_id t) i s -> column t (bare i)
| column_vec id c elem ty : (id = CtList /\ c = CList elem) \/ (id = CtSet /\ c = CSet elem) ->
    column elem ty -> column (mkColTypeOption id (Some c)) (TVec ty)
| column_map tk tv k s ty : scalar_fits (cto_id tk) k s -> k ∈ map_keys -> column tv ty ->
    column (mkColTypeOption CtMap (Some (CMap tk tv))) (THashMap (bare k) ty)
| column_struct u i : special i = false -> column (mkColTypeOption CtUdt (Some (UdtType u))) (bare i).

Lemma as_rust_more n m ty c : as_rust_fuel n ty = Ok c -> (n <= m)%nat -> as_rust_fuel m ty = Ok c.
Proof.
  revert m ty c. induction n as [|n IH]; intros [|m] ty c H Hm; [done..|lia|]. cbn [as_rust_fuel] in *.
  destruct (get_cdrs_type ty) as [ct| |]; [cbn [obind] in *|done..]. destruct (get_ident_string ct) as [i| |]; [cbn [obind] in *|done..].
  destruct (is_one_of as_rust_values i); [done|]. destruct (String.eqb i "List"); [|destruct (String.eqb i "Map")].
  - destruct (get_ident_params_string ty) as [v| |]; [cbn [obind] in *|done..].
    destruct (get_cdrs_type v); [cbn [obind] in *|done..]. destruct (as_rust_fuel n v) eqn:E; [|done..].
    by rewrite (IH m _ _ E) by lia.
  - destruct (get_map_params_string ty) as [v| |]; [cbn [obind] in *|done..].
    destruct (get_cdrs_type v.2); [cbn [obind] in *|done..]. destruct (as_rust_fuel n v.2) eqn:E; [|done..].
    by rewrite (IH m _ _ E) by lia.
  - destruct (String.eqb i "Option"); [|done]. destruct (get_ident_params_string ty) as [v| |]; [cbn [obind] in *|done..].
    apply IH; [done|lia].
Qed.

Lemma is_one_of_spec l s : is_one_of l s = true <-> s ∈ l.
Proof.
  unfold is_one_of. rewrite existsb_exists, list_elem_of_In. split; [|intros H; exists s; by rewrite String.eqb_refl].
  intros (x & Hx & ->%String.eqb_eq). done.
Qed.

(** How a type is read: the type its column is first read as, the conversion
    and the code. *)
Record reading (t : ColTypeOption) (ty inter : rust_type) (conv : conversion rvalue) (c : item_code) : Prop := {
  rd_type : get_cdrs_type ty = Ok inter;
  rd_conv : conversion_of inter = Some conv;
  rd_item : exists i args, inter = TPath i args /\ i ∈ list_items /\ i ∈ map_values;
  rd_code : as_rust ty = Ok c;
  rd_null : conv t CBytes_new_null = Ok None }.

(** Scalars are items of lists and values of maps, and keys if the library lists them. *)
Lemma scalar_item c i s : scalar_fits c i s -> i ∈ list_items /\ i ∈ map_values.
Proof. intros H. destruct H; (split; apply (bool_decide_unpack _); vm_compute; exact I). Qed.
Lemma map_impls_spec k v : (k, v) ∈ map_impls <-> k ∈ map_keys /\ v ∈ map_values.
Proof.
  unfold map_impls. rewrite list_elem_of_In, in_concat. split.
  - intros (l & (k' & <- & Hk)%in_map_iff & (v' & [= -> ->] & Hv)%in_map_iff). by rewrite !list_elem_of_In.
  - intros [Hk Hv]. exists (map (pair k) map_values). rewrite !list_elem_of_In in *.
    split; [by apply (in_map (fun k => map (pair k) map_values))|by apply in_map].
Qed.

(** What [FromCdrsByName] reads, rows and user types have; by index, a row has
    what it has by name, and a tuple all of it but the non-zero integers. *)
Lemma scalar_columns i conv : assoc i scalar_conversions = Some conv ->
  i ∈ row_columns /\ i ∈ udt_columns /\ i ∈ row_indexes /\
  (i ∈ tuple_indexes \/ is_non_zero_primitive (bare i) = Ok true).
Proof.
  intros H. assert (Hi : i ∈ map fst scalar_conversions).
  { revert H. generalize scalar_conversions. intros l. induction l as [|[j c] l IH]; [done|]. cbn [assoc map fst].
    destruct (String.eqb_spec i j) as [->|]; [left|right; auto]. }
  clear H. revert i Hi. apply Forall_forall. cbn [scalar_conversions map fst].
  repeat (apply Forall_cons; split; [split_and!; try (apply (bool_decide_unpack _); vm_compute; exact I);
    first [left; apply (bool_decide_unpack _); vm_compute; exact I | by right]|]).
  by constructor.
Qed.

(** Reading a scalar, a struct. *)
Lemma reading_scalar t i s : scalar_fits (cto_id t) i s ->
  exists conv, assoc i scalar_conversions = Some conv /\ reading t (bare i) (bare i) (conv_map RScalar conv) IValue.
Proof.
  intros H. destruct (scalar_conv _ _ _ H) as (conv & Hc & Hr). exists conv. split; [done|].
  destruct (Hr t eq_refl) as [_ Hn].
  assert (E : conversion_of (bare i) = option_map (conv_map RScalar) (assoc i scalar_conversions)) by (by destruct H).
  split; [by destruct H|by rewrite E, Hc|exists i, None; by destruct (scalar_item _ _ _ H)|by destruct H|].
  unfold conv_map. by rewrite Hn.
Qed.
#[local] Ltac named_item i :=
  exists i, None; split; [done|split; apply (bool_decide_unpack _); vm_compute; exact I].
Lemma special_not i : special i = false -> is_one_of own_types i = false /\ is_one_of as_rust_values i = false /\
  is_one_of direct_types i = false /\ String.eqb i "Vec" = false /\ String.eqb i "HashMap" = false.
Proof.
  unfold special, is_one_of. cbn [existsb own_types as_rust_values direct_types]. rewrite !orb_false_iff.
  intros H. destruct_and! H. by split_and!.
Qed.

Lemma reading_struct t i u : t = mkColTypeOption CtUdt (Some (UdtType u)) -> special i = false ->
  reading t (bare i) (bare "Udt") (conv_map RUdt as_rust_udt) (ITryFromUdt (bare i)).
Proof.
  intros -> (H1 & H2 & H3 & H4 & H5)%special_not. split; [|done|named_item "Udt"%string| |done].
  - unfold get_cdrs_type. simpl get_ident_string. cbn [obind]. by rewrite H1, H4, H5.
  - unfold as_rust. cbn [type_depth bare as_rust_fuel]. unfold get_cdrs_type. simpl get_ident_string. cbn [obind].
    by rewrite H1, H4, H5.
Qed.

Lemma reading_vec id c elem ty inter conv code : (id = CtList /\ c = CList elem) \/ (id = CtSet /\ c = CSet elem) ->
  reading elem ty inter conv code ->
  reading (mkColTypeOption id (Some c)) (TVec ty) (bare "List") (conv_map RList as_rust_list) (IVec inter code).
Proof.
  intros Hc [Ht _ _ Hcode _]. split; [done|done|named_item "List"%string| |by destruct Hc as [[-> ->]|[-> ->]]].
  unfold as_rust. cbn [type_depth TVec map max_list foldr]. rewrite Nat.max_0_r. cbn [as_rust_fuel].
  change (get_cdrs_type (TVec ty)) with (Ok (bare "List") : macro rust_type). cbn [obind].
  cbn. rewrite Ht. cbn [obind]. unfold as_rust in Hcode. by rewrite Hcode.
Qed.

Lemma reading_map tk tv k ty inter conv code : reading tv ty inter conv code ->
  reading (mkColTypeOption CtMap (Some (CMap tk tv))) (THashMap (bare k) ty) (bare "Map") (conv_map RMap as_rust_map)
    (IMap (bare k) inter code).
Proof.
  intros [Ht _ _ Hcode _]. split; [done|done|named_item "Map"%string| |done].
  unfold as_rust. cbn [type_depth THashMap bare map max_list foldr]. cbn [as_rust_fuel].
  change (get_cdrs_type (THashMap (bare k) ty)) with (Ok (bare "Map") : macro rust_type). cbn [obind].
  cbn. rewrite Ht. cbn [obind]. unfold as_rust in Hcode. erewrite as_rust_more; [done|exact Hcode|lia].
Qed.

(** Every Rust type of a column is read. *)
Lemma reading_item t ty inter conv c : reading t ty inter conv c -> item_conversion_of inter = Some conv.
Proof.
  intros [_ Hc (i & args & -> & Hi & _) _ _]. unfold item_conversion_of. by rewrite (proj2 (is_one_of_spec _ _) Hi).
Qed.
Lemma reading_entry t ty inter conv c k convk : reading t ty inter conv c -> k ∈ map_keys ->
  assoc k scalar_conversions = Some convk -> entry_conversion_of (bare k) inter = Some (convk, conv).
Proof.
  intros [_ Hc (i & args & -> & _ & Hi) _ _] Hk Ha. unfold entry_conversion_of, bare.
  rewrite bool_decide_true by (by apply map_impls_spec). unfold scalar_conversion_of. by rewrite Ha, Hc.
Qed.
Lemma column_reading t ty : column t ty -> exists inter conv c, reading t ty inter conv c.
Proof.
  induction 1 as [t i s H|id c elem ty Hc _ (inter & conv & code & IH)|tk tv k s ty Hk _ _ (inter & conv & code & IH)|u i H].
  - destruct (reading_scalar _ _ _ H) as (conv & _ & Hr). eauto.
  - eauto using reading_vec.
  - eauto using reading_map.
  - eauto using reading_struct.
Qed.

(** *** Values of a column *)

Inductive non_zero_fits : ColType -> string -> scalar -> Prop :=
| nz_i64 c z : (CtBigint = c \/ CtTimestamp = c \/ CtTime = c \/ CtCounter = c) -> in_i 64 z -> z <> 0 ->
    non_zero_fits c "NonZeroI64" (SNonZeroI64 z)
| nz_i32 c z : (CtInt = c \/ CtDate = c) -> in_i 32 z -> z <> 0 -> non_zero_fits c "NonZeroI32" (SNonZeroI32 z)
| nz_i16 z : in_i 16 z -> z <> 0 -> non_zero_fits CtSmallint "NonZeroI16" (SNonZeroI16 z)
| nz_i8 z : in_i 8 z -> z <> 0 -> non_zero_fits CtTinyint "NonZeroI8" (SNonZeroI8 z).

(** A field of a struct with its column and its value. *)
Record component : Type := mkComponent { c_field : field; c_type : ColTypeOption; c_value : rvalue }.
Definition c_column (c : component) : bytes := lit (remove_r (f_ident (c_field c))).

(** A value of a type that a column of that type can hold: within its range
    and short enough; a user type has the fields of the struct in their order. *)
Inductive fits : ColTypeOption -> rust_type -> rvalue -> Prop :=
| fits_scalar t i s : scalar_fits (cto_id t) i s -> fits t (bare i) (RScalar s)
| fits_vec id c elem ty vs : (id = CtList /\ c = CList elem) \/ (id = CtSet /\ c = CSet elem) ->
    column elem ty -> Forall (fits elem ty) vs -> zlen vs < 2 ^ 31 -> Forall (short_bytes into_bytes) vs ->
    fits (mkColTypeOption id (Some c)) (TVec ty) (RVec vs)
| fits_map tk tv k s ty es : scalar_fits (cto_id tk) k s -> k ∈ map_keys -> column tv ty ->
    Forall (fun e => scalar_fits (cto_id tk) k e.1 /\ fits tv ty e.2) es -> NoDup (map fst es) -> zlen es < 2 ^ 31 ->
    Forall (fun e => short_bytes scalar_into_bytes e.1 /\ short_bytes into_bytes e.2) es ->
    fits (mkColTypeOption CtMap (Some (CMap tk tv))) (THashMap (bare k) ty) (RHashMap es)
| fits_struct ks n i cs : special i = false -> structs i = Some (map c_field cs) -> NoDup (map c_column cs) ->
    Forall (fun c => field_fits (c_type c) (f_ty (c_field c)) (c_value c)) cs ->
    fits (mkColTypeOption CtUdt (Some (UdtType (mkCUdt ks n (map (fun c => (c_column c, c_type c)) cs)))))
      (bare i) (RStruct (map (fun c => (f_ident (c_field c), c_value c)) cs))
with field_fits : ColTypeOption -> rust_type -> rvalue -> Prop :=
| ff_value t ty v : fits t ty v -> short_bytes into_bytes v -> field_fits t ty v
| ff_some t ty v : fits t ty v -> short_bytes into_bytes v -> field_fits t (TOption ty) (ROption (Some v))
| ff_none t ty : column t ty -> field_fits t (TOption ty) (ROption None)
| ff_non_zero t i s : non_zero_fits (cto_id t) i s -> field_fits t (TOption (bare i)) (ROption (Some (RScalar s)))
| ff_no_non_zero t i s : non_zero_fits (cto_id t) i s -> field_fits t (TOption (bare i)) (ROption None).

Lemma fits_column t ty v : fits t ty v -> column t ty.
Proof.
  destruct 1; [by eapply column_scalar|by eapply column_vec|by eapply column_map|by apply column_struct].
Qed.

(** A value is read back, given [n] for the nesting of user types. *)
Definition read_back (n : nat) (t : ColTypeOption) (ty : rust_type) (v : rvalue) : Prop :=
  forall inter conv c, reading t ty inter conv c ->
  exists raw, conv t (CBytes_new (into_bytes v)) = Ok (Some raw) /\ run_item (try_from_udt n) c raw = Ok v.

Lemma reading_unique t ty inter conv c inter' conv' c' :
  reading t ty inter conv c -> reading t ty inter' conv' c' -> inter' = inter /\ conv' = conv /\ c' = c.
Proof. intros [H1 H2 _ H3 _] [H1' H2' _ H3' _]. split_and!; congruence. Qed.

(** [read_back] with the reading at hand. *)
Lemma read_back_by n t ty v inter conv c raw : reading t ty inter conv c ->
  conv t (CBytes_new (into_bytes v)) = Ok (Some raw) -> run_item (try_from_udt n) c raw = Ok v -> read_back n t ty v.
Proof. intros Hr H1 H2 inter' conv' c' Hr'. destruct (reading_unique _ _ _ _ _ _ _ _ Hr Hr') as (-> & -> & ->). eauto. Qed.

Lemma scalar_read_back n t i s : scalar_fits (cto_id t) i s -> read_back n t (bare i) (RScalar s).
Proof.
  intros H. destruct (reading_scalar _ _ _ H) as (conv & Ha & Hr). eapply read_back_by; [exact Hr| |done].
  destruct (scalar_conv _ _ _ H) as (conv' & Ha' & Hc). unfold conv_map. simplify_eq.
  destruct (Hc t eq_refl) as [Hc1 _]. simpl into_bytes. by rewrite Hc1.
Qed.

Lemma try_map_map {A B C} (f : A -> Result B) (g : C -> A) (h : C -> B) l :
  Forall (fun x => f (g x) = Ok (h x)) l -> try_map f (map g l) = Ok (map h l).
Proof. induction 1 as [|x l Hx _ IH]; [done|]. simpl. by rewrite Hx, IH. Qed.

(** Items that are each read back, together. *)
Lemma items_raw n elem ty inter conv c (vs : list rvalue) : reading elem ty inter conv c ->
  Forall (read_back n elem ty) vs ->
  exists raws, Forall2 (fun v raw => conv elem (CBytes_new (into_bytes v)) = Ok (Some raw) /\
                                     run_item (try_from_udt n) c raw = Ok v) vs raws.
Proof.
  intros Hr. induction 1 as [|v vs Hv _ (raws & IH)]; [by exists []|].
  destruct (Hv _ _ _ Hr) as (raw & H1 & H2). exists (raw :: raws). by constructor.
Qed.

Lemma vec_read_back n id c elem ty vs : (id = CtList /\ c = CList elem) \/ (id = CtSet /\ c = CSet elem) ->
  column elem ty -> Forall (read_back n elem ty) vs -> zlen vs < 2 ^ 31 -> Forall (short_bytes into_bytes) vs ->
  read_back n (mkColTypeOption id (Some c)) (TVec ty) (RVec vs).
Proof.
  intros Hc Hcol Hv Hn Hs. destruct (column_reading _ _ Hcol) as (inter & conv & code & Hr).
  destruct (items_raw n _ _ _ _ _ vs Hr Hv) as (raws & Hraws).
  eapply read_back_by; [by eapply reading_vec| |].
  - unfold conv_map, as_rust_list. simpl into_bytes.
    destruct Hc as [[-> ->]|[-> ->]]; cbn [cto_id CBytes_bytes CBytes_new]; by rewrite decode_list_vec.
  - cbn [run_item]. rewrite (reading_item _ _ _ _ _ Hr). cbn [compiled obind].
    assert (Hl : list_as_rust conv (mkList (mkColTypeOption id (Some c)) (map (item_bytes into_bytes) vs)) = Ok (Some raws)).
    { unfold list_as_rust. cbn [list_metadata list_data cto_value].
      assert (Hm : try_map (fun b => unwrap_item (conv elem b)) (map (item_bytes into_bytes) vs) = Ok raws).
      { apply try_map_ok. clear -Hraws. induction Hraws as [|v raw vs raws [H1 _] _ IH]; constructor; [|done].
        unfold item_bytes. by rewrite H1. }
      destruct Hc as [[-> ->]|[-> ->]]; by rewrite Hm. }
    rewrite Hl. cbn. rewrite (try_map_ok _ _ vs); [done|]. clear -Hraws. induction Hraws as [|v raw vs raws [_ H2] _ IH]; by constructor.
Qed.

(** Entries with keys of their own are collected as they are. *)
Lemma map_insert_fresh {V} k (v : V) m : k ∉ map fst m -> map_insert k v m = m ++ [(k, v)].
Proof.
  induction m as [|e m IH]; simpl; [done|]. rewrite not_elem_of_cons. intros [Hk Hm].
  rewrite decide_False by congruence. by rewrite IH.
Qed.
Lemma map_collect_nodup {V} (es : list (scalar * V)) : NoDup (map fst es) -> map_collect es = es.
Proof.
  unfold map_collect. enough (H : forall acc, NoDup (map fst (acc ++ es)) -> foldl (fun m e => map_insert e.1 e.2 m) acc es = acc ++ es).
  { apply (H []). }
  induction es as [|e es IH]; intros acc Hnd; simpl; [by rewrite app_nil_r|].
  rewrite map_insert_fresh; [rewrite IH; rewrite <- app_assoc; [by destruct e|by destruct e]|].
  rewrite map_app in Hnd. apply NoDup_app in Hnd as (_ & Hd & _). intros Hin. apply (Hd _ Hin). set_solver.
Qed.

Lemma map_entries_raw n tk tv k ty inter conv convk code es : reading tv ty inter conv code ->
  assoc k scalar_conversions = Some convk ->
  Forall (fun e => scalar_fits (cto_id tk) k e.1 /\ read_back n tv ty e.2) es ->
  exists raws, map_entries (convk tk) (conv tv) (map (fun e => (item_bytes scalar_into_bytes e.1, item_bytes into_bytes e.2)) es)
                 = Ok raws /\ map fst raws = map fst es /\
    try_map (fun e => let? v := run_item (try_from_udt n) code e.2 in Ok (e.1, v)) raws = Ok es.
Proof.
  intros Hr Hk. induction 1 as [|[s v] es [Hs Hv] _ (raws & H1 & H2 & H3)]; [by exists []|].
  destruct (Hv _ _ _ Hr) as (raw & Hc & Hrun). exists ((s, raw) :: raws).
  destruct (scalar_conv _ _ _ Hs) as (convk' & Hk' & Hread). simplify_eq. destruct (Hread tk eq_refl) as [Hks _].
  simpl in *. unfold item_bytes. rewrite Hks. cbn [obind]. rewrite Hc. cbn [obind].
  unfold item_bytes in H1. rewrite H1. cbn [obind]. rewrite Hrun. cbn [obind]. rewrite H3. by rewrite H2.
Qed.

Lemma map_read_back n tk tv k s ty es : scalar_fits (cto_id tk) k s -> k ∈ map_keys -> column tv ty ->
  Forall (fun e => scalar_fits (cto_id tk) k e.1 /\ read_back n tv ty e.2) es -> NoDup (map fst es) -> zlen es < 2 ^ 31 ->
  Forall (fun e => short_bytes scalar_into_bytes e.1 /\ short_bytes into_bytes e.2) es ->
  read_back n (mkColTypeOption CtMap (Some (CMap tk tv))) (THashMap (bare k) ty) (RHashMap es).
Proof.
  intros Hk Hkey Hcol Hes Hnd Hn Hs. destruct (column_reading _ _ Hcol) as (inter & conv & code & Hr).
  destruct (scalar_conv _ _ _ Hk) as (convk & Ha & _).
  destruct (map_entries_raw n _ _ _ _ _ _ _ _ _ Hr Ha Hes) as (raws & Hraw & Hkeys & Hrun).
  eapply read_back_by; [by eapply reading_map| |].
  - unfold conv_map, as_rust_map. cbn [cto_id CBytes_bytes CBytes_new].
    change (into_bytes (RHashMap es)) with (Bytes_from_entries scalar_into_bytes into_bytes es).
    by rewrite decode_map_entries.
  - cbn [run_item]. rewrite (reading_entry _ _ _ _ _ _ _ Hr Hkey Ha). cbn [compiled obind fst snd].
    unfold hash_map_as_rust. cbn [map_metadata map_data cto_value]. rewrite Hraw. cbn [omap].
    rewrite map_collect_nodup by (by rewrite Hkeys). cbn. rewrite Hrun. cbn [omap]. by rewrite map_collect_nodup.
Qed.

(** *** Fields *)

(** What the generated [From] writes for a field. *)
Definition field_value (v : rvalue) : Value :=
  match v with ROption (Some v) => VSome (into_bytes v) | ROption None => VNotSet | _ => VSome (into_bytes v) end.
Definition cell_of (x : Value) : CBytes := match x with VSome b => CBytes_new b | _ => CBytes_new_null end.

(** A field that is not set is null for the reader of a user type. *)
Definition short_value (x : Value) : Prop := match x with VSome b => zlen b < 2 ^ 31 | _ => True end.
Lemma udt_field_value x rest : short_value x -> udt_field (Value_serialize x ++ rest) = Ok (cell_of x, rest).
Proof.
  intros Hx. destruct x as [b| |].
  - exact (round_trip (RoundTrip := udt_field_round_trip) (CBytes_new b) rest Hx).
  - exact (round_trip (RoundTrip := udt_field_round_trip) CBytes_new_null rest I).
  - unfold udt_field, CBytes_from_cursor, Value_serialize. by rt_step.
Qed.
Lemma decode_udt_values xs : Forall short_value xs ->
  decode_udt (concat (map Value_serialize xs)) (length xs) = Ok (map cell_of xs).
Proof.
  intros Hx. unfold decode_udt, run_invalid.
  assert (H : read_n (length xs) udt_field (concat (map Value_serialize xs)) = Ok (map cell_of xs, [])).
  { induction Hx as [|x xs Hx _ IH]; [done|]. cbn [length map concat read_n].
    by rewrite (rbind_ok _ _ _ _ _ (udt_field_value x _ Hx)), (rbind_ok _ _ _ _ _ IH). }
  by rewrite H.
Qed.

(** A field of a user type is read back from its cell, by whatever finds it. *)
Definition field_read_back (n : nat) (t : ColTypeOption) (ty : rust_type) (v : rvalue) : Prop :=
  short_value (field_value v) /\
  exists c, into_rust_with_args ty = Ok c /\
  forall (by_name : conversion rvalue -> bytes -> Result (option rvalue)) name,
    (forall conv, by_name conv name = conv t (cell_of (field_value v))) ->
    run_field (try_from_udt n) by_name c name = Ok v.

Lemma not_option_value t ty v : fits t ty v -> field_value v = VSome (into_bytes v).
Proof. by destruct 1. Qed.

(** Fields that are not optional. *)
Lemma value_field n t ty v : fits t ty v -> read_back n t ty v -> short_bytes into_bytes v -> field_read_back n t ty v.
Proof.
  intros Hf Hb Hs. pose proof (not_option_value _ _ _ Hf) as Ev. split; [by rewrite Ev|]. rewrite Ev. cbn [cell_of].
  assert (Hget : forall inter conv c, reading t ty inter conv c -> exists raw,
    run_item (try_from_udt n) c raw = Ok v /\
    forall (by_name : conversion rvalue -> bytes -> Result (option rvalue)) name,
      (forall conv, by_name conv name = conv t (CBytes_new (into_bytes v))) -> from_cdrs_r by_name inter name = Ok raw).
  { intros inter conv c Hr. destruct (Hb _ _ _ Hr) as (raw & Hc & Hrun). exists raw. split; [done|].
    intros by_name name Hby. unfold from_cdrs_r, from_cdrs_by_name. rewrite (rd_conv _ _ _ _ _ Hr). cbn [compiled obind].
    by rewrite Hby, Hc. }
  destruct Hf as [t i s Hf|id c elem ty vs Hc Hcol|tk tv k s ty es Hk Hkey Hcol|ks m i cs Hi].
  - destruct (reading_scalar _ _ _ Hf) as (conv & _ & Hr). destruct (Hget _ _ _ Hr) as (raw & Hrun & Hgot).
    exists (GFromCdrsR (bare i)). split; [by destruct Hf|]. intros by_name name Hby. cbn [run_field].
    rewrite (Hgot by_name name Hby). exact Hrun.
  - destruct (column_reading _ _ Hcol) as (inter & conv & code & Hr). apply (reading_vec id c) in Hr; [|done].
    destruct (Hget _ _ _ Hr) as (raw & Hrun & Hgot). exists (GList (IVec inter code)). split.
    { change (into_rust_with_args (TVec ty)) with (omap GList (as_rust (TVec ty))). by rewrite (rd_code _ _ _ _ _ Hr). }
    intros by_name name Hby. cbn [run_field]. by rewrite (Hgot by_name name Hby).
  - destruct (column_reading _ _ Hcol) as (inter & conv & code & Hr). apply (reading_map tk tv k) in Hr.
    destruct (Hget _ _ _ Hr) as (raw & Hrun & Hgot). exists (GMap (IMap (bare k) inter code)). split.
    { change (into_rust_with_args (THashMap (bare k) ty)) with (omap GMap (as_rust (THashMap (bare k) ty))).
      by rewrite (rd_code _ _ _ _ _ Hr). }
    intros by_name name Hby. cbn [run_field]. by rewrite (Hgot by_name name Hby).
  - destruct (Hget _ _ _ (reading_struct _ _ _ eq_refl Hi)) as (raw & Hrun & Hgot). exists (GTryFromUdt (bare i)). split.
    { destruct (special_not i Hi) as (E1 & E2 & E3 & E4 & E5). unfold into_rust_with_args, get_cdrs_type.
      simpl get_ident_string. cbn [obind]. by rewrite E1, E4, E5. }
    intros by_name name Hby. cbn [run_field]. rewrite (Hgot by_name name Hby). cbn [obind].
    destruct raw; try discriminate Hrun. exact Hrun.
Qed.

(** Optional fields. *)
Lemma column_not_non_zero t ty inter : column t ty -> get_cdrs_type ty = Ok inter -> is_non_zero_primitive inter = Ok false.
Proof using BI CL FR TL U.
  intros [t' i s H|id c elem ty' _ _|tk tv k s ty' _ _|u i Hi] Hg.
  - destruct (reading_scalar _ _ _ H) as (conv & _ & Hr). rewrite (rd_type _ _ _ _ _ Hr) in Hg.
    assert (inter = bare i) as -> by congruence. by destruct H.
  - change (Ok (bare "List") = Ok inter :> macro rust_type) in Hg. by simplify_eq.
  - change (Ok (bare "Map") = Ok inter :> macro rust_type) in Hg. by simplify_eq.
  - rewrite (rd_type _ _ _ _ _ (reading_struct _ _ u eq_refl Hi)) in Hg.
    by assert (inter = bare "Udt") as -> by congruence.
Qed.
Lemma option_code t ty inter conv code : column t ty -> reading t ty inter conv code ->
  into_rust_with_args (TOption ty) = Ok (GOption inter code).
Proof.
  intros Hcol [Ht _ _ Hcode _]. unfold into_rust_with_args.
  change (get_cdrs_type (TOption ty)) with (Ok (bare "Option") : macro rust_type). cbn.
  rewrite Ht. cbn [obind]. rewrite Hcode. cbn [obind]. by rewrite (column_not_non_zero _ _ _ Hcol Ht).
Qed.

Lemma some_field n t ty v : fits t ty v -> read_back n t ty v -> short_bytes into_bytes v ->
  field_read_back n t (TOption ty) (ROption (Some v)).
Proof.
  intros Hf Hb Hs. split; [done|]. pose proof (fits_column _ _ _ Hf) as Hcol.
  destruct (column_reading _ _ Hcol) as (inter & conv & code & Hr). destruct (Hb _ _ _ Hr) as (raw & Hc & Hrun).
  exists (GOption inter code). split; [by eapply option_code|]. intros by_name name Hby. cbn [run_field].
  unfold from_cdrs_by_name. rewrite (rd_conv _ _ _ _ _ Hr). cbn [compiled obind]. rewrite Hby. cbn [field_value cell_of].
  rewrite Hc. cbn [obind]. by rewrite Hrun.
Qed.
Lemma none_field n t ty : column t ty -> field_read_back n t (TOption ty) (ROption None).
Proof.
  intros Hcol. split; [done|]. destruct (column_reading _ _ Hcol) as (inter & conv & code & Hr).
  exists (GOption inter code). split; [by eapply option_code|]. intros by_name name Hby. cbn [run_field].
  unfold from_cdrs_by_name. rewrite (rd_conv _ _ _ _ _ Hr). cbn [compiled obind]. rewrite Hby. cbn [field_value cell_of].
  by rewrite (rd_null _ _ _ _ _ Hr).
Qed.

Lemma non_zero_kept (nz conv : conversion Z) into t z : nz t (CBytes_new (into z)) = and_then_non_zero (conv t (CBytes_new (into z))) ->
  conv t (CBytes_new (into z)) = Ok (Some z) -> z <> 0 -> nz t (CBytes_new (into z)) = Ok (Some z).
Proof. intros -> Hc Hz. rewrite Hc. unfold and_then_non_zero, non_zero. cbn. by destruct (Z.eqb_spec z 0). Qed.
Lemma non_zero_conv t i s : non_zero_fits (cto_id t) i s -> exists conv,
  into_rust_with_args (TOption (bare i)) = Ok (GOptionNonZero (bare i)) /\
  conversion_of (bare i) = Some (conv_map RScalar conv) /\
  conv t (CBytes_new (scalar_into_bytes s)) = Ok (Some s) /\ conv t CBytes_new_null = Ok None.
Proof.
  destruct t as [id o]. cbn [cto_id].
  destruct 1 as [id z Hid Hz Hn|id z Hid Hz Hn|z Hz Hn|z Hz Hn];
    (eexists; split; [reflexivity|split; [reflexivity|]]); unfold conv_map; cbn [scalar_into_bytes];
    (split; [|by naive_solver]).
  - rewrite (non_zero_kept _ as_rust_i64); [done| |by rewrite converts|done]. by destruct Hid as [<-|[<-|[<-| <-]]].
  - rewrite (non_zero_kept _ as_rust_i32); [done| |by rewrite converts|done]. by destruct Hid as [<-| <-].
  - by rewrite (non_zero_kept _ as_rust_i16); [|done|rewrite converts|].
  - by rewrite (non_zero_kept _ as_rust_i8); [|done|rewrite converts|].
Qed.
Lemma non_zero_fields n t i s : non_zero_fits (cto_id t) i s ->
  field_read_back n t (TOption (bare i)) (ROption (Some (RScalar s))) /\
  field_read_back n t (TOption (bare i)) (ROption None).
Proof.
  intros H. destruct (non_zero_conv _ _ _ H) as (conv & Hc & Hconv & Hs & Hnull).
  assert (Hshort : zlen (scalar_into_bytes s) < 2 ^ 31) by (destruct H; cbn [scalar_into_bytes]; vm_compute; done).
  split; (split; [done|]); exists (GOptionNonZero (bare i)); (split; [done|]); intros by_name name Hby; cbn [run_field];
    unfold from_cdrs_by_name; rewrite Hconv; cbn [compiled obind]; rewrite Hby; cbn [field_value cell_of into_bytes];
    unfold conv_map; [by rewrite Hs|by rewrite Hnull].
Qed.

(** *** Structs *)

Definition reads_back (n : nat) (c : component) : Prop := field_read_back n (c_type c) (f_ty (c_field c)) (c_value c).
Definition struct_value (cs : list component) : rvalue := RStruct (map (fun c => (f_ident (c_field c), c_value c)) cs).
Definition struct_cells (cs : list component) : list CBytes := map (fun c => cell_of (field_value (c_value c))) cs.

(** The struct expression, where every column is found. *)
Lemma run_struct_reads n (by_name : conversion rvalue -> bytes -> Result (option rvalue)) cs :
  Forall (reads_back n) cs ->
  Forall (fun c => forall conv, by_name conv (c_column c) = conv (c_type c) (cell_of (field_value (c_value c)))) cs ->
  run_struct (try_from_udt n) by_name (map c_field cs) = Ok (struct_value cs).
Proof.
  intros Hr Hb. unfold run_struct, struct_value.
  assert (H : exists code, convert_fields (map c_field cs) = Ok code /\
    try_map (fun f => let? v := run_field (try_from_udt n) by_name f.2.2 (lit f.2.1) in Ok (f.1, v)) code
    = Ok (map (fun c => (f_ident (c_field c), c_value c)) cs)).
  { induction Hr as [|c cs (_ & co & Hc & Hrun) _ IH]; [by exists []|].
    apply Forall_cons in Hb as [Hb1 Hb2]. destruct (IH Hb2) as (code & H1 & H2).
    exists ((f_ident (c_field c), (remove_r (f_ident (c_field c)), co)) :: code). simpl. unfold convert_field_into_rust.
    rewrite Hc. cbn [obind]. rewrite H1. split; [done|]. cbn [fst snd].
    rewrite (Hrun by_name (lit (remove_r (f_ident (c_field c)))) Hb1). cbn [obind]. by rewrite H2. }
  destruct H as (code & -> & ->). done.
Qed.

(** What was written for the fields is found in the user type under their names. *)
Lemma udt_finds cs u : descriptions u = map (fun c => (c_column c, c_type c)) cs -> NoDup (map c_column cs) ->
  Forall (fun c => forall conv : conversion rvalue, Udt_get_by_name conv (Udt_new (struct_cells cs) u) (c_column c) =
            conv (c_type c) (cell_of (field_value (c_value c)))) cs.
Proof.
  intros Hd Hn. apply Forall_forall. intros c Hc conv. unfold Udt_get_by_name, Udt_new. rewrite Hd. cbn [udt_data].
  assert (E : forall l : list component, map (fun p => (p.1.1, (p.1.2, p.2))) (zip (map (fun c => (c_column c, c_type c)) l) (struct_cells l))
    = map (fun c => (c_column c, (c_type c, cell_of (field_value (c_value c))))) l).
  { induction l as [|x l IH]; [done|]. cbn. f_equal. exact IH. }
  rewrite E, hm_collect_nodup by (rewrite <- list_fmap_compose; exact Hn).
  rewrite (elem_of_list_to_map_1 _ (c_column c) (c_type c, cell_of (field_value (c_value c)))); [done| |].
  - rewrite <- list_fmap_compose. exact Hn.
  - apply list_elem_of_fmap. by exists c.
Qed.

Lemma struct_bytes cs : into_bytes (struct_value cs) = concat (map Value_serialize (map (fun c => field_value (c_value c)) cs)).
Proof. unfold struct_value. cbn [into_bytes]. by rewrite !map_map. Qed.

Lemma struct_read_back n ks nm i cs : special i = false -> structs i = Some (map c_field cs) -> NoDup (map c_column cs) ->
  Forall (reads_back n) cs ->
  read_back (S n) (mkColTypeOption CtUdt (Some (UdtType (mkCUdt ks nm (map (fun c => (c_column c, c_type c)) cs)))))
    (bare i) (struct_value cs).
Proof.
  intros Hi Hs Hn Hr. eapply read_back_by; [by eapply reading_struct| |].
  - unfold conv_map, as_rust_udt. cbn [CBytes_bytes CBytes_new descriptions]. rewrite length_map, struct_bytes.
    rewrite <- (length_map (fun c => field_value (c_value c)) cs), decode_udt_values; [done|].
    apply Forall_map. eapply Forall_impl; [exact Hr|]. by intros c (? & _).
  - cbn [run_item try_from_udt bare]. rewrite Hs. cbn [compiled obind]. rewrite map_map.
    apply run_struct_reads; [done|]. by apply udt_finds.
Qed.

(** *** Enough fuel *)

Lemma eventually_all {A} (P : nat -> A -> Prop) l :
  Forall (fun x => exists N, forall n, (N <= n)%nat -> P n x) l -> exists N, forall n, (N <= n)%nat -> Forall (P n) l.
Proof.
  induction 1 as [|x l (N & HN) _ (M & HM)]; [by exists 0%nat|].
  exists (Nat.max N M). intros n Hn. constructor; [apply HN|apply HM]; lia.
Qed.

Definition eventually (P : nat -> Prop) : Prop := exists N, forall n, (N <= n)%nat -> P n.

Lemma field_by_value (IH : forall t ty v, fits t ty v -> eventually (fun n => read_back n t ty v)) t ty v :
  field_fits t ty v -> eventually (fun n => field_read_back n t ty v).
Proof.
  intros [t' ty' v' H Hs|t' ty' v' H Hs|t' ty' H|t' i s H|t' i s H].
  - destruct (IH _ _ _ H) as (N & HN). exists N. intros n Hn. by apply value_field; auto.
  - destruct (IH _ _ _ H) as (N & HN). exists N. intros n Hn. by apply some_field; auto.
  - exists 0%nat. intros n _. by apply none_field.
  - exists 0%nat. intros n _. by apply (non_zero_fields n t' i s).
  - exists 0%nat. intros n _. by apply (non_zero_fields n t' i s).
Defined.
Lemma fits_read_back t ty v : fits t ty v -> eventually (fun n => read_back n t ty v).
Proof.
  revert t ty v. fix IH 4.
  intros t ty v [t' i s H|id c elem ty' vs Hc Hcol Hv Hn Hs|tk tv k s ty' es Hk Hkey Hcol He Hnd Hn Hs|ks nm i cs Hi Hst Hnd Hf].
  - exists 0%nat. intros n _. by apply scalar_read_back.
  - destruct (eventually_all (fun n v => read_back n elem ty' v) vs) as (N & HN).
    { clear -Hv IH. induction Hv as [|v vs H _ IHv]; constructor; [by apply IH|done]. }
    exists N. intros n Hle. eapply vec_read_back; eauto.
  - destruct (eventually_all (fun n (e : scalar * rvalue) => scalar_fits (cto_id tk) k e.1 /\ read_back n tv ty' e.2) es) as (N & HN).
    { clear -He IH. induction He as [|e es [Hk H] _ IHe]; constructor; [|done].
      destruct (IH _ _ _ H) as (N & HN). exists N. auto. }
    exists N. intros n Hle. eapply map_read_back; eauto.
  - destruct (eventually_all reads_back cs) as (N & HN).
    { clear -Hf IH. induction Hf as [|c cs H _ IHc]; constructor; [by apply (field_by_value IH)|done]. }
    exists (S N). intros [|n] Hle; [lia|]. apply struct_read_back; auto. apply HN. lia.
Qed.
Lemma fields_read_back cs : Forall (fun c => field_fits (c_type c) (f_ty (c_field c)) (c_value c)) cs ->
  eventually (fun n => Forall (reads_back n) cs).
Proof.
  intros H. apply eventually_all. eapply Forall_impl; [exact H|]. intros c. apply (field_by_value fits_read_back).
Qed.

(** *** The theorems *)

(** A row with a column for every field: of its name and type, with what was
    written for the field, null for a field that was not set. *)
Definition row_holds (row : Row) (cs : list component) : Prop :=
  NoDup (map cs_name (rm_col_specs (metadata row))) /\
  Forall (fun c => exists j spec, rm_col_specs (metadata row) !! j = Some spec /\ cs_name spec = c_column c /\
    cs_col_type spec = c_type c /\ row_content row !! j = Some (cell_of (field_value (c_value c)))) cs.

Lemma row_finds row cs : row_holds row cs ->
  Forall (fun c => forall conv : conversion rvalue, Row_get_by_name conv row (c_column c) =
            conv (c_type c) (cell_of (field_value (c_value c)))) cs.
Proof.
  intros [Hnd Hcs]. eapply Forall_impl; [exact Hcs|]. intros c (j & spec & Hj & Hn & Ht & Hcell) conv.
  unfold Row_get_by_name, col_spec_by_name. rewrite (proj2 (position_first (c_column c) _ j)).
  - rewrite Hj, Hcell. cbn [obind ok_or fst snd]. by rewrite Ht.
  - split; [by exists spec|]. intros k s Hk Hs Heq.
    assert (k = j); [|lia]. apply (NoDup_lookup _ _ _ (c_column c) Hnd).
    + change (map cs_name) with (fmap (M := list) cs_name). by rewrite list_lookup_fmap, Hs, <- Heq.
    + change (map cs_name) with (fmap (M := list) cs_name). by rewrite list_lookup_fmap, Hj, <- Hn.
Qed.

(** [impl_into_cdrs_value] serializes as options exactly the fields that hold options. *)
Definition is_option (v : rvalue) : bool := match v with ROption _ => true | _ => false end.
Lemma option_flags cs : Forall (fun c => field_fits (c_type c) (f_ty (c_field c)) (c_value c)) cs ->
  serialized_fields (map c_field cs) = Ok (map (fun c => (f_ident (c_field c), is_option (c_value c))) cs).
Proof.
  assert (Hs : forall i, special i = false -> String.eqb i "Option" = false).
  { intros i. unfold special, is_one_of. cbn [existsb own_types]. rewrite !orb_false_iff. tauto. }
  induction 1 as [|c cs Hc _ IH]; [done|]. cbn [map serialized_fields].
  enough (E : exists ident, get_ident_string (f_ty (c_field c)) = Ok ident /\ String.eqb ident "Option" = is_option (c_value c)).
  { destruct E as (ident & -> & E). cbn [obind]. rewrite IH. cbn [obind]. by rewrite E. }
  destruct c as [[f ty] t v]. cbn [c_field c_type c_value f_ty] in *. clear IH.
  destruct Hc as [t ty v H _|t ty v H _|t ty H|t i s H|t i s H]; [|by exists "Option"%string..].
  destruct H as [t i s H|? ? ? ? ? _ _ _ _ _|? ? ? ? ? ? _ _ _ _ _ _|? ? i ? Hi _ _ _]; (eexists; split; [done|]); [by destruct H|done|done|].
  by apply Hs.
Qed.

End Run.

(** *** [DbMirror] *)

(** The code of [DbMirror] binds, under the name of every column its query
    lists, the value of that field, and nothing else. *)
Theorem mirror_binds_columns `{U : UuidLib, BigIntLib, TimeLib, ChronoLib} ast query columns (fields : list (string * rvalue)) :
  impl_db_mirror ast = Ok (query, columns) -> map fst fields = columns -> NoDup (map lit columns) ->
  exists m, into_query_values fields = NamedValues m /\
    (forall name v, m !! name = Some v <-> exists f, f ∈ fields /\ name = lit f.1 /\ v = Value_of f.2) /\
    size m = length columns.
Proof.
  intros _ <- Hnd. eexists. split; [reflexivity|]. rewrite map_map in Hnd.
  set (kvs := map (fun f => (lit f.1, Value_of f.2)) fields).
  assert (Hk : NoDup kvs.*1) by (unfold kvs; by rewrite <- list_fmap_compose).
  assert (E : foldl (fun values f => <[lit f.1 := Value_of f.2]> values) ∅ fields = list_to_map (M := gmap bytes Value) kvs).
  { rewrite <- hm_collect_nodup by done. unfold hm_collect, kvs. clear kvs Hk Hnd. generalize (∅ : gmap bytes Value).
    induction fields as [|f fields IH]; intros m; [done|]. simpl. apply IH. }
  rewrite E. split.
  - intros name v. rewrite <- elem_of_list_to_map by done. unfold kvs. rewrite list_elem_of_fmap. split.
    + intros (f & Heq & Hf). simplify_eq. by exists f.
    + intros (f & Hf & -> & ->). by exists f.
  - rewrite map_size_list_to_map by done. unfold kvs. by rewrite !length_fmap.
Qed.

(** *** A struct with every kind of field *)

Module DeriveSamples.
#[local] Existing Instances uuid_bytes bigint_twos_complement time_nanos chrono_pairs eof_keeps.
#[local] Instance sample_scalar_eq : EqDecision scalar.
Proof.
  intros a b. assert (forall x y : Z, Decision (x = y)) by apply _. assert (forall x y : Z * Z, Decision (x = y)) by apply _.
  unfold Decision in *. decide equality; try apply decide; try apply _; first [apply (decide (_ = _)) | auto].
Defined.

Definition ty (id : ColType) : ColTypeOption := mkColTypeOption id None.
Definition str (s : string) : rvalue := RScalar (SString (lit s)).
(** [struct Address { zip: i32, r#type: Option<String> }] *)
Definition address_fields (zip : Z) (kind : option rvalue) : list component :=
  [mkComponent (mkField "zip" (bare "i32")) (ty CtInt) (RScalar (SI32 zip));
   mkComponent (mkField "r#type" (TOption (bare "String"))) (ty CtVarchar) (ROption kind)].
Definition address_type : ColTypeOption :=
  mkColTypeOption CtUdt (Some (UdtType (mkCUdt (lit "ks") (lit "address") [(lit "zip", ty CtInt); (lit "type", ty CtVarchar)]))).
Definition list_of (c : ColTypeOption) : ColTypeOption := mkColTypeOption CtList (Some (CList c)).
(** [struct User { id: Uuid, level: Option<NonZeroI32>, tags: Vec<String>,
    scores: HashMap<String, i64>, homes: Vec<Address>, work: Option<Address> }] *)
Definition user_fields : list component :=
  [mkComponent (mkField "ip" (bare "IpAddr")) (ty CtInet) (RScalar (SIpAddr (IpV4 [u8 127; u8 0; u8 0; u8 1])));
   mkComponent (mkField "level" (TOption (bare "NonZeroI32"))) (ty CtInt) (ROption (Some (RScalar (SNonZeroI32 7))));
   mkComponent (mkField "tags" (TVec (bare "String"))) (list_of (ty CtVarchar)) (RVec [str "a"; str ""]);
   mkComponent (mkField "scores" (THashMap (bare "String") (bare "i64")))
     (mkColTypeOption CtMap (Some (CMap (ty CtVarchar) (ty CtBigint)))) (RHashMap [(SString (lit "k"), RScalar (SI64 (-1)))]);
   mkComponent (mkField "homes" (TVec (bare "Address"))) (list_of address_type)
     (RVec [struct_value (address_fields 1234 (Some (str "home"))); struct_value (address_fields 0 None)]);
   mkComponent (mkField "work" (TOption (bare "Address"))) address_type (ROption None)].
Definition sample_structs (ident : string) : option (list field) :=
  if String.eqb ident "Address" then Some (map c_field (address_fields 0 None))
  else if String.eqb ident "User" then Some (map c_field user_fields) else None.

(** The address that is in the columns of a row. *)
Definition address_row : Row :=
  mkRow (mkRowsMetadata 0 2 None None None [mkColSpec None (lit "type") (ty CtVarchar); mkColSpec None (lit "zip") (ty CtInt)])
    [CBytes_new (lit "home"); CBytes_new (to_int 1234)] V4.

Definition user_type : ColTypeOption :=
  mkColTypeOption CtUdt (Some (UdtType (mkCUdt (lit "ks") (lit "user") (map (fun c => (c_column c, c_type c)) user_fields)))).

Lemma short_concrete {T} (into : T -> bytes) v : (zlen (into v) <? 2 ^ 31) = true -> short_bytes into v.
Proof. apply Z.ltb_lt. Qed.
Lemma string_column : column (ty CtVarchar) (bare "String").
Proof. eapply (column_scalar (ty CtVarchar) "String" (SString [])), sf_string; [by right|done]. Qed.
Lemma string_fits s : wf_string (lit s) -> fits sample_structs (ty CtVarchar) (bare "String") (str s).
Proof. intros H. apply fits_scalar, sf_string; [by right|done]. Qed.

Lemma address_fits zip : in_i 32 zip -> Forall (fun c => field_fits sample_structs (c_type c) (f_ty (c_field c)) (c_value c))
  (address_fields zip (Some (str "home"))) /\ Forall (fun c => field_fits sample_structs (c_type c) (f_ty (c_field c)) (c_value c))
  (address_fields zip None).
Proof.
  intros Hz. assert (Hzip : field_fits sample_structs (ty CtInt) (bare "i32") (RScalar (SI32 zip))).
  { apply ff_value; [apply fits_scalar, sf_i32; [by left|done]|by apply short_concrete]. }
  split; (constructor; [exact Hzip|constructor; [|constructor]]).
  - apply ff_some; [by apply string_fits|by apply short_concrete].
  - apply ff_none, string_column.
Qed.
Lemma address_value_fits zip kind : kind = None \/ kind = Some (str "home") -> in_i 32 zip ->
  fits sample_structs address_type (bare "Address") (struct_value (address_fields zip kind)).
Proof.
  intros Hk Hz. change address_type with (mkColTypeOption CtUdt (Some (UdtType (mkCUdt (lit "ks") (lit "address")
    (map (fun c => (c_column c, c_type c)) (address_fields zip kind)))))).
  apply fits_struct; [done|done|by apply (bool_decide_unpack _); vm_compute|]. destruct Hk as [-> | ->]; by apply address_fits.
Qed.
Lemma address_column : column address_type (bare "Address").
Proof. by apply column_struct. Qed.
Lemma user_fits : Forall (fun c => field_fits sample_structs (c_type c) (f_ty (c_field c)) (c_value c)) user_fields.
Proof.
  assert (Hz : forall z, (- 2 ^ 31 <=? z) && (z <? 2 ^ 31) = true -> in_i 32 z) by (intros z; unfold in_i; simpl; lia).
  unfold user_fields. repeat (apply Forall_cons_2; [cbn [c_field c_type c_value f_ty]|]); [..|by constructor].
  - apply ff_value; [by apply fits_scalar, sf_ip|by apply short_concrete].
  - apply ff_non_zero, nz_i32; [by left|by apply Hz|done].
  - apply ff_value; [|by apply short_concrete]. apply fits_vec with (elem := ty CtVarchar); [by left|exact string_column| |done|].
    + repeat constructor; by apply string_fits.
    + repeat constructor; by apply short_concrete.
  - apply ff_value; [|by apply short_concrete]. eapply fits_map with (s := SString []); [by apply sf_string; [right|]|by apply (bool_decide_unpack _); vm_compute| | | |done|].
    + eapply (column_scalar (ty CtBigint) "i64" (SI64 0)), sf_i64; [by left|done].
    + constructor; [|constructor]. split; [by apply sf_string; [right|]|]. by apply fits_scalar, sf_i64; [left|].
    + apply NoDup_singleton.
    + constructor; [|constructor]. split; by apply short_concrete.
  - apply ff_value; [|by apply short_concrete]. apply fits_vec with (elem := address_type); [by left|exact address_column| |done|].
    + constructor; [|constructor; [|constructor]]; apply address_value_fits; auto; by apply Hz.
    + repeat constructor; by apply short_concrete.
  - by apply ff_none, address_column.
Qed.

Lemma address_row_holds : row_holds address_row (address_fields 1234 (Some (str "home"))).
Proof.
  split; [by apply (bool_decide_unpack _); vm_compute|]. repeat apply Forall_cons_2; [..|by constructor].
  - by exists 1%nat; eexists.
  - by exists 0%nat; eexists.
Qed.


Lemma mirror_witness :
  let ast := mkDeriveInput "User" (DataStruct (FieldsNamed [mkField "id" (bare "i32"); mkField "name" (TOption (bare "String"))])) in
  let fields := [("id"%string, RScalar (SI32 1)); ("name"%string, ROption None)] in
  impl_db_mirror ast = Ok ("insert into User(id, name) values (?, ?)"%string, ["id"; "name"]%string) /\
  exists m, into_query_values fields = NamedValues m /\ m !! lit "name" = Some VNull.
Proof.
  intros ast fields. split; [reflexivity|].
  destruct (mirror_binds_columns ast _ _ fields eq_refl eq_refl) as (m & Hm & Hl & _);
    [by apply (bool_decide_unpack _); vm_compute|].
  exists m. split; [exact Hm|]. apply Hl. exists ("name"%string, ROption None). split; [|done]. by right; left.
Defined.
End DeriveSamples.

(** ** What the macros do not do *)

(** The name of a raw identifier loses its prefix where a column is read, and
    keeps it in the query of [DbMirror], in which it is no name of a column. *)
Theorem mirror_keeps_raw_prefix :
  let f := mkField "r#type" (bare "i32") in
  let ast := mkDeriveInput "T" (DataStruct (FieldsNamed [f])) in
  omap (map (fun c => c.2.1)) (get_struct_fields ast) = Ok ["type"%string] /\
  impl_db_mirror ast = Ok ("insert into T(r#type) values (?)"%string, ["r#type"%string]).
Proof. split; reflexivity. Qed.

(** A point in time is read from its column where the field has the type itself;
    where the type is optional or in a vector the code takes it for a struct
    with a [try_from_udt], which it is not. *)
Theorem optional_time_is_a_struct : Forall (fun i =>
    into_rust_with_args (bare i) = Ok (GFromCdrsR (bare i)) /\
    into_rust_with_args (TOption (bare i)) = Ok (GOption (bare i) (ITryFromUdt (bare i))) /\
    into_rust_with_args (TVec (bare i)) = Ok (GList (IVec (bare i) (ITryFromUdt (bare i)))))
  ["NaiveDateTime"; "DateTime"]%string.
Proof. repeat apply Forall_cons_2; [by split_and!..|by constructor]. Qed.
